(* ===== verification/_CoqProject ===== *)
-Q . S2P
Prelude.v
Types.v
Prog.v
Stmt.v
Ring.v
Core.v
Sched.v
Sem.v
Mutex.v
Queue.v
PortNull.v
PortPosix.v
PortCortexM.v
Info.v
Cpp.v
CoreFacts.v
Inv.v
SchedFacts.v
InitFacts.v
InvCheck.v
SemFacts.v
MutexFacts.v
QueueFacts.v
Running.v
TimeFacts.v
PosixFacts.v
Api.v
ApiSafe.v
ApiCalls.v
ApiTheorem.v
IsrSafe.v
PickFacts.v
System.v
App.v
Frame.v
AppFacts.v
Examples.v
ExamplesCpp.v
Bsp.v
H755.v
Timing.v
Preempt.v
TimingFacts.v
TimingRace.v
CortexFacts.v
CritBal.v
StmtSafe.v
SignalSafe.v
SignalMachine.v
SignalInv.v
CortexMachine.v
CortexInv.v
CortexSteps.v
CortexBoot.v
CortexCtx.v
Firmware.v
Demo.v
ExampleProps.v
TickFacts.v
KernelProps.v
TimeProps.v
StartProps.v
SyncProps.v
QueueProps.v
CppProps.v
SystemProps.v
PipeFacts.v
PipeProps.v
PortProps.v
BspProps.v
TimingProps.v
BoardProps.v
Limits.v
CortexProps.v
FirmwareProps.v
CortexRaces.v
SignalProps.v
OwnerProps.v
SignalOwner.v
SignalApp.v
