(* ===== verification/Prelude.v ===== *)
(** * HardRT: a verification of the kernel, its ports and its applications

    HardRT is a small real-time kernel in C: a fixed table of tasks, one
    ready queue per priority, a tick handler, semaphores, mutexes and
    message queues, over a port layer with three implementations (null,
    POSIX signals and contexts, ARM Cortex-M). It comes with a C++ wrapper,
    fifteen example programs and a little board support.

    ** The program and its model

    A C function is a term of [prog A] (Prog.v): the sequence of its
    statements on the kernel state, with the calls into the port layer as
    visible nodes. [exec n c s p] runs [c] from the kernel state [s] and
    the port state [p]; it ends in [Done] (returned), [Swapped] (gave up
    the processor inside a port call; what is left of the function is
    kept), [Halted] (undefined behaviour, a failed assertion, the endless
    loop of [hrt_error] in a stalling build) or [Spinning] (the fuel [n]
    for loops ran out). Array accesses out of range, null task pointers and
    unknown objects are undefined behaviour; integers are kept at their
    width by explicit conversions ([u8], [u16], [u32], [u64], [i16],
    [i32]).

    - Types.v: the enumerations and structures of inc/*.h, the build
      parameters ([Config], [ConfigOk]) and the static variables of
      hardrt_core.c with the objects of the application ([kern]).
    - Ring.v: the 8-bit circular queues of task ids that ready queues and
      waiter queues share, and the lists they denote.
    - Core.v, Sched.v, Sem.v, Mutex.v, Queue.v: src/core/hardrt_core.c,
      hardrt_sched.c, hardrt_sem.c, hardrt_mutex.c, hardrt_queue.c, one
      definition per function under its C name.
    - PortNull.v, PortPosix.v, PortCortexM.v: src/port/null, src/port/posix
      and src/port/cortex_m, each an instance of [PortLayer]; the POSIX
      scheduler loop is cut at [swapcontext] ([sched_iteration],
      [sched_return]); the Cortex-M port has its registers, its RAM and the
      PendSV handler. Info.v: hardrt_version.c and hardrt_portinfo.c.
    - Cpp.v: cpp/hardrtpp.hpp, a Module per class ([Sys] is the class
      System, [CppMutex] the class Mutex); a trivially copyable type is its
      bytes ([Object], [TriviallyCopyable]).
    - App.v: the language of applications (kernel calls, output, global
      variables, endless loops) and their runs on the POSIX system: [main]
      up to [hrt_start], then tasks, scheduler, ticks and handlers in any
      order. Examples.v, ExamplesCpp.v: the POSIX programs of examples/, a
      Module per program.
    - H755.v, Timing.v: the STM32H755 programs of examples/ over
      memory-mapped registers (hardrt_h755_demo, _blinky, _blinky_cpp,
      _dwt_timing); Bsp.v: their system.c ([_sbrk]) and syscalls.c, and
      hardfault_diag.c of the Cortex-M port. Preempt.v: applications under
      preemption at every step, whatever the kernel does.

    ** The facts

    - CoreFacts.v, Inv.v, SchedFacts.v, InitFacts.v: what each function of
      the core does, and the invariant [sched_inv held s] of the scheduler:
      the task table, every circular queue and every integer are well
      formed; a ready task is in the ready queue of its priority, a blocked
      task in one waiter queue, every id in at most one queue and at most
      once, except for the ids of [held], which the running code holds.
      InvCheck.v decides it.
    - SemFacts.v, MutexFacts.v, QueueFacts.v: abstract semaphores, mutexes
      and queues of items, the abstraction functions, and what the
      functions do in terms of them. Running.v: a running task, and the
      interfaces [BasePort] (critical sections, requests for a switch) and
      [SwitchPort] (which also gives up the processor inside a call) that a
      port promises its clients; PosixFacts.v discharges both, CortexSteps.v
      the first.
    - TimeFacts.v, TickFacts.v, PickFacts.v: ticks, sleepers, selection.
    - Api.v, ApiSafe.v, ApiCalls.v, ApiTheorem.v: every call a task can
      make, against [SwitchPort]; IsrSafe.v: every interrupt handler,
      against [BasePort].
    - Stmt.v: [exec] as a sequence of statements ([exec_steps]). CritBal.v:
      critical sections of every function, at every statement. StmtSafe.v:
      what the statements of a call leave to an interrupt that comes next,
      in phases: [Open] (the invariant holds with the task running),
      [Masked] (inside of a critical section), [Parked] and [Asked] (the
      task has given itself up and is about to be switched out), [Window]
      (the requeue of [hrt_yield]). The class [Regime] says how a port
      interleaves: PendSV at once (CortexInv.v), or at the hop of the task
      into the scheduler (SignalSafe.v, which has every call).
    - SignalMachine.v: the POSIX system statement by statement: the signal
      comes between any two statements of a call and at the unmasked points
      of the scheduler loop. SignalInv.v: its invariant.
    - System.v: the POSIX system as a transition system (main, tasks that
      make arbitrary calls, the scheduler loop, the tick signal, other
      handlers) and the invariant of its reachable states. AppFacts.v: the
      same for the runs of an application, and steps that leave a part of
      the state alone.
    - Frame.v: programs that leave a part of the state alone (classes
      [Frame], [FrameTcbs], ...).
    - PipeFacts.v: the queue of the pipeline examples.
    - CortexFacts.v: stack frames, critical sections, the scheduling
      decision and the register save of the Cortex-M port.
    - CortexMachine.v: the Cortex-M system as a transition system: [main]
      creates tasks on stacks of their own and starts the scheduler; the
      running context computes on its registers and its stack, makes calls,
      and runs them statement by statement; SysTick and the handlers of the
      application come between any two statements when [BASEPRI] lets them
      through; PendSV saves and restores contexts in RAM. CortexInv.v,
      CortexSteps.v, CortexBoot.v: its invariant and that each step keeps
      it; CortexCtx.v: what a step does to a context that does not run.
    - Firmware.v: a program of a board on that system: [main] on the
      Cortex-M port, then the statements of its tasks and their calls, its
      interrupt handlers, PendSV and the hardware ([fstep]). Its steps are
      steps of the Cortex-M system ([fstep_csteps]), and its threads are
      threads of Preempt.v ([sim_step]), so that the theorems about both
      hold of it.
    - TimingFacts.v, TimingRace.v: reference statistics, timer rates, and
      the rely-guarantee proof (rules of Preempt.v) of the measurement.
    - Demo.v: a small application, whose states the theorems are applied to.

    ** The theorems

    - SystemProps.v: the POSIX system does not crash, loses no task (C1,
      C2), is work-conserving (C7) and its bookkeeping stays within its C
      types (C12); every call terminates (C13); every call and every handler
      is safe. OwnerProps.v: who owns a mutex and who waits for it along its
      runs (C6).
    - SignalProps.v: with the signal at any statement the POSIX system does
      not crash and loses no task (C3) and no wake-up (C8); a quantum that
      runs out between the requeue and the hop (C38). SignalOwner.v: the
      regions that a mutex protects do not overlap (C5). SignalApp.v: the
      POSIX examples on that system (C29).
    - CortexProps.v: the Cortex-M system does not fault and loses no task
      (C4), runs the most urgent task (C9), and isolates contexts (C10);
      critical sections are balanced (C14).
    - FirmwareProps.v: the four board programs on the Cortex-M system do not
      fault and lose no task (C11), and the latency measurement on the real
      kernel refines the one on the board of Preempt.v (C33).
    - KernelProps.v: selection refines its specification (C15); the tick
      (C23); quanta.
    - SyncProps.v: mutexes and semaphores refine their abstract
      counterparts (C16 to C19). QueueProps.v: the queue calls and the FIFO
      round trip (C20 to C22), and the blocking calls.
    - TimeProps.v: sleeping and time conversion (C24, C25). StartProps.v:
      start-up, round robin, creation of tasks (C26, C27, C28).
    - PortProps.v: the scheduling decision of the Cortex-M port (C30), the frames
      of its tasks, one context switch and back, critical sections, the
      POSIX scheduler loop, SysTick, tick sources, version numbers,
      insertion into ready queues on every branch, and the stack pointer
      check.
    - ExampleProps.v: the POSIX examples do not crash, with ticks between
      their calls. PipeProps.v:
      the queue examples deliver every value once and in order (C31).
    - TimingProps.v: the latency measurement has no race under any
      preemption (C32), and its running statistics are those of the samples
      (C34). BoardProps.v: the LED pins, and the timers' rates.
    - CppProps.v: typed queues (C35) and semaphores of the wrapper.
    - BspProps.v: the heap (C36) and the hard fault trap.
    - CortexRaces.v: a wake-up in the window before a switch (C37).
      Limits.v: what happens where the contract ends: a tick in the middle
      of [hrt_yield] (C39), and a yield on Cortex-M (C40), among it.

    Each theorem with hypotheses has an application to a state of Demo.v,
    to a run of an example or to a Cortex-M board.

    ** Bounds and fuel

    The theorems are for every build with at most 12 priorities, more task
    slots than priorities and at most 255 slots ([ConfigOk]; ids and queue
    lengths are 8-bit in the code); the examples are run in the default
    build. The fuel of [exec] only bounds loops of [forever]; one iteration
    is enough for every call, because an iteration of the queue loops
    returns or gives up the processor (C13), so the theorems hold for all
    [S n]. The theorems that involve error reports are for builds that do
    not stall, except for [stalls_before_first_dispatch].

    ** What is not modelled

    In System.v and App.v interrupts come between calls, and between the
    statements of the application, not between those of a call. In
    SignalMachine.v, and for the examples in SignalApp.v, the tick signal
    comes between any two statements of a call, with two exceptions: the
    requeue of [hrt_yield], which is not a critical section and where a tick
    can lose the task (C39), and a tick that uses up the quantum of a task
    which is queued already (C38). There only [main] creates tasks, and a
    call of [main] is one step. The tick of two_tasks_external, a thread of
    its own in the program, is a handler of App.v between the calls of the
    tasks, so that the data race of that program, in which both threads
    update the kernel at the same time, does not occur in the model. [main]
    runs without interrupts in App.v, SignalApp.v and Firmware.v (Preempt.v
    has them). The order of the queue examples (C31) is shown for interrupts
    between calls.

    In CortexMachine.v interrupts come between the statements of calls, but
    a handler runs to its end: handlers of different priorities do not
    nest. The tasks make the calls that cannot wake another task
    ([wakes_nobody]); the others end in [hrt_yield] when they do, which
    stores the task twice on this port (C40). A handler does not wake a
    task that has parked itself and is not yet switched out
    ([still_parked]), which stores it twice as well (C37). The entry into a
    task through [hrt__task_trampoline] and the loop of the idle context
    are computation of that context. The registers the hardware stacks are
    part of the stack of the task, whose contents C10 is about. The process
    stack pointer is taken to be 0 when the first PendSV comes, as
    hrt_pendsv_handler.s does, which is a property of the reset of the chip.
    These restrictions are those of C4, C9, C10, C11 and C33.

    Simplified: [stats_record] of the latency measurement is one step, not
    five accesses (only its own task writes the statistics); the memset and
    the assignments of [hrt_create_task] to the new TCB are one write; and
    [hrt_mutex_unlock] reads the owner also when the mutex is not locked.
    Left out: the debug variables [dbg_...] of the kernel, which nothing
    reads. On Cortex-M: barriers, interrupt priorities other than those of SysTick,
    PendSV and the timers against BASEPRI, and the floating-point context.
    Vendor code, start-up code, linker scripts and the configuration headers
    of the vendor's library, which hold switches only, hardrt_time.c, which
    holds declarations only, and the tests. The vendor's [SystemCoreClock],
    [SystemInit] and register addresses, the linker's addresses and the
    version numbers are parameters. *)

From stdpp Require Import base tactics numbers list option gmap.
Open Scope Z_scope.

(** ** Fixed-width C integers

    A C object of an unsigned type of width [w] holds a value of
    [0 .. 2^w - 1]; a conversion to the type reduces modulo [2^w].
    Conversions to signed types use two's complement. *)

Definition u8 (z : Z) : Z := z mod 2 ^ 8.
Definition u16 (z : Z) : Z := z mod 2 ^ 16.
Definition u32 (z : Z) : Z := z mod 2 ^ 32.
Definition u64 (z : Z) : Z := z mod 2 ^ 64.

Definition UINT32_MAX : Z := 2 ^ 32 - 1.

Definition i16 (z : Z) : Z :=
  let m := u16 z in if m <? 2 ^ 15 then m else m - 2 ^ 16.

Definition i32 (z : Z) : Z :=
  let m := u32 z in if m <? 2 ^ 31 then m else m - 2 ^ 32.

(** ** Hint databases and tactics *)

Create HintDb hrt.
Create Rewrite HintDb hrt_arith.

(** Case analysis on the boolean tests the C conditions become. *)
Ltac btest :=
  repeat match goal with
  | H : (_ <? _) = true |- _ => apply Z.ltb_lt in H
  | H : (_ <? _) = false |- _ => apply Z.ltb_ge in H
  | H : (_ <=? _) = true |- _ => apply Z.leb_le in H
  | H : (_ <=? _) = false |- _ => apply Z.leb_gt in H
  | H : (_ >=? _) = true |- _ => rewrite Z.geb_leb in H; apply Z.leb_le in H
  | H : (_ >=? _) = false |- _ => rewrite Z.geb_leb in H; apply Z.leb_gt in H
  | H : (_ >? _) = true |- _ => rewrite Z.gtb_ltb in H; apply Z.ltb_lt in H
  | H : (_ >? _) = false |- _ => rewrite Z.gtb_ltb in H; apply Z.ltb_ge in H
  | H : (_ =? _) = true |- _ => apply Z.eqb_eq in H
  | H : (_ =? _) = false |- _ => apply Z.eqb_neq in H
  | H : _ && _ = true |- _ => apply andb_true_iff in H as [? ?]
  | H : _ || _ = false |- _ => apply orb_false_iff in H as [? ?]
  | H : negb _ = true |- _ => apply negb_true_iff in H
  | H : negb _ = false |- _ => apply negb_false_iff in H
  end.

(** Decide a boolean test of the goal by arithmetic and reduce it. *)
Ltac zbool :=
  repeat match goal with
  | |- context [?a <? ?b] =>
      first [rewrite (proj2 (Z.ltb_lt a b)) by lia | rewrite (proj2 (Z.ltb_ge a b)) by lia]
  | |- context [?a <=? ?b] =>
      first [rewrite (proj2 (Z.leb_le a b)) by lia | rewrite (proj2 (Z.leb_gt a b)) by lia]
  | |- context [?a >=? ?b] => rewrite (Z.geb_leb a b)
  | |- context [?a >? ?b] => rewrite (Z.gtb_ltb a b)
  | |- context [?a =? ?b] =>
      first [rewrite (proj2 (Z.eqb_eq a b)) by lia | rewrite (proj2 (Z.eqb_neq a b)) by lia]
  end; cbn [andb orb negb].

(** ** Integer lemmas *)

Lemma u8_id z : 0 <= z < 256 -> u8 z = z.
Proof. intros. unfold u8. apply Z.mod_small. lia. Qed.

Lemma u16_id z : 0 <= z < 65536 -> u16 z = z.
Proof. intros. unfold u16. apply Z.mod_small. lia. Qed.

Lemma u32_id z : 0 <= z < 4294967296 -> u32 z = z.
Proof. intros. unfold u32. apply Z.mod_small. lia. Qed.

Lemma u64_id z : 0 <= z < 2 ^ 64 -> u64 z = z.
Proof. intros. unfold u64. by apply Z.mod_small. Qed.

Lemma u8_range z : 0 <= u8 z < 256.
Proof. unfold u8. apply Z.mod_pos_bound. lia. Qed.

Lemma u16_range z : 0 <= u16 z < 65536.
Proof. unfold u16. apply Z.mod_pos_bound. lia. Qed.

Lemma u32_range z : 0 <= u32 z < 4294967296.
Proof. unfold u32. apply Z.mod_pos_bound. lia. Qed.

Lemma i16_id z : - 2 ^ 15 <= z < 2 ^ 15 -> i16 z = z.
Proof.
  intros H. unfold i16, u16.
  destruct (decide (0 <= z)).
  - rewrite Z.mod_small by lia. zbool. lia.
  - replace z with ((z + 2 ^ 16) + (-1) * 2 ^ 16) by lia.
    rewrite Z.mod_add, Z.mod_small by lia. zbool. lia.
Qed.

#[export] Hint Rewrite u8_id u16_id u32_id using lia : hrt_arith.

(** A successor modulo [cap], written without [mod]. *)
Lemma mod_succ a cap :
  0 <= a < cap -> (a + 1) mod cap = if decide (a + 1 = cap) then 0 else a + 1.
Proof.
  intros. case_decide as E.
  - rewrite E. apply Z.mod_same. lia.
  - apply Z.mod_small. lia.
Qed.

(** ** Arrays: C indexing of a list by an integer

    [l[i]] is defined only for [0 <= i < length l]. *)

Definition zget {A} (l : list A) (i : Z) : option A :=
  if i <? 0 then None else l !! Z.to_nat i.

Definition zset {A} (l : list A) (i : Z) (x : A) : option (list A) :=
  if (0 <=? i) && (i <? Z.of_nat (length l)) then Some (<[Z.to_nat i := x]> l) else None.

Lemma zget_Some {A} (l : list A) i x :
  zget l i = Some x -> 0 <= i < Z.of_nat (length l).
Proof.
  unfold zget. destruct (i <? 0) eqn:E; [done|]. btest. intros H%lookup_lt_Some. lia.
Qed.

Lemma zget_is_Some {A} (l : list A) i :
  0 <= i < Z.of_nat (length l) -> exists x, zget l i = Some x.
Proof.
  intros H. unfold zget. zbool.
  destruct (lookup_lt_is_Some_2 l (Z.to_nat i)) as [x Hx]; [lia|eauto].
Qed.

Lemma zget_total {A} (d : A) (l : list A) i :
  0 <= i < Z.of_nat (length l) -> zget l i = Some (nth (Z.to_nat i) l d).
Proof.
  intros H. unfold zget. zbool. rewrite nth_lookup.
  destruct (lookup_lt_is_Some_2 l (Z.to_nat i)) as [x ->]; [lia|done].
Qed.

Lemma zset_Some {A} (l : list A) i x :
  0 <= i < Z.of_nat (length l) -> zset l i x = Some (<[Z.to_nat i := x]> l).
Proof. intros. unfold zset. by zbool. Qed.

Lemma zget_insert_eq {A} (l : list A) i x :
  0 <= i < Z.of_nat (length l) -> zget (<[Z.to_nat i := x]> l) i = Some x.
Proof. intros. unfold zget. zbool. apply list_lookup_insert_eq. lia. Qed.

Lemma zget_insert_ne {A} (l : list A) i j x :
  0 <= i -> i <> j -> zget (<[Z.to_nat i := x]> l) j = zget l j.
Proof.
  intros. unfold zget. destruct (j <? 0) eqn:E; [done|]. btest.
  apply list_lookup_insert_ne. lia.
Qed.

Lemma zget_insert {A} (l : list A) i j x :
  0 <= i < Z.of_nat (length l) ->
  zget (<[Z.to_nat i := x]> l) j = if decide (i = j) then Some x else zget l j.
Proof.
  intros. case_decide; [subst; by apply zget_insert_eq | apply zget_insert_ne; lia].
Qed.

Lemma nth_insert {A} (d : A) (l : list A) (i j : nat) x :
  (i < length l)%nat -> nth j (<[i := x]> l) d = if decide (i = j) then x else nth j l d.
Proof.
  intros. rewrite !nth_lookup. case_decide.
  - subst. by rewrite list_lookup_insert_eq.
  - by rewrite list_lookup_insert_ne.
Qed.

#[export] Hint Resolve zget_Some u8_range u16_range u32_range : hrt.

Lemma existsb_ext {A} (f g : A -> bool) (l : list A) :
  (forall x, x ∈ l -> f x = g x) -> existsb f l = existsb g l.
Proof.
  intros H. induction l as [|x l IH]; [done|]. cbn. rewrite H by apply list_elem_of_here.
  f_equal. apply IH. intros y Hy. apply H. by apply list_elem_of_further.
Qed.

Lemma filter_ext {A} (f g : A -> bool) (l : list A) :
  (forall x, x ∈ l -> f x = g x) -> List.filter f l = List.filter g l.
Proof.
  intros H. apply List.filter_ext_in. intros x Hx. by apply H, list_elem_of_In.
Qed.

Lemma find_first {A} (f : A -> bool) (l : list A) x :
  List.find f l = Some x ->
  exists k, l !! k = Some x /\ f x = true /\
            forall j y, (j < k)%nat -> l !! j = Some y -> f y = false.
Proof.
  induction l as [|z l IH]; [done|]. cbn. destruct (f z) eqn:E.
  - intros [= ->]. exists 0%nat. split_and!; [done|done|]. lia.
  - intros (k & Hk & Hx & Hf)%IH. exists (S k). split_and!; [done|done|].
    intros [|j] y Hj; cbn; [by intros [= <-]|]. apply Hf. lia.
Qed.

Lemma alter_alter {A} (m : gmap Z A) a (f g : A -> A) :
  (forall x, f (g x) = f x) -> alter f a (alter g a m) = alter f a m.
Proof.
  intros E. apply map_eq. intros i. rewrite !lookup_alter.
  repeat case_decide; try done.
  destruct (m !! a) as [x|]; cbn; [f_equal; apply E|done].
Qed.

(** ** Circular FIFOs

    [fifo get cap head count] is the sequence, oldest first, that a
    circular buffer of [cap] slots denotes when it holds [count] elements
    from slot [head] on and [get] reads a slot. Both the 8-bit index
    queues (ready queues and waiter queues) and the byte buffer of the
    message queues are read through it. *)

Definition fifo {A} (get : Z -> A) (cap head count : Z) : list A :=
  (fun i => get ((head + i) mod cap)) <$> seqZ 0 count.

Lemma fifo_length {A} (get : Z -> A) cap head count :
  0 <= count -> Z.of_nat (length (fifo get cap head count)) = count.
Proof. intros. unfold fifo. rewrite length_fmap, length_seqZ. lia. Qed.

Lemma fifo_nil {A} (get : Z -> A) cap head : fifo get cap head 0 = [].
Proof. done. Qed.

Lemma fifo_ext {A} (get get' : Z -> A) cap head count :
  (forall i, 0 <= i < count -> get ((head + i) mod cap) = get' ((head + i) mod cap)) ->
  fifo get cap head count = fifo get' cap head count.
Proof.
  intros H. unfold fifo. apply list_fmap_ext. intros k i [-> ?]%lookup_seqZ. apply H. lia.
Qed.

(** Two positions of a circular buffer, less than [cap] apart, differ. *)
Lemma ring_pos_inj cap head i j :
  0 < cap -> 0 <= i < cap -> 0 <= j < cap ->
  (head + i) mod cap = (head + j) mod cap -> i = j.
Proof.
  intros Hc Hi Hj E.
  assert (E' : (i - j) mod cap = 0).
  { replace (i - j) with ((head + i) - (head + j)) by lia.
    rewrite Zminus_mod, E, Z.sub_diag. by apply Z.mod_0_l; lia. }
  apply Z.mod_divide in E' as [k Hk]; [|lia].
  assert (k = 0) by nia. lia.
Qed.

Lemma fifo_push {A} (get get' : Z -> A) cap head tail count x :
  0 < cap -> 0 <= count < cap -> tail = (head + count) mod cap ->
  get' tail = x -> (forall j, 0 <= j < cap -> j <> tail -> get' j = get j) ->
  fifo get' cap head (count + 1) = fifo get cap head count ++ [x].
Proof.
  intros Hcap Hc -> Hx Hother. unfold fifo.
  rewrite seqZ_app by lia. rewrite fmap_app. f_equal.
  - apply list_fmap_ext. intros k i [-> ?]%lookup_seqZ. apply Hother.
    + apply Z.mod_pos_bound. lia.
    + intros E%ring_pos_inj; lia.
  - change (seqZ (0 + count) 1) with [0 + count]. cbn [fmap list_fmap].
    by rewrite Z.add_0_l, Hx.
Qed.

Lemma fifo_pop {A} (get : Z -> A) cap head count :
  0 <= head < cap -> 0 < count ->
  fifo get cap head count = get head :: fifo get cap ((head + 1) mod cap) (count - 1).
Proof.
  intros Hh Hc. unfold fifo. rewrite seqZ_cons by lia.
  rewrite fmap_cons, Z.add_0_r, Z.mod_small by lia. f_equal.
  replace (seqZ (Z.succ 0) (Z.pred count)) with (Z.add 1 <$> seqZ 0 (count - 1))
    by (rewrite fmap_add_seqZ; f_equal; lia).
  rewrite <- list_fmap_compose.
  apply list_fmap_ext. intros k i Hi. cbn. f_equal.
  rewrite Zplus_mod_idemp_l. f_equal. lia.
Qed.

Lemma ring_tail_push cap head count :
  0 < cap -> ((head + count) mod cap + 1) mod cap = (head + (count + 1)) mod cap.
Proof. intros. rewrite Zplus_mod_idemp_l. f_equal. lia. Qed.

Lemma ring_tail_pop cap head count :
  0 < cap -> (head + count) mod cap = ((head + 1) mod cap + (count - 1)) mod cap.
Proof. intros. rewrite Zplus_mod_idemp_l. f_equal. lia. Qed.
