(* ===== verification/Types.v ===== *)
(** * Data types of the public headers (inc/*.h)

    The compile-time configuration, the enumerations and structures of
    [hardrt.h], [hardrt_sem.h], [hardrt_mutex.h] and [hardrt_queue.h], and
    the global state of the kernel ([hardrt_core.c], lines 20-51). *)

From stdpp Require Import base tactics numbers list option gmap.
From S2P Require Import Prelude.
Open Scope Z_scope.

(** ** Compile-time configuration

    [HARDRT_MAX_TASKS] and [HARDRT_MAX_PRIO] are macros of the build;
    [HARDRT_DEBUG] and [HARDRT_STALL_ON_ERROR] select code with
    [#if ... == 1]. Every definition of the kernel is over them. *)

Class Config := {
  HARDRT_MAX_TASKS : Z;
  HARDRT_MAX_PRIO : Z;
  HARDRT_DEBUG : bool;
  HARDRT_STALL_ON_ERROR : bool
}.

Definition HRT_IDLE_ID `{Config} : Z := HARDRT_MAX_TASKS - 1.
Definition HARDRT_IDLE_STACK_WORDS : Z := 64.
Definition HRT_MUTEX_NO_OWNER : Z := -1.

(** The bounds a configuration has to respect. CMakeLists.txt passes
    [HARDRT_MAX_TASKS = HARDRT_CFG_MAX_TASKS + 1] and checks
    [1 <= HARDRT_CFG_MAX_PRIO <= 12] and
    [HARDRT_CFG_MAX_TASKS >= HARDRT_CFG_MAX_PRIO]. The upper bound on
    [HARDRT_MAX_TASKS] is not checked by the build: task ids and queue
    lengths are stored in [uint8_t]. *)

Class ConfigOk (C : Config) : Prop := {
  max_prio_range : 1 <= HARDRT_MAX_PRIO <= 12;
  max_tasks_prio : HARDRT_MAX_PRIO + 1 <= HARDRT_MAX_TASKS;
  max_tasks_u8 : HARDRT_MAX_TASKS <= 255
}.

(** The default build: 8 application tasks, the idle slot, 4 priorities. *)
#[export] Instance default_config : Config :=
  { HARDRT_MAX_TASKS := 9; HARDRT_MAX_PRIO := 4;
    HARDRT_DEBUG := false; HARDRT_STALL_ON_ERROR := false }.

#[export] Instance default_config_ok : ConfigOk default_config.
Proof. split; cbn; lia. Qed.

(** ** Enumerations *)

Inductive hrt_state_t := HRT_READY | HRT_SLEEP | HRT_BLOCKED | HRT_UNUSED.

Inductive hrt_err :=
  | NONE | ERR_INVALID_ID | ERR_INVALID_NEXT_ID | ERR_SP_NULL | ERR_TCB_NULL
  | ERR_INVALID_TASK | ERR_NO_TASKS | ERR_INVALID_PRIO | ERR_RQ_OVERFLOW
  | ERR_RQ_UNDERFLOW | ERR_INVALID_ID_FROM_RQ | ERR_STACK_UNDERFLOW_INIT
  | ERR_STACK_RANGE | ERR_STACK_ALIGN | ERR_INVALID_RAM_RANGE | ERR_DUP_READY
  | ERR_MUTEX_OWNER | ERR_MUTEX_RECURSIVE | ERR_MUTEX_BAD_CTX.

Inductive hrt_policy_t := HRT_SCHED_PRIORITY | HRT_SCHED_RR | HRT_SCHED_PRIORITY_RR.

Inductive hrt_tick_source_t := HRT_TICK_SYSTICK | HRT_TICK_EXTERNAL.

#[export] Instance hrt_state_t_eq_dec : EqDecision hrt_state_t.
Proof. solve_decision. Defined.
#[export] Instance hrt_err_eq_dec : EqDecision hrt_err.
Proof. solve_decision. Defined.
#[export] Instance hrt_policy_t_eq_dec : EqDecision hrt_policy_t.
Proof. solve_decision. Defined.
#[export] Instance hrt_tick_source_t_eq_dec : EqDecision hrt_tick_source_t.
Proof. solve_decision. Defined.

(** [hrt_prio_t]: the enumerator [HRT_PRIOn] has the value [n]. *)
Definition HRT_PRIO0 : Z := 0.
Definition HRT_PRIO1 : Z := 1.
Definition HRT_PRIO2 : Z := 2.
Definition HRT_PRIO3 : Z := 3.
Definition HRT_PRIO4 : Z := 4.
Definition HRT_PRIO5 : Z := 5.
Definition HRT_PRIO6 : Z := 6.
Definition HRT_PRIO7 : Z := 7.
Definition HRT_PRIO8 : Z := 8.
Definition HRT_PRIO9 : Z := 9.
Definition HRT_PRIO10 : Z := 10.
Definition HRT_PRIO11 : Z := 11.

(** ** Structures

    Pointers are integers; 0 is [NULL]. Functions ([entry]) are named by
    their address. *)

Record hrt_config_t := {
  cfg_tick_hz : Z;
  cfg_policy : hrt_policy_t;
  cfg_default_slice : Z;
  cfg_core_hz : Z;
  cfg_tick_src : hrt_tick_source_t
}.

Record hrt_task_attr_t := { priority : Z; timeslice : Z }.

Record _hrt_tcb_t := mkTcb {
  sp : Z;
  stack_base : Z;
  stack_words : Z;
  entry : Z;
  arg : Z;
  wake_tick : Z;
  timeslice_cfg : Z;
  slice_left : Z;
  prio : Z;
  state : hrt_state_t
}.

(** [memset(t, 0, sizeof( *t))]: [HRT_READY] is 0. *)
Definition tcb_zero : _hrt_tcb_t := mkTcb 0 0 0 0 0 0 0 0 0 HRT_READY.

Definition tcb_set_sp (v : Z) (t : _hrt_tcb_t) : _hrt_tcb_t :=
  mkTcb v (stack_base t) (stack_words t) (entry t) (arg t) (wake_tick t)
    (timeslice_cfg t) (slice_left t) (prio t) (state t).
Definition tcb_set_wake_tick (v : Z) (t : _hrt_tcb_t) : _hrt_tcb_t :=
  mkTcb (sp t) (stack_base t) (stack_words t) (entry t) (arg t) v
    (timeslice_cfg t) (slice_left t) (prio t) (state t).
Definition tcb_set_slice_left (v : Z) (t : _hrt_tcb_t) : _hrt_tcb_t :=
  mkTcb (sp t) (stack_base t) (stack_words t) (entry t) (arg t) (wake_tick t)
    (timeslice_cfg t) v (prio t) (state t).
Definition tcb_set_state (v : hrt_state_t) (t : _hrt_tcb_t) : _hrt_tcb_t :=
  mkTcb (sp t) (stack_base t) (stack_words t) (entry t) (arg t) (wake_tick t)
    (timeslice_cfg t) (slice_left t) (prio t) v.

(** The four 8-bit fields [q, head, tail, count] that [prio_q_t],
    [hrt_sem_t], [hrt_mutex_t] and [hrt_queue_t] (twice) all carry. *)
Record ring := mkRing { q : list Z; head : Z; tail : Z; count : Z }.

Record hrt_sem_t := mkSem {
  sem_count : Z;
  sem_max_count : Z;
  sem_waitq : ring
}.

Record hrt_mutex_t := mkMutex {
  mtx_locked : Z;
  mtx_owner : Z;
  mtx_waitq : ring
}.

(** [buf] is the application's storage: its bytes. *)
Record hrt_queue_t := mkQueue {
  buf : list Z;
  item_size : Z;
  capacity : Z;
  q_head : Z;
  q_tail : Z;
  q_count : Z;
  rx : ring;
  tx : ring
}.

(** ** Kernel state

    The static variables of hardrt_core.c, and the synchronisation objects
    the application owns and passes by address. *)

Record kern := mkKern {
  g_tcbs : list _hrt_tcb_t;
  g_current : Z;
  g_tick : Z;
  g_tick_hz : Z;
  g_policy : hrt_policy_t;
  g_default_slice : Z;
  g_core_hz : Z;
  g_tick_src : hrt_tick_source_t;
  g_error : hrt_err;
  g_rq : list ring;
  m_sems : gmap Z hrt_sem_t;
  m_mutexes : gmap Z hrt_mutex_t;
  m_queues : gmap Z hrt_queue_t
}.

Definition set_tcbs v (s : kern) : kern :=
  mkKern v (g_current s) (g_tick s) (g_tick_hz s) (g_policy s) (g_default_slice s)
    (g_core_hz s) (g_tick_src s) (g_error s) (g_rq s) (m_sems s) (m_mutexes s) (m_queues s).
Definition set_current v (s : kern) : kern :=
  mkKern (g_tcbs s) v (g_tick s) (g_tick_hz s) (g_policy s) (g_default_slice s)
    (g_core_hz s) (g_tick_src s) (g_error s) (g_rq s) (m_sems s) (m_mutexes s) (m_queues s).
Definition set_tick v (s : kern) : kern :=
  mkKern (g_tcbs s) (g_current s) v (g_tick_hz s) (g_policy s) (g_default_slice s)
    (g_core_hz s) (g_tick_src s) (g_error s) (g_rq s) (m_sems s) (m_mutexes s) (m_queues s).
Definition set_tick_hz v (s : kern) : kern :=
  mkKern (g_tcbs s) (g_current s) (g_tick s) v (g_policy s) (g_default_slice s)
    (g_core_hz s) (g_tick_src s) (g_error s) (g_rq s) (m_sems s) (m_mutexes s) (m_queues s).
Definition set_policy v (s : kern) : kern :=
  mkKern (g_tcbs s) (g_current s) (g_tick s) (g_tick_hz s) v (g_default_slice s)
    (g_core_hz s) (g_tick_src s) (g_error s) (g_rq s) (m_sems s) (m_mutexes s) (m_queues s).
Definition set_default_slice v (s : kern) : kern :=
  mkKern (g_tcbs s) (g_current s) (g_tick s) (g_tick_hz s) (g_policy s) v
    (g_core_hz s) (g_tick_src s) (g_error s) (g_rq s) (m_sems s) (m_mutexes s) (m_queues s).
Definition set_core_hz v (s : kern) : kern :=
  mkKern (g_tcbs s) (g_current s) (g_tick s) (g_tick_hz s) (g_policy s) (g_default_slice s)
    v (g_tick_src s) (g_error s) (g_rq s) (m_sems s) (m_mutexes s) (m_queues s).
Definition set_tick_src v (s : kern) : kern :=
  mkKern (g_tcbs s) (g_current s) (g_tick s) (g_tick_hz s) (g_policy s) (g_default_slice s)
    (g_core_hz s) v (g_error s) (g_rq s) (m_sems s) (m_mutexes s) (m_queues s).
Definition set_error v (s : kern) : kern :=
  mkKern (g_tcbs s) (g_current s) (g_tick s) (g_tick_hz s) (g_policy s) (g_default_slice s)
    (g_core_hz s) (g_tick_src s) v (g_rq s) (m_sems s) (m_mutexes s) (m_queues s).
Definition set_rq v (s : kern) : kern :=
  mkKern (g_tcbs s) (g_current s) (g_tick s) (g_tick_hz s) (g_policy s) (g_default_slice s)
    (g_core_hz s) (g_tick_src s) (g_error s) v (m_sems s) (m_mutexes s) (m_queues s).
Definition set_sems v (s : kern) : kern :=
  mkKern (g_tcbs s) (g_current s) (g_tick s) (g_tick_hz s) (g_policy s) (g_default_slice s)
    (g_core_hz s) (g_tick_src s) (g_error s) (g_rq s) v (m_mutexes s) (m_queues s).
Definition set_mutexes v (s : kern) : kern :=
  mkKern (g_tcbs s) (g_current s) (g_tick s) (g_tick_hz s) (g_policy s) (g_default_slice s)
    (g_core_hz s) (g_tick_src s) (g_error s) (g_rq s) (m_sems s) v (m_queues s).
Definition set_queues v (s : kern) : kern :=
  mkKern (g_tcbs s) (g_current s) (g_tick s) (g_tick_hz s) (g_policy s) (g_default_slice s)
    (g_core_hz s) (g_tick_src s) (g_error s) (g_rq s) (m_sems s) (m_mutexes s) v.

(** The load-time values of the statics. *)
Definition kern_boot `{Config} : kern :=
  mkKern (replicate (Z.to_nat HARDRT_MAX_TASKS) tcb_zero) (-1) 0 1000
    HRT_SCHED_PRIORITY_RR 5 0 HRT_TICK_SYSTICK NONE
    (replicate (Z.to_nat HARDRT_MAX_PRIO)
       (mkRing (replicate (Z.to_nat HARDRT_MAX_TASKS) 0) 0 0 0)) ∅ ∅ ∅.
