(* ===== verification/Prog.v ===== *)
(** * Kernel code as programs

    A C function of the kernel is a term of [prog A]: the sequence of its
    statements on the kernel state, in which the calls into the port layer
    stay visible. A statement is one node, so a point between two nodes is
    a point where an interrupt can be taken. [exec] runs a program without
    interruption over a port. *)

From stdpp Require Import base tactics numbers list option gmap.
From Stdlib Require Import FunctionalExtensionality.
From S2P Require Import Prelude Types.
Open Scope Z_scope.

(** ** Calls into the port layer (hardrt.h, hardrt_port.h.in) *)

Inductive port_call :=
  | hrt_port_crit_enter
  | hrt_port_crit_exit
  | hrt__pend_context_switch
  | hrt_port_yield_to_scheduler
  | hrt_port_start_systick (tick_hz : Z)
  | hrt__init_idle_task
  | hrt_port_prepare_task_stack (id stack_base words : Z)
  | hrt_port_enter_scheduler.

#[export] Instance port_call_eq_dec : EqDecision port_call.
Proof. solve_decision. Defined.

(** Ways a C function fails to go on: undefined behaviour (an array index
    out of range, a null or dangling pointer), a failed [HRT_ASSERT], and
    the endless loop of [hrt_error] in a [HARDRT_STALL_ON_ERROR] build. *)
Inductive halt := HUndef | HAssert | HStall.

(** ** Programs *)

Inductive prog (A : Type) : Type :=
  | Ret (a : A)
  | Halt (h : halt)
  | Prim {B : Type} (f : kern -> option (B * kern)) (k : B -> prog A)
  | Port (c : port_call) (k : prog A)
  | Loop {B : Type} (body : prog (option B)) (k : B -> prog A).

Arguments Ret {A} a.
Arguments Halt {A} h.
Arguments Prim {A B} f k.
Arguments Port {A} c k.
Arguments Loop {A B} body k.

Fixpoint bind {A B} (p : prog A) (f : A -> prog B) {struct p} : prog B :=
  match p with
  | Ret a => f a
  | Halt h => Halt h
  | Prim g k => Prim g (fun b => bind (k b) f)
  | Port c k => Port c (bind k f)
  | Loop body k => Loop body (fun b => bind (k b) f)
  end.

Declare Scope prog_scope.
Delimit Scope prog_scope with prog.
Bind Scope prog_scope with prog.

Notation "x <- c1 ;; c2" := (bind c1 (fun x => c2))
  (at level 100, c1 at next level, right associativity) : prog_scope.
Notation "c1 ;; c2" := (bind c1 (fun _ => c2))
  (at level 100, right associativity) : prog_scope.
Notation "'call' c" := (Port c (Ret tt)) (at level 10) : prog_scope.

Open Scope prog_scope.

(** Read an expression, or fail where it is undefined; assign. *)
Definition gets {A} (f : kern -> A) : prog A := Prim (fun s => Some (f s, s)) Ret.
Definition reads {A} (f : kern -> option A) : prog A :=
  Prim (fun s => v ← f s; Some (v, s)) Ret.
Definition modify (f : kern -> kern) : prog unit := Prim (fun s => Some (tt, f s)) Ret.
Definition writes (f : kern -> option kern) : prog unit :=
  Prim (fun s => s' ← f s; Some (tt, s')) Ret.
Definition skip : prog unit := Ret tt.
Definition HRT_ASSERT (b : bool) : prog unit := if b then skip else Halt HAssert.

(** [for (;;) body]: [body] gives [Some v] to leave the function with [v]. *)
Definition forever {A} (body : prog (option A)) : prog A := Loop body Ret.

(** ** Ports

    A port gives a meaning to every call: it returns, or it takes the
    control away from the running code ([PSwap]: [swapcontext] to the
    scheduler, or a call that never returns), or it stops. The critical
    section and the switch request only concern the port's own state; the
    other calls may read and update the kernel state, as the ports do
    through the core's accessors. *)

Inductive port_result (P : Type) :=
  | PCont (s : kern) (p : P)
  | PSwap (s : kern) (p : P)
  | PStop (h : halt) (s : kern) (p : P).
Arguments PCont {P} s p.
Arguments PSwap {P} s p.
Arguments PStop {P} h s p.

Class PortLayer := {
  pstate : Type;
  crit_enter : pstate -> pstate;
  crit_exit : pstate -> pstate;
  pend_switch : pstate -> pstate;
  yield_to_scheduler : kern -> pstate -> port_result pstate;
  start_systick : Z -> kern -> pstate -> pstate;
  init_idle_task : kern -> pstate -> port_result pstate;
  prepare_task_stack : Z -> Z -> Z -> kern -> pstate -> port_result pstate;
  enter_scheduler : kern -> pstate -> port_result pstate
}.

Definition port_do `{PortLayer} (c : port_call) (s : kern) (p : pstate) : port_result pstate :=
  match c with
  | hrt_port_crit_enter => PCont s (crit_enter p)
  | hrt_port_crit_exit => PCont s (crit_exit p)
  | hrt__pend_context_switch => PCont s (pend_switch p)
  | hrt_port_yield_to_scheduler => yield_to_scheduler s p
  | hrt_port_start_systick hz => PCont s (start_systick hz s p)
  | hrt__init_idle_task => init_idle_task s p
  | hrt_port_prepare_task_stack id base words => prepare_task_stack id base words s p
  | hrt_port_enter_scheduler => enter_scheduler s p
  end.

Inductive result `{PortLayer} (A : Type) :=
  | Done (a : A) (s : kern) (p : pstate)
  | Swapped (k : prog A) (s : kern) (p : pstate)
  | Halted (h : halt) (s : kern) (p : pstate)
  | Spinning (s : kern) (p : pstate).
Arguments Done {_ A} a s p.
Arguments Swapped {_ A} k s p.
Arguments Halted {_ A} h s p.
Arguments Spinning {_ A} s p.

(** [iter_loop n run k again] runs the body of a loop at most [n] times in
    one uninterrupted run. *)
Fixpoint iter_loop `{PortLayer} {A B} (n : nat)
    (run : kern -> pstate -> result (option B)) (leave : B -> kern -> pstate -> result A)
    (again : option B -> prog A) (s : kern) (p : pstate) : result A :=
  match n with
  | O => Spinning s p
  | S n' =>
      match run s p with
      | Done (Some b) s' p' => leave b s' p'
      | Done None s' p' => iter_loop n' run leave again s' p'
      | Swapped k' s' p' => Swapped (bind k' again) s' p'
      | Halted h s' p' => Halted h s' p'
      | Spinning s' p' => Spinning s' p'
      end
  end.

(** Uninterrupted execution, at most [n] iterations per loop. *)
Fixpoint exec `{PortLayer} (n : nat) {A} (c : prog A) (s : kern) (p : pstate)
    {struct c} : result A :=
  match c with
  | Ret a => Done a s p
  | Halt h => Halted h s p
  | Prim f k =>
      match f s with
      | Some (b, s') => exec n (k b) s' p
      | None => Halted HUndef s p
      end
  | Port pc k =>
      match port_do pc s p with
      | PCont s' p' => exec n k s' p'
      | PSwap s' p' => Swapped k s' p'
      | PStop h s' p' => Halted h s' p'
      end
  | Loop body k =>
      iter_loop n (exec n body) (fun b => exec n (k b))
        (fun o => match o with Some b => k b | None => Loop body k end) s p
  end.

(** ** Sequencing *)

Lemma bind_assoc {A B D} (c : prog A) (f : A -> prog B) (g : B -> prog D) :
  bind (bind c f) g = bind c (fun x => bind (f x) g).
Proof.
  revert B D f g. induction c; intros; cbn; f_equal; eauto;
    apply functional_extensionality; eauto.
Qed.

Section exec_facts.
Context `{PortLayer}.

Lemma iter_loop_done {A B C} n (run : kern -> pstate -> result (option B))
    (leave : B -> kern -> pstate -> result A) again
    (leave' : B -> kern -> pstate -> result C) again' (f : A -> prog C) s p a s' p' :
  (forall b s p a s' p', leave b s p = Done a s' p' -> leave' b s p = exec n (f a) s' p') ->
  forall m, iter_loop m run leave again s p = Done a s' p' ->
  iter_loop m run leave' again' s p = exec n (f a) s' p'.
Proof.
  intros Hl m. revert s p. induction m as [|m IH]; intros s p; cbn; [done|].
  destruct (run s p) as [[b|] s1 p1|k1 s1 p1|h s1 p1|s1 p1]; try done; eauto.
Qed.

Lemma iter_loop_halted {A B C} (run : kern -> pstate -> result (option B))
    (leave : B -> kern -> pstate -> result A) again
    (leave' : B -> kern -> pstate -> result C) again' s p h s' p' :
  (forall b s p h s' p', leave b s p = Halted h s' p' -> leave' b s p = Halted h s' p') ->
  forall m, iter_loop m run leave again s p = Halted h s' p' ->
  iter_loop m run leave' again' s p = Halted h s' p'.
Proof.
  intros Hl m. revert s p. induction m as [|m IH]; intros s p; cbn; [done|].
  destruct (run s p) as [[b|] s1 p1|k1 s1 p1|h1 s1 p1|s1 p1]; try done; eauto.
  by intros [= -> -> ->].
Qed.

(** A completed first part hands its result and its state to the rest. *)
Lemma exec_bind {A B} n (c : prog A) (f : A -> prog B) s p a s' p' :
  exec n c s p = Done a s' p' -> exec n (bind c f) s p = exec n (f a) s' p'.
Proof.
  revert B f s p a s' p'.
  induction c as [A a0|A h|A B0 g k IH|A pc k IH|A B0 body IHb k IHk];
    intros B f s p a s' p'; cbn.
  - by intros [= -> -> ->].
  - done.
  - destruct (g s) as [[b s1]|]; [apply IH|done].
  - destruct (port_do pc s p); try done. apply IH.
  - intros E. eapply iter_loop_done; [|exact E]. intros. by eapply IHk.
Qed.

Lemma exec_halt_bind {A B} n (c : prog A) (f : A -> prog B) s p h s' p' :
  exec n c s p = Halted h s' p' -> exec n (bind c f) s p = Halted h s' p'.
Proof.
  revert B f s p h s' p'.
  induction c as [A a0|A h0|A B0 g k IH|A pc k IH|A B0 body IHb k IHk];
    intros B f s p h s' p'; cbn.
  - done.
  - by intros [= -> -> ->].
  - destruct (g s) as [[b s1]|]; [apply IH|by intros [= -> -> ->]].
  - destruct (port_do pc s p); [apply IH|done|by intros [= -> -> ->]].
  - intros E. eapply iter_loop_halted; [|exact E]. eauto.
Qed.

Lemma iter_loop_swapped {A B C} (run : kern -> pstate -> result (option B))
    (leave : B -> kern -> pstate -> result A) again
    (leave' : B -> kern -> pstate -> result C) again' (f : A -> prog C) s p k s' p' :
  (forall b s p k s' p', leave b s p = Swapped k s' p' -> leave' b s p = Swapped (bind k f) s' p') ->
  (forall o, again' o = bind (again o) f) ->
  forall m, iter_loop m run leave again s p = Swapped k s' p' ->
  iter_loop m run leave' again' s p = Swapped (bind k f) s' p'.
Proof.
  intros Hl Ha m. revert s p. induction m as [|m IH]; intros s p; cbn; [done|].
  destruct (run s p) as [[b|] s1 p1|k1 s1 p1|h1 s1 p1|s1 p1]; try done; eauto.
  intros [= <- <- <-]. rewrite bind_assoc. f_equal. f_equal.
  apply functional_extensionality. apply Ha.
Qed.

(** A first part that gives up the processor leaves the rest to do. *)
Lemma exec_swap_bind {A B} n (c : prog A) (f : A -> prog B) s p k s' p' :
  exec n c s p = Swapped k s' p' -> exec n (bind c f) s p = Swapped (bind k f) s' p'.
Proof.
  revert B f s p k s' p'.
  induction c as [A a0|A h0|A B0 g k0 IH|A pc k0 IH|A B0 body IHb k0 IHk];
    intros B f s p k s' p'; cbn.
  - done.
  - done.
  - destruct (g s) as [[b s1]|]; [apply IH|done].
  - destruct (port_do pc s p); [apply IH|by intros [= -> -> ->]|done].
  - intros E. eapply iter_loop_swapped; [| |exact E]; [eauto|]. by intros [b|].
Qed.

Lemma iter_loop_spinning {A B C} (run : kern -> pstate -> result (option B))
    (leave : B -> kern -> pstate -> result A) again
    (leave' : B -> kern -> pstate -> result C) again' s p s' p' :
  (forall b s p s' p', leave b s p = Spinning s' p' -> leave' b s p = Spinning s' p') ->
  forall m, iter_loop m run leave again s p = Spinning s' p' ->
  iter_loop m run leave' again' s p = Spinning s' p'.
Proof.
  intros Hl m. revert s p. induction m as [|m IH]; intros s p; cbn; [by intros [= -> ->]|].
  destruct (run s p) as [[b|] s1 p1|k1 s1 p1|h1 s1 p1|s1 p1]; try done; eauto.
  by intros [= -> ->].
Qed.

Lemma exec_spin_bind {A B} n (c : prog A) (f : A -> prog B) s p s' p' :
  exec n c s p = Spinning s' p' -> exec n (bind c f) s p = Spinning s' p'.
Proof.
  revert B f s p s' p'.
  induction c as [A a0|A h0|A B0 g k IH|A pc k IH|A B0 body IHb k IHk];
    intros B f s p s' p'; cbn; try done.
  - destruct (g s) as [[b s1]|]; [apply IH|done].
  - destruct (port_do pc s p); [apply IH|done|done].
  - intros E. eapply iter_loop_spinning; [|exact E]. eauto.
Qed.

(** Programs with the same run can be exchanged in front of a rest. *)
Lemma exec_bind_cong {A B} n (c c' : prog A) (f : A -> prog B) s p s' p' :
  exec n c s p = exec n c' s' p' -> exec n (bind c f) s p = exec n (bind c' f) s' p'.
Proof.
  intros E. destruct (exec n c' s' p') eqn:E'.
  - by rewrite (exec_bind _ _ _ _ _ _ _ _ E), (exec_bind _ _ _ _ _ _ _ _ E').
  - by rewrite (exec_swap_bind _ _ _ _ _ _ _ _ E), (exec_swap_bind _ _ _ _ _ _ _ _ E').
  - by rewrite (exec_halt_bind _ _ _ _ _ _ _ _ E), (exec_halt_bind _ _ _ _ _ _ _ _ E').
  - by rewrite (exec_spin_bind _ _ _ _ _ _ _ E), (exec_spin_bind _ _ _ _ _ _ _ E').
Qed.

(** ** Fuel *)

(** A run that ended within its fuel. *)
Definition ended {A} (r : result A) : bool :=
  match r with Spinning _ _ => false | _ => true end.

Lemma iter_loop_fuel {A B} n m (run run' : kern -> pstate -> result (option B))
    (leave leave' : B -> kern -> pstate -> result A) again s p :
  (forall s p, ended (run s p) = true -> run' s p = run s p) ->
  (forall b s p, ended (leave b s p) = true -> leave' b s p = leave b s p) ->
  (n <= m)%nat -> ended (iter_loop n run leave again s p) = true ->
  iter_loop m run' leave' again s p = iter_loop n run leave again s p.
Proof.
  intros Hr Hl. revert m s p. induction n as [|n IH]; intros m s p Hm; cbn; [done|].
  destruct m as [|m]; [lia|]. cbn. specialize (Hr s p).
  destruct (run s p) as [[b|] s1 p1|k1 s1 p1|h1 s1 p1|s1 p1]; cbn; try done; rewrite Hr by done; intros He.
  - by apply Hl.
  - apply IH; [lia|done].
  - done.
  - done.
Qed.

(** More fuel does not change a run that ended. *)
Lemma exec_fuel {A} n m (c : prog A) s p :
  (n <= m)%nat -> ended (exec n c s p) = true -> exec m c s p = exec n c s p.
Proof.
  intros Hm. revert s p.
  induction c as [A a0|A h0|A B0 g k IH|A pc k IH|A B0 body IHb k IHk]; intros s p; cbn; try done.
  - destruct (g s) as [[b s1]|]; [apply IH|done].
  - destruct (port_do pc s p); [apply IH|done|done].
  - by apply iter_loop_fuel.
Qed.

(** One iteration of an endless loop. *)
Lemma exec_loop_done {A} n (body : prog (option A)) s p a s' p' :
  exec (S n) body s p = Done (Some a) s' p' -> exec (S n) (forever body) s p = Done a s' p'.
Proof.
  intros E. change (exec (S n) (forever body) s p) with
    (iter_loop (S n) (exec (S n) body) (fun b => exec (S n) (Ret b))
       (fun o => match o with Some b => Ret b | None => Loop body Ret end) s p).
  cbn [iter_loop]. by rewrite E.
Qed.

Lemma exec_loop_swapped {A} n (body : prog (option A)) s p k s' p' :
  exec (S n) body s p = Swapped k s' p' ->
  exec (S n) (forever body) s p
  = Swapped (bind k (fun o => match o with Some b => Ret b | None => forever body end)) s' p'.
Proof.
  intros E. change (exec (S n) (forever body) s p) with
    (iter_loop (S n) (exec (S n) body) (fun b => exec (S n) (Ret b))
       (fun o => match o with Some b => Ret b | None => Loop body Ret end) s p).
  cbn [iter_loop]. by rewrite E.
Qed.

(** One statement followed by the rest. *)
Lemma exec_gets {A B} n (f : kern -> A) (k : A -> prog B) s p :
  exec n (bind (gets f) k) s p = exec n (k (f s)) s p.
Proof. done. Qed.

Lemma exec_modify {B} n f (k : unit -> prog B) s p :
  exec n (bind (modify f) k) s p = exec n (k tt) (f s) p.
Proof. done. Qed.

Lemma exec_reads {A B} n (f : kern -> option A) (k : A -> prog B) s p a :
  f s = Some a -> exec n (bind (reads f) k) s p = exec n (k a) s p.
Proof. intros E. cbn. by rewrite E. Qed.

Lemma exec_writes {B} n f (k : unit -> prog B) s p s' :
  f s = Some s' -> exec n (bind (writes f) k) s p = exec n (k tt) s' p.
Proof. intros E. cbn. by rewrite E. Qed.

Lemma exec_reads_last {A} n (f : kern -> option A) s p a :
  f s = Some a -> exec n (reads f) s p = Done a s p.
Proof. intros E. cbn. by rewrite E. Qed.

Lemma exec_writes_last n f s p s' : f s = Some s' -> exec n (writes f) s p = Done tt s' p.
Proof. intros E. cbn. by rewrite E. Qed.

Lemma exec_crit_enter {B} n (k : unit -> prog B) s p :
  exec n (bind (call hrt_port_crit_enter) k) s p = exec n (k tt) s (crit_enter p).
Proof. done. Qed.

Lemma exec_crit_exit {B} n (k : unit -> prog B) s p :
  exec n (bind (call hrt_port_crit_exit) k) s p = exec n (k tt) s (crit_exit p).
Proof. done. Qed.

Lemma exec_pend {B} n (k : unit -> prog B) s p :
  exec n (bind (call hrt__pend_context_switch) k) s p = exec n (k tt) s (pend_switch p).
Proof. done. Qed.

Lemma exec_pend_last n s p :
  exec n (call hrt__pend_context_switch) s p = Done tt s (pend_switch p).
Proof. done. Qed.

Lemma exec_ret {A} n (a : A) s p : exec n (Ret a) s p = Done a s p.
Proof. done. Qed.

Lemma exec_bind_ret {A B} n (a : A) (k : A -> prog B) s p :
  exec n (bind (Ret a) k) s p = exec n (k a) s p.
Proof. done. Qed.

End exec_facts.

(** Run the statements of a program one after the other. [xrun] stops at
    the first statement that needs a fact about the state; [xread] and
    [xwrite] run a read and a write whose value [tac] computes. *)
Ltac xrun1 :=
  match goal with
  | |- context [exec _ (bind (bind _ _) _) _ _] => rewrite bind_assoc
  | |- context [exec _ (bind (gets _) _) _ _] => rewrite exec_gets
  | |- context [exec _ (bind (modify _) _) _ _] => rewrite exec_modify
  | |- context [exec _ (bind (Ret _) _) _ _] => rewrite exec_bind_ret
  | |- context [exec _ (bind skip _) _ _] => unfold skip; rewrite exec_bind_ret
  | |- context [exec _ (bind (Port hrt_port_crit_enter _) _) _ _] => rewrite exec_crit_enter
  | |- context [exec _ (bind (Port hrt_port_crit_exit _) _) _ _] => rewrite exec_crit_exit
  | |- context [exec _ (bind (Port hrt__pend_context_switch _) _) _ _] => rewrite exec_pend
  | |- context [exec _ (Port hrt__pend_context_switch (Ret tt)) _ _] => rewrite exec_pend_last
  | |- context [exec _ (Ret _) _ _] => rewrite exec_ret
  | |- context [exec _ skip _ _] => unfold skip; rewrite exec_ret
  end.

Ltac xrun := repeat (xrun1; cbv beta).

Tactic Notation "xread" tactic(tac) := (erewrite exec_reads; [|solve [tac]]); xrun.
Tactic Notation "xwrite" tactic(tac) := (erewrite exec_writes; [|solve [tac]]); xrun.
