(* ===== verification/Stmt.v ===== *)
(** * One statement at a time

    [stmt] runs the next statement of a program, so that something else can
    happen before the one after it; [run_steps] runs several. A run of
    [exec] is such a sequence of statements ([exec_steps]). *)

From stdpp Require Import base tactics numbers list option gmap.
From Stdlib Require Import FunctionalExtensionality.
From S2P Require Import Prelude Types Prog.
Open Scope Z_scope.

Section stmt.
Context `{PL : PortLayer}.

(** What the next statement does: the function has returned; it stops; the
    rest runs on, or it has given up the processor. *)
Inductive stmt_result (A : Type) :=
  | SRet (a : A)
  | SStop (h : halt)
  | SNext (c : prog A) (s : kern) (p : pstate)
  | SHop (c : prog A) (s : kern) (p : pstate).
Arguments SRet {A} a.
Arguments SStop {A} h.
Arguments SNext {A} c s p.
Arguments SHop {A} c s p.

(** The rest of a loop after an iteration. *)
Definition loop_rest {A B} (body : prog (option B)) (k : B -> prog A) (o : option B) : prog A :=
  match o with Some b => k b | None => Loop body k end.

Definition stmt {A} (c : prog A) (s : kern) (p : pstate) : stmt_result A :=
  match c with
  | Ret a => SRet a
  | Halt h => SStop h
  | Prim f k => match f s with Some (b, s') => SNext (k b) s' p | None => SStop HUndef end
  | Port pc k =>
      match port_do pc s p with
      | PCont s' p' => SNext k s' p'
      | PSwap s' p' => SHop k s' p'
      | PStop h _ _ => SStop h
      end
  | Loop body k => SNext (bind body (loop_rest body k)) s p
  end.

(** The first [k] statements of a program; what is left of it. *)
Fixpoint run_steps (k : nat) {A} (c : prog A) (s : kern) (p : pstate)
    : option (prog A * kern * pstate) :=
  match k with
  | O => Some (c, s, p)
  | S k' => match stmt c s p with SNext c' s' p' => run_steps k' c' s' p' | _ => None end
  end.

Lemma loop_rest_bind {A B D} (body : prog (option B)) (k : B -> prog A) (f : A -> prog D) :
  (fun o => bind (loop_rest body k o) f) = loop_rest body (fun b => bind (k b) f).
Proof. apply functional_extensionality. by intros []. Qed.

Lemma stmt_bind {A B} (c : prog A) (f : A -> prog B) s p c' s' p' :
  stmt c s p = SNext c' s' p' -> stmt (bind c f) s p = SNext (bind c' f) s' p'.
Proof.
  destruct c as [a|h|B0 g k|pc k|B0 body k]; cbn; try done.
  - destruct (g s) as [[b s1]|]; [|done]. by intros [= <- <- <-].
  - destruct (port_do pc s p); try done. by intros [= <- <- <-].
  - intros [= <- <- <-]. by rewrite bind_assoc, loop_rest_bind.
Qed.

Lemma run_steps_bind {A B} k (c : prog A) (f : A -> prog B) s p c' s' p' :
  run_steps k c s p = Some (c', s', p') -> run_steps k (bind c f) s p = Some (bind c' f, s', p').
Proof.
  revert c s p. induction k as [|k IH]; intros c s p; cbn [run_steps]; [by intros [= -> -> ->]|].
  destruct (stmt c s p) as [a|h|c1 s1 p1|c1 s1 p1] eqn:E; try done.
  rewrite (stmt_bind _ _ _ _ _ _ _ E). apply IH.
Qed.

Lemma run_steps_app {A} j k (c : prog A) s p c1 s1 p1 :
  run_steps j c s p = Some (c1, s1, p1) -> run_steps (j + k) c s p = run_steps k c1 s1 p1.
Proof.
  revert c s p. induction j as [|j IH]; intros c s p; cbn [run_steps Nat.add]; [by intros [= -> -> ->]|].
  destruct (stmt c s p); try done. apply IH.
Qed.

Lemma iter_steps {A B} n (body : prog (option B)) (k : B -> prog A) again s p a s' p' m :
  (forall s p b s' p', exec n body s p = Done b s' p' ->
     exists j, run_steps j body s p = Some (Ret b, s', p')) ->
  (forall b s p a s' p', exec n (k b) s p = Done a s' p' ->
     exists j, run_steps j (k b) s p = Some (Ret a, s', p')) ->
  iter_loop m (exec n body) (fun b => exec n (k b)) again s p = Done a s' p' ->
  exists j, run_steps j (Loop body k) s p = Some (Ret a, s', p').
Proof.
  intros Hb Hk. revert s p. induction m as [|m IH]; intros s p; cbn [iter_loop]; [done|].
  assert (Hgo : forall o s1 p1, exec n body s p = Done o s1 p1 ->
    (exists j, run_steps j (loop_rest body k o) s1 p1 = Some (Ret a, s', p')) ->
    exists j, run_steps j (Loop body k) s p = Some (Ret a, s', p')).
  { intros o s1 p1 E [j2 E2]. destruct (Hb _ _ _ _ _ E) as [j1 E1]. exists (S (j1 + j2)).
    cbn [run_steps stmt]. by rewrite (run_steps_app _ _ _ _ _ _ _ _ (run_steps_bind _ _ _ _ _ _ _ _ E1)). }
  destruct (exec n body s p) as [[b|] s1 p1|k1 s1 p1|h s1 p1|s1 p1] eqn:E; try done.
  - intros E2. eapply Hgo; [done|]. by apply Hk.
  - intros E2. eapply Hgo; [done|]. by apply IH.
Qed.

(** An uninterrupted run is a sequence of statements. *)
Lemma exec_steps {A} n (c : prog A) s p a s' p' :
  exec n c s p = Done a s' p' -> exists k, run_steps k c s p = Some (Ret a, s', p').
Proof.
  revert s p a s' p'. induction c as [A a0|A h|A B g k IH|A pc k IH|A B body IHb k IHk];
    intros s p a s' p'; cbn [exec].
  - intros [= -> -> ->]. by exists 0%nat.
  - done.
  - intros E. destruct (g s) as [[b s1]|] eqn:Eg; [|done]. destruct (IH _ _ _ _ _ _ E) as [j Hj].
    exists (S j). cbn. by rewrite Eg.
  - intros E. destruct (port_do pc s p) as [s1 p1|s1 p1|h s1 p1] eqn:Ep; try done.
    destruct (IH _ _ _ _ _ E) as [j Hj]. exists (S j). cbn [run_steps stmt]. by rewrite Ep.
  - by apply iter_steps.
Qed.

End stmt.

Arguments SRet {_ A} a.
Arguments SStop {_ A} h.
Arguments SNext {_ A} c s p.
Arguments SHop {_ A} c s p.
