(* ===== verification/Ring.v ===== *)
(** * Circular queues of task ids

    The statements that push on and pop from the 8-bit circular queues
    embedded in [prio_q_t], [hrt_sem_t], [hrt_mutex_t] and [hrt_queue_t],
    and their refinement: a well-formed ring denotes a list, a push appends
    to it and a pop removes its head. *)

From stdpp Require Import base tactics numbers list option gmap.
From S2P Require Import Prelude Types Prog.
Open Scope Z_scope.

(** ** Where a ring lives in the kernel state *)

Record ring_at := {
  rget : kern -> option ring;
  rput : ring -> kern -> kern
}.

Class RingLens (L : ring_at) : Prop := {
  rget_rput s r r' : rget L s = Some r -> rget L (rput L r' s) = Some r';
  rput_rput s r r' : rput L r' (rput L r s) = rput L r' s
}.

Definition rq_ring (p : Z) : ring_at := {|
  rget s := zget (g_rq s) p;
  rput r s := set_rq (<[Z.to_nat p := r]> (g_rq s)) s
|}.

Definition sem_ring (a : Z) : ring_at := {|
  rget s := sem_waitq <$> m_sems s !! a;
  rput r s := set_sems (alter (fun m => mkSem (sem_count m) (sem_max_count m) r) a (m_sems s)) s
|}.

Definition mutex_ring (a : Z) : ring_at := {|
  rget s := mtx_waitq <$> m_mutexes s !! a;
  rput r s :=
    set_mutexes (alter (fun m => mkMutex (mtx_locked m) (mtx_owner m) r) a (m_mutexes s)) s
|}.

Definition rx_ring (a : Z) : ring_at := {|
  rget s := rx <$> m_queues s !! a;
  rput r s := set_queues (alter (fun m => mkQueue (buf m) (item_size m) (capacity m)
    (q_head m) (q_tail m) (q_count m) r (tx m)) a (m_queues s)) s
|}.

Definition tx_ring (a : Z) : ring_at := {|
  rget s := tx <$> m_queues s !! a;
  rput r s := set_queues (alter (fun m => mkQueue (buf m) (item_size m) (capacity m)
    (q_head m) (q_tail m) (q_count m) (rx m) r) a (m_queues s)) s
|}.

(** ** Statements

    [q->q[q->tail] = id], [q->tail = (q->tail + 1) % HARDRT_MAX_TASKS],
    [q->count++], and the three of a pop. *)

Section stmts.
Context `{Config}.

Definition ring_upd (L : ring_at) (f : ring -> option ring) : prog unit :=
  writes (fun s => r ← rget L s; r' ← f r; Some (rput L r' s)).

Definition ring_count (L : ring_at) : prog Z := reads (fun s => count <$> rget L s).

Definition ring_store (L : ring_at) (id : Z) : prog unit :=
  ring_upd L (fun r => q' ← zset (q r) (tail r) id; Some (mkRing q' (head r) (tail r) (count r))).

Definition ring_advance_tail (L : ring_at) : prog unit :=
  ring_upd L (fun r =>
    Some (mkRing (q r) (head r) (u8 ((tail r + 1) mod HARDRT_MAX_TASKS)) (count r))).

Definition ring_inc_count (L : ring_at) : prog unit :=
  ring_upd L (fun r => Some (mkRing (q r) (head r) (tail r) (u8 (count r + 1)))).

Definition ring_read_head (L : ring_at) : prog Z :=
  reads (fun s => r ← rget L s; zget (q r) (head r)).

Definition ring_advance_head (L : ring_at) : prog unit :=
  ring_upd L (fun r =>
    Some (mkRing (q r) (u8 ((head r + 1) mod HARDRT_MAX_TASKS)) (tail r) (count r))).

Definition ring_dec_count (L : ring_at) : prog unit :=
  ring_upd L (fun r => Some (mkRing (q r) (head r) (tail r) (u8 (count r - 1)))).

End stmts.

(** ** Well-formed rings and the lists they denote *)

Section ring.
Context `{C : Config}.

Record ring_wf (r : ring) : Prop := {
  rwf_len : Z.of_nat (length (q r)) = HARDRT_MAX_TASKS;
  rwf_head : 0 <= head r < HARDRT_MAX_TASKS;
  rwf_count : 0 <= count r <= HARDRT_MAX_TASKS;
  rwf_tail : tail r = (head r + count r) mod HARDRT_MAX_TASKS
}.

Definition ring_slot (r : ring) (i : Z) : Z := nth (Z.to_nat i) (q r) 0.

Definition ring_list (r : ring) : list Z :=
  fifo (ring_slot r) HARDRT_MAX_TASKS (head r) (count r).

(** The abstraction relation: [r] is well formed and denotes [l]. *)
Definition ring_repr (r : ring) (l : list Z) : Prop := ring_wf r /\ ring_list r = l.

Definition ring_empty : ring := mkRing (replicate (Z.to_nat HARDRT_MAX_TASKS) 0) 0 0 0.

(** The combined effect of the three statements of a push and of a pop. *)
Definition ring_push (id : Z) (r : ring) : ring :=
  mkRing (<[Z.to_nat (tail r) := id]> (q r)) (head r)
    (u8 ((tail r + 1) mod HARDRT_MAX_TASKS)) (u8 (count r + 1)).

Definition ring_pop (r : ring) : ring :=
  mkRing (q r) (u8 ((head r + 1) mod HARDRT_MAX_TASKS)) (tail r) (u8 (count r - 1)).

End ring.

(** ** Lens laws *)

#[export] Instance rq_ring_lens p : RingLens (rq_ring p).
Proof.
  split; intros; cbn in *.
  - apply zget_insert_eq. by eapply zget_Some.
  - unfold set_rq; cbn. by rewrite list_insert_insert_eq.
Qed.

#[export] Instance sem_ring_lens a : RingLens (sem_ring a).
Proof.
  split; intros *; cbn; [|unfold set_sems; cbn; by rewrite alter_alter].
  rewrite lookup_alter_eq. by destruct (m_sems s !! a).
Qed.

#[export] Instance mutex_ring_lens a : RingLens (mutex_ring a).
Proof.
  split; intros *; cbn; [|unfold set_mutexes; cbn; by rewrite alter_alter].
  rewrite lookup_alter_eq. by destruct (m_mutexes s !! a).
Qed.

#[export] Instance rx_ring_lens a : RingLens (rx_ring a).
Proof.
  split; intros *; cbn; [|unfold set_queues; cbn; by rewrite alter_alter].
  rewrite lookup_alter_eq. by destruct (m_queues s !! a).
Qed.

#[export] Instance tx_ring_lens a : RingLens (tx_ring a).
Proof.
  split; intros *; cbn; [|unfold set_queues; cbn; by rewrite alter_alter].
  rewrite lookup_alter_eq. by destruct (m_queues s !! a).
Qed.

(** ** Refinement of rings to lists *)

Section ring_facts.
Context `{C : Config} {Cok : ConfigOk C}.

Lemma max_tasks_bounds : 2 <= HARDRT_MAX_TASKS <= 255.
Proof. destruct Cok. lia. Qed.

Lemma ring_repr_count r l : ring_repr r l -> count r = Z.of_nat (length l).
Proof.
  intros [W <-]. unfold ring_list. rewrite fifo_length; [done|]. apply W.
Qed.

Lemma ring_repr_length r l : ring_repr r l -> Z.of_nat (length l) <= HARDRT_MAX_TASKS.
Proof. intros R. rewrite <- (ring_repr_count _ _ R). apply R. Qed.

Lemma ring_repr_tail_range r l : ring_repr r l -> 0 <= tail r < HARDRT_MAX_TASKS.
Proof.
  intros [W _]. rewrite (rwf_tail r W). apply Z.mod_pos_bound.
  pose proof max_tasks_bounds. lia.
Qed.

Lemma ring_empty_repr : ring_repr ring_empty [].
Proof.
  pose proof max_tasks_bounds. split; [|done].
  split; cbn; rewrite ?length_replicate; try lia. by rewrite Z.mod_0_l by lia.
Qed.

Lemma ring_push_repr r l id :
  ring_repr r l -> Z.of_nat (length l) < HARDRT_MAX_TASKS ->
  ring_repr (ring_push id r) (l ++ [id]).
Proof.
  intros R Hl. pose proof max_tasks_bounds as B.
  pose proof (ring_repr_count _ _ R) as Hc. pose proof (ring_repr_tail_range _ _ R) as Ht.
  destruct R as [W Hlist]. pose proof W as [Wl Wh Wc Wt].
  assert (Hm : 0 <= (tail r + 1) mod HARDRT_MAX_TASKS < HARDRT_MAX_TASKS)
    by (apply Z.mod_pos_bound; lia).
  split.
  - split; cbn; rewrite ?length_insert, ?u8_id by lia; try lia.
    rewrite Wt at 1. rewrite ring_tail_push by lia. done.
  - unfold ring_list. cbn. rewrite u8_id by lia. rewrite <- Hlist. unfold ring_list.
    eapply fifo_push; try lia; [exact Wt| |].
    + unfold ring_slot. cbn. rewrite nth_insert by lia. by rewrite decide_True.
    + intros j Hj Hne. unfold ring_slot. cbn. rewrite nth_insert by lia.
      rewrite decide_False by lia. done.
Qed.

Lemma ring_pop_repr r x l :
  ring_repr r (x :: l) ->
  zget (q r) (head r) = Some x /\ ring_repr (ring_pop r) l.
Proof.
  intros R. pose proof max_tasks_bounds as B.
  pose proof (ring_repr_count _ _ R) as Hc. cbn in Hc.
  destruct R as [W Hlist]. pose proof W as [Wl Wh Wc Wt].
  unfold ring_list in Hlist. rewrite fifo_pop in Hlist by lia.
  injection Hlist as Hx Hl.
  assert (Hm : 0 <= (head r + 1) mod HARDRT_MAX_TASKS < HARDRT_MAX_TASKS)
    by (apply Z.mod_pos_bound; lia).
  split; [|split].
  - rewrite (zget_total 0) by lia. by f_equal.
  - split; cbn; rewrite ?u8_id by lia; try lia. rewrite Wt. apply ring_tail_pop. lia.
  - unfold ring_list. cbn. rewrite !u8_id by lia. exact Hl.
Qed.

End ring_facts.

#[export] Hint Resolve ring_push_repr ring_empty_repr : hrt.

(** ** Rings in the kernel state

    [qlist L s] is the list the ring at [L] denotes; [lpush] and [lpop] are
    the effects of a push and of a pop there. *)

Section lens.
Context `{C : Config}.

Definition qlist (L : ring_at) (s : kern) : list Z := from_option ring_list [] (rget L s).

Definition ring_ok (L : ring_at) (s : kern) : Prop := exists r, rget L s = Some r /\ ring_wf r.

Definition lpush (L : ring_at) (id : Z) (s : kern) : kern :=
  from_option (fun r => rput L (ring_push id r) s) s (rget L s).

Definition lpop (L : ring_at) (s : kern) : kern :=
  from_option (fun r => rput L (ring_pop r) s) s (rget L s).

Lemma ring_ok_repr L s : ring_ok L s -> exists r, rget L s = Some r /\ ring_repr r (qlist L s).
Proof. intros (r & E & W). exists r. split; [done|]. unfold qlist. by rewrite E. Qed.

Lemma qlist_repr L s r l : rget L s = Some r -> ring_repr r l -> ring_ok L s /\ qlist L s = l.
Proof. intros E [W <-]. split; [by exists r|]. unfold qlist. by rewrite E. Qed.

Context {Cok : ConfigOk C} {L : ring_at} {Llens : RingLens L}.

Lemma lpush_spec id s :
  ring_ok L s -> Z.of_nat (length (qlist L s)) < HARDRT_MAX_TASKS ->
  ring_ok L (lpush L id s) /\ qlist L (lpush L id s) = qlist L s ++ [id].
Proof.
  intros (r & E & R)%ring_ok_repr Hl. unfold lpush at 1 2. rewrite E. cbn.
  eapply qlist_repr; [by eapply rget_rput|by apply ring_push_repr].
Qed.

Lemma lpop_spec x l s :
  ring_ok L s -> qlist L s = x :: l ->
  ring_ok L (lpop L s) /\ qlist L (lpop L s) = l.
Proof.
  intros (r & E & R)%ring_ok_repr Hl. rewrite Hl in R. unfold lpop. rewrite E. cbn.
  eapply qlist_repr; [by eapply rget_rput|]. by apply (ring_pop_repr r x l).
Qed.

End lens.

(** ** Execution of the statement sequences *)

Section ring_exec.
Context `{C : Config} {Cok : ConfigOk C} `{PL : PortLayer} {L : ring_at} {Llens : RingLens L}.

Lemma exec_ring_upd n f s p r r' :
  rget L s = Some r -> f r = Some r' ->
  exec n (ring_upd L f) s p = Done tt (rput L r' s) p.
Proof. intros Hr Hf. apply exec_writes_last. rewrite Hr. cbn. by rewrite Hf. Qed.

Lemma exec_ring_count n s p :
  ring_ok L s -> exec n (ring_count L) s p = Done (Z.of_nat (length (qlist L s))) s p.
Proof.
  intros (r & E & R)%ring_ok_repr. rewrite <- (ring_repr_count _ _ R).
  apply exec_reads_last. by rewrite E.
Qed.

Lemma exec_ring_read_head n s p x l :
  ring_ok L s -> qlist L s = x :: l -> exec n (ring_read_head L) s p = Done x s p.
Proof.
  intros (r & E & R)%ring_ok_repr Hl. rewrite Hl in R.
  apply exec_reads_last. rewrite E. cbn. by apply (ring_pop_repr r x l).
Qed.

(** [store; advance tail; increment] pushes. *)
Lemma exec_ring_push n s p id :
  ring_ok L s ->
  exec n (ring_store L id ;; ring_advance_tail L ;; ring_inc_count L) s p
  = Done tt (lpush L id s) p.
Proof.
  intros (r & E & R)%ring_ok_repr. unfold lpush. rewrite E. cbn [from_option].
  pose proof (ring_repr_tail_range _ _ R). destruct (proj1 R).
  erewrite exec_bind
    by (eapply exec_ring_upd; [exact E|rewrite zset_Some by lia; reflexivity]).
  erewrite exec_bind by (eapply exec_ring_upd; [by eapply rget_rput|reflexivity]).
  etrans; [eapply exec_ring_upd; [by eapply rget_rput; eapply rget_rput|reflexivity]|].
  by rewrite !rput_rput.
Qed.

(** [advance head; decrement] drops the head. *)
Lemma exec_ring_drop n s p :
  ring_ok L s ->
  exec n (ring_advance_head L ;; ring_dec_count L) s p = Done tt (lpop L s) p.
Proof.
  intros (r & E & R)%ring_ok_repr. unfold lpop. rewrite E. cbn [from_option].
  erewrite exec_bind by (eapply exec_ring_upd; [exact E|reflexivity]).
  etrans; [eapply exec_ring_upd; [by eapply rget_rput|reflexivity]|].
  by rewrite !rput_rput.
Qed.

End ring_exec.

#[global] Arguments ring_push : simpl never.
#[global] Arguments ring_pop : simpl never.
#[global] Arguments ring_list : simpl never.
