(* ===== verification/Core.v ===== *)
(** * The kernel core (src/core/hardrt_core.c)

    One definition per function of the file, in its order. Code under
    [#if HARDRT_DEBUG == 1] that affects the result is guarded by
    [HARDRT_DEBUG]; the writes to the [dbg_*] variables, which nothing
    reads, are left out. *)

From stdpp Require Import base tactics numbers list option gmap.
From S2P Require Import Prelude Types Prog Ring.
Open Scope Z_scope.
Open Scope prog_scope.

Section core.
Context `{C : Config}.

(** ** Errors, TCB access *)

(** [hrt_error]: record the code; spin in a stalling build. *)
Definition hrt_error (code : hrt_err) : prog unit :=
  modify (set_error code) ;;
  if HARDRT_STALL_ON_ERROR then Halt HStall else skip.

Definition id_out_of_range (id : Z) : bool := (id <? 0) || (id >=? HARDRT_MAX_TASKS).

(** [hrt__tcb]: the address of a slot. [None] is [NULL], which only the
    debug build returns. *)
Definition hrt__tcb (id : Z) : option Z :=
  if HARDRT_DEBUG && id_out_of_range id then None else Some id.

Definition is_null (t : option Z) : bool := match t with None => true | Some _ => false end.

(** [t->field] as an expression and as the target of an assignment. *)
Definition tcb_get (s : kern) (t : option Z) : option _hrt_tcb_t := i ← t; zget (g_tcbs s) i.

Definition tcb_upd (t : option Z) (f : _hrt_tcb_t -> _hrt_tcb_t) (s : kern) : option kern :=
  i ← t; tc ← zget (g_tcbs s) i; l ← zset (g_tcbs s) i (f tc); Some (set_tcbs l s).

Definition tcb_read {A} (t : option Z) (f : _hrt_tcb_t -> A) : prog A :=
  reads (fun s => f <$> tcb_get s t).

Definition tcb_write (t : option Z) (f : _hrt_tcb_t -> _hrt_tcb_t) : prog unit :=
  writes (tcb_upd t f).

(** ** Ready queues *)

Definition rq_push (p id : Z) : prog unit :=
  if p >=? HARDRT_MAX_PRIO then hrt_error ERR_INVALID_PRIO
  else if HARDRT_DEBUG && id_out_of_range id then hrt_error ERR_INVALID_ID
  else
    n <- ring_count (rq_ring p) ;;
    if n >=? HARDRT_MAX_TASKS then hrt_error ERR_RQ_OVERFLOW
    else
      ring_store (rq_ring p) (u8 id) ;;
      ring_advance_tail (rq_ring p) ;;
      ring_inc_count (rq_ring p).

Definition rq_pop (p : Z) : prog Z :=
  if HARDRT_DEBUG && (p >=? HARDRT_MAX_PRIO) then hrt_error ERR_INVALID_PRIO ;; Ret (-1)
  else
    n <- ring_count (rq_ring p) ;;
    if n =? 0 then Ret (-1)
    else if HARDRT_DEBUG && (n <? 0) then hrt_error ERR_RQ_UNDERFLOW ;; Ret (-1000)
    else
      id <- ring_read_head (rq_ring p) ;;
      if HARDRT_DEBUG && id_out_of_range id then hrt_error ERR_INVALID_ID_FROM_RQ ;; Ret (-1)
      else
        ring_advance_head (rq_ring p) ;;
        ring_dec_count (rq_ring p) ;;
        Ret id.

(** ** Stack pointers *)

Definition _get_sp (id : Z) : prog Z := tcb_read (hrt__tcb id) sp.

Definition _set_sp (id sp : Z) : prog unit :=
  (if sp =? 0 then hrt_error ERR_SP_NULL else skip) ;;
  tcb_write (hrt__tcb id) (tcb_set_sp sp).

(** ** Core API *)

Definition hrt_init (cfg : option hrt_config_t) : prog Z :=
  modify (set_tcbs (replicate (Z.to_nat HARDRT_MAX_TASKS) tcb_zero)) ;;
  modify (set_rq (replicate (Z.to_nat HARDRT_MAX_PRIO) ring_empty)) ;;
  modify (fun s => set_tcbs (tcb_set_state HRT_UNUSED <$> g_tcbs s) s) ;;
  modify (set_tick 0) ;;
  modify (set_current (-1)) ;;
  match cfg with
  | Some c =>
      modify (set_tick_hz (if cfg_tick_hz c =? 0 then 1000 else cfg_tick_hz c)) ;;
      modify (set_policy (cfg_policy c)) ;;
      modify (set_default_slice (if cfg_default_slice c =? 0 then 5 else cfg_default_slice c)) ;;
      modify (set_core_hz (cfg_core_hz c)) ;;
      modify (set_tick_src (cfg_tick_src c))
  | None =>
      modify (set_tick_hz 1000) ;;
      modify (set_policy HRT_SCHED_PRIORITY_RR) ;;
      modify (set_default_slice 5)
  end ;;
  hz <- gets g_tick_hz ;;
  call (hrt_port_start_systick hz) ;;
  call hrt__init_idle_task ;;
  Ret 0.

(** The search for a free slot: the first [i] of the list whose slot is
    [HRT_UNUSED], or -1. *)
Fixpoint find_unused (ids : list Z) : prog Z :=
  match ids with
  | [] => Ret (-1)
  | i :: ids' =>
      st <- tcb_read (Some i) state ;;
      if decide (st = HRT_UNUSED) then Ret i else find_unused ids'
  end.

Definition hrt_create_task (fn argp stack n_words : Z) (attr : option hrt_task_attr_t) : prog Z :=
  if (fn =? 0) || (stack =? 0) || (n_words <? 64) then
    hrt_error ERR_INVALID_TASK ;; Ret (-1)
  else
    id <- find_unused (seqZ 0 HARDRT_MAX_TASKS) ;;
    if id <? 0 then hrt_error ERR_INVALID_ID ;; Ret (-1)
    else
      let t := hrt__tcb id in
      if is_null t then hrt_error ERR_TCB_NULL ;; Ret (-1)
      else
        dslice <- gets g_default_slice ;;
        tcb_write t (fun _ => mkTcb 0 stack n_words fn argp 0
          (u16 (match attr with Some a => timeslice a | None => dslice end)) 0
          (u8 (match attr with Some a => priority a | None => HRT_PRIO1 end)) HRT_READY) ;;
        call (hrt_port_prepare_task_stack id stack n_words) ;;
        tcb_write t (tcb_set_state HRT_READY) ;;
        tcb_write t (fun tc => tcb_set_slice_left (timeslice_cfg tc) tc) ;;
        p <- tcb_read t prio ;;
        rq_push p (u8 id) ;;
        Ret id.

Definition hrt_start : prog unit :=
  call hrt__pend_context_switch ;;
  call hrt_port_enter_scheduler.

(** ** Time *)

Definition hrt__ms_to_ticks (ms tick_hz : Z) : Z :=
  if (ms =? 0) || (tick_hz =? 0) then 1
  else
    let t := u64 (u64 (ms * tick_hz) + 999) in
    let t := t / 1000 in
    let t := if t =? 0 then 1 else t in
    let t := if t >? UINT32_MAX then UINT32_MAX else t in
    u32 t.

Definition hrt_sleep (ms : Z) : prog unit :=
  cur <- gets g_current ;;
  if HARDRT_DEBUG && (cur <? 0) then hrt_error ERR_INVALID_ID
  else
    let t := hrt__tcb cur in
    if HARDRT_DEBUG && is_null t then hrt_error ERR_TCB_NULL
    else
      hz <- gets g_tick_hz ;;
      let ticks := hrt__ms_to_ticks ms hz in
      writes (fun s => tcb_upd t (tcb_set_wake_tick (u32 (g_tick s + ticks))) s) ;;
      tcb_write t (tcb_set_state HRT_SLEEP) ;;
      call hrt__pend_context_switch ;;
      call hrt_port_yield_to_scheduler.

Definition hrt_yield : prog unit :=
  cur <- gets g_current ;;
  if HARDRT_DEBUG && (cur <? 0) then hrt_error ERR_INVALID_ID
  else
    let t := hrt__tcb cur in
    if HARDRT_DEBUG && is_null t then hrt_error ERR_TCB_NULL
    else
      st <- tcb_read t state ;;
      (if decide (st = HRT_READY) then
         tcb_write t (fun tc => tcb_set_slice_left (timeslice_cfg tc) tc) ;;
         p <- tcb_read t prio ;;
         cur' <- gets g_current ;;
         rq_push p (u8 cur')
       else skip) ;;
      call hrt__pend_context_switch ;;
      call hrt_port_yield_to_scheduler.

Definition hrt__get_current : prog Z := gets g_current.

Definition hrt_task_delete : prog unit :=
  cur <- hrt__get_current ;;
  if (cur <? 0) || (cur =? HRT_IDLE_ID) then skip
  else
    call hrt_port_crit_enter ;;
    let t := hrt__tcb cur in
    (if is_null t then skip else tcb_write t (tcb_set_state HRT_UNUSED)) ;;
    call hrt_port_crit_exit ;;
    call hrt__pend_context_switch ;;
    call hrt_port_yield_to_scheduler.

Definition hrt_tick_now : prog Z := gets g_tick.

Definition hrt_now_ms : prog Z :=
  hz <- gets g_tick_hz ;;
  if hz =? 0 then Ret 0
  else
    t <- gets g_tick ;;
    Ret (u32 (u64 (t * 1000) / hz)).

Definition hrt_set_policy (p : hrt_policy_t) : prog unit := modify (set_policy p).
Definition hrt_set_default_timeslice (t : Z) : prog unit := modify (set_default_slice t).

(** ** Helpers for the scheduler and the primitives *)

Definition hrt__make_ready (id : Z) : prog unit :=
  if HARDRT_DEBUG && id_out_of_range id then hrt_error ERR_INVALID_ID
  else
    let t := hrt__tcb id in
    if HARDRT_DEBUG && is_null t then hrt_error ERR_TCB_NULL
    else
      dup <- (if HARDRT_DEBUG then
                st <- tcb_read t state ;; Ret (bool_decide (st = HRT_READY))
              else Ret false) ;;
      if (dup : bool) then hrt_error ERR_DUP_READY
      else
        tcb_write t (tcb_set_state HRT_READY) ;;
        tcb_write t (fun tc => tcb_set_slice_left (timeslice_cfg tc) tc) ;;
        p <- tcb_read t prio ;;
        rq_push p (u8 id).

Definition hrt__requeue_noreset (id : Z) : prog unit :=
  if HARDRT_DEBUG && id_out_of_range id then hrt_error ERR_INVALID_ID
  else
    let t := hrt__tcb id in
    if HARDRT_DEBUG && is_null t then hrt_error ERR_TCB_NULL
    else
      st <- tcb_read t state ;;
      if decide (st = HRT_READY) then
        p <- tcb_read t prio ;; rq_push p (u8 id)
      else skip.

(** The selection loop over the priorities of the list, highest first. *)
Fixpoint pick_from (ps : list Z) : prog Z :=
  match ps with
  | [] => Ret HRT_IDLE_ID
  | p :: ps' =>
      candidate <- rq_pop (u8 p) ;;
      if candidate >=? 0 then Ret candidate else pick_from ps'
  end.

Definition hrt__pick_next_ready : prog Z := pick_from (seqZ 0 HARDRT_MAX_PRIO).

Definition hrt__set_current (id : Z) : prog unit :=
  if HARDRT_DEBUG && id_out_of_range id then hrt_error ERR_INVALID_ID
  else modify (set_current id).

Definition hrt__inc_tick : prog unit := modify (fun s => set_tick (u32 (g_tick s + 1)) s).
Definition hrt__policy : prog hrt_policy_t := gets g_policy.
Definition hrt__cfg_core_hz : prog Z := gets g_core_hz.
Definition hrt__cfg_tick_src : prog hrt_tick_source_t := gets g_tick_src.
Definition hrt__cfg_tick_hz : prog Z := gets g_tick_hz.

Definition hrt__save_current_sp (sp : Z) : prog unit :=
  cur <- hrt__get_current ;; _set_sp cur sp.

Definition hrt__load_next_sp_and_set_current (next_id : Z) : prog Z :=
  sp <- _get_sp next_id ;;
  hrt__set_current next_id ;;
  Ret sp.

(** [pol == HRT_SCHED_RR || pol == HRT_SCHED_PRIORITY_RR] *)
Definition rr_policy (pol : hrt_policy_t) : bool :=
  bool_decide (pol = HRT_SCHED_RR) || bool_decide (pol = HRT_SCHED_PRIORITY_RR).

Definition hrt__on_scheduler_entry : prog unit :=
  cur <- gets g_current ;;
  let t := hrt__tcb cur in
  if HARDRT_DEBUG && is_null t then hrt_error ERR_TCB_NULL
  else
    st <- tcb_read t state ;;
    if decide (st <> HRT_READY) then skip
    else
      pol <- gets g_policy ;;
      slice <- tcb_read t timeslice_cfg ;;
      if rr_policy pol && (slice >? 0) then
        left <- tcb_read t slice_left ;;
        if left =? 0 then
          tcb_write t (fun tc => tcb_set_slice_left (timeslice_cfg tc) tc) ;;
          p <- tcb_read t prio ;;
          cur' <- gets g_current ;;
          rq_push p (u8 cur')
        else skip
      else skip.

(** Test hooks ([HARDRT_TEST_HOOKS] builds). *)
Definition hrt__test_set_tick (v : Z) : prog unit := modify (set_tick v).
Definition hrt__test_get_tick : prog Z := gets g_tick.

(** The scheduling decision of the PendSV handler. *)
Definition hrt__schedule (old_sp : Z) : prog Z :=
  (if negb (old_sp =? 0) then
     g <- gets g_current ;;
     (if HARDRT_DEBUG && id_out_of_range g then hrt_error ERR_INVALID_ID else skip) ;;
     let cur := hrt__tcb g in
     (if HARDRT_DEBUG && is_null cur then hrt_error ERR_TCB_NULL else skip) ;;
     _set_sp g old_sp ;;
     st <- tcb_read cur state ;;
     if decide (st = HRT_READY) then
       p <- tcb_read cur prio ;;
       g' <- gets g_current ;;
       rq_push p g'
     else skip
   else skip) ;;
  next_id <- hrt__pick_next_ready ;;
  (if HARDRT_DEBUG && id_out_of_range next_id then hrt_error ERR_INVALID_NEXT_ID else skip) ;;
  hrt__set_current next_id ;;
  _get_sp next_id.

End core.
