(* ===== verification/Sched.v ===== *)
(** * The tick handler (src/core/hardrt_sched.c)

    Time accounting, wake-up of sleepers and round-robin accounting. *)

From stdpp Require Import base tactics numbers list option gmap.
From S2P Require Import Prelude Types Prog Ring Core.
Open Scope Z_scope.
Open Scope prog_scope.

Section sched.
Context `{C : Config}.

(** [(int32_t)(t->wake_tick - hrt_tick_now()) <= 0] *)
Definition wake_due (wake now : Z) : bool := i32 (u32 (wake - now)) <=? 0.

(** The wake-up loop over the given slots; the result is [triggerPendSV]. *)
Fixpoint wake_sleepers (ids : list Z) (triggerPendSV : bool) : prog bool :=
  match ids with
  | [] => Ret triggerPendSV
  | i :: ids' =>
      let t := hrt__tcb i in
      if is_null t then wake_sleepers ids' triggerPendSV
      else
        st <- tcb_read t state ;;
        if decide (st = HRT_SLEEP) then
          w <- tcb_read t wake_tick ;;
          now <- hrt_tick_now ;;
          if wake_due w now then
            hrt__make_ready i ;;
            wake_sleepers ids' true
          else wake_sleepers ids' triggerPendSV
        else wake_sleepers ids' triggerPendSV
  end.

(** The round-robin accounting of the current task. *)
Definition account_slice (triggerPendSV : bool) : prog bool :=
  cur <- hrt__get_current ;;
  if id_out_of_range cur then hrt_error ERR_INVALID_ID ;; Ret triggerPendSV
  else
    let ct := hrt__tcb cur in
    if is_null ct then hrt_error ERR_TCB_NULL ;; Ret triggerPendSV
    else
      st <- tcb_read ct state ;;
      if decide (st = HRT_READY) then
        pol <- hrt__policy ;;
        slice <- tcb_read ct timeslice_cfg ;;
        if rr_policy pol && (slice >? 0) then
          left <- tcb_read ct slice_left ;;
          if left >? 0 then
            tcb_write ct (fun tc => tcb_set_slice_left (u16 (slice_left tc - 1)) tc) ;;
            left' <- tcb_read ct slice_left ;;
            Ret (if left' =? 0 then true else triggerPendSV)
          else Ret triggerPendSV
        else Ret triggerPendSV
      else Ret triggerPendSV.

Definition hrt__tick_isr : prog unit :=
  hrt__inc_tick ;;
  trig <- wake_sleepers (seqZ 0 HARDRT_MAX_TASKS) false ;;
  trig' <- account_slice trig ;;
  if (trig' : bool) then call hrt__pend_context_switch else skip.

Definition hrt_tick_from_isr : prog unit :=
  src <- hrt__cfg_tick_src ;;
  if decide (src <> HRT_TICK_EXTERNAL) then skip else hrt__tick_isr.

End sched.
