(* ===== verification/Sem.v ===== *)
(** * Semaphores (src/core/hardrt_sem.c, inc/hardrt_sem.h)

    A semaphore is named by its address in [m_sems]. *)

From stdpp Require Import base tactics numbers list option gmap.
From S2P Require Import Prelude Types Prog Ring Core.
Open Scope Z_scope.
Open Scope prog_scope.

Module Sem.
Section sem.
Context `{C : Config}.

Definition sem_upd (a : Z) (f : hrt_sem_t -> hrt_sem_t) (s : kern) : option kern :=
  m ← m_sems s !! a; Some (set_sems (<[a := f m]> (m_sems s)) s).

Definition sem_read {A} (a : Z) (f : hrt_sem_t -> A) : prog A :=
  reads (fun s => f <$> m_sems s !! a).

Definition sem_write (a : Z) (f : hrt_sem_t -> hrt_sem_t) : prog unit := writes (sem_upd a f).

Definition set_count (v : Z) (m : hrt_sem_t) : hrt_sem_t :=
  mkSem v (sem_max_count m) (sem_waitq m).
Definition set_max_count (v : Z) (m : hrt_sem_t) : hrt_sem_t :=
  mkSem (sem_count m) v (sem_waitq m).
(** [s->head = s->tail = s->count_wait = 0] *)
Definition reset_waitq (m : hrt_sem_t) : hrt_sem_t :=
  mkSem (sem_count m) (sem_max_count m) (mkRing (q (sem_waitq m)) 0 0 0).

Definition _waitq_push (a id : Z) : prog unit :=
  (if HARDRT_DEBUG && id_out_of_range id then hrt_error ERR_INVALID_ID else skip) ;;
  n <- ring_count (sem_ring a) ;;
  if n >=? HARDRT_MAX_TASKS then skip
  else
    ring_store (sem_ring a) id ;;
    ring_advance_tail (sem_ring a) ;;
    ring_inc_count (sem_ring a).

Definition _waitq_pop (a : Z) : prog Z :=
  n <- ring_count (sem_ring a) ;;
  if n =? 0 then Ret (-1)
  else
    id <- ring_read_head (sem_ring a) ;;
    (if HARDRT_DEBUG && id_out_of_range id then hrt_error ERR_INVALID_ID else skip) ;;
    ring_advance_head (sem_ring a) ;;
    ring_dec_count (sem_ring a) ;;
    Ret id.

Definition hrt_sem_init (a init : Z) : prog unit :=
  sem_write a (set_max_count 1) ;;
  sem_write a (set_count (if init =? 0 then 0 else 1)) ;;
  sem_write a reset_waitq.

Definition hrt_sem_init_counting (a init max_count : Z) : prog unit :=
  let max_count := if max_count =? 0 then 1 else max_count in
  sem_write a (set_max_count max_count) ;;
  let init := if init >? max_count then max_count else init in
  sem_write a (set_count (u8 init)) ;;
  sem_write a reset_waitq.

Definition hrt_sem_try_take (a : Z) : prog Z :=
  call hrt_port_crit_enter ;;
  n <- sem_read a sem_count ;;
  ok <- (if negb (n =? 0) then
           sem_write a (fun m => set_count (u8 (sem_count m - 1)) m) ;; Ret 0
         else Ret (-1)) ;;
  call hrt_port_crit_exit ;;
  Ret ok.

Definition hrt_sem_take (a : Z) : prog Z :=
  r <- hrt_sem_try_take a ;;
  if r =? 0 then Ret 0
  else
    me <- hrt__get_current ;;
    if HARDRT_DEBUG && id_out_of_range me then hrt_error ERR_INVALID_ID ;; Ret (-1)
    else
      call hrt_port_crit_enter ;;
      n <- sem_read a sem_count ;;
      if negb (n =? 0) then
        sem_write a (fun m => set_count (u8 (sem_count m - 1)) m) ;;
        call hrt_port_crit_exit ;;
        Ret 0
      else
        _waitq_push a (u8 me) ;;
        let t := hrt__tcb me in
        (if HARDRT_DEBUG && is_null t then hrt_error ERR_TCB_NULL else skip) ;;
        tcb_write t (tcb_set_state HRT_BLOCKED) ;;
        call hrt_port_crit_exit ;;
        call hrt__pend_context_switch ;;
        call hrt_port_yield_to_scheduler ;;
        Ret 0.

(** The result is [*need_switch] when it is written, [None] otherwise;
    [out] says whether the caller passed a pointer. The function returns 0. *)
Definition _give_common (a : Z) (is_isr out : bool) : prog (option Z) :=
  call hrt_port_crit_enter ;;
  waiter <- _waitq_pop a ;;
  woken <-
    (if waiter >=? 0 then
       let tw := hrt__tcb waiter in
       (if HARDRT_DEBUG && is_null tw then hrt_error ERR_TCB_NULL else skip) ;;
       hrt__make_ready waiter ;;
       Ret true
     else
       n <- sem_read a sem_count ;;
       mx <- sem_read a sem_max_count ;;
       (if n <? mx then sem_write a (fun m => set_count (u8 (sem_count m + 1)) m) else skip) ;;
       Ret false) ;;
  call hrt_port_crit_exit ;;
  if is_isr then
    (if (woken : bool) then call hrt__pend_context_switch else skip) ;;
    Ret (if out then Some (if woken then 1 else 0) else None)
  else
    (if (woken : bool) then hrt_yield else skip) ;;
    Ret None.

Definition hrt_sem_give (a : Z) : prog Z :=
  _ <- _give_common a false false ;; Ret 0.

Definition hrt_sem_give_from_isr (a : Z) (out : bool) : prog (Z * option Z) :=
  ns <- _give_common a true out ;; Ret (0, ns).

End sem.
End Sem.
