(* ===== verification/Mutex.v ===== *)
(** * Mutexes (src/core/hardrt_mutex.c, inc/hardrt_mutex.h)

    A mutex is named by its address in [m_mutexes]. *)

From stdpp Require Import base tactics numbers list option gmap.
From S2P Require Import Prelude Types Prog Ring Core.
Open Scope Z_scope.
Open Scope prog_scope.

Module Mutex.
Section mutex.
Context `{C : Config}.

Definition mtx_upd (a : Z) (f : hrt_mutex_t -> hrt_mutex_t) (s : kern) : option kern :=
  m ← m_mutexes s !! a; Some (set_mutexes (<[a := f m]> (m_mutexes s)) s).

Definition mtx_read {A} (a : Z) (f : hrt_mutex_t -> A) : prog A :=
  reads (fun s => f <$> m_mutexes s !! a).

Definition mtx_write (a : Z) (f : hrt_mutex_t -> hrt_mutex_t) : prog unit := writes (mtx_upd a f).

Definition set_locked (v : Z) (m : hrt_mutex_t) : hrt_mutex_t :=
  mkMutex v (mtx_owner m) (mtx_waitq m).
(** [owner] is an [int16_t]. *)
Definition set_owner (v : Z) (m : hrt_mutex_t) : hrt_mutex_t :=
  mkMutex (mtx_locked m) (i16 v) (mtx_waitq m).

Definition _waitq_push (a id : Z) : prog unit :=
  n <- ring_count (mutex_ring a) ;;
  if n >=? HARDRT_MAX_TASKS then skip
  else
    ring_store (mutex_ring a) id ;;
    ring_advance_tail (mutex_ring a) ;;
    ring_inc_count (mutex_ring a).

Definition _waitq_pop (a : Z) : prog Z :=
  n <- ring_count (mutex_ring a) ;;
  if n =? 0 then Ret (-1)
  else
    id <- ring_read_head (mutex_ring a) ;;
    ring_advance_head (mutex_ring a) ;;
    ring_dec_count (mutex_ring a) ;;
    Ret id.

Definition hrt_mutex_init (a : Z) : prog unit :=
  mtx_write a (set_locked 0) ;;
  mtx_write a (set_owner HRT_MUTEX_NO_OWNER) ;;
  mtx_write a (fun m => mkMutex (mtx_locked m) (mtx_owner m) (mkRing (q (mtx_waitq m)) 0 0 0)).

(** [m->locked = 1u; m->owner = id] *)
Definition take_ownership (a id : Z) : prog unit :=
  mtx_write a (set_locked 1) ;; mtx_write a (set_owner id).

Definition hrt_mutex_try_lock (a : Z) : prog Z :=
  me <- hrt__get_current ;;
  if id_out_of_range me then hrt_error ERR_MUTEX_BAD_CTX ;; Ret (-1)
  else
    call hrt_port_crit_enter ;;
    l <- mtx_read a mtx_locked ;;
    if l =? 0 then
      take_ownership a me ;;
      call hrt_port_crit_exit ;;
      Ret 0
    else
      o <- mtx_read a mtx_owner ;;
      if o =? me then
        call hrt_port_crit_exit ;;
        hrt_error ERR_MUTEX_RECURSIVE ;;
        Ret (-1)
      else
        call hrt_port_crit_exit ;;
        Ret (-1).

Definition hrt_mutex_lock (a : Z) : prog Z :=
  me <- hrt__get_current ;;
  if id_out_of_range me then hrt_error ERR_MUTEX_BAD_CTX ;; Ret (-1)
  else
    r <- hrt_mutex_try_lock a ;;
    if r =? 0 then Ret 0
    else
      call hrt_port_crit_enter ;;
      l <- mtx_read a mtx_locked ;;
      if l =? 0 then
        take_ownership a me ;;
        call hrt_port_crit_exit ;;
        Ret 0
      else
        o <- mtx_read a mtx_owner ;;
        if o =? me then
          call hrt_port_crit_exit ;;
          hrt_error ERR_MUTEX_RECURSIVE ;;
          Ret (-1)
        else
          _waitq_push a (u8 me) ;;
          let t := hrt__tcb me in
          if is_null t then
            call hrt_port_crit_exit ;;
            hrt_error ERR_TCB_NULL ;;
            Ret (-1)
          else
            tcb_write t (tcb_set_state HRT_BLOCKED) ;;
            call hrt_port_crit_exit ;;
            call hrt__pend_context_switch ;;
            call hrt_port_yield_to_scheduler ;;
            Ret 0.

Definition hrt_mutex_unlock (a : Z) : prog Z :=
  me <- hrt__get_current ;;
  if id_out_of_range me then hrt_error ERR_MUTEX_BAD_CTX ;; Ret (-1)
  else
    call hrt_port_crit_enter ;;
    l <- mtx_read a mtx_locked ;;
    o <- mtx_read a mtx_owner ;;
    if (l =? 0) || negb (o =? me) then
      call hrt_port_crit_exit ;;
      hrt_error ERR_MUTEX_OWNER ;;
      Ret (-1)
    else
      waiter <- _waitq_pop a ;;
      if waiter >=? 0 then
        take_ownership a waiter ;;
        hrt__make_ready waiter ;;
        call hrt_port_crit_exit ;;
        hrt_yield ;;
        Ret 0
      else
        mtx_write a (set_locked 0) ;;
        mtx_write a (set_owner HRT_MUTEX_NO_OWNER) ;;
        call hrt_port_crit_exit ;;
        Ret 0.

End mutex.
End Mutex.
