(* ===== verification/Queue.v ===== *)
(** * Message queues (src/core/hardrt_queue.c, inc/hardrt_queue.h)

    A queue is named by its address in [m_queues]; its storage is the list
    of the bytes at [buf]. An item is passed as the list of its bytes. *)

From stdpp Require Import base tactics numbers list option gmap.
From S2P Require Import Prelude Types Prog Ring Core.
Open Scope Z_scope.
Open Scope prog_scope.

Module Queue.
Section queue.
Context `{C : Config}.

Definition queue_upd (a : Z) (f : hrt_queue_t -> option hrt_queue_t) (s : kern) : option kern :=
  m ← m_queues s !! a; m' ← f m; Some (set_queues (<[a := m']> (m_queues s)) s).

Definition queue_read {A} (a : Z) (f : hrt_queue_t -> A) : prog A :=
  reads (fun s => f <$> m_queues s !! a).

Definition queue_write (a : Z) (f : hrt_queue_t -> option hrt_queue_t) : prog unit :=
  writes (queue_upd a f).

Definition set_buf v (m : hrt_queue_t) : hrt_queue_t :=
  mkQueue v (item_size m) (capacity m) (q_head m) (q_tail m) (q_count m) (rx m) (tx m).
Definition set_head v (m : hrt_queue_t) : hrt_queue_t :=
  mkQueue (buf m) (item_size m) (capacity m) v (q_tail m) (q_count m) (rx m) (tx m).
Definition set_tail v (m : hrt_queue_t) : hrt_queue_t :=
  mkQueue (buf m) (item_size m) (capacity m) (q_head m) v (q_count m) (rx m) (tx m).
Definition set_qcount v (m : hrt_queue_t) : hrt_queue_t :=
  mkQueue (buf m) (item_size m) (capacity m) (q_head m) (q_tail m) v (rx m) (tx m).

(** [memcpy] of [n] bytes out of and into [buf] at byte offset [off];
    undefined when it leaves the buffer or the item. *)
Definition copy_out (b : list Z) (off n : Z) : option (list Z) :=
  if (0 <=? off) && (0 <=? n) && (off + n <=? Z.of_nat (length b))
  then Some (take (Z.to_nat n) (drop (Z.to_nat off) b)) else None.

Definition copy_in (b : list Z) (off n : Z) (item : list Z) : option (list Z) :=
  if (0 <=? off) && (0 <=? n) && (off + n <=? Z.of_nat (length b))
     && (n <=? Z.of_nat (length item))
  then Some (take (Z.to_nat off) b ++ take (Z.to_nat n) item ++ drop (Z.to_nat (off + n)) b)
  else None.

(** The waiter queues: [_wq_push(q->tx_q, &q->tx_tail, &q->tx_wait, id)]
    is [_wq_push (tx_ring a) id]. *)
Definition _wq_push (L : ring_at) (id : Z) : prog unit :=
  n <- ring_count L ;;
  if n >=? HARDRT_MAX_TASKS then skip
  else
    ring_store L id ;;
    ring_advance_tail L ;;
    ring_inc_count L.

Definition _wq_pop (L : ring_at) : prog Z :=
  n <- ring_count L ;;
  if n =? 0 then Ret (-1)
  else
    id <- ring_read_head L ;;
    ring_advance_head L ;;
    ring_dec_count L ;;
    Ret id.

(** The pointers are valid when [storage] is given. *)
Definition hrt_queue_init (a : Z) (storage : option (list Z)) (cap isize : Z) : prog unit :=
  match storage with
  | None => HRT_ASSERT false
  | Some b =>
      HRT_ASSERT (cap >? 0) ;;
      HRT_ASSERT (isize >? 0) ;;
      queue_write a (fun m => Some (mkQueue b isize cap 0 0 0
        (mkRing (q (rx m)) 0 0 0) (mkRing (q (tx m)) 0 0 0)))
  end.

Definition _enqueue_cs (a : Z) (item : list Z) : prog Z :=
  n <- queue_read a q_count ;;
  cap <- queue_read a capacity ;;
  if n >=? cap then Ret (-1)
  else
    idx <- queue_read a q_tail ;;
    queue_write a (fun m =>
      b ← copy_in (buf m) (idx * item_size m) (item_size m) item; Some (set_buf b m)) ;;
    queue_write a (fun m => Some (set_tail (u16 ((q_tail m + 1) mod capacity m)) m)) ;;
    queue_write a (fun m => Some (set_qcount (u16 (q_count m + 1)) m)) ;;
    Ret 0.

(** The result carries the bytes copied to [out], when there are any. *)
Definition _dequeue_cs (a : Z) : prog (Z * option (list Z)) :=
  n <- queue_read a q_count ;;
  if n =? 0 then Ret (-1, None)
  else
    idx <- queue_read a q_head ;;
    item <- reads (fun s => m ← m_queues s !! a;
                            copy_out (buf m) (idx * item_size m) (item_size m)) ;;
    queue_write a (fun m => Some (set_head (u16 ((q_head m + 1) mod capacity m)) m)) ;;
    queue_write a (fun m => Some (set_qcount (u16 (q_count m - 1)) m)) ;;
    Ret (0, Some item).

(** Pop one waiter of [L] and make it ready; whether there was one. *)
Definition wake_one (L : ring_at) : prog bool :=
  waiter <- _wq_pop L ;;
  if waiter >=? 0 then hrt__make_ready waiter ;; Ret true else Ret false.

Definition hrt_queue_try_send (a : Z) (item : list Z) : prog Z :=
  call hrt_port_crit_enter ;;
  ok <- _enqueue_cs a item ;;
  woken <- (if ok =? 0 then wake_one (rx_ring a) else Ret false) ;;
  call hrt_port_crit_exit ;;
  (if (woken : bool) then hrt_yield else skip) ;;
  Ret ok.

Definition hrt_queue_try_send_from_isr (a : Z) (item : list Z) (out : bool)
    : prog (Z * option Z) :=
  call hrt_port_crit_enter ;;
  ok <- _enqueue_cs a item ;;
  woken <- (if ok =? 0 then wake_one (rx_ring a) else Ret false) ;;
  call hrt_port_crit_exit ;;
  (if (woken : bool) then call hrt__pend_context_switch else skip) ;;
  Ret (ok, if out then Some (if woken then 1 else 0) else None).

(** One iteration of the loop of [hrt_queue_send]; [Some r] returns [r]. *)
Definition send_body (a : Z) (item : list Z) : prog (option Z) :=
  r <- hrt_queue_try_send a item ;;
  if r =? 0 then Ret (Some 0)
  else
    me <- hrt__get_current ;;
    call hrt_port_crit_enter ;;
    n <- queue_read a q_count ;;
    cap <- queue_read a capacity ;;
    if n <? cap then
      ok <- _enqueue_cs a item ;;
      _ <- wake_one (rx_ring a) ;;
      call hrt_port_crit_exit ;;
      Ret (Some ok)
    else
      _wq_push (tx_ring a) (u8 me) ;;
      let t := hrt__tcb me in
      (if is_null t then skip else tcb_write t (tcb_set_state HRT_BLOCKED)) ;;
      call hrt_port_crit_exit ;;
      call hrt__pend_context_switch ;;
      call hrt_port_yield_to_scheduler ;;
      Ret None.

Definition hrt_queue_send (a : Z) (item : list Z) : prog Z := forever (send_body a item).

Definition hrt_queue_try_recv (a : Z) : prog (Z * option (list Z)) :=
  call hrt_port_crit_enter ;;
  r <- _dequeue_cs a ;;
  woken <- (if r.1 =? 0 then wake_one (tx_ring a) else Ret false) ;;
  call hrt_port_crit_exit ;;
  (if (woken : bool) then hrt_yield else skip) ;;
  Ret r.

Definition hrt_queue_try_recv_from_isr (a : Z) (out : bool)
    : prog (Z * option (list Z) * option Z) :=
  call hrt_port_crit_enter ;;
  r <- _dequeue_cs a ;;
  woken <- (if r.1 =? 0 then wake_one (tx_ring a) else Ret false) ;;
  call hrt_port_crit_exit ;;
  (if (woken : bool) then call hrt__pend_context_switch else skip) ;;
  Ret (r, if out then Some (if woken then 1 else 0) else None).

(** One iteration of the loop of [hrt_queue_recv]. *)
Definition recv_body (a : Z) : prog (option (Z * option (list Z))) :=
  r <- hrt_queue_try_recv a ;;
  if r.1 =? 0 then Ret (Some r)
  else
    me <- hrt__get_current ;;
    call hrt_port_crit_enter ;;
    n <- queue_read a q_count ;;
    if negb (n =? 0) then
      r' <- _dequeue_cs a ;;
      _ <- wake_one (tx_ring a) ;;
      call hrt_port_crit_exit ;;
      Ret (Some r')
    else
      _wq_push (rx_ring a) (u8 me) ;;
      let t := hrt__tcb me in
      (if is_null t then skip else tcb_write t (tcb_set_state HRT_BLOCKED)) ;;
      call hrt_port_crit_exit ;;
      call hrt__pend_context_switch ;;
      call hrt_port_yield_to_scheduler ;;
      Ret None.

Definition hrt_queue_recv (a : Z) : prog (Z * option (list Z)) := forever (recv_body a).

Definition hrt_queue_count (a : Z) : prog Z := queue_read a (fun m => u16 (q_count m)).

End queue.
End Queue.
