(* ===== verification/PortNull.v ===== *)
(** * The null port (src/port/null/port_null.c)

    Every hook is a no-op: nothing ticks and nothing switches. It also
    serves to run core functions that make no port call on their own, the
    way the other ports call them ([core_call]). *)

From stdpp Require Import base tactics numbers list option gmap.
From S2P Require Import Prelude Types Prog Core.
Open Scope Z_scope.
Open Scope prog_scope.

Module Null.

#[export] Instance null_port : PortLayer := {
  pstate := unit;
  crit_enter p := p;
  crit_exit p := p;
  pend_switch p := p;
  yield_to_scheduler s p := PCont s p;
  start_systick _ _ p := p;
  init_idle_task s p := PCont s p;
  prepare_task_stack _ _ _ s p := PCont s p;
  enter_scheduler s p := PCont s p
}.

Section null.
Context `{C : Config}.

(** [hrt__task_trampoline]: [code f a] is the application code of the
    entry point [f] with argument [a]. *)
Definition hrt__task_trampoline (code : Z -> Z -> prog unit) : prog unit :=
  id <- hrt__get_current ;;
  let t := hrt__tcb id in
  (if is_null t then skip
   else
     f <- tcb_read t entry ;;
     if f =? 0 then skip
     else a <- tcb_read t arg ;; code f a) ;;
  hrt_task_delete.

End null.

(** A core function that makes no port call, run to its end. *)
Definition core_call {A} (c : prog A) (s : kern) : @result null_port A := exec 0 c s tt.

End Null.
