(* ===== verification/PortPosix.v ===== *)
(** * The POSIX port (src/port/posix/port_posix.c)

    The port's static state, its hooks, and the parts of its scheduler
    loop between two [swapcontext] calls. Signals are modelled by the mask
    bit of [SIGALRM]; contexts by what the port itself records of them. *)

From stdpp Require Import base tactics numbers list option gmap.
From S2P Require Import Prelude Types Prog Core Sched PortNull.
Open Scope Z_scope.
Open Scope prog_scope.

Module Posix.

Record _port_ctx_t := mkCtx { stk_ptr : Z; stk_bytes : Z; valid : bool }.

Record posix := mkPosix {
  g_crit_depth : Z;
  g_ctxs : list _port_ctx_t;
  g_switch_pending : bool;
  g_sigalrm_set : bool;      (** [SIGALRM] is a member of the set *)
  sigalrm_blocked : bool;    (** the signal mask of the process *)
  itimer_usec : option Z;    (** the period given to [setitimer] *)
  g_test_stop : bool;
  g_idle_counter : Z
}.

Definition set_depth v (p : posix) : posix :=
  mkPosix v (g_ctxs p) (g_switch_pending p) (g_sigalrm_set p) (sigalrm_blocked p)
    (itimer_usec p) (g_test_stop p) (g_idle_counter p).
Definition set_ctxs v (p : posix) : posix :=
  mkPosix (g_crit_depth p) v (g_switch_pending p) (g_sigalrm_set p) (sigalrm_blocked p)
    (itimer_usec p) (g_test_stop p) (g_idle_counter p).
Definition set_pending v (p : posix) : posix :=
  mkPosix (g_crit_depth p) (g_ctxs p) v (g_sigalrm_set p) (sigalrm_blocked p)
    (itimer_usec p) (g_test_stop p) (g_idle_counter p).
Definition set_sigset v (p : posix) : posix :=
  mkPosix (g_crit_depth p) (g_ctxs p) (g_switch_pending p) v (sigalrm_blocked p)
    (itimer_usec p) (g_test_stop p) (g_idle_counter p).
Definition set_blocked v (p : posix) : posix :=
  mkPosix (g_crit_depth p) (g_ctxs p) (g_switch_pending p) (g_sigalrm_set p) v
    (itimer_usec p) (g_test_stop p) (g_idle_counter p).
Definition set_itimer v (p : posix) : posix :=
  mkPosix (g_crit_depth p) (g_ctxs p) (g_switch_pending p) (g_sigalrm_set p) (sigalrm_blocked p)
    v (g_test_stop p) (g_idle_counter p).
Definition set_test_stop v (p : posix) : posix :=
  mkPosix (g_crit_depth p) (g_ctxs p) (g_switch_pending p) (g_sigalrm_set p) (sigalrm_blocked p)
    (itimer_usec p) v (g_idle_counter p).
Definition set_idle_counter v (p : posix) : posix :=
  mkPosix (g_crit_depth p) (g_ctxs p) (g_switch_pending p) (g_sigalrm_set p) (sigalrm_blocked p)
    (itimer_usec p) (g_test_stop p) v.

(** The load-time state. *)
Definition posix_boot `{Config} : posix :=
  mkPosix 0 (replicate (Z.to_nat HARDRT_MAX_TASKS) (mkCtx 0 0 false)) false false false None false 0.

(** ** Signal mask *)

(** [sigprocmask(SIG_BLOCK, &g_sigalrm_set, old)]: adds the members of the
    set to the mask; the old mask is the second result. *)
Definition block_sigalrm (p : posix) : posix * bool :=
  (set_blocked (sigalrm_blocked p || g_sigalrm_set p) p, sigalrm_blocked p).

(** [sigprocmask(SIG_SETMASK, old, NULL)] *)
Definition unblock_sigalrm (old : bool) (p : posix) : posix := set_blocked old p.

(** [sigprocmask(SIG_UNBLOCK, &g_sigalrm_set, NULL)] *)
Definition unmask_sigalrm (p : posix) : posix :=
  set_blocked (sigalrm_blocked p && negb (g_sigalrm_set p)) p.

(** ** Hooks *)

Definition posix_crit_enter (p : posix) : posix :=
  let d := g_crit_depth p in
  let p := set_depth (d + 1) p in
  if d =? 0 then (block_sigalrm p).1 else p.

Definition posix_crit_exit (p : posix) : posix :=
  let d := g_crit_depth p - 1 in
  let p := set_depth d p in
  if d =? 0 then unmask_sigalrm p else p.

Definition posix_pend (p : posix) : posix := set_pending true p.

(** [hrt_port_yield_to_scheduler] up to [swapcontext]. What follows it,
    [unblock_sigalrm(&old)], belongs to the resumption ([resume_mask]). *)
Definition posix_yield `{Config} (s : kern) (p : posix) : port_result posix :=
  let cur := g_current s in
  if (cur <? 0) || (cur =? HRT_IDLE_ID) then PCont s p
  else
    match zget (g_ctxs p) cur with
    | None => PStop HUndef s p
    | Some c => if negb (valid c) then PCont s p else PSwap s (block_sigalrm p).1
    end.

Definition resume_mask (old : bool) (p : posix) : posix := unblock_sigalrm old p.

Definition posix_start_systick (tick_hz : Z) (s : kern) (p : posix) : posix :=
  if decide (g_tick_src s = HRT_TICK_EXTERNAL) then p
  else
    let usec := if tick_hz =? 0 then 1000 else 1000000 / tick_hz in
    set_itimer (Some usec) (set_sigset true p).

Definition posix_prepare (id base words : Z) (s : kern) (p : posix) : port_result posix :=
  let bytes := words * 4 in
  match zset (g_ctxs p) id (mkCtx base bytes true) with
  | Some l => PCont s (set_ctxs l p)
  | None => PStop HUndef s p
  end.

#[export] Instance posix_port `{Config} : PortLayer := {
  pstate := posix;
  crit_enter := posix_crit_enter;
  crit_exit := posix_crit_exit;
  pend_switch := posix_pend;
  yield_to_scheduler := posix_yield;
  start_systick := posix_start_systick;
  init_idle_task s p := PCont s p;
  prepare_task_stack := posix_prepare;
  enter_scheduler s p := PSwap s p
}.

(** ** Tick and idle *)

Section posix.
Context `{C : Config}.

(** [_tick_sighandler] *)
Definition _tick_sighandler (s : kern) (p : posix) : result unit :=
  match exec 0 hrt__tick_isr s p with
  | Done _ s' p' => Done tt s' (set_pending true p')
  | r => r
  end.

(** [hrt_port_idle_wait]: the counter of the test build, then a nap. *)
Definition hrt_port_idle_wait (p : posix) : posix := set_idle_counter (g_idle_counter p + 1) p.

(** ** The scheduler loop *)

Inductive sched_next :=
  | SStopped                    (** left the loop ([g_test_stop]) *)
  | SIdle                       (** napped; next iteration *)
  | SRun (id : Z) (old : bool)  (** [swapcontext] to a task; the saved mask *)
  | SHalt (h : halt).

(** One iteration of [hrt_port_enter_scheduler], up to the switch. *)
Definition sched_iteration (s : kern) (p : posix) : sched_next * kern * posix :=
  if g_test_stop p then (SStopped, s, set_itimer None p)
  else if negb (g_switch_pending p) then (SIdle, s, hrt_port_idle_wait p)
  else
    let p := set_pending false p in
    let '(p, old) := block_sigalrm p in
    match exec 0 hrt__pick_next_ready s p with
    | Done next s p =>
        if (next <? 0) || (next =? HRT_IDLE_ID) then
          (SIdle, s, hrt_port_idle_wait (unblock_sigalrm old p))
        else
          match exec 0 (hrt__set_current next) s p with
          | Done _ s p => (SRun next old, s, p)
          | Halted h s p => (SHalt h, s, p)
          | Swapped _ s p | Spinning s p => (SHalt HUndef, s, p)
          end
    | Halted h s p => (SHalt h, s, p)
    | Swapped _ s p | Spinning s p => (SHalt HUndef, s, p)
    end.

(** The rest of the iteration, when a task has switched back. *)
Definition sched_return (old : bool) (s : kern) (p : posix) : result unit :=
  match exec 0 hrt__on_scheduler_entry s p with
  | Done _ s p => Done tt s (unblock_sigalrm old p)
  | r => r
  end.

(** [hrt__task_trampoline] *)
Definition hrt__task_trampoline (code : Z -> Z -> prog unit) : prog unit :=
  id <- hrt__get_current ;;
  let t := hrt__tcb id in
  f <- tcb_read t entry ;;
  a <- tcb_read t arg ;;
  code f a ;;
  hrt_task_delete.

(** ** Test hooks *)

Definition hrt__test_stop_scheduler (p : posix) : posix := set_test_stop true p.
Definition hrt__test_reset_scheduler_state (p : posix) : posix :=
  set_pending true (set_test_stop false p).
Definition hrt__test_idle_counter_reset (p : posix) : posix := set_idle_counter 0 p.
Definition hrt__test_idle_counter_value (p : posix) : Z := g_idle_counter p.

Fixpoint ticks (delta : nat) (s : kern) (p : posix) : result unit :=
  match delta with
  | O => Done tt s p
  | S d =>
      match exec 0 hrt__tick_isr s p with
      | Done _ s' p' => ticks d s' p'
      | r => r
      end
  end.

Definition hrt__test_fast_forward_ticks (delta : Z) (s : kern) (p : posix) : result unit :=
  let '(p1, old) := block_sigalrm p in
  match ticks (Z.to_nat delta) s p1 with
  | Done _ s' p' => Done tt s' (unblock_sigalrm old p')
  | r => r
  end.

End posix.
End Posix.
