(* ===== verification/PortCortexM.v ===== *)
(** * The Cortex-M port (src/port/cortex_m)

    The registers the port reads and writes, its RAM as a map from word
    addresses to words, its hooks, and the PendSV handler. The addresses
    the linker chooses and the vendor's [SystemCoreClock] are parameters. *)

From stdpp Require Import base tactics numbers list option gmap.
From S2P Require Import Prelude Types Prog Core Sched PortNull.
Open Scope Z_scope.
Open Scope prog_scope.

Module CortexM.

(** Symbols of the linker script and of the vendor files, and the macros
    of the build. *)
Class CortexEnv := {
  __RAM_START__ : Z;
  __RAM_END__ : Z;
  SystemCoreClock : Z;
  HARDRT_NVIC_PRIO_BITS : Z;
  HARDRT_MAX_SYSCALL_IRQ_PRIO : Z;
  addr_task_trampoline : Z;   (** [hrt__task_trampoline] *)
  addr_idle_task : Z;         (** [hrt_idle_task] *)
  addr_idle_stack : Z         (** [g_idle_stack] *)
}.

Definition HRT_SP_FRAME_BYTES : Z := 64.
Definition SCB_ICSR_PENDSVSET_Msk : Z := Z.shiftl 1 28.
Definition SYSTICK_CLKSOURCE_CPU : Z := Z.shiftl 1 2.
Definition SYSTICK_TICKINT : Z := Z.shiftl 1 1.
Definition SYSTICK_ENABLE : Z := Z.shiftl 1 0.

Record cortex := mkCortex {
  BASEPRI : Z;
  g_basepri_prev : Z;
  g_cs_nest : Z;
  pendsv : bool;            (** PendSV is pending *)
  irq_enabled : bool;       (** PRIMASK is clear *)
  SysTick_LOAD : Z;
  SysTick_VAL : Z;
  SysTick_CTRL : Z;
  SHPR10 : Z;               (** priority of PendSV *)
  SHPR11 : Z;               (** priority of SysTick *)
  ram : gmap Z Z;           (** words, by address *)
  g_idle_tcb : _hrt_tcb_t
}.

Definition set_basepri v (p : cortex) : cortex :=
  mkCortex v (g_basepri_prev p) (g_cs_nest p) (pendsv p) (irq_enabled p) (SysTick_LOAD p)
    (SysTick_VAL p) (SysTick_CTRL p) (SHPR10 p) (SHPR11 p) (ram p) (g_idle_tcb p).
Definition set_basepri_prev v (p : cortex) : cortex :=
  mkCortex (BASEPRI p) v (g_cs_nest p) (pendsv p) (irq_enabled p) (SysTick_LOAD p)
    (SysTick_VAL p) (SysTick_CTRL p) (SHPR10 p) (SHPR11 p) (ram p) (g_idle_tcb p).
Definition set_nest v (p : cortex) : cortex :=
  mkCortex (BASEPRI p) (g_basepri_prev p) v (pendsv p) (irq_enabled p) (SysTick_LOAD p)
    (SysTick_VAL p) (SysTick_CTRL p) (SHPR10 p) (SHPR11 p) (ram p) (g_idle_tcb p).
Definition set_pendsv v (p : cortex) : cortex :=
  mkCortex (BASEPRI p) (g_basepri_prev p) (g_cs_nest p) v (irq_enabled p) (SysTick_LOAD p)
    (SysTick_VAL p) (SysTick_CTRL p) (SHPR10 p) (SHPR11 p) (ram p) (g_idle_tcb p).
Definition set_irq v (p : cortex) : cortex :=
  mkCortex (BASEPRI p) (g_basepri_prev p) (g_cs_nest p) (pendsv p) v (SysTick_LOAD p)
    (SysTick_VAL p) (SysTick_CTRL p) (SHPR10 p) (SHPR11 p) (ram p) (g_idle_tcb p).
Definition set_systick load val ctrl (p : cortex) : cortex :=
  mkCortex (BASEPRI p) (g_basepri_prev p) (g_cs_nest p) (pendsv p) (irq_enabled p) load
    val ctrl (SHPR10 p) (SHPR11 p) (ram p) (g_idle_tcb p).
Definition set_shpr10 v (p : cortex) : cortex :=
  mkCortex (BASEPRI p) (g_basepri_prev p) (g_cs_nest p) (pendsv p) (irq_enabled p) (SysTick_LOAD p)
    (SysTick_VAL p) (SysTick_CTRL p) v (SHPR11 p) (ram p) (g_idle_tcb p).
Definition set_shpr11 v (p : cortex) : cortex :=
  mkCortex (BASEPRI p) (g_basepri_prev p) (g_cs_nest p) (pendsv p) (irq_enabled p) (SysTick_LOAD p)
    (SysTick_VAL p) (SysTick_CTRL p) (SHPR10 p) v (ram p) (g_idle_tcb p).
Definition set_ram v (p : cortex) : cortex :=
  mkCortex (BASEPRI p) (g_basepri_prev p) (g_cs_nest p) (pendsv p) (irq_enabled p) (SysTick_LOAD p)
    (SysTick_VAL p) (SysTick_CTRL p) (SHPR10 p) (SHPR11 p) v (g_idle_tcb p).
Definition set_idle_tcb v (p : cortex) : cortex :=
  mkCortex (BASEPRI p) (g_basepri_prev p) (g_cs_nest p) (pendsv p) (irq_enabled p) (SysTick_LOAD p)
    (SysTick_VAL p) (SysTick_CTRL p) (SHPR10 p) (SHPR11 p) (ram p) v.

(** The state out of reset. *)
Definition cortex_reset : cortex :=
  mkCortex 0 0 0 false true 0 0 0 0 0 ∅ tcb_zero.

Section port.
Context `{C : Config} `{Env : CortexEnv}.

(** ** Stack pointer check *)

Definition hrt_port_sp_valid (sp : Z) : prog unit :=
  let ram_lo := u32 __RAM_START__ in
  let ram_hi := u32 __RAM_END__ in
  let frame_bytes := HRT_SP_FRAME_BYTES in
  (if sp =? 0 then hrt_error ERR_SP_NULL else skip) ;;
  (if u32 (ram_hi - ram_lo) <? 2 * frame_bytes then hrt_error ERR_INVALID_RAM_RANGE else skip) ;;
  (if (sp <? u32 (ram_lo + frame_bytes)) || (sp >? u32 (ram_hi - frame_bytes))
   then hrt_error ERR_STACK_RANGE else skip) ;;
  (if negb (Z.land sp 7 =? 0) then hrt_error ERR_STACK_ALIGN else skip).

Definition hrt_port_get_core_hz : Z :=
  if negb (SystemCoreClock =? 0) then SystemCoreClock else 100000000.

(** ** Critical sections *)

Definition _prio_to_basepri (prio : Z) : Z :=
  Z.land (u32 (Z.shiftl prio (8 - HARDRT_NVIC_PRIO_BITS))) 255.

Definition cm_crit_enter (p : cortex) : cortex :=
  let prev := BASEPRI p in
  let p :=
    if g_cs_nest p =? 0 then
      set_basepri (_prio_to_basepri HARDRT_MAX_SYSCALL_IRQ_PRIO) (set_basepri_prev prev p)
    else p in
  set_nest (u32 (g_cs_nest p + 1)) p.

Definition cm_crit_exit (p : cortex) : cortex :=
  if g_cs_nest p =? 0 then p
  else
    let p := set_nest (g_cs_nest p - 1) p in
    if g_cs_nest p =? 0 then set_basepri (g_basepri_prev p) p else p.

(** ** Stack frames *)

(** [*(--stk) = w] for each word of the list, in order: the new [stk] and RAM. *)
Fixpoint push_words (ws : list Z) (stk : Z) (m : gmap Z Z) : Z * gmap Z Z :=
  match ws with
  | [] => (stk, m)
  | w :: ws' => push_words ws' (stk - 4) (<[stk - 4 := w]> m)
  end.

(** xPSR, PC, LR, R12, R3, R2, R1, R0, then R11 to R4. *)
Definition exception_frame (pc lr : Z) : list Z :=
  [16777216; pc; lr; 0; 0; 0; 0; 0] ++ replicate 8 0.

(** A core function called by the port, on the kernel state alone. *)
Definition call_core (c : prog unit) (s : kern) (p : cortex) : port_result cortex :=
  match Null.core_call c s with
  | Done _ s' _ => PCont s' p
  | Halted h s' _ => PStop h s' p
  | Swapped _ s' _ | Spinning s' _ => PStop HUndef s' p
  end.

Definition cm_init_idle_task (s : kern) (p : cortex) : port_result cortex :=
  let tc := mkTcb 0 0 0 addr_idle_task 0 0 0 0 0 HRT_READY in
  let stk := addr_idle_stack + 4 * HARDRT_IDLE_STACK_WORDS in
  let '(stk, m) := push_words (exception_frame addr_idle_task addr_task_trampoline) stk (ram p) in
  call_core (_set_sp HRT_IDLE_ID stk) s (set_ram m (set_idle_tcb (tcb_set_sp stk tc) p)).

Definition cm_prepare (id stack_base words : Z) (s : kern) (p : cortex) : port_result cortex :=
  let stack_end := stack_base + 4 * words in
  let stk := Z.land stack_end (Z.lnot 7) in
  if (stk <=? stack_base) || (stk >? stack_end) then call_core (hrt_error ERR_STACK_RANGE) s p
  else
    let '(stk, m) := push_words (exception_frame addr_task_trampoline 4294967293) stk (ram p) in
    let p := set_ram m p in
    if stk <? stack_base then call_core (hrt_error ERR_STACK_UNDERFLOW_INIT) s p
    else call_core (_set_sp id stk) s p.

(** ** Switch requests and SysTick *)

(** [SCB->ICSR = SCB_ICSR_PENDSVSET_Msk]: writing the bit sets the request. *)
Definition write_icsr (v : Z) (p : cortex) : cortex :=
  if negb (Z.land v SCB_ICSR_PENDSVSET_Msk =? 0) then set_pendsv true p else p.

Definition _pend_pendsv (p : cortex) : cortex := write_icsr SCB_ICSR_PENDSVSET_Msk p.

(** The value programmed into [SysTick->LOAD]. *)
Definition systick_reload (core_hz tick_hz : Z) : Z :=
  let reload := core_hz / tick_hz in
  let reload := if reload =? 0 then 1 else reload in
  let reload := if reload >? 16777215 then 16777215 else reload in
  reload - 1.

Definition cm_start_systick (tick_hz : Z) (s : kern) (p : cortex) : cortex :=
  if tick_hz =? 0 then p
  else if decide (g_tick_src s = HRT_TICK_EXTERNAL) then set_irq true (set_shpr10 240 p)
  else
    let core_hz := hrt_port_get_core_hz in
    if core_hz =? 0 then p
    else
      let ctrl := Z.lor (Z.lor SYSTICK_CLKSOURCE_CPU SYSTICK_TICKINT) SYSTICK_ENABLE in
      set_irq true (set_systick (systick_reload core_hz tick_hz) 0 ctrl
        (set_shpr11 224 (set_shpr10 240 p))).

(** [hrt_port_yield_to_scheduler] returns: the switch is taken by the
    handler. [hrt_port_enter_scheduler] does not. *)
#[export] Instance cortex_port : PortLayer := {
  pstate := cortex;
  crit_enter := cm_crit_enter;
  crit_exit := cm_crit_exit;
  pend_switch := _pend_pendsv;
  yield_to_scheduler s p := PCont s (_pend_pendsv p);
  start_systick := cm_start_systick;
  init_idle_task := cm_init_idle_task;
  prepare_task_stack := cm_prepare;
  enter_scheduler s p := PSwap s (_pend_pendsv (set_irq true p))
}.

Definition SysTick_Handler : prog unit :=
  src <- hrt__cfg_tick_src ;;
  if decide (src <> HRT_TICK_EXTERNAL) then hrt__tick_isr else skip.

Definition hrt__task_trampoline (code : Z -> Z -> prog unit) : prog unit :=
  id <- hrt__get_current ;;
  (if HARDRT_DEBUG && (id <? 0) then hrt_error ERR_INVALID_ID else skip) ;;
  let t := hrt__tcb id in
  (if HARDRT_DEBUG && is_null t then hrt_error ERR_TCB_NULL else skip) ;;
  f <- tcb_read t entry ;;
  a <- tcb_read t arg ;;
  code f a ;;
  hrt_task_delete.

(** ** The PendSV handler (hrt_pendsv_handler.s)

    The registers it saves and restores: the stack pointer of the task and
    [r4] to [r11]. *)

Record cpu := mkCpu { psp : Z; r4_r11 : list Z }.

Inductive pendsv_exit :=
  | ExcReturn (c : cpu)   (** [bx lr] with [lr = 0xFFFFFFFD] *)
  | BxReturnAddress       (** [bx lr] with [lr] set by [bl hrt__schedule] *)
  | PendsvHalt (h : halt).

(** [stmdb r0!, {r4-r11}] and [ldmia r0!, {r4-r11}] at address [sp]. *)
Fixpoint store_words (sp : Z) (ws : list Z) (m : gmap Z Z) : gmap Z Z :=
  match ws with
  | [] => m
  | w :: ws' => store_words (sp + 4) ws' (<[sp := w]> m)
  end.

Definition load_words (sp : Z) (n : nat) (m : gmap Z Z) : list Z :=
  (fun i => default 0 (m !! (sp + 4 * Z.of_nat i))) <$> seq 0 n.

Definition PendSV_Handler (c : cpu) (s : kern) (p : cortex) : pendsv_exit * kern * cortex :=
  let p := set_pendsv false p in
  let '(old_sp, p) :=
    if psp c =? 0 then (0, p)
    else (psp c - 32, set_ram (store_words (psp c - 32) (r4_r11 c) (ram p)) p) in
  match Null.core_call (hrt__schedule old_sp) s with
  | Done new_sp s' _ =>
      if new_sp =? 0 then (BxReturnAddress, s', p)
      else (ExcReturn (mkCpu (new_sp + 32) (load_words new_sp 8 (ram p))), s', p)
  | Halted h s' _ => (PendsvHalt h, s', p)
  | Swapped _ s' _ | Spinning s' _ => (PendsvHalt HUndef, s', p)
  end.

End port.
End CortexM.
