(* ===== verification/Info.v ===== *)
(** * Version and port identity (hardrt_version.c, hardrt_portinfo.c)

    The values the build substitutes into the generated headers are
    parameters. *)

From stdpp Require Import base tactics numbers strings.
From S2P Require Import Prelude.
Open Scope Z_scope.

Module Info.

Class BuildInfo := {
  HARDRT_VERSION_MAJOR : Z;
  HARDRT_VERSION_MINOR : Z;
  HARDRT_VERSION_PATCH : Z;
  HARDRT_VERSION_STRING : string;
  HARDRT_PORT_STRING : string;
  HARDRT_PORT_ID : Z
}.

Section info.
Context `{BuildInfo}.

Definition hrt_version_string : string := HARDRT_VERSION_STRING.

Definition hrt_version_u32 : Z :=
  u32 (Z.lor (Z.lor (Z.shiftl HARDRT_VERSION_MAJOR 16) (Z.shiftl HARDRT_VERSION_MINOR 8))
         HARDRT_VERSION_PATCH).

Definition hrt_port_name : string := HARDRT_PORT_STRING.
Definition hrt_port_id : Z := HARDRT_PORT_ID.

End info.
End Info.
