(* ===== verification/Cpp.v ===== *)
(** * The C++ wrapper (cpp/hardrtpp.hpp)

    One module per class, one definition per method. An object of a class
    is named by the address of its only data member ([_sem], [_q], [_m]),
    as the C functions name their argument. Arguments are converted to the
    parameter types of the methods. *)

From stdpp Require Import base tactics numbers list option gmap strings.
From S2P Require Import Prelude Types Prog Ring Core Sem Mutex Queue Info.
Open Scope Z_scope.
Open Scope prog_scope.

(** The address of [static uint32_t stack[StackWords]], one array for each
    instance [create<StackWords, Tag>]. *)
Class StaticStacks := { static_stack : Z -> Z -> Z }.

Module Task.
Section task.
Context `{C : Config} `{S : StaticStacks}.

Definition create (StackWords Tag fn argp prio slice : Z) : prog Z :=
  let stack := static_stack StackWords Tag in
  let a := {| priority := prio; timeslice := u16 slice |} in
  hrt_create_task fn argp stack StackWords (Some a).

Definition create_with_stack (fn argp stack words prio slice : Z) : prog Z :=
  let a := {| priority := prio; timeslice := u16 slice |} in
  hrt_create_task fn argp stack words (Some a).

Definition sleep (ms : Z) : prog unit := hrt_sleep (u32 ms).
Definition yield : prog unit := hrt_yield.
Definition delete_current : prog unit := hrt_task_delete.

End task.
End Task.

Module Sys.
Section sys.
Context `{C : Config} `{B : Info.BuildInfo}.

Definition init (cfg : hrt_config_t) : prog Z := hrt_init (Some cfg).
Definition start : prog unit := hrt_start.
Definition tick_now : prog Z := hrt_tick_now.
Definition now_ms : prog Z := hrt_now_ms.
Definition version_string : string := Info.hrt_version_string.
Definition version_u32 : Z := Info.hrt_version_u32.
Definition port_name : string := Info.hrt_port_name.
Definition port_id : Z := Info.hrt_port_id.

End sys.
End Sys.

Module Semaphore.
Section semaphore.
Context `{C : Config}.

(** [Semaphore(unsigned init, uint8_t max_count)] *)
Definition Semaphore (this init max_count : Z) : prog unit :=
  let init := u32 init in
  let max_count := u8 max_count in
  if max_count <=? 1 then Sem.hrt_sem_init this init
  else Sem.hrt_sem_init_counting this init max_count.

Definition take (this : Z) : prog Z := Sem.hrt_sem_take this.
Definition try_take (this : Z) : prog Z := Sem.hrt_sem_try_take this.
Definition give (this : Z) : prog Z := Sem.hrt_sem_give this.

(** The second result is the new value of [need_switch]. *)
Definition give_from_isr (this : Z) : prog (Z * option Z) := Sem.hrt_sem_give_from_isr this true.

End semaphore.
End Semaphore.

(** An item type: the size of its objects, the bytes of an object, and the
    object that given bytes are read as. *)
Class Object (T : Type) := {
  sizeof : Z;
  valid : T -> Prop;
  to_bytes : T -> list Z;
  of_bytes : list Z -> T
}.
Arguments sizeof T {_}.

(** What [memcpy] from and into objects relies on: an object is its bytes. *)
Class TriviallyCopyable T `{Object T} : Prop := {
  sizeof_pos : 0 < sizeof T;
  to_bytes_length : forall x, Z.of_nat (length (to_bytes x)) = sizeof T;
  of_to_bytes : forall x : T, valid x -> of_bytes (to_bytes x) = x
}.

Module QueueRef.
Section queue_ref.
Context `{C : Config} {T : Type} `{O : Object T}.

Definition init (this : Z) (storage : option (list Z)) (capacity : Z) : prog unit :=
  Queue.hrt_queue_init this storage (u16 capacity) (sizeof T).

Definition send (this : Z) (item : T) : prog Z := Queue.hrt_queue_send this (to_bytes item).
Definition try_send (this : Z) (item : T) : prog Z :=
  Queue.hrt_queue_try_send this (to_bytes item).

(** [out] after the call: the bytes received, or what it was. *)
Definition received (out : T) (b : option (list Z)) : T :=
  match b with Some b => of_bytes b | None => out end.

Definition recv (this : Z) (out : T) : prog (Z * T) :=
  r <- Queue.hrt_queue_recv this ;; Ret (r.1, received out r.2).
Definition try_recv (this : Z) (out : T) : prog (Z * T) :=
  r <- Queue.hrt_queue_try_recv this ;; Ret (r.1, received out r.2).

Definition try_send_from_isr (this : Z) (item : T) : prog (Z * option Z) :=
  Queue.hrt_queue_try_send_from_isr this (to_bytes item) true.
Definition try_recv_from_isr (this : Z) (out : T) : prog (Z * T * option Z) :=
  r <- Queue.hrt_queue_try_recv_from_isr this true ;;
  Ret (r.1.1, received out r.1.2, r.2).

Definition native_handle (this : Z) : Z := this.

End queue_ref.
End QueueRef.

Module StaticQueue.
Section static_queue.
Context `{C : Config} {T : Type} `{O : Object T}.

(** [StaticQueue<T, Capacity>()]: [_storage] is zero-initialised. *)
Definition StaticQueue (Capacity this : Z) : prog unit :=
  let storage := replicate (Z.to_nat (Capacity * sizeof T)) 0 in
  Queue.hrt_queue_init this (Some storage) (u16 Capacity) (sizeof T).

Definition send (this : Z) (item : T) : prog Z := Queue.hrt_queue_send this (to_bytes item).
Definition try_send (this : Z) (item : T) : prog Z :=
  Queue.hrt_queue_try_send this (to_bytes item).
Definition recv (this : Z) (out : T) : prog (Z * T) :=
  r <- Queue.hrt_queue_recv this ;; Ret (r.1, QueueRef.received out r.2).
Definition try_recv (this : Z) (out : T) : prog (Z * T) :=
  r <- Queue.hrt_queue_try_recv this ;; Ret (r.1, QueueRef.received out r.2).
Definition try_send_from_isr (this : Z) (item : T) : prog (Z * option Z) :=
  Queue.hrt_queue_try_send_from_isr this (to_bytes item) true.
Definition try_recv_from_isr (this : Z) (out : T) : prog (Z * T * option Z) :=
  r <- Queue.hrt_queue_try_recv_from_isr this true ;;
  Ret (r.1.1, QueueRef.received out r.1.2, r.2).
Definition native_handle (this : Z) : Z := this.

End static_queue.
End StaticQueue.

Module CppMutex.
Section cpp_mutex.
Context `{C : Config}.

Definition ctor (this : Z) : prog unit := Mutex.hrt_mutex_init this.
Definition lock (this : Z) : prog Z := Mutex.hrt_mutex_lock this.
Definition try_lock (this : Z) : prog Z := Mutex.hrt_mutex_try_lock this.
Definition unlock (this : Z) : prog Z := Mutex.hrt_mutex_unlock this.

End cpp_mutex.
End CppMutex.

(** ** 32-bit unsigned integers, little-endian on every port *)

Definition byte_at (i v : Z) : Z := u8 (Z.shiftr v (8 * i)).

Definition u32_bytes (v : Z) : list Z := byte_at 0 v :: byte_at 1 v :: byte_at 2 v :: [byte_at 3 v].

Definition bytes_u32 (b : list Z) : Z :=
  match b with
  | [b0; b1; b2; b3] => b0 + 256 * b1 + 65536 * b2 + 16777216 * b3
  | _ => 0
  end.

#[export] Instance uint32_object : Object Z := {
  sizeof := 4;
  valid v := 0 <= v < 2 ^ 32;
  to_bytes := u32_bytes;
  of_bytes := bytes_u32
}.

Lemma bytes_u32_bytes v : 0 <= v < 2 ^ 32 -> bytes_u32 (u32_bytes v) = v.
Proof.
  intros H. unfold bytes_u32, u32_bytes, byte_at, u8. rewrite !Z.shiftr_div_pow2 by lia.
  change (8 * 0) with 0. change (8 * 1) with 8. change (8 * 2) with 16. change (8 * 3) with 24.
  change (2 ^ 0) with 1. change (2 ^ 8) with 256. change (2 ^ 16) with 65536.
  change (2 ^ 24) with 16777216. change (2 ^ 32) with 4294967296 in H.
  Z.div_mod_to_equations. lia.
Qed.

#[export] Instance uint32_copyable : TriviallyCopyable Z.
Proof. split; [done|done|exact bytes_u32_bytes]. Qed.
