(* ===== verification/CoreFacts.v ===== *)
(** * Correctness of the ready queues and of task selection

    The ready queues of the kernel refine one list of task ids per
    priority ([ready]): a push appends to one of them and the selection
    takes the head of the first non-empty one. *)

From stdpp Require Import base tactics numbers list option gmap.
From S2P Require Import Prelude Types Prog Ring Core.
Open Scope Z_scope.
Open Scope prog_scope.

(** ** The abstract ready queues *)

Section spec.
Context `{C : Config}.

(** One list of task ids per priority, oldest first. *)
Definition ready (s : kern) : list (list Z) := ring_list <$> g_rq s.

(** Highest-priority-first selection, FIFO within a priority. *)
Fixpoint pick_spec (rd : list (list Z)) : option (Z * list (list Z)) :=
  match rd with
  | [] => None
  | [] :: rd' => '(x, rd'') ← pick_spec rd'; Some (x, [] :: rd'')
  | (x :: l) :: rd' => Some (x, l :: rd')
  end.

Definition valid_id (id : Z) : Prop := 0 <= id < HARDRT_MAX_TASKS.

(** Widths of the integer fields of a TCB. *)
Record tcb_wf (t : _hrt_tcb_t) : Prop := {
  twf_wake : 0 <= wake_tick t < 2 ^ 32;
  twf_slice : 0 <= timeslice_cfg t < 2 ^ 16;
  twf_left : 0 <= slice_left t < 2 ^ 16;
  twf_prio : 0 <= prio t < 2 ^ 8
}.

(** Well-formedness of the kernel state: array sizes and integer ranges. *)
Record kern_wf (s : kern) : Prop := {
  kwf_tcbs : Z.of_nat (length (g_tcbs s)) = HARDRT_MAX_TASKS;
  kwf_rq : Z.of_nat (length (g_rq s)) = HARDRT_MAX_PRIO;
  kwf_tcb : Forall tcb_wf (g_tcbs s);
  kwf_tick : 0 <= g_tick s < 2 ^ 32;
  kwf_hz : 0 <= g_tick_hz s < 2 ^ 32;
  kwf_slice : 0 <= g_default_slice s < 2 ^ 16
}.

(** Replacing one TCB. *)
Definition kset_tcb (id : Z) (tc : _hrt_tcb_t) (s : kern) : kern :=
  set_tcbs (<[Z.to_nat id := tc]> (g_tcbs s)) s.

(** The TCB of a task that becomes ready: a fresh quantum. *)
Definition tcb_refill (tc : _hrt_tcb_t) : _hrt_tcb_t := tcb_set_slice_left (timeslice_cfg tc) tc.
Definition tcb_ready (tc : _hrt_tcb_t) : _hrt_tcb_t := tcb_refill (tcb_set_state HRT_READY tc).

End spec.

Section core_facts.
Context `{C : Config} {Cok : ConfigOk C} `{PL : PortLayer}.
Implicit Types (s : kern) (p : pstate).

Lemma idle_valid : valid_id HRT_IDLE_ID.
Proof. unfold valid_id, HRT_IDLE_ID. pose proof max_tasks_bounds. lia. Qed.

Lemma id_in_range id : valid_id id -> id_out_of_range id = false.
Proof. unfold valid_id, id_out_of_range. intros. by zbool. Qed.

Lemma tcb_ptr id : valid_id id -> hrt__tcb id = Some id.
Proof. intros H. unfold hrt__tcb. by rewrite id_in_range, andb_false_r. Qed.

Lemma valid_u8 id : valid_id id -> u8 id = id.
Proof. intros [? ?]. destruct Cok. apply u8_id. lia. Qed.

Lemma tcb_upd_Some id f s tc :
  zget (g_tcbs s) id = Some tc -> tcb_upd (Some id) f s = Some (kset_tcb id (f tc) s).
Proof.
  intros H. pose proof (zget_Some _ _ _ H). unfold tcb_upd. cbn. rewrite H. cbn.
  by rewrite zset_Some.
Qed.

Lemma tcb_get_Some id s tc : zget (g_tcbs s) id = Some tc -> tcb_get s (Some id) = Some tc.
Proof. done. Qed.

Lemma kset_tcb_get id tc s tc0 :
  zget (g_tcbs s) id = Some tc0 -> zget (g_tcbs (kset_tcb id tc s)) id = Some tc.
Proof. intros H. cbn. apply zget_insert_eq. by eapply zget_Some. Qed.

Lemma kset_tcb_twice id tc tc' s : kset_tcb id tc' (kset_tcb id tc s) = kset_tcb id tc' s.
Proof. unfold kset_tcb, set_tcbs. cbn. by rewrite list_insert_insert_eq. Qed.

(** ** The ready queues as lists *)

Lemma ready_lookup s pr :
  kern_wf s -> 0 <= pr < HARDRT_MAX_PRIO -> ready s !! Z.to_nat pr = Some (qlist (rq_ring pr) s).
Proof.
  intros W Hp. destruct (zget_is_Some (g_rq s) pr) as [r Hr]; [destruct W; lia|].
  unfold ready, qlist. cbn. rewrite Hr. cbn. rewrite list_lookup_fmap.
  unfold zget in Hr. destruct (pr <? 0); [done|]. by rewrite Hr.
Qed.

Lemma ready_length s : kern_wf s -> Z.of_nat (length (ready s)) = HARDRT_MAX_PRIO.
Proof. intros W. unfold ready. rewrite length_fmap. apply W. Qed.

(** ** [rq_push] and [rq_pop] *)

Lemma exec_rq_push n s p pr id :
  0 <= pr < HARDRT_MAX_PRIO -> valid_id id -> ring_ok (rq_ring pr) s ->
  Z.of_nat (length (qlist (rq_ring pr) s)) < HARDRT_MAX_TASKS ->
  exec n (rq_push pr id) s p = Done tt (lpush (rq_ring pr) id s) p.
Proof.
  intros Hp Hid Hr Hl. unfold rq_push. zbool. rewrite id_in_range, andb_false_r by done.
  erewrite exec_bind by by apply exec_ring_count.
  zbool. rewrite valid_u8 by done. by apply exec_ring_push.
Qed.

Lemma exec_rq_pop_empty n s p pr :
  0 <= pr < HARDRT_MAX_PRIO -> ring_ok (rq_ring pr) s -> qlist (rq_ring pr) s = [] ->
  exec n (rq_pop pr) s p = Done (-1) s p.
Proof.
  intros Hp Hr Hl. unfold rq_pop. zbool. rewrite andb_false_r.
  erewrite exec_bind by by apply exec_ring_count. by rewrite Hl.
Qed.

Lemma exec_rq_pop n s p pr x l :
  0 <= pr < HARDRT_MAX_PRIO -> ring_ok (rq_ring pr) s -> qlist (rq_ring pr) s = x :: l ->
  valid_id x ->
  exec n (rq_pop pr) s p = Done x (lpop (rq_ring pr) s) p.
Proof.
  intros Hp Hr Hl Hx. unfold rq_pop. zbool. rewrite andb_false_r.
  erewrite exec_bind by by apply exec_ring_count. rewrite Hl. cbn [length].
  zbool. rewrite andb_false_r.
  erewrite exec_bind by by eapply exec_ring_read_head.
  rewrite id_in_range, andb_false_r by done.
  rewrite <- bind_assoc. by erewrite exec_bind by by apply exec_ring_drop.
Qed.

(** ** Selection *)

(** The queue the selection takes a task from: the first non-empty one. *)
Fixpoint first_ready (s : kern) (ps : list Z) : option (Z * Z) :=
  match ps with
  | [] => None
  | pr :: ps' =>
      match qlist (rq_ring pr) s with
      | [] => first_ready s ps'
      | x :: _ => Some (pr, x)
      end
  end.

Lemma exec_pick_from n s p ps :
  (forall pr, pr ∈ ps -> 0 <= pr < HARDRT_MAX_PRIO /\ ring_ok (rq_ring pr) s /\
                      Forall valid_id (qlist (rq_ring pr) s)) ->
  exec n (pick_from ps) s p =
  match first_ready s ps with
  | Some (pr, x) => Done x (lpop (rq_ring pr) s) p
  | None => Done HRT_IDLE_ID s p
  end.
Proof.
  induction ps as [|pr ps IH]; intros H; [done|].
  destruct (H pr) as (Hp & Hr & Hv); [apply list_elem_of_here|].
  cbn [pick_from first_ready]. destruct Cok. rewrite u8_id by lia.
  destruct (qlist (rq_ring pr) s) as [|x l] eqn:Hl.
  - erewrite exec_bind by by apply exec_rq_pop_empty.
    apply IH. intros pr' Hin. apply H. by apply list_elem_of_further.
  - apply Forall_cons in Hv as [Hx _].
    erewrite exec_bind by by eapply exec_rq_pop. destruct Hx. by zbool.
Qed.

(** ** TCB statements *)

Lemma exec_tcb_read {A B} n id (f : _hrt_tcb_t -> A) (k : A -> prog B) s p tc :
  zget (g_tcbs s) id = Some tc ->
  exec n (bind (tcb_read (Some id) f) k) s p = exec n (k (f tc)) s p.
Proof. intros H. apply exec_reads. unfold tcb_get. cbn. by rewrite H. Qed.

Lemma exec_tcb_read_last {A} n id (f : _hrt_tcb_t -> A) s p tc :
  zget (g_tcbs s) id = Some tc -> exec n (tcb_read (Some id) f) s p = Done (f tc) s p.
Proof. intros H. apply exec_reads_last. unfold tcb_get. cbn. by rewrite H. Qed.

Lemma exec_tcb_write {B} n id f (k : unit -> prog B) s p tc :
  zget (g_tcbs s) id = Some tc ->
  exec n (bind (tcb_write (Some id) f) k) s p = exec n (k tt) (kset_tcb id (f tc) s) p.
Proof. intros H. apply exec_writes. by apply tcb_upd_Some. Qed.

Lemma exec_tcb_write_last n id f s p tc :
  zget (g_tcbs s) id = Some tc ->
  exec n (tcb_write (Some id) f) s p = Done tt (kset_tcb id (f tc) s) p.
Proof. intros H. apply exec_writes_last. by apply tcb_upd_Some. Qed.

End core_facts.

(** Run the statements on the TCB of a task known to the context. *)
Ltac xtcb1 :=
  match goal with
  | |- context [exec _ (bind (tcb_read (Some _) _) _) _ _] =>
      erewrite exec_tcb_read by eauto using kset_tcb_get
  | |- context [exec _ (bind (tcb_write (Some _) _) _) _ _] =>
      erewrite exec_tcb_write by eauto using kset_tcb_get
  | |- context [exec _ (tcb_read (Some _) _) _ _] =>
      erewrite exec_tcb_read_last by eauto using kset_tcb_get
  | |- context [exec _ (tcb_write (Some _) _) _ _] =>
      erewrite exec_tcb_write_last by eauto using kset_tcb_get
  end; rewrite ?kset_tcb_twice.
Ltac xtcb := cbv beta iota; repeat (xtcb1; xrun).

Section core_api.
Context `{C : Config} {Cok : ConfigOk C} `{PL : PortLayer}.
Implicit Types (s : kern) (p : pstate).

Lemma exec_error {B} n code (k : unit -> prog B) s p :
  HARDRT_STALL_ON_ERROR = false ->
  exec n (bind (hrt_error code) k) s p = exec n (k tt) (set_error code s) p.
Proof. intros H. unfold hrt_error. rewrite H. done. Qed.

Lemma exec_error_last n code s p :
  HARDRT_STALL_ON_ERROR = false ->
  exec n (hrt_error code) s p = Done tt (set_error code s) p.
Proof. intros H. unfold hrt_error. rewrite H. done. Qed.

(** ** Becoming ready *)

Lemma exec_make_ready n s p id tc :
  valid_id id -> zget (g_tcbs s) id = Some tc -> state tc <> HRT_READY ->
  0 <= prio tc < HARDRT_MAX_PRIO -> ring_ok (rq_ring (prio tc)) s ->
  Z.of_nat (length (qlist (rq_ring (prio tc)) s)) < HARDRT_MAX_TASKS ->
  exec n (hrt__make_ready id) s p
  = Done tt (lpush (rq_ring (prio tc)) id (kset_tcb id (tcb_ready tc) s)) p.
Proof.
  intros Hid Htc Hst Hp Hr Hl. unfold hrt__make_ready.
  rewrite id_in_range, tcb_ptr, !andb_false_r by done.
  assert (Hdup : exec n (if HARDRT_DEBUG then
      st <- tcb_read (Some id) state ;; Ret (bool_decide (st = HRT_READY))
      else Ret false) s p = Done false s p).
  { destruct HARDRT_DEBUG; [|done]. xtcb. by rewrite bool_decide_false. }
  erewrite exec_bind by exact Hdup. xtcb. cbn [prio tcb_set_slice_left tcb_set_state].
  rewrite valid_u8 by done. by apply exec_rq_push.
Qed.

(** ** Leaving the processor: the calls up to the hop to the scheduler *)

Lemma exec_yield n s p tc :
  valid_id (g_current s) -> zget (g_tcbs s) (g_current s) = Some tc ->
  state tc = HRT_READY -> 0 <= prio tc < HARDRT_MAX_PRIO -> ring_ok (rq_ring (prio tc)) s ->
  Z.of_nat (length (qlist (rq_ring (prio tc)) s)) < HARDRT_MAX_TASKS ->
  exec n hrt_yield s p
  = exec n (call hrt_port_yield_to_scheduler)
      (lpush (rq_ring (prio tc)) (g_current s) (kset_tcb (g_current s) (tcb_refill tc) s))
      (pend_switch p).
Proof.
  intros Hid Htc Hst Hp Hr Hl. unfold hrt_yield. xrun.
  rewrite tcb_ptr by done. cbn [is_null]. pose proof Hid as [? ?].
  zbool. rewrite !andb_false_r. xtcb. rewrite decide_True by done.
  xrun. xtcb. cbn [prio tcb_set_slice_left]. rewrite valid_u8 by done.
  erewrite exec_bind by (apply exec_rq_push; done). by xrun.
Qed.

Lemma exec_sleep n s p ms tc :
  valid_id (g_current s) -> zget (g_tcbs s) (g_current s) = Some tc ->
  exec n (hrt_sleep ms) s p
  = exec n (call hrt_port_yield_to_scheduler)
      (kset_tcb (g_current s)
         (tcb_set_state HRT_SLEEP
            (tcb_set_wake_tick (u32 (g_tick s + hrt__ms_to_ticks ms (g_tick_hz s))) tc)) s)
      (pend_switch p).
Proof.
  intros Hid Htc. unfold hrt_sleep. xrun.
  rewrite tcb_ptr by done. cbn [is_null]. pose proof Hid as [? ?].
  zbool. rewrite !andb_false_r. xrun.
  erewrite exec_writes by by apply tcb_upd_Some. xtcb. by xrun.
Qed.

Lemma exec_task_delete n s p tc :
  valid_id (g_current s) -> g_current s <> HRT_IDLE_ID ->
  zget (g_tcbs s) (g_current s) = Some tc ->
  exec n hrt_task_delete s p
  = exec n (call hrt_port_yield_to_scheduler)
      (kset_tcb (g_current s) (tcb_set_state HRT_UNUSED tc) s)
      (pend_switch (crit_exit (crit_enter p))).
Proof.
  intros Hid Hidle Htc. unfold hrt_task_delete, hrt__get_current. xrun.
  pose proof Hid as [? ?]. zbool. xrun. rewrite tcb_ptr by done. cbn [is_null]. by xtcb.
Qed.

Lemma exec_set_current {B} n id (k : unit -> prog B) s p :
  valid_id id -> exec n (bind (hrt__set_current id) k) s p = exec n (k tt) (set_current id s) p.
Proof.
  intros Hid. unfold hrt__set_current. rewrite id_in_range, andb_false_r by done. done.
Qed.

(** [hrt__on_scheduler_entry] leaves a task alone unless its quantum is used up. *)
Lemma exec_scheduler_entry_skip n s p tc :
  valid_id (g_current s) -> zget (g_tcbs s) (g_current s) = Some tc ->
  state tc <> HRT_READY \/ slice_left tc <> 0 \/ timeslice_cfg tc <= 0 \/
    rr_policy (g_policy s) = false ->
  exec n hrt__on_scheduler_entry s p = Done tt s p.
Proof.
  intros Hid Htc H. unfold hrt__on_scheduler_entry. xrun.
  rewrite tcb_ptr by done. cbn [is_null]. rewrite andb_false_r. xtcb.
  case_decide as Hst; [by xrun|]. xrun. xtcb.
  destruct (rr_policy (g_policy s)) eqn:Hpol; cbn [andb]; [|by xrun].
  destruct (timeslice_cfg tc >? 0) eqn:Hts; [|by xrun]. xtcb.
  destruct (slice_left tc =? 0) eqn:Hl; [|by xrun]. btest.
  exfalso. destruct H as [?|[?|[?|?]]]; [done|done|lia|congruence].
Qed.

(** ... and then it refills the quantum and requeues the task. *)
Lemma exec_scheduler_entry_requeue n s p tc :
  valid_id (g_current s) -> zget (g_tcbs s) (g_current s) = Some tc -> state tc = HRT_READY ->
  slice_left tc = 0 -> 0 < timeslice_cfg tc -> rr_policy (g_policy s) = true ->
  0 <= prio tc < HARDRT_MAX_PRIO -> ring_ok (rq_ring (prio tc)) s ->
  Z.of_nat (length (qlist (rq_ring (prio tc)) s)) < HARDRT_MAX_TASKS ->
  exec n hrt__on_scheduler_entry s p
  = Done tt (lpush (rq_ring (prio tc)) (g_current s) (kset_tcb (g_current s) (tcb_refill tc) s)) p.
Proof.
  intros Hid Htc Hst Hl Hts Hpol Hp Hr Hroom. unfold hrt__on_scheduler_entry. xrun.
  rewrite tcb_ptr by done. cbn [is_null]. rewrite andb_false_r. xtcb.
  rewrite decide_False by tauto. xrun. xtcb. rewrite Hpol. cbn [andb]. zbool. xtcb. zbool.
  xrun. xtcb. cbn [prio tcb_set_slice_left]. rewrite valid_u8 by done. by apply exec_rq_push.
Qed.

End core_api.
