(* ===== verification/Inv.v ===== *)
(** * The scheduling invariant

    A task id is stored in at most one queue of the system: the ready
    queue of its priority, or the waiter queue of the one object it is
    blocked on. [sched_inv out s] says so, for all tasks but those of
    [out], which the running code holds outside of every queue: the
    running task, and a waiter between its removal from a waiter queue and
    its insertion into a ready queue. *)

From stdpp Require Import base tactics numbers list option gmap.
From S2P Require Import Prelude Types Prog Ring Core CoreFacts.
Open Scope Z_scope.
Open Scope prog_scope.

(** ** The queues of the system *)

Inductive place :=
  | PReady (pr : Z) | PSem (a : Z) | PMutex (a : Z) | PRx (a : Z) | PTx (a : Z).

#[export] Instance place_eq_dec : EqDecision place.
Proof. solve_decision. Defined.

Definition ring_of (pl : place) : ring_at :=
  match pl with
  | PReady pr => rq_ring pr
  | PSem a => sem_ring a
  | PMutex a => mutex_ring a
  | PRx a => rx_ring a
  | PTx a => tx_ring a
  end.

#[export] Instance ring_of_lens pl : RingLens (ring_of pl).
Proof. destruct pl; apply _. Qed.

(** The state of the tasks stored in a queue. *)
Definition place_state (pl : place) : hrt_state_t :=
  match pl with PReady _ => HRT_READY | _ => HRT_BLOCKED end.

(** A push or pop on one queue leaves the others alone. *)
Lemma rput_frame pl pl' r s :
  pl <> pl' -> is_Some (rget (ring_of pl) s) ->
  rget (ring_of pl') (rput (ring_of pl) r s) = rget (ring_of pl') s.
Proof.
  intros Hne [r0 Hr]. destruct pl as [x|x|x|x|x], pl' as [y|y|y|y|y]; try done; cbn in *.
  1: { apply zget_Some in Hr. apply zget_insert_ne; [lia|congruence]. }
  all: destruct (decide (x = y)) as [->|]; [|by rewrite lookup_alter_ne].
  all: try done; rewrite lookup_alter_eq.
  all: by destruct (m_queues s !! y).
Qed.

Lemma rput_tcbs pl r s : g_tcbs (rput (ring_of pl) r s) = g_tcbs s.
Proof. by destruct pl. Qed.

(** A queue operation changes neither the TCBs nor the scalars. *)
Definition same_scalars (s s' : kern) : Prop :=
  g_current s' = g_current s /\ g_tick s' = g_tick s /\ g_tick_hz s' = g_tick_hz s /\
  g_policy s' = g_policy s /\ g_default_slice s' = g_default_slice s /\
  g_core_hz s' = g_core_hz s /\ g_tick_src s' = g_tick_src s.

Section inv.
Context `{C : Config}.

(** Arrays, integers and all rings are well formed. *)
Record base_wf (s : kern) : Prop := {
  bwf_kern : kern_wf s;
  bwf_ring : forall pl r, rget (ring_of pl) s = Some r -> ring_wf r
}.

Record sched_inv (out : list Z) (s : kern) : Prop := {
  inv_base : base_wf s;
  inv_in : forall pl id, id ∈ qlist (ring_of pl) s ->
    exists tc, zget (g_tcbs s) id = Some tc /\ state tc = place_state pl /\
               (forall pr, pl = PReady pr -> prio tc = pr);
  inv_nodup : forall pl, NoDup (qlist (ring_of pl) s);
  inv_disj : forall pl pl' id,
    id ∈ qlist (ring_of pl) s -> id ∈ qlist (ring_of pl') s -> pl = pl';
  inv_out : forall id pl, id ∈ out -> id ∉ qlist (ring_of pl) s;
  inv_complete : forall id tc, zget (g_tcbs s) id = Some tc -> id ∉ out ->
    state tc = HRT_READY \/ state tc = HRT_BLOCKED ->
    exists pl, place_state pl = state tc /\ id ∈ qlist (ring_of pl) s;
  inv_prio : forall id tc, zget (g_tcbs s) id = Some tc -> state tc <> HRT_UNUSED ->
    0 <= prio tc < HARDRT_MAX_PRIO
}.

End inv.

Section inv_facts.
Context `{C : Config} {Cok : ConfigOk C}.
Implicit Types (s : kern).

(** ** Room in the queues *)

(** Distinct valid ids that leave one out are fewer than [HARDRT_MAX_TASKS]. *)
Lemma ids_not_full (l : list Z) id :
  NoDup l -> Forall valid_id l -> valid_id id -> id ∉ l ->
  Z.of_nat (length l) < HARDRT_MAX_TASKS.
Proof.
  intros Hnd Hv Hid Hni.
  assert (Hlen : (length (id :: l) <= length (seqZ 0 HARDRT_MAX_TASKS))%nat).
  { apply NoDup_incl_length; [by rewrite <- NoDup_ListNoDup; apply NoDup_cons|].
    intros x Hx%list_elem_of_In. apply list_elem_of_In, elem_of_seqZ.
    apply elem_of_cons in Hx as [->|Hx]; [destruct Hid; lia|].
    rewrite Forall_forall in Hv. destruct (Hv x Hx). lia. }
  rewrite length_seqZ in Hlen. cbn in Hlen. lia.
Qed.

Lemma inv_valid out s pl : sched_inv out s -> Forall valid_id (qlist (ring_of pl) s).
Proof.
  intros I. apply Forall_forall. intros id (tc & Htc & _)%(inv_in out s I).
  apply zget_Some in Htc. destruct (bwf_kern s (inv_base out s I)). unfold valid_id. lia.
Qed.

Lemma inv_tcb_valid out s id tc :
  sched_inv out s -> zget (g_tcbs s) id = Some tc -> valid_id id.
Proof.
  intros I Htc%zget_Some. destruct (bwf_kern s (inv_base out s I)). unfold valid_id. lia.
Qed.

Lemma inv_room out s pl id tc :
  sched_inv out s -> zget (g_tcbs s) id = Some tc -> id ∉ qlist (ring_of pl) s ->
  Z.of_nat (length (qlist (ring_of pl) s)) < HARDRT_MAX_TASKS.
Proof.
  intros I Htc Hni. eapply ids_not_full; [apply I|by eapply inv_valid|by eapply inv_tcb_valid|done].
Qed.

Lemma inv_ring_ok out s pl r :
  sched_inv out s -> rget (ring_of pl) s = Some r -> ring_ok (ring_of pl) s.
Proof. intros I E. exists r. split; [done|]. eapply bwf_ring; [apply I|done]. Qed.

Lemma inv_rq out s pr :
  sched_inv out s -> 0 <= pr < HARDRT_MAX_PRIO -> ring_ok (rq_ring pr) s.
Proof.
  intros I Hp. destruct (zget_is_Some (g_rq s) pr) as [r E].
  { destruct (bwf_kern s (inv_base out s I)). lia. }
  by eapply (inv_ring_ok out s (PReady pr)).
Qed.

(** ** Frame: what the invariant depends on *)

Lemma inv_frame out s s' :
  sched_inv out s -> g_tcbs s' = g_tcbs s ->
  (forall pl, rget (ring_of pl) s' = rget (ring_of pl) s) ->
  Z.of_nat (length (g_rq s')) = HARDRT_MAX_PRIO ->
  0 <= g_tick s' < 2 ^ 32 -> 0 <= g_tick_hz s' < 2 ^ 32 ->
  0 <= g_default_slice s' < 2 ^ 16 ->
  sched_inv out s'.
Proof.
  intros I Ht Hr Hlen H1 H2 H3.
  assert (Hq : forall pl, qlist (ring_of pl) s' = qlist (ring_of pl) s).
  { intros pl. unfold qlist. by rewrite Hr. }
  destruct I as [[[] Iring] Iin Ind Idj Iout Icmp Ipr]. split.
  - split; [split; rewrite ?Ht; done|]. intros pl r. rewrite Hr. apply Iring.
  - intros pl id. rewrite Hq, Ht. apply Iin.
  - intros pl. rewrite Hq. apply Ind.
  - intros pl pl' id. rewrite !Hq. apply Idj.
  - intros id pl. rewrite Hq. apply Iout.
  - intros id tc. rewrite Ht. intros. destruct (Icmp id tc) as (pl & ? & ?); [done..|].
    exists pl. by rewrite Hq.
  - intros id tc. rewrite Ht. apply Ipr.
Qed.

(** ** Queue operations, queue by queue *)

Lemma lpush_tcbs pl id s : g_tcbs (lpush (ring_of pl) id s) = g_tcbs s.
Proof. unfold lpush. destruct (rget _ s); [apply rput_tcbs|done]. Qed.

Lemma lpop_tcbs pl s : g_tcbs (lpop (ring_of pl) s) = g_tcbs s.
Proof. unfold lpop. destruct (rget _ s); [apply rput_tcbs|done]. Qed.

Lemma rput_scalars pl r s : same_scalars s (rput (ring_of pl) r s).
Proof. by destruct pl. Qed.

Lemma lpush_scalars pl id s : same_scalars s (lpush (ring_of pl) id s).
Proof. unfold lpush. destruct (rget _ s); [apply rput_scalars|done]. Qed.

Lemma lpop_scalars pl s : same_scalars s (lpop (ring_of pl) s).
Proof. unfold lpop. destruct (rget _ s); [apply rput_scalars|done]. Qed.

Lemma rput_rq_length pl r s : length (g_rq (rput (ring_of pl) r s)) = length (g_rq s).
Proof. destruct pl; cbn; rewrite ?length_insert; done. Qed.

Lemma rget_lpush_ne pl pl' id s :
  pl <> pl' -> rget (ring_of pl') (lpush (ring_of pl) id s) = rget (ring_of pl') s.
Proof. intros. unfold lpush. destruct (rget _ s) eqn:E; [by apply rput_frame|done]. Qed.

Lemma rget_lpop_ne pl pl' s :
  pl <> pl' -> rget (ring_of pl') (lpop (ring_of pl) s) = rget (ring_of pl') s.
Proof. intros. unfold lpop. destruct (rget _ s) eqn:E; [by apply rput_frame|done]. Qed.

Lemma qlist_lpush pl pl' id s :
  ring_ok (ring_of pl) s -> Z.of_nat (length (qlist (ring_of pl) s)) < HARDRT_MAX_TASKS ->
  qlist (ring_of pl') (lpush (ring_of pl) id s)
  = qlist (ring_of pl') s ++ (if decide (pl = pl') then [id] else []).
Proof.
  intros Hr Hl. case_decide as E.
  - subst. by apply lpush_spec.
  - unfold qlist. by rewrite rget_lpush_ne, app_nil_r.
Qed.

Lemma qlist_lpop pl pl' s x l :
  ring_ok (ring_of pl) s -> qlist (ring_of pl) s = x :: l ->
  qlist (ring_of pl') (lpop (ring_of pl) s) = if decide (pl = pl') then l else qlist (ring_of pl') s.
Proof.
  intros Hr Hl. case_decide as E.
  - subst. by eapply lpop_spec.
  - unfold qlist. by rewrite rget_lpop_ne.
Qed.

(** A ready queue, or the queue of an existing object. *)
Lemma ring_ok_exists out s pl :
  sched_inv out s -> is_Some (rget (ring_of pl) s) -> ring_ok (ring_of pl) s.
Proof. intros I [r E]. by eapply inv_ring_ok. Qed.

Lemma kern_wf_update s s' :
  kern_wf s -> same_scalars s s' -> length (g_rq s') = length (g_rq s) ->
  length (g_tcbs s') = length (g_tcbs s) -> Forall tcb_wf (g_tcbs s') -> kern_wf s'.
Proof.
  intros [] (? & E1 & E2 & ? & E3 & ? & ?) Hq Ht Hf. split; rewrite ?E1, ?E2, ?E3; try done; lia.
Qed.

Lemma kset_tcb_wf s id tc :
  kern_wf s -> tcb_wf tc -> kern_wf (kset_tcb id tc s).
Proof.
  intros W Hw. eapply kern_wf_update; [exact W|done|done| |]; cbn.
  - by rewrite length_insert.
  - apply Forall_insert; [apply W|done].
Qed.

Lemma kset_tcb_lookup s id tc tc0 i :
  zget (g_tcbs s) id = Some tc0 ->
  zget (g_tcbs (kset_tcb id tc s)) i = if decide (id = i) then Some tc else zget (g_tcbs s) i.
Proof. intros H%zget_Some. cbn. by apply zget_insert. Qed.

(** ** The operations of the kernel on the invariant *)

Lemma kset_rget s id tc pl : rget (ring_of pl) (kset_tcb id tc s) = rget (ring_of pl) s.
Proof. by destruct pl. Qed.

Lemma kset_qlist s id tc pl : qlist (ring_of pl) (kset_tcb id tc s) = qlist (ring_of pl) s.
Proof. unfold qlist. by rewrite kset_rget. Qed.

(** Changing the TCB of a task held outside of the queues, or one of any
    task without changing its state and priority. *)
Lemma inv_set_tcb out s id tc tc' :
  sched_inv out s -> zget (g_tcbs s) id = Some tc -> tcb_wf tc' ->
  (id ∈ out /\ 0 <= prio tc' < HARDRT_MAX_PRIO) \/
    (state tc' = state tc /\ prio tc' = prio tc) ->
  sched_inv out (kset_tcb id tc' s).
Proof.
  intros I Htc Hwf Hch.
  assert (Hl := fun i => kset_tcb_lookup s id tc' tc i Htc).
  destruct I as [[W Iring] Iin Ind Idj Iout Icmp Ipr].
  split; [split; [by apply kset_tcb_wf|]|..]; repeat setoid_rewrite kset_rget;
    repeat setoid_rewrite kset_qlist; try done.
  - intros pl i Hi. rewrite Hl. case_decide; [subst|by apply Iin].
    destruct Hch as [[? _]|[Es Ep]]; [by destruct (Iout i pl)|].
    destruct (Iin pl i Hi) as (t & Ht & ?). exists tc'. rewrite Es, Ep.
    rewrite Htc in Ht. injection Ht as <-. done.
  - intros i t. rewrite Hl. case_decide; [subst|apply Icmp].
    intros [= <-] ? Hs. destruct Hch as [[? _]|[Es _]]; [done|].
    rewrite Es in *. by eapply Icmp.
  - intros i t. rewrite Hl. case_decide; [subst|apply Ipr].
    intros [= <-] Hs. destruct Hch as [[_ ?]|[Es Ep]]; [done|].
    rewrite Ep. rewrite Es in Hs. by eapply Ipr.
Qed.

Lemma base_push s pl id :
  base_wf s -> ring_ok (ring_of pl) s ->
  Z.of_nat (length (qlist (ring_of pl) s)) < HARDRT_MAX_TASKS ->
  base_wf (lpush (ring_of pl) id s).
Proof.
  intros [W Wr] Hr Hl. split.
  - eapply kern_wf_update; [exact W|apply lpush_scalars| | |]; rewrite ?lpush_tcbs; [|done|apply W].
    unfold lpush. destruct (rget _ s); [by apply rput_rq_length|done].
  - intros pl' r. destruct (decide (pl = pl')) as [<-|Hne].
    + destruct (lpush_spec id s Hr Hl) as [(r' & E & ?) _]. rewrite E. by intros [= <-].
    + rewrite rget_lpush_ne by done. apply Wr.
Qed.

Lemma base_pop s pl x l :
  base_wf s -> ring_ok (ring_of pl) s -> qlist (ring_of pl) s = x :: l ->
  base_wf (lpop (ring_of pl) s).
Proof.
  intros [W Wr] Hr Hl. split.
  - eapply kern_wf_update; [exact W|apply lpop_scalars| | |]; rewrite ?lpop_tcbs; [|done|apply W].
    unfold lpop. destruct (rget _ s); [by apply rput_rq_length|done].
  - intros pl' r. destruct (decide (pl = pl')) as [<-|Hne].
    + destruct (lpop_spec x l s Hr Hl) as [(r' & E & ?) _]. rewrite E. by intros [= <-].
    + rewrite rget_lpop_ne by done. apply Wr.
Qed.

(** Storing a held task in the queue its state belongs to. *)
Lemma inv_enqueue out s pl id tc :
  sched_inv (id :: out) s -> id ∉ out -> zget (g_tcbs s) id = Some tc ->
  state tc = place_state pl -> (forall pr, pl = PReady pr -> prio tc = pr) ->
  ring_ok (ring_of pl) s ->
  sched_inv out (lpush (ring_of pl) id s).
Proof.
  intros I Hno Htc Hst Hpl Hr.
  assert (Hni : forall pl', id ∉ qlist (ring_of pl') s).
  { intros pl'. apply (inv_out _ _ I). apply list_elem_of_here. }
  assert (Hroom := inv_room _ _ _ _ _ I Htc (Hni pl)).
  assert (Hmem : forall pl' i, i ∈ qlist (ring_of pl') (lpush (ring_of pl) id s) <->
    i ∈ qlist (ring_of pl') s \/ (pl = pl' /\ i = id)).
  { intros pl' i. rewrite qlist_lpush, elem_of_app by done.
    case_decide; rewrite ?list_elem_of_singleton, ?elem_of_nil; tauto. }
  destruct I as [W Iin Ind Idj Iout Icmp Ipr]. split; rewrite ?lpush_tcbs; try done.
  - by apply base_push.
  - intros pl' i [Hi|[<- ->]]%Hmem; [by apply Iin|by exists tc].
  - intros pl'. rewrite qlist_lpush by done. case_decide; [|by rewrite app_nil_r].
    apply NoDup_app. split; [done|]. split; [|apply NoDup_singleton].
    intros x Hx ->%list_elem_of_singleton. by destruct (Hni pl').
  - intros pl1 pl2 i [H1|[<- ->]]%Hmem [H2|[<- ?]]%Hmem; subst; eauto;
      exfalso; eapply Hni; eauto.
  - intros i pl' Hi [H1|[<- ->]]%Hmem; [|done].
    eapply (Iout i pl'); [by apply list_elem_of_further|done].
  - intros i t Ht Hi Hs. destruct (decide (i = id)) as [->|Hne].
    + exists pl. rewrite Htc in Ht. injection Ht as <-. split; [done|]. apply Hmem. by right.
    + destruct (Icmp i t Ht) as (pl' & ? & ?); [by rewrite elem_of_cons; intros [?|?]|done|].
      exists pl'. split; [done|]. apply Hmem. by left.
Qed.

(** Taking the oldest task out of a queue: it is held. *)
Lemma inv_dequeue out s pl id l :
  sched_inv out s -> qlist (ring_of pl) s = id :: l -> ring_ok (ring_of pl) s ->
  sched_inv (id :: out) (lpop (ring_of pl) s).
Proof.
  intros I Hl Hr.
  assert (Hmem : forall pl' i, i ∈ qlist (ring_of pl') (lpop (ring_of pl) s) <->
    i ∈ qlist (ring_of pl') s /\ i <> id).
  { intros pl' i. erewrite qlist_lpop by done.
    pose proof (inv_nodup _ _ I pl) as Hnd. rewrite Hl in Hnd.
    apply NoDup_cons in Hnd as [Hn _]. case_decide as E.
    - subst. rewrite Hl, elem_of_cons. split; [|tauto]. intros Hi. split; [by right|congruence].
    - split; [|tauto]. intros Hi. split; [done|]. intros ->. apply E.
      eapply (inv_disj _ _ I); [|exact Hi]. rewrite Hl. apply list_elem_of_here. }
  destruct I as [W Iin Ind Idj Iout Icmp Ipr]. split; rewrite ?lpop_tcbs; try done.
  - by eapply base_pop.
  - intros pl' i [Hi _]%Hmem. by apply Iin.
  - intros pl'. erewrite qlist_lpop by done. case_decide; [|done].
    subst. specialize (Ind pl'). rewrite Hl in Ind. by apply NoDup_cons in Ind as [_ ?].
  - intros pl1 pl2 i [H1 _]%Hmem [H2 _]%Hmem. eauto.
  - intros i pl' [->|Hi]%elem_of_cons [H1 Hne]%Hmem; [done|by eapply Iout].
  - intros i t Ht [Hne Hi]%not_elem_of_cons Hs. destruct (Icmp i t Ht Hi Hs) as (pl' & ? & ?).
    exists pl'. split; [done|]. by apply Hmem.
Qed.

(** A sleeping or unused task is in no queue: it can be held or not. *)
Lemma inv_hold out s id tc :
  sched_inv out s -> zget (g_tcbs s) id = Some tc ->
  state tc = HRT_SLEEP \/ state tc = HRT_UNUSED -> sched_inv (id :: out) s.
Proof.
  intros [W Iin Ind Idj Iout Icmp Ipr] Htc Hs. split; try done.
  - intros i pl [->|Hi]%elem_of_cons; [|by apply Iout].
    intros (t & Ht & E & _)%Iin. rewrite Htc in Ht. injection Ht as <-.
    destruct pl; cbn in E; destruct Hs; congruence.
  - intros i t Ht [_ Hi]%not_elem_of_cons Hst. by eapply Icmp.
Qed.

Lemma inv_release out s id tc :
  sched_inv (id :: out) s -> zget (g_tcbs s) id = Some tc ->
  state tc = HRT_SLEEP \/ state tc = HRT_UNUSED -> sched_inv out s.
Proof.
  intros [W Iin Ind Idj Iout Icmp Ipr] Htc Hs. split; try done.
  - intros i pl Hi. apply Iout. by apply list_elem_of_further.
  - intros i t Ht Hi Hst. destruct (decide (i = id)) as [->|].
    + rewrite Htc in Ht. injection Ht as <-. destruct Hs, Hst; congruence.
    + eapply Icmp; [done| |done]. by apply not_elem_of_cons.
Qed.

End inv_facts.

(** ** Making a held task ready *)

Section make_ready.
Context `{C : Config} {Cok : ConfigOk C}.

(** The effect of [hrt__make_ready]. *)
Definition kready (id : Z) (tc : _hrt_tcb_t) (s : kern) : kern :=
  lpush (rq_ring (prio tc)) id (kset_tcb id (tcb_ready tc) s).

Lemma tcb_ready_wf tc : tcb_wf tc -> tcb_wf (tcb_ready tc).
Proof. by intros []. Qed.

Lemma tcb_refill_wf tc : tcb_wf tc -> tcb_wf (tcb_refill tc).
Proof. by intros []. Qed.

Lemma inv_tcb_wf out s id tc : sched_inv out s -> zget (g_tcbs s) id = Some tc -> tcb_wf tc.
Proof.
  intros I Htc. unfold zget in Htc. destruct (id <? 0); [done|].
  eapply Forall_lookup_1; [|exact Htc]. apply (bwf_kern s (inv_base out s I)).
Qed.

Lemma make_ready_inv out s id tc :
  sched_inv (id :: out) s -> id ∉ out -> zget (g_tcbs s) id = Some tc ->
  0 <= prio tc < HARDRT_MAX_PRIO -> sched_inv out (kready id tc s).
Proof.
  intros I Hno Htc Hp. eapply (inv_enqueue out _ (PReady (prio tc))) with (tc := tcb_ready tc).
  - eapply inv_set_tcb; [done|done|by eapply tcb_ready_wf, inv_tcb_wf|].
    left. split; [apply list_elem_of_here|done].
  - done.
  - by eapply kset_tcb_get.
  - done.
  - by intros pr [= <-].
  - by eapply (inv_rq (id :: out) s).
Qed.

Lemma exec_make_ready_inv `{PL : PortLayer} n out s p id tc :
  sched_inv (id :: out) s -> zget (g_tcbs s) id = Some tc -> state tc <> HRT_READY ->
  0 <= prio tc < HARDRT_MAX_PRIO ->
  exec n (hrt__make_ready id) s p = Done tt (kready id tc s) p.
Proof.
  intros I Htc Hst Hp. apply exec_make_ready; try done.
  - by eapply inv_tcb_valid.
  - by eapply inv_rq.
  - eapply (inv_room _ s (PReady (prio tc))); [done|done|].
    apply (inv_out _ _ I). apply list_elem_of_here.
Qed.

Lemma kready_tcbs id tc s i tc0 :
  zget (g_tcbs s) id = Some tc0 ->
  zget (g_tcbs (kready id tc s)) i =
  if decide (id = i) then Some (tcb_ready tc) else zget (g_tcbs s) i.
Proof.
  intros H. unfold kready. rewrite (lpush_tcbs (PReady (prio tc))). by eapply kset_tcb_lookup.
Qed.

Lemma kready_scalars id tc s : same_scalars s (kready id tc s).
Proof. exact (lpush_scalars (PReady (prio tc)) id (kset_tcb id (tcb_ready tc) s)). Qed.

Lemma kready_qlist out s id tc pl :
  sched_inv (id :: out) s -> zget (g_tcbs s) id = Some tc -> 0 <= prio tc < HARDRT_MAX_PRIO ->
  qlist (ring_of pl) (kready id tc s)
  = qlist (ring_of pl) s ++ (if decide (PReady (prio tc) = pl) then [id] else []).
Proof.
  intros I Htc Hp. unfold kready. change (rq_ring (prio tc)) with (ring_of (PReady (prio tc))).
  rewrite qlist_lpush, kset_qlist; [done| |].
  - exact (inv_rq _ _ _ I Hp).
  - rewrite kset_qlist. eapply inv_room; [done|done|].
    apply (inv_out _ _ I). apply list_elem_of_here.
Qed.

End make_ready.

(** The synchronisation objects of a state. *)
Definition objs (s : kern) := (m_sems s, m_mutexes s, m_queues s).

Lemma kready_objs `{Config} id tc s : objs (kready id tc s) = objs s.
Proof. unfold kready, lpush. by destruct (rget _ _). Qed.

(** ** Waking the oldest waiter of an object *)

Section wake_waiter.
Context `{C : Config} {Cok : ConfigOk C}.

(** The effect of popping the waiter [w] of queue [pl] and making it ready. *)
Definition kwake (pl : place) (w : Z) (tc : _hrt_tcb_t) (s : kern) : kern :=
  kready w tc (lpop (ring_of pl) s).

Lemma inv_head_tcb out s pl w ws :
  sched_inv out s -> qlist (ring_of pl) s = w :: ws ->
  exists tc, zget (g_tcbs s) w = Some tc /\ valid_id w /\ (w ∉ out) /\
             state tc = place_state pl /\ 0 <= prio tc < HARDRT_MAX_PRIO.
Proof.
  intros I Hw. assert (Hin : w ∈ qlist (ring_of pl) s) by (rewrite Hw; apply list_elem_of_here).
  destruct (inv_in _ _ I pl w Hin) as (tc & Htc & Hst & _). exists tc. split_and!; try done.
  - by eapply inv_tcb_valid.
  - intros Ho. by apply (inv_out _ _ I w pl Ho).
  - eapply (inv_prio _ _ I); [done|]. rewrite Hst. by destruct pl.
  - eapply (inv_prio _ _ I); [done|]. rewrite Hst. by destruct pl.
Qed.

Lemma ring_ok_nonempty out s pl w ws :
  sched_inv out s -> qlist (ring_of pl) s = w :: ws -> ring_ok (ring_of pl) s.
Proof.
  intros I Hw. unfold qlist in Hw. destruct (rget (ring_of pl) s) as [r|] eqn:E; [|done].
  by eapply inv_ring_ok.
Qed.

Lemma kwake_inv out s pl w ws tc :
  sched_inv out s -> qlist (ring_of pl) s = w :: ws -> zget (g_tcbs s) w = Some tc ->
  sched_inv out (kwake pl w tc s).
Proof.
  intros I Hw Htc. destruct (inv_head_tcb _ _ _ _ _ I Hw) as (tc' & Htc' & _ & Hno & _ & Hp).
  rewrite Htc in Htc'. injection Htc' as <-.
  apply make_ready_inv; [|done|by rewrite lpop_tcbs|done].
  eapply inv_dequeue; [done|done|by eapply ring_ok_nonempty].
Qed.

(** [hrt__make_ready] on a waiter that was just popped. *)
Lemma exec_wake_waiter `{PL : PortLayer} {B} n out s p pl w ws tc (k : unit -> prog B) :
  sched_inv out s -> qlist (ring_of pl) s = w :: ws -> zget (g_tcbs s) w = Some tc ->
  place_state pl = HRT_BLOCKED ->
  exec n (bind (hrt__make_ready w) k) (lpop (ring_of pl) s) p = exec n (k tt) (kwake pl w tc s) p.
Proof.
  intros I Hw Htc Hpl. apply exec_bind.
  destruct (inv_head_tcb _ _ _ _ _ I Hw) as (tc' & Htc' & _ & Hno & Hst & Hp).
  rewrite Htc in Htc'. injection Htc' as <-.
  eapply (exec_make_ready_inv n out); [|by rewrite lpop_tcbs|congruence|done].
  eapply inv_dequeue; [done|done|by eapply ring_ok_nonempty].
Qed.

Lemma kwake_tcbs pl w tc s i :
  zget (g_tcbs s) w = Some tc ->
  zget (g_tcbs (kwake pl w tc s)) i
  = if decide (w = i) then Some (tcb_ready tc) else zget (g_tcbs s) i.
Proof.
  intros H. unfold kwake. erewrite kready_tcbs by (rewrite lpop_tcbs; exact H).
  by rewrite lpop_tcbs.
Qed.

Lemma same_scalars_trans s1 s2 s3 : same_scalars s1 s2 -> same_scalars s2 s3 -> same_scalars s1 s3.
Proof.
  intros (? & ? & ? & ? & ? & ? & ?) (? & ? & ? & ? & ? & ? & ?). split_and!; congruence.
Qed.

Lemma kwake_scalars pl w tc s : same_scalars s (kwake pl w tc s).
Proof. eapply same_scalars_trans; [apply lpop_scalars|apply kready_scalars]. Qed.

(** The queues after a wake-up: the waiter has moved to the tail of the
    ready queue of its priority. *)
Lemma kwake_qlist out s pl w ws tc pl' :
  sched_inv out s -> qlist (ring_of pl) s = w :: ws -> zget (g_tcbs s) w = Some tc ->
  place_state pl = HRT_BLOCKED ->
  qlist (ring_of pl') (kwake pl w tc s) =
  (if decide (pl = pl') then ws else qlist (ring_of pl') s) ++
  (if decide (PReady (prio tc) = pl') then [w] else []).
Proof.
  intros I Hw Htc Hpl. destruct (inv_head_tcb _ _ _ _ _ I Hw) as (tc' & Htc' & _ & Hno & Hst & Hp).
  rewrite Htc in Htc'. injection Htc' as <-.
  assert (Hr := ring_ok_nonempty _ _ _ _ _ I Hw).
  unfold kwake. rewrite (kready_qlist out) by
    (done || (by rewrite lpop_tcbs) || by eapply inv_dequeue).
  f_equal. by erewrite qlist_lpop.
Qed.

End wake_waiter.
