(* ===== verification/SchedFacts.v ===== *)
(** * Correctness of the tick handler

    [hrt__tick_isr] advances the time by one, wakes exactly the sleepers
    whose time has come, in the order of their ids, and charges the
    current task one tick of its quantum. *)

From stdpp Require Import base tactics numbers list option gmap.
From S2P Require Import Prelude Types Prog Ring Core Sched CoreFacts Inv.
Open Scope Z_scope.
Open Scope prog_scope.

Section spec.
Context `{C : Config}.

(** Task [i] sleeps and its wake-up time has come. *)
Definition due (s : kern) (i : Z) : bool :=
  match zget (g_tcbs s) i with
  | Some tc => bool_decide (state tc = HRT_SLEEP) && wake_due (wake_tick tc) (g_tick s)
  | None => false
  end.

Definition has_prio (s : kern) (pr i : Z) : bool :=
  match zget (g_tcbs s) i with Some tc => prio tc =? pr | None => false end.

Definition wake_step (s : kern) (i : Z) : kern :=
  match zget (g_tcbs s) i with
  | Some tc => if due s i then kready i tc s else s
  | None => s
  end.

Definition wake_all (ids : list Z) (s : kern) : kern := foldl wake_step s ids.

(** One tick of the quantum of the current task; whether it is used up. *)
Definition charge (s : kern) : kern * bool :=
  match zget (g_tcbs s) (g_current s) with
  | Some tc =>
      if bool_decide (state tc = HRT_READY) && rr_policy (g_policy s) &&
         (timeslice_cfg tc >? 0) && (slice_left tc >? 0)
      then (kset_tcb (g_current s) (tcb_set_slice_left (slice_left tc - 1) tc) s,
            slice_left tc =? 1)
      else (s, false)
  | None => (s, false)
  end.

Definition all_ids : list Z := seqZ 0 HARDRT_MAX_TASKS.

(** The state after a tick, and whether a switch is requested. *)
Definition tick_spec (s : kern) : kern * bool :=
  let s1 := set_tick (u32 (g_tick s + 1)) s in
  let s2 := wake_all all_ids s1 in
  let woke := existsb (due s1) all_ids in
  if id_out_of_range (g_current s) then (set_error ERR_INVALID_ID s2, woke)
  else ((charge s2).1, woke || (charge s2).2).

(** The tasks held by the running code are not asleep. *)
Definition awake (out : list Z) (s : kern) : Prop :=
  forall i tc, i ∈ out -> zget (g_tcbs s) i = Some tc -> state tc <> HRT_SLEEP.

End spec.

Section wake.
Context `{C : Config} {Cok : ConfigOk C} `{PL : PortLayer}.
Implicit Types (s : kern) (p : pstate).

Lemma due_inv s i :
  due s i = true -> exists tc, zget (g_tcbs s) i = Some tc /\ state tc = HRT_SLEEP /\
                               wake_due (wake_tick tc) (g_tick s) = true.
Proof.
  unfold due. destruct (zget (g_tcbs s) i) as [tc|]; [|done].
  intros [?%bool_decide_eq_true ?]%andb_true_iff. by exists tc.
Qed.

Lemma sleeper_prio out s i tc :
  sched_inv out s -> zget (g_tcbs s) i = Some tc -> state tc = HRT_SLEEP ->
  0 <= prio tc < HARDRT_MAX_PRIO.
Proof. intros I Htc Hs. eapply (inv_prio _ _ I); [done|congruence]. Qed.

Lemma wake_step_inv out s i :
  sched_inv out s -> (i ∈ out -> due s i = false) -> sched_inv out (wake_step s i).
Proof.
  intros I Hi. unfold wake_step. destruct (zget (g_tcbs s) i) as [tc|] eqn:Htc; [|done].
  destruct (due s i) eqn:Hd; [|done].
  assert (Hno : i ∉ out) by (intros ?%Hi; done).
  apply due_inv in Hd as (tc' & Htc' & Hs & _). rewrite Htc in Htc'. injection Htc' as <-.
  apply make_ready_inv; [|done|done|by eapply sleeper_prio].
  eapply inv_hold; [done|done|by left].
Qed.

Lemma wake_step_tcbs s i j :
  i <> j -> zget (g_tcbs (wake_step s i)) j = zget (g_tcbs s) j.
Proof.
  intros Hne. unfold wake_step. destruct (zget (g_tcbs s) i) as [tc|] eqn:Htc; [|done].
  destruct (due s i); [|done]. erewrite kready_tcbs by done. by rewrite decide_False.
Qed.

Lemma wake_step_scalars s i : same_scalars s (wake_step s i).
Proof.
  unfold wake_step. destruct (zget (g_tcbs s) i); [|done].
  destruct (due s i); [apply kready_scalars|done].
Qed.

Lemma wake_step_due s i j : i <> j -> due (wake_step s i) j = due s j.
Proof.
  intros Hne. unfold due. rewrite wake_step_tcbs by done.
  destruct (wake_step_scalars s i) as (_ & -> & _). done.
Qed.

Lemma exec_wake_step n out s p i trig ids :
  sched_inv out s -> valid_id i ->
  exec n (wake_sleepers (i :: ids) trig) s p
  = exec n (wake_sleepers ids (trig || due s i)) (wake_step s i) p.
Proof.
  intros I Hv. cbn [wake_sleepers]. rewrite tcb_ptr by done. cbn [is_null].
  assert (exists tc, zget (g_tcbs s) i = Some tc) as [tc Htc].
  { apply zget_is_Some. destruct (bwf_kern _ (inv_base _ _ I)), Hv. lia. }
  unfold wake_step, due. rewrite Htc. xtcb. case_decide as Hs.
  - rewrite bool_decide_true by done. cbn [andb]. unfold hrt_tick_now. xtcb.
    destruct (wake_due (wake_tick tc) (g_tick s)) eqn:Hw; rewrite ?orb_true_r, ?orb_false_r; [|done].
    erewrite exec_bind; [done|]. eapply exec_make_ready_inv; [|done|congruence|].
    + eapply inv_hold; [done|done|by left].
    + by eapply sleeper_prio.
  - rewrite bool_decide_false by done. cbn [andb]. by rewrite orb_false_r.
Qed.

Lemma exec_wake_sleepers n out ids s p trig :
  sched_inv out s -> NoDup ids -> Forall valid_id ids ->
  (forall i, i ∈ out -> due s i = false) ->
  exec n (wake_sleepers ids trig) s p
  = Done (trig || existsb (due s) ids) (wake_all ids s) p.
Proof.
  revert s trig. induction ids as [|i ids IH]; intros s trig I Hnd Hv Ho.
  - cbn. by rewrite orb_false_r.
  - apply NoDup_cons in Hnd as [Hni Hnd]. apply Forall_cons in Hv as [Hvi Hv].
    erewrite exec_wake_step by done. rewrite IH; try done.
    + cbn. rewrite <- orb_assoc. f_equal. f_equal. f_equal.
      apply existsb_ext. intros j Hj. apply wake_step_due. by intros ->.
    + apply wake_step_inv; auto.
    + intros j Hj. destruct (decide (i = j)) as [->|]; [|rewrite wake_step_due; auto].
      unfold wake_step. rewrite (Ho j Hj). destruct (zget (g_tcbs s) j); auto.
Qed.

Lemma wake_all_inv out ids s :
  sched_inv out s -> NoDup ids -> (forall i, i ∈ out -> due s i = false) ->
  sched_inv out (wake_all ids s).
Proof.
  revert s. induction ids as [|i ids IH]; intros s I Hnd Ho; [done|].
  apply NoDup_cons in Hnd as [Hni Hnd]. cbn. apply IH; [apply wake_step_inv; auto|done|].
  intros j Hj. destruct (decide (i = j)) as [->|]; [|rewrite wake_step_due; auto].
  unfold wake_step. rewrite (Ho j Hj). destruct (zget (g_tcbs s) j); auto.
Qed.

Lemma wake_all_scalars ids s : same_scalars s (wake_all ids s).
Proof.
  unfold wake_all. revert s. induction ids as [|i ids IH]; intros s; [done|]. cbn.
  destruct (wake_step_scalars s i) as (? & ? & ? & ? & ? & ? & ?).
  destruct (IH (wake_step s i)) as (? & ? & ? & ? & ? & ? & ?).
  split_and!; congruence.
Qed.

(** What the wake-up loop does to the TCBs ... *)
Lemma wake_all_tcbs ids s j :
  NoDup ids ->
  zget (g_tcbs (wake_all ids s)) j =
  if bool_decide (j ∈ ids) && due s j then tcb_ready <$> zget (g_tcbs s) j
  else zget (g_tcbs s) j.
Proof.
  revert s. induction ids as [|i ids IH]; intros s Hnd.
  { rewrite bool_decide_false; [done|]. apply not_elem_of_nil. }
  apply NoDup_cons in Hnd as [Hni Hnd]. cbn [wake_all foldl].
  change (foldl wake_step (wake_step s i) ids) with (wake_all ids (wake_step s i)).
  rewrite IH by done.
  destruct (decide (i = j)) as [<-|Hne].
  - rewrite (bool_decide_false (i ∈ ids)) by done.
    rewrite (bool_decide_true (i ∈ i :: ids)) by apply list_elem_of_here. cbn [andb].
    unfold wake_step. destruct (zget (g_tcbs s) i) as [tc|] eqn:Htc;
      [|unfold due; by rewrite Htc]. destruct (due s i); [|done].
    erewrite kready_tcbs by done. by rewrite decide_True.
  - rewrite wake_step_due, wake_step_tcbs by done.
    rewrite (bool_decide_ext (j ∈ i :: ids) (j ∈ ids)); [done|].
    rewrite elem_of_cons. split; [intros [->|]; done|by right].
Qed.

(** ... and to the queues: the due sleepers join the ready queue of their
    priority in the order of the loop; no other queue changes. *)
Lemma wake_all_qlist out ids s pl :
  sched_inv out s -> NoDup ids -> (forall i, i ∈ out -> due s i = false) ->
  qlist (ring_of pl) (wake_all ids s) =
  qlist (ring_of pl) s ++
    match pl with
    | PReady pr => List.filter (fun i => due s i && has_prio s pr i) ids
    | _ => []
    end.
Proof.
  revert s. induction ids as [|i ids IH]; intros s I Hnd Ho.
  { cbn. destruct pl; by rewrite app_nil_r. }
  apply NoDup_cons in Hnd as [Hni Hnd]. cbn [wake_all foldl].
  change (foldl wake_step (wake_step s i) ids) with (wake_all ids (wake_step s i)).
  rewrite IH; [| |done|].
  2: { apply wake_step_inv; auto. }
  2: { intros j Hj. destruct (decide (i = j)) as [->|]; [|rewrite wake_step_due; auto].
       unfold wake_step. rewrite (Ho j Hj). destruct (zget (g_tcbs s) j); auto. }
  assert (Hrest : forall pr, List.filter (fun j => due (wake_step s i) j && has_prio (wake_step s i) pr j) ids
    = List.filter (fun j => due s j && has_prio s pr j) ids).
  { intros pr. apply filter_ext. intros j Hj. unfold has_prio.
    by rewrite wake_step_due, wake_step_tcbs by (intros ->; done). }
  assert (Hstep : qlist (ring_of pl) (wake_step s i) = qlist (ring_of pl) s ++
    match pl with PReady pr => if due s i && has_prio s pr i then [i] else [] | _ => [] end).
  { unfold wake_step. destruct (due s i) eqn:Hd.
    - pose proof (due_inv _ _ Hd) as (tc & Htc & Hs & _). rewrite Htc.
      assert (Hp := sleeper_prio _ _ _ _ I Htc Hs).
      rewrite (kready_qlist out) by (done || by eapply inv_hold; eauto).
      f_equal. unfold has_prio. rewrite Htc. destruct pl as [pr|?|?|?|?]; try by rewrite decide_False.
      case_decide as E; [injection E as ->; by rewrite Z.eqb_refl|].
      destruct (prio tc =? pr) eqn:E2; [btest; congruence|done].
    - destruct (zget (g_tcbs s) i), pl; by rewrite app_nil_r. }
  rewrite Hstep. destruct pl as [pr|?|?|?|?]; rewrite <- app_assoc; try done.
  cbn [List.filter]. rewrite Hrest. by destruct (due s i && has_prio s pr i).
Qed.

End wake.

Section tick.
Context `{C : Config} {Cok : ConfigOk C} `{PL : PortLayer}.
Implicit Types (s : kern) (p : pstate).

Lemma all_ids_nodup : NoDup all_ids.
Proof. apply NoDup_seqZ. Qed.

Lemma all_ids_valid : Forall valid_id all_ids.
Proof. apply Forall_forall. intros i Hi%elem_of_seqZ. unfold valid_id. lia. Qed.

Lemma elem_of_all_ids i : valid_id i <-> i ∈ all_ids.
Proof. unfold valid_id, all_ids. rewrite elem_of_seqZ. lia. Qed.

Lemma awake_nil s : awake [] s.
Proof. by intros i tc ?%not_elem_of_nil. Qed.

Lemma awake_due out s i : awake out s -> i ∈ out -> due s i = false.
Proof.
  intros H Hi. destruct (due s i) eqn:Hd; [|done].
  apply due_inv in Hd as (tc & Htc & Hs & _). by destruct (H i tc Hi Htc).
Qed.

Lemma inv_set_tick out s t :
  sched_inv out s -> 0 <= t < 2 ^ 32 -> sched_inv out (set_tick t s).
Proof.
  intros I Ht. destruct (bwf_kern _ (inv_base _ _ I)).
  eapply inv_frame; [exact I|done|by intros []|done..].
Qed.

Lemma inv_set_error out s e : sched_inv out s -> sched_inv out (set_error e s).
Proof.
  intros I. destruct (bwf_kern _ (inv_base _ _ I)).
  eapply inv_frame; [exact I|done|by intros []|done..].
Qed.

Lemma inv_set_current out s id : sched_inv out s -> sched_inv out (set_current id s).
Proof.
  intros I. destruct (bwf_kern _ (inv_base _ _ I)).
  eapply inv_frame; [exact I|done|by intros []|done..].
Qed.

Lemma charge_inv out s : sched_inv out s -> sched_inv out (charge s).1.
Proof.
  intros I. unfold charge. destruct (zget (g_tcbs s) (g_current s)) as [tc|] eqn:Htc; [|done].
  destruct (_ && (slice_left tc >? 0)) eqn:E; [|done]. btest.
  eapply inv_set_tcb; [done|done| |by right].
  destruct (inv_tcb_wf _ _ _ _ I Htc). split; cbn; try done. lia.
Qed.

Lemma exec_account_slice n out s p trig :
  sched_inv out s -> valid_id (g_current s) ->
  exec n (account_slice trig) s p = Done (trig || (charge s).2) (charge s).1 p.
Proof.
  intros I Hv. unfold account_slice, hrt__get_current, hrt__policy. xrun.
  rewrite id_in_range, tcb_ptr by done. cbn [is_null].
  assert (exists tc, zget (g_tcbs s) (g_current s) = Some tc) as [tc Htc].
  { apply zget_is_Some. destruct (bwf_kern _ (inv_base _ _ I)), Hv. lia. }
  destruct (inv_tcb_wf _ _ _ _ I Htc).
  unfold charge. rewrite Htc. xtcb. case_decide as Hs.
  2: { rewrite bool_decide_false by done. xrun. by rewrite orb_false_r. }
  rewrite bool_decide_true by done. xrun. xtcb. cbn [andb].
  destruct (rr_policy (g_policy s) && (timeslice_cfg tc >? 0)) eqn:Hrr; cbn [andb];
    [|xrun; by rewrite orb_false_r].
  xtcb. destruct (slice_left tc >? 0) eqn:Hl; [|xrun; by rewrite orb_false_r].
  btest. xtcb. cbn [slice_left tcb_set_slice_left]. rewrite u16_id by lia.
  cbn [fst snd]. f_equal.
  destruct (Z.eqb_spec (slice_left tc - 1) 0), (Z.eqb_spec (slice_left tc) 1); try lia;
    by rewrite ?orb_true_r, ?orb_false_r.
Qed.

(** The whole handler computes [tick_spec]. *)
Lemma exec_tick_isr n out s p :
  sched_inv out s -> awake out s ->
  HARDRT_STALL_ON_ERROR = false \/ valid_id (g_current s) ->
  exec n hrt__tick_isr s p
  = Done tt (tick_spec s).1 (if (tick_spec s).2 then pend_switch p else p).
Proof.
  intros I Ha Hst. unfold hrt__tick_isr, hrt__inc_tick, tick_spec. xrun.
  set (s1 := set_tick (u32 (g_tick s + 1)) s).
  assert (I1 : sched_inv out s1) by (apply inv_set_tick; [done|apply u32_range]).
  assert (Ho : forall i, i ∈ out -> due s1 i = false)
    by (intros i; apply awake_due; exact Ha).
  erewrite exec_bind by (apply (exec_wake_sleepers n out); try done;
    [apply all_ids_nodup|apply all_ids_valid]).
  rewrite orb_false_l.
  assert (I2 : sched_inv out (wake_all all_ids s1)) by (apply wake_all_inv; [done|apply all_ids_nodup|done]).
  change (seqZ 0 HARDRT_MAX_TASKS) with all_ids.
  assert (Hc : g_current (wake_all all_ids s1) = g_current s)
    by exact (proj1 (wake_all_scalars all_ids s1)).
  destruct (id_out_of_range (g_current s)) eqn:Hr.
  - destruct Hst as [Hst|Hv]; [|by rewrite id_in_range in Hr].
    erewrite exec_bind.
    2: { unfold account_slice, hrt__get_current. xrun. rewrite Hc, Hr.
         rewrite exec_error by done. by xrun. }
    cbn [fst snd]. by destruct (existsb (due s1) all_ids); xrun.
  - assert (Hv : valid_id (g_current s)).
    { unfold id_out_of_range in Hr. btest. unfold valid_id. lia. }
    erewrite exec_bind by (eapply exec_account_slice; [done|by rewrite Hc]).
    cbn [fst snd]. by destruct (existsb (due s1) all_ids || (charge (wake_all all_ids s1)).2); xrun.
Qed.

Lemma tick_spec_inv out s :
  sched_inv out s -> awake out s -> sched_inv out (tick_spec s).1.
Proof.
  intros I Ha. unfold tick_spec.
  set (s1 := set_tick (u32 (g_tick s + 1)) s).
  assert (I1 : sched_inv out s1) by (apply inv_set_tick; [done|apply u32_range]).
  assert (I2 : sched_inv out (wake_all all_ids s1)).
  { apply wake_all_inv; [done|apply all_ids_nodup|]. intros i. apply awake_due. exact Ha. }
  destruct (id_out_of_range (g_current s)); cbn [fst]; [by apply inv_set_error|by apply charge_inv].
Qed.

End tick.
