(* ===== verification/InitFacts.v ===== *)
(** * Start-up: [hrt_init] and [hrt_create_task]

    Initialisation establishes the scheduling invariant, and creating a
    task keeps it: a new task takes the first unused slot and joins the
    tail of its ready queue. *)

From stdpp Require Import base tactics numbers list option gmap.
From S2P Require Import Prelude Types Prog Ring Core CoreFacts Inv Sched SchedFacts.
Open Scope Z_scope.
Open Scope prog_scope.

Section init.
Context `{C : Config} {Cok : ConfigOk C} `{PL : PortLayer}.
Implicit Types (s : kern) (p : pstate).

(** The settings [hrt_init] installs. *)
Definition apply_cfg (cfg : option hrt_config_t) (s : kern) : kern :=
  match cfg with
  | Some c =>
      set_tick_src (cfg_tick_src c) (set_core_hz (cfg_core_hz c)
        (set_default_slice (if cfg_default_slice c =? 0 then 5 else cfg_default_slice c)
          (set_policy (cfg_policy c)
            (set_tick_hz (if cfg_tick_hz c =? 0 then 1000 else cfg_tick_hz c) s))))
  | None => set_default_slice 5 (set_policy HRT_SCHED_PRIORITY_RR (set_tick_hz 1000 s))
  end.

Definition init_state (cfg : option hrt_config_t) (s : kern) : kern :=
  apply_cfg cfg
    (set_current (-1) (set_tick 0
      (set_tcbs (replicate (Z.to_nat HARDRT_MAX_TASKS) (tcb_set_state HRT_UNUSED tcb_zero))
        (set_rq (replicate (Z.to_nat HARDRT_MAX_PRIO) ring_empty) s)))).

Definition cfg_wf (cfg : option hrt_config_t) : Prop :=
  match cfg with
  | Some c => 0 <= cfg_tick_hz c < 2 ^ 32 /\ 0 <= cfg_default_slice c < 2 ^ 16
  | None => True
  end.

(** The synchronisation objects have well-formed, empty waiter queues. *)
Definition objects_idle (s : kern) : Prop :=
  forall pl r, rget (ring_of pl) s = Some r ->
    match pl with PReady _ => True | _ => ring_wf r /\ ring_list r = [] end.

Lemma exec_init n cfg s p :
  exec n (hrt_init cfg) s p
  = exec n (call hrt__init_idle_task ;; Ret 0) (init_state cfg s)
      (start_systick (g_tick_hz (init_state cfg s)) (init_state cfg s) p).
Proof.
  assert (E : forall k, tcb_set_state HRT_UNUSED <$> replicate k tcb_zero
                        = replicate k (tcb_set_state HRT_UNUSED tcb_zero)).
  { intros k. by rewrite fmap_replicate. }
  unfold hrt_init. xrun. cbn [g_tcbs set_tcbs set_rq]. rewrite E.
  destruct cfg; xrun; done.
Qed.

Lemma init_rget cfg s pl :
  rget (ring_of pl) (init_state cfg s) =
  match pl with
  | PReady pr => zget (replicate (Z.to_nat HARDRT_MAX_PRIO) ring_empty) pr
  | _ => rget (ring_of pl) s
  end.
Proof. by destruct pl, cfg. Qed.

Lemma init_ring_empty cfg s pl r :
  objects_idle s -> rget (ring_of pl) (init_state cfg s) = Some r ->
  ring_wf r /\ ring_list r = [].
Proof.
  intros Ho. rewrite init_rget. destruct pl as [pr|a|a|a|a]; try by apply Ho.
  unfold zget. destruct (pr <? 0); [done|]. intros [-> _]%lookup_replicate.
  apply ring_empty_repr.
Qed.

Lemma init_tcb cfg s id tc :
  zget (g_tcbs (init_state cfg s)) id = Some tc -> tc = tcb_set_state HRT_UNUSED tcb_zero.
Proof.
  assert (g_tcbs (init_state cfg s) = replicate (Z.to_nat HARDRT_MAX_TASKS)
    (tcb_set_state HRT_UNUSED tcb_zero)) as -> by by destruct cfg.
  unfold zget. destruct (id <? 0); [done|]. by intros [-> _]%lookup_replicate.
Qed.

Lemma init_inv cfg s : objects_idle s -> cfg_wf cfg -> sched_inv [] (init_state cfg s).
Proof.
  intros Ho Hc. pose proof max_tasks_bounds. destruct Cok.
  assert (Hq : forall pl, qlist (ring_of pl) (init_state cfg s) = []).
  { intros pl. unfold qlist. destruct (rget _ _) as [r|] eqn:E; [|done].
    by apply (init_ring_empty cfg s pl r Ho E). }
  split.
  - split; [|intros pl r E; by eapply init_ring_empty].
    split; destruct cfg as [c|]; cbn -[Z.pow]; rewrite ?length_replicate; try lia.
    1,2: apply Forall_replicate; split; cbn -[Z.pow]; lia.
    all: destruct Hc; repeat case_match; btest; lia.
  - intros pl id. rewrite Hq. by intros ?%not_elem_of_nil.
  - intros pl. rewrite Hq. apply NoDup_nil_2.
  - intros pl pl' id. rewrite Hq. by intros ?%not_elem_of_nil.
  - intros id pl ?%not_elem_of_nil. done.
  - intros id tc ->%init_tcb _ [?|?]; done.
  - intros id tc ->%init_tcb ?. done.
Qed.

End init.

(** ** Creating a task *)

Section create.
Context `{C : Config} {Cok : ConfigOk C} `{PL : PortLayer}.
Implicit Types (s : kern) (p : pstate).

Definition is_unused (s : kern) (i : Z) : bool :=
  match zget (g_tcbs s) i with Some tc => bool_decide (state tc = HRT_UNUSED) | None => false end.

(** The slot a new task takes: the first unused one, -1 when there is none. *)
Definition free_slot (s : kern) : Z := from_option id (-1) (List.find (is_unused s) all_ids).

Lemma exec_find_unused n s p ids :
  (forall i, i ∈ ids -> exists tc, zget (g_tcbs s) i = Some tc) ->
  exec n (find_unused ids) s p = Done (from_option id (-1) (List.find (is_unused s) ids)) s p.
Proof.
  induction ids as [|i ids IH]; intros H; [done|].
  destruct (H i) as [tc Htc]; [apply list_elem_of_here|].
  cbn [find_unused List.find]. unfold is_unused at 1. rewrite Htc. xtcb.
  case_decide; [by rewrite bool_decide_true|rewrite bool_decide_false by done].
  apply IH. intros j Hj. apply H. by apply list_elem_of_further.
Qed.

Lemma free_slot_cases s :
  (free_slot s = -1 /\ forall i, valid_id i -> is_unused s i = false) \/
  (valid_id (free_slot s) /\ is_unused s (free_slot s) = true /\
   forall i, 0 <= i < free_slot s -> is_unused s i = false).
Proof.
  unfold free_slot, all_ids. destruct (List.find _ _) as [i|] eqn:E; cbn.
  - right. apply find_first in E as (k & [Hk ?]%lookup_seqZ & Hu & Hf).
    unfold valid_id. split_and!; [lia|lia|done|]. intros j Hj.
    apply (Hf (Z.to_nat j)); [lia|]. apply lookup_seqZ. lia.
  - left. split; [done|]. intros i [? ?].
    eapply List.find_none; [exact E|]. apply list_elem_of_In, elem_of_seqZ. lia.
Qed.

(** The TCB of a new task. *)
Definition new_tcb (s : kern) (fn argp stack n_words : Z) (attr : option hrt_task_attr_t)
    : _hrt_tcb_t :=
  let slice := u16 (match attr with Some a => timeslice a | None => g_default_slice s end) in
  mkTcb 0 stack n_words fn argp 0 slice 0
    (u8 (match attr with Some a => priority a | None => HRT_PRIO1 end)) HRT_READY.

Lemma new_tcb_wf s fn argp stack n_words attr : tcb_wf (new_tcb s fn argp stack n_words attr).
Proof.
  split; cbn -[Z.pow u16 u8]; try lia; [apply u16_range|apply u8_range].
Qed.

Lemma exec_create_bad n s p fn argp stack n_words attr :
  fn = 0 \/ stack = 0 \/ n_words < 64 -> HARDRT_STALL_ON_ERROR = false ->
  exec n (hrt_create_task fn argp stack n_words attr) s p
  = Done (-1) (set_error ERR_INVALID_TASK s) p.
Proof.
  intros H Hst. unfold hrt_create_task.
  assert ((fn =? 0) || (stack =? 0) || (n_words <? 64) = true) as ->.
  { destruct H as [->|[->|?]]; [done|by rewrite orb_true_r|].
    apply orb_true_iff. right. by apply Z.ltb_lt. }
  by rewrite exec_error.
Qed.

Lemma exec_create_full n s p fn argp stack n_words attr :
  Z.of_nat (length (g_tcbs s)) = HARDRT_MAX_TASKS -> free_slot s = -1 ->
  fn <> 0 -> stack <> 0 -> 64 <= n_words -> HARDRT_STALL_ON_ERROR = false ->
  exec n (hrt_create_task fn argp stack n_words attr) s p
  = Done (-1) (set_error ERR_INVALID_ID s) p.
Proof.
  intros Hlen Hf H1 H2 H3 Hst. unfold hrt_create_task. zbool.
  erewrite exec_bind.
  2: { apply exec_find_unused. intros i Hi%elem_of_seqZ. apply zget_is_Some. lia. }
  unfold free_slot, all_ids in Hf. rewrite Hf. cbn. unfold hrt_error. by rewrite Hst.
Qed.

(** The call up to the port's preparation of the stack ... *)
Lemma exec_create n s p fn argp stack n_words attr id :
  Z.of_nat (length (g_tcbs s)) = HARDRT_MAX_TASKS -> free_slot s = id -> valid_id id ->
  fn <> 0 -> stack <> 0 -> 64 <= n_words ->
  exec n (hrt_create_task fn argp stack n_words attr) s p
  = exec n (call (hrt_port_prepare_task_stack id stack n_words) ;;
            tcb_write (Some id) (tcb_set_state HRT_READY) ;;
            tcb_write (Some id) tcb_refill ;;
            pr <- tcb_read (Some id) prio ;;
            rq_push pr id ;; Ret id)
      (kset_tcb id (new_tcb s fn argp stack n_words attr) s) p.
Proof.
  intros Hlen Hf Hv H1 H2 H3. unfold hrt_create_task. zbool.
  erewrite exec_bind.
  2: { apply exec_find_unused. intros i Hi%elem_of_seqZ. apply zget_is_Some. lia. }
  unfold free_slot, all_ids in Hf. rewrite Hf. pose proof Hv as [? ?]. zbool. rewrite tcb_ptr, (valid_u8 id) by done. cbn [is_null].
  xrun. destruct (zget_is_Some (g_tcbs s) id) as [tc Htc]; [lia|].
  rewrite (exec_tcb_write _ _ _ _ _ _ _ Htc). done.
Qed.

End create.
