(* ===== verification/InvCheck.v ===== *)
(** * Deciding the scheduling invariant

    An executable check of [sched_inv]: on a concrete kernel state the
    invariant is established by evaluation. *)

From stdpp Require Import base tactics numbers list option gmap.
From S2P Require Import Prelude Types Prog Ring Core CoreFacts Inv.
Open Scope Z_scope.

Section check.
Context `{C : Config}.

(** The queues that exist in a state. *)
Definition places (s : kern) : list place :=
  (PReady <$> seqZ 0 (Z.of_nat (length (g_rq s)))) ++
  ((fun x => PSem x.1) <$> map_to_list (m_sems s)) ++
  ((fun x => PMutex x.1) <$> map_to_list (m_mutexes s)) ++
  ((fun x => PRx x.1) <$> map_to_list (m_queues s)) ++
  ((fun x => PTx x.1) <$> map_to_list (m_queues s)).

Definition in_range (lo z hi : Z) : bool := (lo <=? z) && (z <? hi).

Definition tcb_check (t : _hrt_tcb_t) : bool :=
  in_range 0 (wake_tick t) (2 ^ 32) && in_range 0 (timeslice_cfg t) (2 ^ 16) &&
  in_range 0 (slice_left t) (2 ^ 16) && in_range 0 (prio t) (2 ^ 8).

Definition kern_check (s : kern) : bool :=
  (Z.of_nat (length (g_tcbs s)) =? HARDRT_MAX_TASKS) &&
  (Z.of_nat (length (g_rq s)) =? HARDRT_MAX_PRIO) &&
  forallb tcb_check (g_tcbs s) &&
  in_range 0 (g_tick s) (2 ^ 32) && in_range 0 (g_tick_hz s) (2 ^ 32) &&
  in_range 0 (g_default_slice s) (2 ^ 16).

Definition ring_check (r : ring) : bool :=
  (Z.of_nat (length (q r)) =? HARDRT_MAX_TASKS) && in_range 0 (head r) HARDRT_MAX_TASKS &&
  in_range 0 (count r) (HARDRT_MAX_TASKS + 1) &&
  (tail r =? (head r + count r) mod HARDRT_MAX_TASKS).

Definition stored_check (s : kern) (pl : place) (id : Z) : bool :=
  match zget (g_tcbs s) id with
  | Some tc => bool_decide (state tc = place_state pl) &&
      match pl with PReady pr => prio tc =? pr | _ => true end
  | None => false
  end.

(** A task that is ready or blocked is held or stored; live priorities. *)
Definition task_check (out : list Z) (s : kern) (i : Z) : bool :=
  match zget (g_tcbs s) i with
  | Some tc =>
      (bool_decide (state tc = HRT_UNUSED) || in_range 0 (prio tc) HARDRT_MAX_PRIO) &&
      (bool_decide (i ∈ out) ||
       (negb (bool_decide (state tc = HRT_READY)) && negb (bool_decide (state tc = HRT_BLOCKED))) ||
       existsb (fun pl => bool_decide (place_state pl = state tc) &&
                          bool_decide (i ∈ qlist (ring_of pl) s)) (places s))
  | None => true
  end.

Definition inv_check (out : list Z) (s : kern) : bool :=
  kern_check s &&
  forallb (fun pl => from_option ring_check true (rget (ring_of pl) s)) (places s) &&
  bool_decide (NoDup (out ++ concat ((fun pl => qlist (ring_of pl) s) <$> places s))) &&
  forallb (fun pl => forallb (stored_check s pl) (qlist (ring_of pl) s)) (places s) &&
  forallb (task_check out s) (seqZ 0 HARDRT_MAX_TASKS).

Lemma in_range_iff lo z hi : in_range lo z hi = true <-> lo <= z < hi.
Proof.
  unfold in_range. split; [intros; btest; lia|]. intros. apply andb_true_iff.
  split; [apply Z.leb_le; lia|apply Z.ltb_lt; lia].
Qed.

Lemma forallb_elem {A} (f : A -> bool) l x : forallb f l = true -> x ∈ l -> f x = true.
Proof. intros H Hx. rewrite List.forallb_forall in H. by apply H, list_elem_of_In. Qed.

Lemma place_listed s pl : is_Some (rget (ring_of pl) s) -> pl ∈ places s.
Proof.
  intros [r Hr]. unfold places. rewrite !elem_of_app, !list_elem_of_fmap.
  destruct pl as [pr|a|a|a|a]; cbn in Hr.
  - left. exists pr. split; [done|]. apply zget_Some in Hr. apply elem_of_seqZ. lia.
  - destruct (m_sems s !! a) as [m|] eqn:E; [|done]. right. left. exists (a, m).
    split; [done|]. by apply elem_of_map_to_list.
  - destruct (m_mutexes s !! a) as [m|] eqn:E; [|done]. do 2 right. left. exists (a, m).
    split; [done|]. by apply elem_of_map_to_list.
  - destruct (m_queues s !! a) as [m|] eqn:E; [|done]. do 3 right. left. exists (a, m).
    split; [done|]. by apply elem_of_map_to_list.
  - destruct (m_queues s !! a) as [m|] eqn:E; [|done]. do 4 right. exists (a, m).
    split; [done|]. by apply elem_of_map_to_list.
Qed.

Lemma queued_listed s pl id : id ∈ qlist (ring_of pl) s -> pl ∈ places s.
Proof.
  intros H. apply place_listed. unfold qlist in H. destruct (rget (ring_of pl) s); [by eexists|].
  by apply not_elem_of_nil in H.
Qed.

(** In a duplicate-free concatenation every member comes from one part. *)
Lemma NoDup_concat_unique {A B} (f : A -> list B) l x y (b : B) :
  NoDup (concat (f <$> l)) -> x ∈ l -> y ∈ l -> b ∈ f x -> b ∈ f y -> x = y.
Proof.
  assert (Hin : forall z l0, z ∈ l0 -> b ∈ f z -> b ∈ concat (f <$> l0)).
  { intros z l0 Hz Hb. apply list_elem_of_In, in_concat. exists (f z).
    split; [apply list_elem_of_In, list_elem_of_fmap; eauto|by apply list_elem_of_In]. }
  induction l as [|z l IH]; [by intros _ ?%not_elem_of_nil|].
  cbn. intros (Hz & Hd & Hl)%NoDup_app [->|Hx]%elem_of_cons [->|Hy]%elem_of_cons Hbx Hby;
    [done| | |by apply IH].
  - destruct (Hd b Hbx). by eapply Hin.
  - destruct (Hd b Hby). by eapply Hin.
Qed.

Lemma NoDup_concat_part {A B} (f : A -> list B) l x :
  NoDup (concat (f <$> l)) -> x ∈ l -> NoDup (f x).
Proof.
  induction l as [|z l IH]; [by intros _ ?%not_elem_of_nil|].
  cbn. intros (Hz & _ & Hl)%NoDup_app [->|Hx]%elem_of_cons; auto.
Qed.

Lemma kern_check_sound s : kern_check s = true -> kern_wf s.
Proof.
  unfold kern_check. intros H.
  repeat match goal with H : _ && _ = true |- _ => apply andb_true_iff in H as [? ?] end.
  repeat match goal with H : in_range _ _ _ = true |- _ => apply in_range_iff in H end. btest.
  split; try done. apply Forall_forall. intros t Ht.
  match goal with H : forallb _ _ = true |- _ => pose proof (forallb_elem _ _ _ H Ht) as Hc end.
  unfold tcb_check in Hc.
  repeat match goal with H : _ && _ = true |- _ => apply andb_true_iff in H as [? ?] end.
  by split; apply in_range_iff.
Qed.

Lemma ring_check_sound r : ring_check r = true -> ring_wf r.
Proof.
  unfold ring_check. intros H.
  repeat match goal with H : _ && _ = true |- _ => apply andb_true_iff in H as [? ?] end.
  repeat match goal with H : in_range _ _ _ = true |- _ => apply in_range_iff in H end. btest.
  split; lia.
Qed.

Lemma task_check_sound out s i tc :
  task_check out s i = true -> zget (g_tcbs s) i = Some tc ->
  (state tc <> HRT_UNUSED -> 0 <= prio tc < HARDRT_MAX_PRIO) /\
  (i ∉ out -> state tc = HRT_READY \/ state tc = HRT_BLOCKED ->
   exists pl, place_state pl = state tc /\ i ∈ qlist (ring_of pl) s).
Proof.
  unfold task_check. intros H Htc. rewrite Htc in H. apply andb_true_iff in H as [Hp Hq]. split.
  - intros Hu. rewrite (bool_decide_false (state tc = HRT_UNUSED)) in Hp by done.
    by apply in_range_iff.
  - intros Ho Hs. rewrite (bool_decide_false (i ∈ out)) in Hq by done.
    apply orb_true_iff in Hq as [Hq|Hq].
    + rewrite orb_false_l in Hq. apply andb_true_iff in Hq as [Hq1 Hq2].
      apply negb_true_iff, bool_decide_eq_false in Hq1, Hq2. tauto.
    + apply existsb_exists in Hq as (pl & _ & [H1 H2]%andb_true_iff). exists pl.
      by apply bool_decide_eq_true in H1, H2.
Qed.

Theorem inv_check_sound out s : inv_check out s = true -> sched_inv out s.
Proof.
  unfold inv_check. intros [[[[Hk Hr]%andb_true_iff Hnd]%andb_true_iff Hs]%andb_true_iff
    Ht]%andb_true_iff.
  apply bool_decide_eq_true, NoDup_app in Hnd as (_ & Hout & Hnd).
  assert (W := kern_check_sound s Hk).
  assert (Htask : forall i tc, zget (g_tcbs s) i = Some tc -> task_check out s i = true).
  { intros i tc Htc. eapply forallb_elem; [exact Ht|]. apply elem_of_seqZ.
    apply zget_Some in Htc. destruct W. lia. }
  split.
  - split; [done|]. intros pl r E. apply ring_check_sound.
    assert (Hpl : pl ∈ places s) by (apply place_listed; eauto).
    pose proof (forallb_elem _ _ _ Hr Hpl) as H. cbv beta in H. by rewrite E in H.
  - intros pl id Hid. pose proof (forallb_elem _ _ _ Hs (queued_listed _ _ _ Hid)) as H.
    apply (forallb_elem _ _ _ H) in Hid. unfold stored_check in Hid.
    destruct (zget (g_tcbs s) id) as [tc|]; [|done]. apply andb_true_iff in Hid as [H1 H2].
    apply bool_decide_eq_true in H1. exists tc. split_and!; [done|done|].
    intros pr ->. by apply Z.eqb_eq.
  - intros pl. destruct (qlist (ring_of pl) s) as [|x l] eqn:E; [apply NoDup_nil_2|].
    rewrite <- E. apply (NoDup_concat_part _ _ _ Hnd). apply (queued_listed s pl x).
    rewrite E. apply list_elem_of_here.
  - intros pl pl' id H1 H2.
    eapply (NoDup_concat_unique _ _ _ _ _ Hnd); eauto using queued_listed.
  - intros id pl Ho Hin. apply (Hout id Ho). apply list_elem_of_In, in_concat.
    exists (qlist (ring_of pl) s). split; [|by apply list_elem_of_In].
    apply list_elem_of_In, list_elem_of_fmap. exists pl. split; [done|by eapply queued_listed].
  - intros id tc Htc. by apply (task_check_sound out s id tc (Htask id tc Htc) Htc).
  - intros id tc Htc. by apply (task_check_sound out s id tc (Htask id tc Htc) Htc).
Qed.

End check.
