(* ===== verification/SemFacts.v ===== *)
(** * Correctness of the semaphores

    A semaphore refines a counter with a FIFO of waiters. A give hands the
    unit over to the oldest waiter, and only counts when nobody waits. *)

From stdpp Require Import base tactics numbers list option gmap.
From S2P Require Import Prelude Types Prog Ring Core Sem CoreFacts Inv.
Open Scope Z_scope.
Open Scope prog_scope.

(** ** The abstract semaphore *)

Record asem := mkAsem { a_count : Z; a_max : Z; a_waiters : list Z }.

(** [P id] by task [id]: whether it goes on at once. *)
Definition asem_take (id : Z) (m : asem) : asem * bool :=
  if 0 <? a_count m then (mkAsem (a_count m - 1) (a_max m) (a_waiters m), true)
  else (mkAsem (a_count m) (a_max m) (a_waiters m ++ [id]), false).

Definition asem_try_take (m : asem) : asem * bool :=
  if 0 <? a_count m then (mkAsem (a_count m - 1) (a_max m) (a_waiters m), true) else (m, false).

(** [V]: the task it wakes, if any. *)
Definition asem_give (m : asem) : asem * option Z :=
  match a_waiters m with
  | w :: ws => (mkAsem (a_count m) (a_max m) ws, Some w)
  | [] => (mkAsem (Z.min (a_count m + 1) (a_max m)) (a_max m) [], None)
  end.

Record asem_ok (m : asem) : Prop := {
  aok_count : 0 <= a_count m <= a_max m;
  aok_max : 1 <= a_max m <= 255;
  aok_idle : 0 < a_count m -> a_waiters m = []
}.

#[export] Instance asem_ok_dec m : Decision (asem_ok m).
Proof.
  refine (cast_if (decide ((0 <= a_count m <= a_max m) /\ (1 <= a_max m <= 255) /\
    (0 < a_count m -> a_waiters m = [])))).
  - abstract (split; tauto).
  - abstract (intros []; tauto).
Defined.

Lemma asem_take_ok id m : asem_ok m -> asem_ok (asem_take id m).1.
Proof.
  intros [? ? Hi]. unfold asem_take. destruct (0 <? a_count m) eqn:E; btest;
    split; cbn; try lia; auto with lia.
Qed.

Lemma asem_give_ok m : asem_ok m -> asem_ok (asem_give m).1.
Proof.
  intros [? ? Hi]. unfold asem_give. destruct (a_waiters m) eqn:E; split; cbn; try lia; auto.
  intros Hc. by specialize (Hi Hc).
Qed.

Section sem.
Context `{C : Config}.

(** The abstraction of a semaphore. *)
Definition sem_abs (m : hrt_sem_t) : asem :=
  mkAsem (sem_count m) (sem_max_count m) (ring_list (sem_waitq m)).

Definition sem_at (a : Z) (s : kern) : option asem := sem_abs <$> m_sems s !! a.

Definition sems_ok (s : kern) : Prop := map_Forall (fun _ m => asem_ok (sem_abs m)) (m_sems s).

Definition kset_sem (a : Z) (m : hrt_sem_t) (s : kern) : kern :=
  set_sems (<[a := m]> (m_sems s)) s.

(** The abstract semaphore, and nothing else about the objects, changed. *)
Definition sem_becomes (a : Z) (m' : asem) (s s' : kern) : Prop :=
  sem_at a s' = Some m' /\
  (forall b, b <> a -> m_sems s' !! b = m_sems s !! b) /\
  m_mutexes s' = m_mutexes s /\ m_queues s' = m_queues s.

End sem.

Section sem_exec.
Context `{C : Config} {Cok : ConfigOk C} `{PL : PortLayer}.
Implicit Types (s : kern) (p : pstate).

Lemma exec_sem_read {A B} n a (f : hrt_sem_t -> A) (k : A -> prog B) s p m :
  m_sems s !! a = Some m -> exec n (bind (Sem.sem_read a f) k) s p = exec n (k (f m)) s p.
Proof. intros E. apply exec_reads. by rewrite E. Qed.

Lemma exec_sem_write {B} n a f (k : unit -> prog B) s p m :
  m_sems s !! a = Some m ->
  exec n (bind (Sem.sem_write a f) k) s p = exec n (k tt) (kset_sem a (f m) s) p.
Proof. intros E. apply exec_writes. unfold Sem.sem_upd. by rewrite E. Qed.

Lemma exec_sem_write_last n a f s p m :
  m_sems s !! a = Some m ->
  exec n (Sem.sem_write a f) s p = Done tt (kset_sem a (f m) s) p.
Proof. intros E. apply exec_writes_last. unfold Sem.sem_upd. by rewrite E. Qed.

Lemma kset_sem_twice a m m' s : kset_sem a m' (kset_sem a m s) = kset_sem a m' s.
Proof. unfold kset_sem, set_sems. cbn. by rewrite insert_insert_eq. Qed.

Lemma kset_sem_lookup a m s : m_sems (kset_sem a m s) !! a = Some m.
Proof. apply lookup_insert_eq. Qed.

Lemma sem_qlist a s m : m_sems s !! a = Some m -> qlist (sem_ring a) s = ring_list (sem_waitq m).
Proof. intros E. unfold qlist. cbn. by rewrite E. Qed.

Lemma sem_becomes_set a m m' s :
  m_sems s !! a = Some m -> sem_becomes a (sem_abs m') s (kset_sem a m' s).
Proof.
  intros E. split_and!; try done.
  - unfold sem_at. by rewrite kset_sem_lookup.
  - intros b Hb. by apply lookup_insert_ne.
Qed.

Lemma sem_becomes_count a m c s :
  m_sems s !! a = Some m ->
  sem_becomes a (mkAsem c (sem_max_count m) (ring_list (sem_waitq m))) s
    (kset_sem a (mkSem c (sem_max_count m) (sem_waitq m)) s).
Proof. intros E. exact (sem_becomes_set a m (mkSem c (sem_max_count m) (sem_waitq m)) s E). Qed.

(** Changing the count of a semaphore does not touch its waiters. *)
Lemma inv_set_sem out s a m c mx :
  sched_inv out s -> m_sems s !! a = Some m ->
  sched_inv out (kset_sem a (mkSem c mx (sem_waitq m)) s).
Proof.
  intros I E. destruct (bwf_kern _ (inv_base _ _ I)).
  eapply inv_frame; [exact I|done| |done..]. intros [?|b|?|?|?]; try done. cbn.
  destruct (decide (a = b)) as [<-|]; [|by rewrite lookup_insert_ne].
  rewrite lookup_insert_eq, E. done.
Qed.

Lemma sems_ok_becomes a m' s s' :
  sems_ok s -> sem_becomes a m' s s' -> asem_ok m' -> sems_ok s'.
Proof.
  intros Hok (E & Hne & _) Hm b m Hb. destruct (decide (b = a)) as [->|Hn].
  - unfold sem_at in E. rewrite Hb in E. injection E as <-. done.
  - rewrite Hne in Hb by done. by eapply Hok.
Qed.

(** ** The waiter queue *)

Lemma exec_sem_waitq_push n s p a id :
  valid_id id -> ring_ok (sem_ring a) s ->
  Z.of_nat (length (qlist (sem_ring a) s)) < HARDRT_MAX_TASKS ->
  exec n (Sem._waitq_push a id) s p = Done tt (lpush (sem_ring a) id s) p.
Proof.
  intros Hid Hr Hl. unfold Sem._waitq_push. rewrite id_in_range, andb_false_r by done. xrun.
  erewrite exec_bind by by apply exec_ring_count. zbool. by apply exec_ring_push.
Qed.

Lemma exec_sem_waitq_pop_empty n s p a :
  ring_ok (sem_ring a) s -> qlist (sem_ring a) s = [] ->
  exec n (Sem._waitq_pop a) s p = Done (-1) s p.
Proof.
  intros Hr Hl. unfold Sem._waitq_pop. erewrite exec_bind by by apply exec_ring_count.
  by rewrite Hl.
Qed.

Lemma exec_sem_waitq_pop n s p a x l :
  ring_ok (sem_ring a) s -> qlist (sem_ring a) s = x :: l -> valid_id x ->
  exec n (Sem._waitq_pop a) s p = Done x (lpop (sem_ring a) s) p.
Proof.
  intros Hr Hl Hx. unfold Sem._waitq_pop. erewrite exec_bind by by apply exec_ring_count.
  rewrite Hl. cbn [length]. zbool. erewrite exec_bind by by eapply exec_ring_read_head.
  rewrite id_in_range, andb_false_r by done. xrun.
  rewrite <- bind_assoc. by erewrite exec_bind by by apply exec_ring_drop.
Qed.

Lemma sem_becomes_push a id s m :
  m_sems s !! a = Some m -> ring_ok (sem_ring a) s ->
  Z.of_nat (length (qlist (sem_ring a) s)) < HARDRT_MAX_TASKS ->
  sem_becomes a (mkAsem (sem_count m) (sem_max_count m) (ring_list (sem_waitq m) ++ [id])) s
    (lpush (sem_ring a) id s).
Proof.
  intros E Hr Hl. pose proof (lpush_spec id s Hr Hl) as [_ Hq]. revert Hq.
  unfold lpush, qlist, sem_becomes, sem_at, sem_abs. cbn. rewrite E. cbn. rewrite !lookup_alter_eq, E. cbn.
  intros ->. split_and!; try done. intros b Hb. by apply lookup_alter_ne.
Qed.

Lemma sem_becomes_pop a s m x l :
  m_sems s !! a = Some m -> ring_ok (sem_ring a) s -> ring_list (sem_waitq m) = x :: l ->
  sem_becomes a (mkAsem (sem_count m) (sem_max_count m) l) s (lpop (sem_ring a) s).
Proof.
  intros E Hr Hl. rewrite <- (sem_qlist a s m E) in Hl.
  pose proof (lpop_spec x l s Hr Hl) as [_ Hq]. revert Hq.
  unfold lpop, qlist, sem_becomes, sem_at, sem_abs. cbn. rewrite E. cbn. rewrite !lookup_alter_eq, E. cbn.
  intros ->. split_and!; try done. intros b Hb. by apply lookup_alter_ne.
Qed.

(** ** [hrt_sem_try_take] *)

Lemma exec_sem_try_take n s p a m :
  m_sems s !! a = Some m -> asem_ok (sem_abs m) ->
  exec n (Sem.hrt_sem_try_take a) s p =
  if 0 <? sem_count m
  then Done 0 (kset_sem a (mkSem (sem_count m - 1) (sem_max_count m) (sem_waitq m)) s)
         (crit_exit (crit_enter p))
  else Done (-1) s (crit_exit (crit_enter p)).
Proof.
  intros E [Hc Hm _]. cbn in Hc, Hm. unfold Sem.hrt_sem_try_take. xrun.
  rewrite (exec_sem_read _ _ _ _ _ _ _ E).
  destruct (0 <? sem_count m) eqn:Hp; btest; zbool; xrun; [|done].
  rewrite (exec_sem_write _ _ _ _ _ _ _ E). unfold Sem.set_count.
  rewrite u8_id by lia. by xrun.
Qed.

(** ** [hrt_sem_take] *)

Lemma exec_sem_take n s p a m :
  m_sems s !! a = Some m -> asem_ok (sem_abs m) -> 0 < sem_count m ->
  exec n (Sem.hrt_sem_take a) s p
  = Done 0 (kset_sem a (mkSem (sem_count m - 1) (sem_max_count m) (sem_waitq m)) s)
      (crit_exit (crit_enter p)).
Proof.
  intros E Hok Hc. unfold Sem.hrt_sem_take.
  erewrite exec_bind; [|rewrite (exec_sem_try_take n s p a m) by done; by zbool]. done.
Qed.

Lemma exec_sem_take_block n s p a m tc :
  m_sems s !! a = Some m -> asem_ok (sem_abs m) -> sem_count m = 0 ->
  valid_id (g_current s) -> zget (g_tcbs s) (g_current s) = Some tc ->
  ring_ok (sem_ring a) s -> Z.of_nat (length (qlist (sem_ring a) s)) < HARDRT_MAX_TASKS ->
  exec n (Sem.hrt_sem_take a) s p
  = exec n (call hrt_port_yield_to_scheduler ;; Ret 0)
      (kset_tcb (g_current s) (tcb_set_state HRT_BLOCKED tc) (lpush (sem_ring a) (g_current s) s))
      (pend_switch (crit_exit (crit_enter (crit_exit (crit_enter p))))).
Proof.
  intros E Hok Hc Hid Htc Hr Hl. unfold Sem.hrt_sem_take, hrt__get_current.
  erewrite exec_bind; [|rewrite (exec_sem_try_take n s p a m) by done; by zbool].
  zbool. xrun. rewrite id_in_range, andb_false_r by done. xrun.
  rewrite (exec_sem_read _ _ _ _ _ _ _ E). zbool. rewrite valid_u8 by done.
  erewrite exec_bind by by apply exec_sem_waitq_push.
  rewrite tcb_ptr, andb_false_r by done. xrun.
  erewrite (exec_tcb_write _ _ _ _ _ _ tc); [by xrun|].
  by rewrite (lpush_tcbs (PSem a)).
Qed.

(** ** [_give_common] *)

(** The critical section of [_give_common]. *)
Definition give_section (a : Z) : prog bool :=
  waiter <- Sem._waitq_pop a ;;
  if waiter >=? 0 then
    let tw := hrt__tcb waiter in
    (if HARDRT_DEBUG && is_null tw then hrt_error ERR_TCB_NULL else skip) ;;
    hrt__make_ready waiter ;;
    Ret true
  else
    n <- Sem.sem_read a sem_count ;;
    mx <- Sem.sem_read a sem_max_count ;;
    (if n <? mx then Sem.sem_write a (fun m => Sem.set_count (u8 (sem_count m + 1)) m) else skip) ;;
    Ret false.

Lemma give_eq a isr out :
  Sem._give_common a isr out
  = (call hrt_port_crit_enter ;;
     woken <- give_section a ;;
     call hrt_port_crit_exit ;;
     if isr then
       (if (woken : bool) then call hrt__pend_context_switch else skip) ;;
       Ret (if out then Some (if woken then 1 else 0) else None)
     else (if (woken : bool) then hrt_yield else skip) ;; Ret None).
Proof. unfold Sem._give_common, give_section. by rewrite bind_assoc. Qed.

Lemma exec_give_section_wake n out s p a m w ws tc :
  sched_inv out s -> m_sems s !! a = Some m -> ring_list (sem_waitq m) = w :: ws ->
  zget (g_tcbs s) w = Some tc ->
  exec n (give_section a) s p = Done true (kwake (PSem a) w tc s) p.
Proof.
  intros I E Hw Htc. rewrite <- (sem_qlist a s m E) in Hw.
  assert (Hr := ring_ok_nonempty _ _ (PSem a) _ _ I Hw).
  assert (Hv := inv_tcb_valid _ _ _ _ I Htc).
  unfold give_section. erewrite exec_bind by by eapply exec_sem_waitq_pop.
  pose proof Hv as [? ?]. zbool. rewrite tcb_ptr, andb_false_r by done. xrun.
  erewrite (exec_wake_waiter n out s _ (PSem a)) by done. by xrun.
Qed.

Lemma exec_give_section_count n out s p a m :
  sched_inv out s -> m_sems s !! a = Some m -> asem_ok (sem_abs m) ->
  ring_list (sem_waitq m) = [] ->
  exec n (give_section a) s p
  = Done false
      (if sem_count m <? sem_max_count m
       then kset_sem a (mkSem (sem_count m + 1) (sem_max_count m) (sem_waitq m)) s else s) p.
Proof.
  intros I E [Hc Hm _] Hw. cbn in Hc, Hm. rewrite <- (sem_qlist a s m E) in Hw.
  assert (Hr : ring_ok (sem_ring a) s)
    by (eapply (ring_ok_exists _ _ (PSem a)); [done|cbn; rewrite E; eauto]).
  unfold give_section. erewrite exec_bind by by eapply exec_sem_waitq_pop_empty.
  zbool. xrun. do 2 (rewrite (exec_sem_read _ _ _ _ _ _ _ E); xrun).
  destruct (sem_count m <? sem_max_count m) eqn:Hlt; btest; xrun; [|done].
  rewrite (exec_sem_write _ _ _ _ _ _ _ E). unfold Sem.set_count. rewrite u8_id by lia. by xrun.
Qed.

Lemma exec_give_wake n out s p a m isr b w ws tc :
  sched_inv out s -> m_sems s !! a = Some m -> ring_list (sem_waitq m) = w :: ws ->
  zget (g_tcbs s) w = Some tc ->
  exec n (Sem._give_common a isr b) s p
  = if isr
    then Done (if b then Some 1 else None) (kwake (PSem a) w tc s)
           (pend_switch (crit_exit (crit_enter p)))
    else exec n (hrt_yield ;; Ret None) (kwake (PSem a) w tc s) (crit_exit (crit_enter p)).
Proof.
  intros. rewrite give_eq. xrun. erewrite exec_bind by by eapply exec_give_section_wake.
  xrun. by destruct isr; xrun.
Qed.

Lemma exec_give_count n out s p a m isr b :
  sched_inv out s -> m_sems s !! a = Some m -> asem_ok (sem_abs m) ->
  ring_list (sem_waitq m) = [] ->
  exec n (Sem._give_common a isr b) s p
  = Done (if isr && b then Some 0 else None)
      (if sem_count m <? sem_max_count m
       then kset_sem a (mkSem (sem_count m + 1) (sem_max_count m) (sem_waitq m)) s else s)
      (crit_exit (crit_enter p)).
Proof.
  intros. rewrite give_eq. xrun. erewrite exec_bind by by eapply exec_give_section_count.
  xrun. by destruct isr, b; xrun.
Qed.

End sem_exec.
