(* ===== verification/MutexFacts.v ===== *)
(** * Correctness of the mutexes

    A mutex refines an owner with a FIFO of waiters; unlocking hands the
    mutex over to the oldest waiter, so it is never free while a task
    waits. *)

From stdpp Require Import base tactics numbers list option gmap.
From S2P Require Import Prelude Types Prog Ring Core Mutex CoreFacts Inv.
Open Scope Z_scope.
Open Scope prog_scope.

(** ** The abstract mutex *)

Record amutex := mkAmutex { a_owner : option Z; a_queue : list Z }.

Inductive lock_outcome := Acquired | Recursive | Waiting.

Definition amutex_lock (id : Z) (m : amutex) : amutex * lock_outcome :=
  match a_owner m with
  | None => (mkAmutex (Some id) (a_queue m), Acquired)
  | Some o =>
      if o =? id then (m, Recursive) else (mkAmutex (a_owner m) (a_queue m ++ [id]), Waiting)
  end.

(** The task that becomes the owner, if any; [None] is a refusal. *)
Definition amutex_unlock (id : Z) (m : amutex) : option (amutex * option Z) :=
  match a_owner m with
  | Some o =>
      if o =? id then
        match a_queue m with
        | w :: ws => Some (mkAmutex (Some w) ws, Some w)
        | [] => Some (mkAmutex None [], None)
        end
      else None
  | None => None
  end.

Definition amutex_ok (m : amutex) : Prop :=
  match a_owner m with
  | None => a_queue m = []
  | Some o => o ∉ a_queue m
  end.

#[export] Instance amutex_ok_dec m : Decision (amutex_ok m).
Proof. unfold amutex_ok. destruct (a_owner m); apply _. Defined.

Lemma amutex_lock_ok id m :
  amutex_ok m -> (id ∉ a_queue m) -> amutex_ok (amutex_lock id m).1.
Proof.
  unfold amutex_ok, amutex_lock. intros H Hid. destruct (a_owner m) as [o|] eqn:Ho; cbn; [|done].
  destruct (o =? id) eqn:E; cbn; btest; rewrite ?Ho; [done|].
  rewrite elem_of_app, list_elem_of_singleton. tauto.
Qed.

Lemma amutex_lock_waiting id m :
  (amutex_lock id m).2 = Waiting ->
  (amutex_lock id m).1 = mkAmutex (a_owner m) (a_queue m ++ [id]).
Proof. unfold amutex_lock. destruct (a_owner m) as [o|]; [|done]. by destruct (o =? id). Qed.

Lemma amutex_unlock_ok id m m' w :
  amutex_ok m -> NoDup (a_queue m) -> amutex_unlock id m = Some (m', w) -> amutex_ok m'.
Proof.
  unfold amutex_ok, amutex_unlock. destruct (a_owner m) as [o|]; [|done].
  destruct (o =? id); [|done]. destruct (a_queue m) as [|x l]; intros _ Hnd [= <- <-]; cbn; [done|].
  by apply NoDup_cons in Hnd as [? _].
Qed.

Lemma amutex_unlock_handover id m m' w :
  amutex_unlock id m = Some (m', Some w) ->
  exists ws, a_queue m = w :: ws /\ m' = mkAmutex (Some w) ws.
Proof.
  unfold amutex_unlock. destruct (a_owner m) as [o|]; [|done]. destruct (o =? id); [|done].
  destruct (a_queue m) as [|x l]; intros [= <- <-]. by exists l.
Qed.

Lemma amutex_lock_acquired id m :
  (amutex_lock id m).2 = Acquired -> (amutex_lock id m).1 = mkAmutex (Some id) (a_queue m).
Proof. unfold amutex_lock. destruct (a_owner m) as [o|]; [|done]. by destruct (o =? id). Qed.

Lemma amutex_lock_recursive id m :
  (amutex_lock id m).2 = Recursive -> (amutex_lock id m).1 = m.
Proof. unfold amutex_lock. destruct (a_owner m) as [o|]; [|done]. by destruct (o =? id). Qed.

Lemma amutex_unlock_freed id m m' :
  amutex_unlock id m = Some (m', None) -> m' = mkAmutex None (a_queue m).
Proof.
  unfold amutex_unlock. destruct (a_owner m) as [o|]; [|done]. destruct (o =? id); [|done].
  destruct (a_queue m) as [|x l]; [|done]. by intros [= <-].
Qed.

Lemma amutex_unlock_free id m m' :
  amutex_unlock id m = Some (m', None) -> a_queue m = [].
Proof.
  unfold amutex_unlock. destruct (a_owner m) as [o|]; [|done]. destruct (o =? id); [|done].
  by destruct (a_queue m).
Qed.

Section mutex.
Context `{C : Config}.

Definition mtx_abs (m : hrt_mutex_t) : amutex :=
  mkAmutex (if mtx_locked m =? 0 then None else Some (mtx_owner m)) (ring_list (mtx_waitq m)).

Definition mutex_at (a : Z) (s : kern) : option amutex := mtx_abs <$> m_mutexes s !! a.

(** How the fields encode it: [locked] is 0 or 1, and [owner] is
    [HRT_MUTEX_NO_OWNER] exactly when it is 0. *)
Definition mtx_rep (m : hrt_mutex_t) : Prop :=
  (mtx_locked m = 0 /\ mtx_owner m = HRT_MUTEX_NO_OWNER) \/
  (mtx_locked m = 1 /\ 0 <= mtx_owner m < HARDRT_MAX_TASKS).

#[export] Instance mtx_rep_dec m : Decision (mtx_rep m).
Proof. unfold mtx_rep. apply _. Defined.

Definition mtx_ok (m : hrt_mutex_t) : Prop := mtx_rep m /\ amutex_ok (mtx_abs m).

#[export] Instance mtx_ok_dec m : Decision (mtx_ok m).
Proof. unfold mtx_ok. apply _. Defined.

Definition mutexes_ok (s : kern) : Prop := map_Forall (fun _ m => mtx_ok m) (m_mutexes s).

Definition kset_mutex (a : Z) (m : hrt_mutex_t) (s : kern) : kern :=
  set_mutexes (<[a := m]> (m_mutexes s)) s.

(** The mutex at [a] became [m'], correctly encoded; no other object changed. *)
Definition mutex_becomes (a : Z) (m' : amutex) (s s' : kern) : Prop :=
  (exists m, m_mutexes s' !! a = Some m /\ mtx_abs m = m' /\ mtx_rep m) /\
  (forall b, b <> a -> m_mutexes s' !! b = m_mutexes s !! b) /\
  m_sems s' = m_sems s /\ m_queues s' = m_queues s.

End mutex.

Section mutex_exec.
Context `{C : Config} {Cok : ConfigOk C} `{PL : PortLayer}.
Implicit Types (s : kern) (p : pstate).

Lemma exec_mtx_read {A B} n a (f : hrt_mutex_t -> A) (k : A -> prog B) s p m :
  m_mutexes s !! a = Some m -> exec n (bind (Mutex.mtx_read a f) k) s p = exec n (k (f m)) s p.
Proof. intros E. apply exec_reads. by rewrite E. Qed.

Lemma exec_mtx_write {B} n a f (k : unit -> prog B) s p m :
  m_mutexes s !! a = Some m ->
  exec n (bind (Mutex.mtx_write a f) k) s p = exec n (k tt) (kset_mutex a (f m) s) p.
Proof. intros E. apply exec_writes. unfold Mutex.mtx_upd. by rewrite E. Qed.

Lemma kset_mutex_twice a m m' s : kset_mutex a m' (kset_mutex a m s) = kset_mutex a m' s.
Proof. unfold kset_mutex, set_mutexes. cbn. by rewrite insert_insert_eq. Qed.

Lemma kset_mutex_lookup a m s : m_mutexes (kset_mutex a m s) !! a = Some m.
Proof. apply lookup_insert_eq. Qed.

Lemma mutex_qlist a s m :
  m_mutexes s !! a = Some m -> qlist (mutex_ring a) s = ring_list (mtx_waitq m).
Proof. intros E. unfold qlist. cbn. by rewrite E. Qed.

Lemma mutex_ring_ok out s a m :
  sched_inv out s -> m_mutexes s !! a = Some m -> ring_ok (mutex_ring a) s.
Proof.
  intros I E. eapply (ring_ok_exists _ _ (PMutex a)); [done|]. cbn. rewrite E. by eexists.
Qed.

Lemma inv_set_mutex out s a m l o :
  sched_inv out s -> m_mutexes s !! a = Some m ->
  sched_inv out (kset_mutex a (mkMutex l o (mtx_waitq m)) s).
Proof.
  intros I E. destruct (bwf_kern _ (inv_base _ _ I)).
  eapply inv_frame; [exact I|done| |done..]. intros [?|?|b|?|?]; try done. cbn.
  destruct (decide (a = b)) as [<-|]; [|by rewrite lookup_insert_ne].
  rewrite lookup_insert_eq, E. done.
Qed.

Lemma mutexes_ok_becomes a m' s s' :
  mutexes_ok s -> mutex_becomes a m' s s' -> amutex_ok m' -> mutexes_ok s'.
Proof.
  intros Hok ((m0 & E & <- & Hrep) & Hne & _) Hm b m Hb. destruct (decide (b = a)) as [->|Hn].
  - rewrite E in Hb. injection Hb as <-. by split.
  - rewrite Hne in Hb by done. by eapply Hok.
Qed.

Lemma mutex_becomes_set a m' l o q s :
  mtx_abs (mkMutex l o q) = m' -> mtx_rep (mkMutex l o q) ->
  mutex_becomes a m' s (kset_mutex a (mkMutex l o q) s).
Proof.
  intros <- Hrep. split_and!; try done; [|intros b Hb; by apply lookup_insert_ne].
  eexists. split_and!; [apply kset_mutex_lookup|done|done].
Qed.

(** ** The waiter queue *)

Lemma exec_mutex_waitq_push n s p a id :
  ring_ok (mutex_ring a) s -> Z.of_nat (length (qlist (mutex_ring a) s)) < HARDRT_MAX_TASKS ->
  exec n (Mutex._waitq_push a id) s p = Done tt (lpush (mutex_ring a) id s) p.
Proof.
  intros Hr Hl. unfold Mutex._waitq_push.
  erewrite exec_bind by by apply exec_ring_count. zbool. by apply exec_ring_push.
Qed.

Lemma exec_mutex_waitq_pop_empty n s p a :
  ring_ok (mutex_ring a) s -> qlist (mutex_ring a) s = [] ->
  exec n (Mutex._waitq_pop a) s p = Done (-1) s p.
Proof.
  intros Hr Hl. unfold Mutex._waitq_pop. erewrite exec_bind by by apply exec_ring_count.
  by rewrite Hl.
Qed.

Lemma exec_mutex_waitq_pop n s p a x l :
  ring_ok (mutex_ring a) s -> qlist (mutex_ring a) s = x :: l ->
  exec n (Mutex._waitq_pop a) s p = Done x (lpop (mutex_ring a) s) p.
Proof.
  intros Hr Hl. unfold Mutex._waitq_pop. erewrite exec_bind by by apply exec_ring_count.
  rewrite Hl. cbn [length]. zbool. erewrite exec_bind by by eapply exec_ring_read_head.
  rewrite <- bind_assoc. by erewrite exec_bind by by apply exec_ring_drop.
Qed.

Lemma lpush_mutex a id s m :
  m_mutexes s !! a = Some m ->
  m_mutexes (lpush (mutex_ring a) id s) !! a
  = Some (mkMutex (mtx_locked m) (mtx_owner m) (ring_push id (mtx_waitq m))).
Proof. intros E. unfold lpush. cbn. rewrite E. cbn. by rewrite lookup_alter_eq, E. Qed.

Lemma lpop_mutex a s m :
  m_mutexes s !! a = Some m ->
  m_mutexes (lpop (mutex_ring a) s) !! a
  = Some (mkMutex (mtx_locked m) (mtx_owner m) (ring_pop (mtx_waitq m))).
Proof. intros E. unfold lpop. cbn. rewrite E. cbn. by rewrite lookup_alter_eq, E. Qed.

Lemma exec_take_ownership n a id s p m :
  m_mutexes s !! a = Some m -> valid_id id ->
  exec n (Mutex.take_ownership a id) s p
  = Done tt (kset_mutex a (mkMutex 1 id (mtx_waitq m)) s) p.
Proof.
  intros E Hid. unfold Mutex.take_ownership. rewrite (exec_mtx_write _ _ _ _ _ _ _ E).
  etrans.
  { apply exec_writes_last. unfold Mutex.mtx_upd. rewrite kset_mutex_lookup. reflexivity. }
  change (set_mutexes (<[a := ?m']> (m_mutexes ?s')) ?s') with (kset_mutex a m' s').
  rewrite kset_mutex_twice. unfold Mutex.set_owner. cbn [mtx_locked mtx_waitq Mutex.set_locked].
  destruct Hid. pose proof max_tasks_bounds. by rewrite i16_id by lia.
Qed.

(** ** [hrt_mutex_try_lock] *)

Lemma mtx_locked_cases m :
  mtx_rep m -> (mtx_locked m = 0 /\ mtx_owner m = -1) \/ (mtx_locked m = 1 /\ valid_id (mtx_owner m)).
Proof. done. Qed.

Lemma exec_mutex_try_free n s p a m :
  m_mutexes s !! a = Some m -> valid_id (g_current s) -> mtx_locked m = 0 ->
  exec n (Mutex.hrt_mutex_try_lock a) s p
  = Done 0 (kset_mutex a (mkMutex 1 (g_current s) (mtx_waitq m)) s) (crit_exit (crit_enter p)).
Proof.
  intros E Hid Hl. unfold Mutex.hrt_mutex_try_lock, hrt__get_current. xrun.
  rewrite id_in_range by done. xrun. rewrite (exec_mtx_read _ _ _ _ _ _ _ E), Hl.
  zbool. xrun. erewrite exec_bind by by apply exec_take_ownership. by xrun.
Qed.

Lemma exec_mutex_try_lock n s p a m :
  m_mutexes s !! a = Some m -> mtx_rep m -> valid_id (g_current s) ->
  HARDRT_STALL_ON_ERROR = false ->
  exec n (Mutex.hrt_mutex_try_lock a) s p =
  let p' := crit_exit (crit_enter p) in
  match (amutex_lock (g_current s) (mtx_abs m)).2 with
  | Acquired => Done 0 (kset_mutex a (mkMutex 1 (g_current s) (mtx_waitq m)) s) p'
  | Recursive => Done (-1) (set_error ERR_MUTEX_RECURSIVE s) p'
  | Waiting => Done (-1) s p'
  end.
Proof.
  intros E Hrep Hid Hst. unfold amutex_lock. cbn [a_owner mtx_abs].
  destruct (mtx_locked m =? 0) eqn:Hl.
  - btest. by apply exec_mutex_try_free.
  - unfold Mutex.hrt_mutex_try_lock, hrt__get_current. xrun. rewrite id_in_range by done. xrun.
    rewrite (exec_mtx_read _ _ _ _ _ _ _ E), Hl. xrun. rewrite (exec_mtx_read _ _ _ _ _ _ _ E). destruct (mtx_owner m =? g_current s); xrun; [|done].
    by rewrite exec_error.
Qed.

(** ** [hrt_mutex_lock] *)

Lemma exec_mutex_lock n s p a m :
  m_mutexes s !! a = Some m -> mtx_rep m -> valid_id (g_current s) ->
  (amutex_lock (g_current s) (mtx_abs m)).2 = Acquired ->
  exec n (Mutex.hrt_mutex_lock a) s p
  = Done 0 (kset_mutex a (mkMutex 1 (g_current s) (mtx_waitq m)) s) (crit_exit (crit_enter p)).
Proof.
  intros E Hrep Hid Ha. unfold Mutex.hrt_mutex_lock, hrt__get_current. xrun.
  rewrite id_in_range by done.
  assert (Hl : mtx_locked m = 0).
  { unfold amutex_lock in Ha. cbn in Ha. destruct (mtx_locked m =? 0) eqn:Hl; [by btest|].
    by destruct (mtx_owner m =? g_current s). }
  erewrite exec_bind; [|apply exec_mutex_try_free; try done]. done.
Qed.

Lemma exec_mutex_lock_recursive n s p a m :
  m_mutexes s !! a = Some m -> mtx_rep m -> valid_id (g_current s) ->
  HARDRT_STALL_ON_ERROR = false ->
  (amutex_lock (g_current s) (mtx_abs m)).2 = Recursive ->
  exec n (Mutex.hrt_mutex_lock a) s p
  = Done (-1) (set_error ERR_MUTEX_RECURSIVE s)
      (crit_exit (crit_enter (crit_exit (crit_enter p)))).
Proof.
  intros E Hrep Hid Hst Ha. unfold Mutex.hrt_mutex_lock, hrt__get_current. xrun.
  rewrite id_in_range by done. erewrite exec_bind.
  2: { rewrite (exec_mutex_try_lock n s p a m) by done. rewrite Ha. reflexivity. }
  zbool. xrun. unfold amutex_lock in Ha. cbn [a_owner mtx_abs] in Ha.
  destruct (mtx_locked m =? 0) eqn:Hl; [done|].
  rewrite (exec_mtx_read _ _ _ _ (set_error _ s) _ _ E), Hl.
  rewrite (exec_mtx_read _ _ _ _ (set_error _ s) _ _ E).
  destruct (mtx_owner m =? g_current s); [|done]. xrun. by rewrite exec_error.
Qed.

Lemma exec_mutex_lock_block n s p a m tc :
  m_mutexes s !! a = Some m -> mtx_rep m -> valid_id (g_current s) ->
  HARDRT_STALL_ON_ERROR = false ->
  (amutex_lock (g_current s) (mtx_abs m)).2 = Waiting ->
  zget (g_tcbs s) (g_current s) = Some tc ->
  ring_ok (mutex_ring a) s -> Z.of_nat (length (qlist (mutex_ring a) s)) < HARDRT_MAX_TASKS ->
  exec n (Mutex.hrt_mutex_lock a) s p
  = exec n (call hrt_port_yield_to_scheduler ;; Ret 0)
      (kset_tcb (g_current s) (tcb_set_state HRT_BLOCKED tc) (lpush (mutex_ring a) (g_current s) s))
      (pend_switch (crit_exit (crit_enter (crit_exit (crit_enter p))))).
Proof.
  intros E Hrep Hid Hst Ha Htc Hr Hl. unfold Mutex.hrt_mutex_lock, hrt__get_current. xrun.
  rewrite id_in_range by done. erewrite exec_bind.
  2: { rewrite (exec_mutex_try_lock n s p a m) by done. rewrite Ha. reflexivity. }
  zbool. xrun. unfold amutex_lock in Ha. cbn [a_owner mtx_abs] in Ha.
  destruct (mtx_locked m =? 0) eqn:Hlk; [done|].
  rewrite (exec_mtx_read _ _ _ _ _ _ _ E), Hlk, (exec_mtx_read _ _ _ _ _ _ _ E).
  destruct (mtx_owner m =? g_current s); [done|]. rewrite valid_u8 by done.
  erewrite exec_bind by by apply exec_mutex_waitq_push.
  rewrite tcb_ptr by done. cbn [is_null].
  erewrite (exec_tcb_write _ _ _ _ _ _ tc); [by xrun|]. by rewrite (lpush_tcbs (PMutex a)).
Qed.

(** ** [hrt_mutex_unlock] *)

Lemma exec_mutex_unlock_refused n s p a m :
  m_mutexes s !! a = Some m -> mtx_rep m -> valid_id (g_current s) ->
  HARDRT_STALL_ON_ERROR = false ->
  amutex_unlock (g_current s) (mtx_abs m) = None ->
  exec n (Mutex.hrt_mutex_unlock a) s p
  = Done (-1) (set_error ERR_MUTEX_OWNER s) (crit_exit (crit_enter p)).
Proof.
  intros E Hrep Hid Hst Hu. unfold Mutex.hrt_mutex_unlock, hrt__get_current. xrun.
  rewrite id_in_range by done. xrun. do 2 (rewrite (exec_mtx_read _ _ _ _ _ _ _ E); xrun).
  assert ((mtx_locked m =? 0) || negb (mtx_owner m =? g_current s) = true) as ->.
  { unfold amutex_unlock in Hu. cbn [a_owner a_queue mtx_abs] in Hu.
    destruct (mtx_locked m =? 0); [done|]. destruct (mtx_owner m =? g_current s); [|done].
    by destruct (ring_list (mtx_waitq m)). }
  xrun. by rewrite exec_error.
Qed.

Lemma amutex_unlock_owner id m m' w :
  amutex_unlock id (mtx_abs m) = Some (m', w) ->
  (mtx_locked m =? 0) || negb (mtx_owner m =? id) = false.
Proof.
  unfold amutex_unlock. cbn [a_owner a_queue mtx_abs].
  destruct (mtx_locked m =? 0); [done|]. by destruct (mtx_owner m =? id).
Qed.

Lemma exec_mutex_unlock_free n out s p a m m' :
  sched_inv out s -> m_mutexes s !! a = Some m -> valid_id (g_current s) ->
  amutex_unlock (g_current s) (mtx_abs m) = Some (m', None) ->
  exec n (Mutex.hrt_mutex_unlock a) s p
  = Done 0 (kset_mutex a (mkMutex 0 HRT_MUTEX_NO_OWNER (mtx_waitq m)) s)
      (crit_exit (crit_enter p)).
Proof.
  intros I E Hid Hu. unfold Mutex.hrt_mutex_unlock, hrt__get_current. xrun.
  rewrite id_in_range by done. xrun. do 2 (rewrite (exec_mtx_read _ _ _ _ _ _ _ E); xrun).
  rewrite (amutex_unlock_owner _ _ _ _ Hu).
  assert (Hw : qlist (mutex_ring a) s = []).
  { rewrite (mutex_qlist a s m E). revert Hu. unfold amutex_unlock. cbn [a_owner a_queue mtx_abs].
    destruct (mtx_locked m =? 0); [done|]. destruct (mtx_owner m =? g_current s); [|done].
    by destruct (ring_list (mtx_waitq m)). }
  erewrite exec_bind by (eapply exec_mutex_waitq_pop_empty; [by eapply mutex_ring_ok|done]).
  zbool. rewrite (exec_mtx_write _ _ _ _ _ _ _ E).
  rewrite (exec_mtx_write _ _ _ _ _ _ _ (kset_mutex_lookup _ _ _)), kset_mutex_twice. by xrun.
Qed.

(** Handing the mutex over: the effect of the ownership transfer and of
    the wake-up of the new owner. *)
Definition khandover (a w : Z) (tc : _hrt_tcb_t) (s : kern) : kern :=
  kready w tc (from_option (fun m => kset_mutex a (mkMutex 1 w (mtx_waitq m)) (lpop (mutex_ring a) s))
                 s (m_mutexes (lpop (mutex_ring a) s) !! a)).

Lemma exec_mutex_unlock_handover n out s p a m m' w tc :
  sched_inv out s -> m_mutexes s !! a = Some m -> valid_id (g_current s) ->
  amutex_unlock (g_current s) (mtx_abs m) = Some (m', Some w) ->
  zget (g_tcbs s) w = Some tc ->
  exec n (Mutex.hrt_mutex_unlock a) s p
  = exec n (hrt_yield ;; Ret 0) (khandover a w tc s) (crit_exit (crit_enter p)).
Proof.
  intros I E Hid Hu Htc. unfold Mutex.hrt_mutex_unlock, hrt__get_current. xrun.
  rewrite id_in_range by done. xrun. do 2 (rewrite (exec_mtx_read _ _ _ _ _ _ _ E); xrun).
  rewrite (amutex_unlock_owner _ _ _ _ Hu).
  assert (Hw : qlist (mutex_ring a) s = w :: a_queue m').
  { rewrite (mutex_qlist a s m E). revert Hu. unfold amutex_unlock. cbn [a_owner a_queue mtx_abs].
    destruct (mtx_locked m =? 0); [done|]. destruct (mtx_owner m =? g_current s); [|done].
    destruct (ring_list (mtx_waitq m)); [done|]. by intros [= <- <-]. }
  assert (Hr := mutex_ring_ok _ _ _ _ I E).
  erewrite exec_bind by by eapply exec_mutex_waitq_pop.
  destruct (inv_head_tcb _ _ (PMutex a) _ _ I Hw) as (tc' & Htc' & Hv & Hno & Hs & Hp).
  rewrite Htc in Htc'. injection Htc' as <-. pose proof Hv as [? ?]. zbool.
  pose proof (lpop_mutex a s m E) as E'.
  erewrite exec_bind by by apply (exec_take_ownership n a w _ _ _ E').
  erewrite exec_bind.
  2: { eapply (exec_make_ready_inv n out).
       - eapply inv_set_mutex; [by eapply (inv_dequeue _ _ (PMutex a))|exact E'].
       - unfold kset_mutex, set_mutexes. cbn [g_tcbs]. by rewrite (lpop_tcbs (PMutex a)).
       - cbn in Hs. congruence.
       - done. }
  xrun. unfold khandover. rewrite E'. done.
Qed.

Lemma mutex_becomes_push a id s m :
  m_mutexes s !! a = Some m -> mtx_rep m -> ring_ok (mutex_ring a) s ->
  Z.of_nat (length (qlist (mutex_ring a) s)) < HARDRT_MAX_TASKS ->
  mutex_becomes a (mkAmutex (a_owner (mtx_abs m)) (a_queue (mtx_abs m) ++ [id])) s
    (lpush (mutex_ring a) id s).
Proof.
  intros E Hrep Hr Hl. pose proof (lpush_mutex a id s m E) as E'.
  pose proof (lpush_spec id s Hr Hl) as [_ Hq].
  rewrite (mutex_qlist _ _ _ E'), (mutex_qlist _ _ _ E) in Hq. cbn in Hq. split_and!.
  - eexists. split_and!; [exact E'| |exact Hrep]. unfold mtx_abs. cbn. by rewrite Hq.
  - intros b Hb. unfold lpush. cbn. rewrite E. by apply lookup_alter_ne.
  - unfold lpush. cbn. by rewrite E.
  - unfold lpush. cbn. by rewrite E.
Qed.

Section handover.
Context (out : list Z) (s : kern) (a : Z) (m : hrt_mutex_t) (w : Z) (ws : list Z) (tc : _hrt_tcb_t).
Hypotheses (I : sched_inv out s) (E : m_mutexes s !! a = Some m)
  (Hw : ring_list (mtx_waitq m) = w :: ws) (Htc : zget (g_tcbs s) w = Some tc).

Lemma khandover_eq :
  khandover a w tc s
  = kready w tc (kset_mutex a (mkMutex 1 w (ring_pop (mtx_waitq m))) (lpop (mutex_ring a) s)).
Proof. unfold khandover. by rewrite (lpop_mutex a s m E). Qed.

Lemma handover_qlist : qlist (ring_of (PMutex a)) s = w :: ws.
Proof. exact (eq_trans (mutex_qlist a s m E) Hw). Qed.

Lemma khandover_inv : sched_inv out (khandover a w tc s).
Proof.
  rewrite khandover_eq.
  destruct (inv_head_tcb _ _ _ _ _ I handover_qlist) as (tc' & Htc' & Hv & Hno & Hs & Hp).
  rewrite Htc in Htc'. injection Htc' as <-. apply make_ready_inv; try done.
  - apply (inv_set_mutex _ _ a (mkMutex (mtx_locked m) (mtx_owner m) (ring_pop (mtx_waitq m))) 1 w).
    + eapply (inv_dequeue _ _ (PMutex a)); [done|exact handover_qlist|by eapply mutex_ring_ok].
    + by apply lpop_mutex.
  - unfold kset_mutex, set_mutexes. cbn [g_tcbs]. by rewrite (lpop_tcbs (PMutex a)).
Qed.

Lemma khandover_becomes : mutex_becomes a (mkAmutex (Some w) ws) s (khandover a w tc s).
Proof.
  rewrite khandover_eq. pose proof (lpop_mutex a s m E) as E'.
  assert (Hr := mutex_ring_ok _ _ _ _ I E).
  pose proof (lpop_spec w ws s Hr handover_qlist) as [_ Hq].
  rewrite (mutex_qlist _ _ _ E') in Hq. cbn in Hq.
  pose proof (kready_objs w tc (kset_mutex a (mkMutex 1 w (ring_pop (mtx_waitq m)))
    (lpop (mutex_ring a) s))) as [= E1 E2 E3].
  unfold mutex_becomes. rewrite E1, E2, E3. split_and!.
  - eexists. split_and!; [apply kset_mutex_lookup| |].
    + unfold mtx_abs. cbn. by rewrite Hq.
    + right. split; [done|]. by eapply inv_tcb_valid.
  - intros b Hb. unfold kset_mutex. cbn. rewrite lookup_insert_ne by done.
    unfold lpop. cbn. rewrite E. by apply lookup_alter_ne.
  - unfold kset_mutex, lpop. cbn. by rewrite E.
  - unfold kset_mutex, lpop. cbn. by rewrite E.
Qed.

Lemma khandover_tcbs i :
  zget (g_tcbs (khandover a w tc s)) i
  = if decide (w = i) then Some (tcb_ready tc) else zget (g_tcbs s) i.
Proof.
  rewrite khandover_eq. erewrite kready_tcbs.
  - unfold kset_mutex, set_mutexes. cbn [g_tcbs]. by rewrite (lpop_tcbs (PMutex a)).
  - unfold kset_mutex, set_mutexes. cbn [g_tcbs]. by rewrite (lpop_tcbs (PMutex a)).
Qed.

Lemma khandover_scalars : same_scalars s (khandover a w tc s).
Proof.
  rewrite khandover_eq. eapply same_scalars_trans; [apply (lpop_scalars (PMutex a))|].
  eapply same_scalars_trans; [|apply kready_scalars]. done.
Qed.

End handover.
End mutex_exec.
