(* ===== verification/QueueFacts.v ===== *)
(** * Correctness of the message queues

    The byte buffer of a queue refines a bounded FIFO of items: an item
    that is received is the oldest one sent, byte for byte. *)

From stdpp Require Import base tactics numbers list option gmap.
From S2P Require Import Prelude Types Prog Ring Core Queue CoreFacts Inv.
Open Scope Z_scope.
Open Scope prog_scope.

(** ** The items of a queue *)

Section items.

Definition q_slot (m : hrt_queue_t) (i : Z) : list Z :=
  take (Z.to_nat (item_size m)) (drop (Z.to_nat (i * item_size m)) (buf m)).

(** The items it holds, oldest first. *)
Definition q_items (m : hrt_queue_t) : list (list Z) :=
  fifo (q_slot m) (capacity m) (q_head m) (q_count m).

(** Index ranges, and a buffer of at least [capacity * item_size] bytes. *)
Record queue_wf (m : hrt_queue_t) : Prop := {
  qwf_isize : 0 < item_size m;
  qwf_cap : 0 < capacity m < 65536;
  qwf_head : 0 <= q_head m < capacity m;
  qwf_count : 0 <= q_count m <= capacity m;
  qwf_tail : q_tail m = (q_head m + q_count m) mod capacity m;
  qwf_buf : capacity m * item_size m <= Z.of_nat (length (buf m))
}.

#[export] Instance queue_wf_dec m : Decision (queue_wf m).
Proof.
  refine (cast_if (decide (0 < item_size m /\ (0 < capacity m < 65536) /\
    (0 <= q_head m < capacity m) /\ (0 <= q_count m <= capacity m) /\
    q_tail m = (q_head m + q_count m) mod capacity m /\
    capacity m * item_size m <= Z.of_nat (length (buf m))))).
  - abstract (split; tauto).
  - abstract (intros []; tauto).
Defined.

(** A [memcpy] of [item] into [b] at [off]. *)
Definition splice (b item : list Z) (off : nat) : list Z :=
  take off b ++ item ++ drop (off + length item) b.

Lemma splice_length b item off :
  (off + length item <= length b)%nat -> length (splice b item off) = length b.
Proof. intros. unfold splice. rewrite !length_app, length_take, length_drop. lia. Qed.

Lemma splice_lookup b item off k :
  (off + length item <= length b)%nat ->
  splice b item off !! k =
  if decide (off <= k < off + length item)%nat then item !! (k - off)%nat else b !! k.
Proof.
  intros H. unfold splice. case_decide as Hk.
  - rewrite lookup_app_r by (rewrite length_take; lia).
    rewrite length_take, Nat.min_l by lia. by rewrite lookup_app_l by lia.
  - destruct (decide (k < off)%nat).
    + rewrite lookup_app_l by (rewrite length_take; lia). by apply lookup_take_lt.
    + rewrite lookup_app_r by (rewrite length_take; lia).
      rewrite length_take, Nat.min_l by lia. rewrite lookup_app_r by lia.
      rewrite lookup_drop. f_equal. lia.
Qed.

(** The effect of [_enqueue_cs] and of [_dequeue_cs]. *)
Definition q_enq (item : list Z) (m : hrt_queue_t) : hrt_queue_t :=
  mkQueue (splice (buf m) item (Z.to_nat (q_tail m * item_size m))) (item_size m) (capacity m)
    (q_head m) ((q_tail m + 1) mod capacity m) (q_count m + 1) (rx m) (tx m).

Definition q_deq (m : hrt_queue_t) : hrt_queue_t :=
  mkQueue (buf m) (item_size m) (capacity m) ((q_head m + 1) mod capacity m) (q_tail m)
    (q_count m - 1) (rx m) (tx m).

Lemma queue_tail_range m : queue_wf m -> 0 <= q_tail m < capacity m.
Proof. intros W. rewrite (qwf_tail m W). apply Z.mod_pos_bound. apply W. Qed.

(** The bytes of a slot lie within the buffer. *)
Lemma slot_bounds m i :
  queue_wf m -> 0 <= i < capacity m ->
  0 <= i * item_size m /\ i * item_size m + item_size m <= Z.of_nat (length (buf m)).
Proof. intros [] Hi. nia. Qed.

Lemma slot_disjoint (n i j : Z) :
  0 < n -> 0 <= i -> 0 <= j -> i <> j -> i * n + n <= j * n \/ j * n + n <= i * n.
Proof. intros. destruct (Z.lt_total i j) as [|[|]]; nia. Qed.

Lemma q_enq_slot m item i :
  queue_wf m -> Z.of_nat (length item) = item_size m -> 0 <= i < capacity m ->
  q_slot (q_enq item m) i = if decide (i = q_tail m) then item else q_slot m i.
Proof.
  intros W Hlen Hi. pose proof (queue_tail_range m W) as Ht.
  pose proof (slot_bounds m i W Hi). pose proof (slot_bounds m _ W Ht).
  pose proof (qwf_isize m W).
  apply list_eq. intros k. unfold q_slot at 1. cbn [buf item_size q_enq].
  destruct (decide (k < Z.to_nat (item_size m))%nat) as [Hk|Hk].
  2: { rewrite lookup_take_ge by lia. symmetry. apply lookup_ge_None_2.
       case_decide; [lia|]. unfold q_slot. rewrite length_take. lia. }
  rewrite lookup_take_lt, lookup_drop by done. rewrite splice_lookup by lia.
  case_decide as Hin; case_decide as Hit; subst.
  - f_equal. lia.
  - exfalso. pose proof (slot_disjoint (item_size m) i (q_tail m)). lia.
  - exfalso. apply Hin. lia.
  - unfold q_slot. by rewrite lookup_take_lt, lookup_drop by done.
Qed.

Lemma q_enq_spec m item :
  queue_wf m -> q_count m < capacity m -> Z.of_nat (length item) = item_size m ->
  queue_wf (q_enq item m) /\ q_items (q_enq item m) = q_items m ++ [item].
Proof.
  intros W Hc Hlen. pose proof (queue_tail_range m W) as Ht.
  pose proof (slot_bounds m _ W Ht). split.
  - destruct W. split; cbn; try lia.
    + rewrite qwf_tail0. apply ring_tail_push. lia.
    + rewrite splice_length by lia. lia.
  - unfold q_items. cbn [q_enq capacity q_head q_count]. destruct (W).
    eapply fifo_push; try lia; [exact qwf_tail0| |].
    + rewrite q_enq_slot by done. by rewrite decide_True.
    + intros j Hj Hne. rewrite q_enq_slot by done. by rewrite decide_False.
Qed.

Lemma q_items_cons m :
  queue_wf m -> 0 < q_count m -> q_items m = q_slot m (q_head m) :: q_items (q_deq m).
Proof. intros [] Hc. unfold q_items. rewrite fifo_pop by lia. done. Qed.

Lemma q_deq_wf m : queue_wf m -> 0 < q_count m -> queue_wf (q_deq m).
Proof.
  intros W Hc. destruct W. split; cbn; try lia.
  - apply Z.mod_pos_bound. lia.
  - rewrite qwf_tail0. apply ring_tail_pop. lia.
Qed.

Lemma q_items_count m : queue_wf m -> Z.of_nat (length (q_items m)) = q_count m.
Proof. intros []. unfold q_items. apply fifo_length. lia. Qed.

Lemma q_items_nil m : queue_wf m -> q_items m = [] <-> q_count m = 0.
Proof.
  intros W. rewrite <- (q_items_count m W). destruct (q_items m); cbn; split; (done || lia).
Qed.

(** Every item has the item size. *)
Lemma q_items_size m :
  queue_wf m -> Forall (fun it => Z.of_nat (length it) = item_size m) (q_items m).
Proof.
  intros W. unfold q_items, fifo. apply Forall_fmap, Forall_forall. intros i _. cbn.
  destruct (slot_bounds m ((q_head m + i) mod capacity m) W) as [? ?];
    [apply Z.mod_pos_bound; apply W|]. destruct W.
  unfold q_slot. rewrite length_take, length_drop. lia.
Qed.

End items.

(** ** The queue object in the kernel state *)

Section queue_exec.
Context `{C : Config} {Cok : ConfigOk C} `{PL : PortLayer}.
Implicit Types (s : kern) (p : pstate).

Definition kset_queue (a : Z) (m : hrt_queue_t) (s : kern) : kern :=
  set_queues (<[a := m]> (m_queues s)) s.

Definition queues_ok (s : kern) : Prop := map_Forall (fun _ m => queue_wf m) (m_queues s).

Lemma exec_queue_read {A B} n a (f : hrt_queue_t -> A) (k : A -> prog B) s p m :
  m_queues s !! a = Some m -> exec n (bind (Queue.queue_read a f) k) s p = exec n (k (f m)) s p.
Proof. intros E. apply exec_reads. by rewrite E. Qed.

Lemma exec_queue_write {B} n a f (k : unit -> prog B) s p m m' :
  m_queues s !! a = Some m -> f m = Some m' ->
  exec n (bind (Queue.queue_write a f) k) s p = exec n (k tt) (kset_queue a m' s) p.
Proof.
  intros E F. apply exec_writes. unfold Queue.queue_upd. rewrite E. cbn. by rewrite F.
Qed.

Lemma kset_queue_twice a m m' s : kset_queue a m' (kset_queue a m s) = kset_queue a m' s.
Proof. unfold kset_queue, set_queues. cbn. by rewrite insert_insert_eq. Qed.

Lemma kset_queue_lookup a m s : m_queues (kset_queue a m s) !! a = Some m.
Proof. apply lookup_insert_eq. Qed.

(** Queue data outside of the waiter queues does not concern the scheduler. *)
Lemma inv_set_queue out s a m m' :
  sched_inv out s -> m_queues s !! a = Some m -> rx m' = rx m -> tx m' = tx m ->
  sched_inv out (kset_queue a m' s).
Proof.
  intros I E Hrx Htx. destruct (bwf_kern _ (inv_base _ _ I)).
  eapply inv_frame; [exact I|done| |done..]. intros [?|?|?|b|b]; try done; cbn.
  all: destruct (decide (a = b)) as [<-|]; [|by rewrite lookup_insert_ne].
  all: rewrite lookup_insert_eq, E; cbn; congruence.
Qed.

Lemma kset_queue_qlist a m m' s pl :
  m_queues s !! a = Some m -> rx m' = rx m -> tx m' = tx m ->
  qlist (ring_of pl) (kset_queue a m' s) = qlist (ring_of pl) s.
Proof.
  intros E Hrx Htx. unfold qlist. destruct pl as [?|?|?|b|b]; try done; cbn.
  all: destruct (decide (a = b)) as [<-|]; [|by rewrite lookup_insert_ne].
  all: rewrite lookup_insert_eq, E; cbn; congruence.
Qed.

(** ** [_enqueue_cs] and [_dequeue_cs] *)

Lemma exec_enqueue_full n s p a m item :
  m_queues s !! a = Some m -> capacity m <= q_count m ->
  exec n (Queue._enqueue_cs a item) s p = Done (-1) s p.
Proof.
  intros E Hc. unfold Queue._enqueue_cs. rewrite (exec_queue_read _ _ _ _ _ _ _ E).
  rewrite (exec_queue_read _ _ _ _ _ _ _ E). by zbool.
Qed.

Lemma copy_in_splice b off n item :
  0 <= off -> off + n <= Z.of_nat (length b) -> Z.of_nat (length item) = n ->
  Queue.copy_in b off n item = Some (splice b item (Z.to_nat off)).
Proof.
  intros H1 H2 H3. unfold Queue.copy_in. zbool. f_equal. unfold splice.
  rewrite (take_ge item) by lia. do 3 f_equal. lia.
Qed.

Lemma exec_enqueue n s p a m item :
  m_queues s !! a = Some m -> queue_wf m -> q_count m < capacity m ->
  Z.of_nat (length item) = item_size m ->
  exec n (Queue._enqueue_cs a item) s p = Done 0 (kset_queue a (q_enq item m) s) p.
Proof.
  intros E W Hc Hlen. unfold Queue._enqueue_cs.
  do 2 (rewrite (exec_queue_read _ _ _ _ _ _ _ E); xrun). zbool.
  rewrite (exec_queue_read _ _ _ _ _ _ _ E). pose proof (queue_tail_range m W) as Ht.
  pose proof (slot_bounds m _ W Ht).
  erewrite (exec_queue_write _ _ _ _ _ _ _ _ E) by (rewrite copy_in_splice by lia; reflexivity).
  erewrite exec_queue_write by (apply kset_queue_lookup || reflexivity).
  erewrite exec_queue_write by (apply kset_queue_lookup || reflexivity).
  rewrite !kset_queue_twice. xrun. unfold q_enq. destruct W.
  cbn [Queue.set_tail Queue.set_qcount Queue.set_buf q_tail capacity q_count buf item_size q_head rx tx].
  pose proof (Z.mod_pos_bound (q_tail m + 1) (capacity m)). rewrite !u16_id by lia. done.
Qed.

Lemma exec_dequeue_empty n s p a m :
  m_queues s !! a = Some m -> q_count m = 0 ->
  exec n (Queue._dequeue_cs a) s p = Done (-1, None) s p.
Proof.
  intros E Hc. unfold Queue._dequeue_cs. rewrite (exec_queue_read _ _ _ _ _ _ _ E). by zbool.
Qed.

Lemma exec_dequeue n s p a m :
  m_queues s !! a = Some m -> queue_wf m -> 0 < q_count m ->
  exec n (Queue._dequeue_cs a) s p
  = Done (0, Some (q_slot m (q_head m))) (kset_queue a (q_deq m) s) p.
Proof.
  intros E W Hc. unfold Queue._dequeue_cs. rewrite (exec_queue_read _ _ _ _ _ _ _ E). zbool.
  rewrite (exec_queue_read _ _ _ _ _ _ _ E). pose proof (slot_bounds m _ W (qwf_head m W)).
  erewrite exec_reads.
  2: { rewrite E. cbn [mbind option_bind]. unfold Queue.copy_out. destruct W. zbool. reflexivity. }
  erewrite (exec_queue_write _ _ _ _ _ _ _ _ E) by reflexivity.
  erewrite exec_queue_write by (apply kset_queue_lookup || reflexivity).
  rewrite !kset_queue_twice. xrun. unfold q_deq. destruct W.
  cbn [Queue.set_head Queue.set_qcount q_tail capacity q_count buf item_size q_head rx tx].
  pose proof (Z.mod_pos_bound (q_head m + 1) (capacity m)). rewrite !u16_id by lia. done.
Qed.

(** ** Waiters *)

Lemma exec_wq_push n s p L id `{RingLens L} :
  ring_ok L s -> Z.of_nat (length (qlist L s)) < HARDRT_MAX_TASKS ->
  exec n (Queue._wq_push L id) s p = Done tt (lpush L id s) p.
Proof.
  intros Hr Hl. unfold Queue._wq_push.
  erewrite exec_bind by by apply exec_ring_count. zbool. by apply exec_ring_push.
Qed.

Lemma exec_wake_one_none n s p L `{RingLens L} :
  ring_ok L s -> qlist L s = [] -> exec n (Queue.wake_one L) s p = Done false s p.
Proof.
  intros Hr Hl. unfold Queue.wake_one, Queue._wq_pop. xrun.
  erewrite exec_bind by by apply exec_ring_count. by rewrite Hl.
Qed.

Lemma exec_wake_one n out s p pl w ws tc :
  sched_inv out s -> qlist (ring_of pl) s = w :: ws -> zget (g_tcbs s) w = Some tc ->
  place_state pl = HRT_BLOCKED ->
  exec n (Queue.wake_one (ring_of pl)) s p = Done true (kwake pl w tc s) p.
Proof.
  intros I Hw Htc Hpl. assert (Hr := ring_ok_nonempty _ _ _ _ _ I Hw).
  destruct (inv_tcb_valid _ _ _ _ I Htc).
  unfold Queue.wake_one, Queue._wq_pop. xrun.
  erewrite exec_bind by by apply exec_ring_count. rewrite Hw. cbn [length]. zbool. xrun.
  erewrite exec_bind by by eapply exec_ring_read_head.
  rewrite !bind_assoc, <- bind_assoc. erewrite exec_bind by by apply exec_ring_drop. xrun. zbool.
  by erewrite exec_wake_waiter.
Qed.

(** ** Sending and receiving, within the critical section

    [kpass pl s]: the oldest waiter of [pl], if any, is made ready. *)
Definition kpass (pl : place) (s : kern) : kern :=
  match qlist (ring_of pl) s with
  | [] => s
  | w :: _ => from_option (fun tc => kwake pl w tc s) s (zget (g_tcbs s) w)
  end.

Definition has_waiter (pl : place) (s : kern) : bool :=
  match qlist (ring_of pl) s with [] => false | _ => true end.

Lemma exec_wake_pass n out s p pl :
  sched_inv out s -> is_Some (rget (ring_of pl) s) -> place_state pl = HRT_BLOCKED ->
  exec n (Queue.wake_one (ring_of pl)) s p = Done (has_waiter pl s) (kpass pl s) p.
Proof.
  intros I Hs Hpl. unfold has_waiter, kpass. destruct (qlist (ring_of pl) s) as [|w ws] eqn:Hw.
  - apply exec_wake_one_none; [apply _|by eapply ring_ok_exists|done].
  - destruct (inv_head_tcb _ _ _ _ _ I Hw) as (tc & Htc & _). rewrite Htc. cbn.
    by eapply exec_wake_one.
Qed.

(** The state after an item went in, and after one came out. *)
Definition ksend (a : Z) (item : list Z) (m : hrt_queue_t) (s : kern) : kern :=
  kpass (PRx a) (kset_queue a (q_enq item m) s).

Definition krecv (a : Z) (m : hrt_queue_t) (s : kern) : kern :=
  kpass (PTx a) (kset_queue a (q_deq m) s).

Lemma queue_rx_some a s m : m_queues s !! a = Some m -> is_Some (rget (ring_of (PRx a)) s).
Proof. intros E. cbn. rewrite E. by eexists. Qed.

Lemma queue_tx_some a s m : m_queues s !! a = Some m -> is_Some (rget (ring_of (PTx a)) s).
Proof. intros E. cbn. rewrite E. by eexists. Qed.

Lemma exec_send_cs {B} n out s p a m item (k : Z -> bool -> prog B) :
  sched_inv out s -> m_queues s !! a = Some m -> queue_wf m -> q_count m < capacity m ->
  Z.of_nat (length item) = item_size m ->
  exec n (ok <- Queue._enqueue_cs a item ;;
          woken <- (if ok =? 0 then Queue.wake_one (rx_ring a) else Ret false) ;;
          k ok woken) s p
  = exec n (k 0 (has_waiter (PRx a) s)) (ksend a item m s) p.
Proof.
  intros I E W Hc Hlen. erewrite exec_bind by by apply exec_enqueue. zbool.
  erewrite exec_bind.
  2: { eapply (exec_wake_pass n out _ _ (PRx a)); [|by eapply queue_rx_some, kset_queue_lookup|done].
       by eapply inv_set_queue. }
  unfold ksend, has_waiter. by rewrite (kset_queue_qlist a m (q_enq item m) s (PRx a)).
Qed.

Lemma exec_send_cs_full {B} n s p a m item (k : Z -> bool -> prog B) :
  m_queues s !! a = Some m -> capacity m <= q_count m ->
  exec n (ok <- Queue._enqueue_cs a item ;;
          woken <- (if ok =? 0 then Queue.wake_one (rx_ring a) else Ret false) ;;
          k ok woken) s p
  = exec n (k (-1) false) s p.
Proof. intros E Hc. by erewrite exec_bind by by eapply exec_enqueue_full. Qed.

Lemma exec_recv_cs {B} n out s p a m (k : Z * option (list Z) -> bool -> prog B) :
  sched_inv out s -> m_queues s !! a = Some m -> queue_wf m -> 0 < q_count m ->
  exec n (r <- Queue._dequeue_cs a ;;
          woken <- (if r.1 =? 0 then Queue.wake_one (tx_ring a) else Ret false) ;;
          k r woken) s p
  = exec n (k (0, Some (q_slot m (q_head m))) (has_waiter (PTx a) s)) (krecv a m s) p.
Proof.
  intros I E W Hc. erewrite exec_bind by by apply exec_dequeue. cbn [fst]. zbool.
  erewrite exec_bind.
  2: { eapply (exec_wake_pass n out _ _ (PTx a)); [|by eapply queue_tx_some, kset_queue_lookup|done].
       by eapply inv_set_queue. }
  unfold krecv, has_waiter. by rewrite (kset_queue_qlist a m (q_deq m) s (PTx a)).
Qed.

Lemma exec_recv_cs_empty {B} n s p a m (k : Z * option (list Z) -> bool -> prog B) :
  m_queues s !! a = Some m -> q_count m = 0 ->
  exec n (r <- Queue._dequeue_cs a ;;
          woken <- (if r.1 =? 0 then Queue.wake_one (tx_ring a) else Ret false) ;;
          k r woken) s p
  = exec n (k (-1, None) false) s p.
Proof. intros E Hc. by erewrite exec_bind by by eapply exec_dequeue_empty. Qed.

(** ** The non-blocking calls *)

Lemma exec_try_send n out s p a m item :
  sched_inv out s -> m_queues s !! a = Some m -> queue_wf m -> q_count m < capacity m ->
  Z.of_nat (length item) = item_size m ->
  exec n (Queue.hrt_queue_try_send a item) s p
  = exec n ((if has_waiter (PRx a) s then hrt_yield else skip) ;; Ret 0)
      (ksend a item m s) (crit_exit (crit_enter p)).
Proof.
  intros. unfold Queue.hrt_queue_try_send. xrun. erewrite exec_send_cs by done. by xrun.
Qed.

Lemma exec_try_send_full n s p a m item :
  m_queues s !! a = Some m -> capacity m <= q_count m ->
  exec n (Queue.hrt_queue_try_send a item) s p = Done (-1) s (crit_exit (crit_enter p)).
Proof.
  intros. unfold Queue.hrt_queue_try_send. xrun. erewrite exec_send_cs_full by done. by xrun.
Qed.

Lemma exec_try_send_isr n out s p a m item b :
  sched_inv out s -> m_queues s !! a = Some m -> queue_wf m -> q_count m < capacity m ->
  Z.of_nat (length item) = item_size m ->
  exec n (Queue.hrt_queue_try_send_from_isr a item b) s p
  = Done (0, if b then Some (if has_waiter (PRx a) s then 1 else 0) else None) (ksend a item m s)
      ((if has_waiter (PRx a) s then pend_switch else id) (crit_exit (crit_enter p))).
Proof.
  intros. unfold Queue.hrt_queue_try_send_from_isr. xrun. erewrite exec_send_cs by done. xrun.
  by destruct (has_waiter (PRx a) s); xrun.
Qed.

Lemma exec_try_recv n out s p a m :
  sched_inv out s -> m_queues s !! a = Some m -> queue_wf m -> 0 < q_count m ->
  exec n (Queue.hrt_queue_try_recv a) s p
  = exec n ((if has_waiter (PTx a) s then hrt_yield else skip) ;;
            Ret (0, Some (q_slot m (q_head m))))
      (krecv a m s) (crit_exit (crit_enter p)).
Proof.
  intros. unfold Queue.hrt_queue_try_recv. xrun. erewrite exec_recv_cs by done. by xrun.
Qed.

Lemma exec_try_recv_empty n s p a m :
  m_queues s !! a = Some m -> q_count m = 0 ->
  exec n (Queue.hrt_queue_try_recv a) s p = Done (-1, None) s (crit_exit (crit_enter p)).
Proof.
  intros. unfold Queue.hrt_queue_try_recv. xrun. erewrite exec_recv_cs_empty by done. by xrun.
Qed.

Lemma exec_try_recv_isr n out s p a m b :
  sched_inv out s -> m_queues s !! a = Some m -> queue_wf m -> 0 < q_count m ->
  exec n (Queue.hrt_queue_try_recv_from_isr a b) s p
  = Done (0, Some (q_slot m (q_head m)),
          if b then Some (if has_waiter (PTx a) s then 1 else 0) else None) (krecv a m s)
      ((if has_waiter (PTx a) s then pend_switch else id) (crit_exit (crit_enter p))).
Proof.
  intros. unfold Queue.hrt_queue_try_recv_from_isr. xrun. erewrite exec_recv_cs by done. xrun.
  by destruct (has_waiter (PTx a) s); xrun.
Qed.

End queue_exec.
