(* ===== verification/Running.v ===== *)
(** * A running task

    [running me s]: task [me] has the processor. It is ready, and stored
    in no queue. The lemmas say how each way of giving up the processor,
    and each wake-up of another task, changes that. *)

From stdpp Require Import base tactics numbers list option gmap.
From S2P Require Import Prelude Types Prog Ring Core CoreFacts Inv Sched SchedFacts.
Open Scope Z_scope.
Open Scope prog_scope.

(** ** What a client of a port relies on

    [BasePort]: what the critical sections and the switch requests of a
    port keep. [can_switch i p] is the port's condition for task [i] to be
    switched away from; [pending p]: a switch is requested.

    [SwitchPort]: a port on which, in task context, the call to
    [hrt_port_yield_to_scheduler] gives up the processor. [can_switch]
    holds from the preparation of the stack of the task on. The idle slot
    is not a task. *)

Class BasePort (PL : PortLayer) := {
  port_ok : pstate -> Prop;
  can_switch : Z -> pstate -> Prop;
  pending : pstate -> Prop;
  port_ok_enter p : port_ok p -> port_ok (crit_enter p);
  port_ok_exit p : port_ok p -> port_ok (crit_exit p);
  port_ok_pend p : port_ok p -> port_ok (pend_switch p);
  can_switch_enter i p : can_switch i p -> can_switch i (crit_enter p);
  can_switch_exit i p : can_switch i p -> can_switch i (crit_exit p);
  can_switch_pend i p : can_switch i p -> can_switch i (pend_switch p);
  pending_enter p : pending p -> pending (crit_enter p);
  pending_exit p : pending p -> pending (crit_exit p);
  pending_pend p : pending (pend_switch p)
}.

Class SwitchPort `{C : Config} (PL : PortLayer) := {
  #[global] switch_base :: BasePort PL;
  swap_out : pstate -> pstate;
  prep : Z -> Z -> Z -> pstate -> pstate;
  port_ok_swap p : port_ok p -> port_ok (swap_out p);
  port_ok_prep i b w p : port_ok p -> port_ok (prep i b w p);
  can_switch_swap i p : can_switch i p -> can_switch i (swap_out p);
  can_switch_prep i j b w p : can_switch i p -> can_switch i (prep j b w p);
  pending_swap p : pending p -> pending (swap_out p);
  can_switch_new i b w p :
    port_ok p -> 0 <= i < HARDRT_MAX_TASKS -> i <> HRT_IDLE_ID -> can_switch i (prep i b w p);
  switch_yields s p :
    can_switch (g_current s) p -> yield_to_scheduler s p = PSwap s (swap_out p);
  prepare_returns i b w s p :
    port_ok p -> 0 <= i < HARDRT_MAX_TASKS ->
    prepare_task_stack i b w s p = PCont s (prep i b w p)
}.

#[export] Hint Resolve can_switch_enter can_switch_exit can_switch_pend can_switch_swap
  can_switch_prep pending_enter pending_exit pending_pend pending_swap port_ok_enter port_ok_exit port_ok_pend port_ok_swap port_ok_prep : hrt.

Section defs.
Context `{C : Config}.

Record running (me : Z) (s : kern) : Prop := {
  run_inv : sched_inv [me] s;
  run_cur : g_current s = me;
  run_tcb : exists tc, zget (g_tcbs s) me = Some tc /\ state tc = HRT_READY
}.

(** The state in which a task gives up the processor by yielding, by
    sleeping, and by waiting in queue [pl]. *)
Definition kyield (me : Z) (tc : _hrt_tcb_t) (s : kern) : kern :=
  lpush (rq_ring (prio tc)) me (kset_tcb me (tcb_refill tc) s).

Definition ksleep (me ms : Z) (tc : _hrt_tcb_t) (s : kern) : kern :=
  kset_tcb me (tcb_set_state HRT_SLEEP
    (tcb_set_wake_tick (u32 (g_tick s + hrt__ms_to_ticks ms (g_tick_hz s))) tc)) s.

Definition kblock (pl : place) (me : Z) (tc : _hrt_tcb_t) (s : kern) : kern :=
  kset_tcb me (tcb_set_state HRT_BLOCKED tc) (lpush (ring_of pl) me s).

End defs.

Section facts.
Context `{C : Config} {Cok : ConfigOk C} `{PL : PortLayer}.
Implicit Types (s : kern) (p : pstate) (me : Z).

Lemma running_valid me s : running me s -> valid_id me.
Proof. intros [I _ (tc & Htc & _)]. by eapply inv_tcb_valid. Qed.

Lemma running_prio me s tc :
  running me s -> zget (g_tcbs s) me = Some tc ->
  state tc = HRT_READY /\ 0 <= prio tc < HARDRT_MAX_PRIO.
Proof.
  intros [I _ (tc' & Htc' & Hs)] Htc. rewrite Htc in Htc'. injection Htc' as <-.
  split; [done|]. eapply (inv_prio _ _ I); [done|congruence].
Qed.

Lemma running_awake me s : running me s -> awake [me] s.
Proof.
  intros R i tc Hi Htc. apply list_elem_of_singleton in Hi as ->.
  destruct (running_prio _ _ _ R Htc). congruence.
Qed.

Lemma running_not_queued me s pl : running me s -> me ∉ qlist (ring_of pl) s.
Proof. intros R. apply (inv_out _ _ (run_inv _ _ R)). apply list_elem_of_here. Qed.

Lemma running_room me s pl :
  running me s -> Z.of_nat (length (qlist (ring_of pl) s)) < HARDRT_MAX_TASKS.
Proof.
  intros R. destruct (run_tcb _ _ R) as (tc & Htc & _).
  eapply inv_room; [apply R|done|by apply running_not_queued].
Qed.

(** A step that keeps the invariant, the current task and its state. *)
Lemma running_step me s s' :
  running me s -> sched_inv [me] s' -> g_current s' = g_current s ->
  zget (g_tcbs s') me = zget (g_tcbs s) me -> running me s'.
Proof. intros [I Hc Ht] I' Hc' Ht'. split; [done|congruence|by rewrite Ht']. Qed.

Lemma running_wake me s pl w ws tc :
  running me s -> qlist (ring_of pl) s = w :: ws -> zget (g_tcbs s) w = Some tc ->
  running me (kwake pl w tc s).
Proof.
  intros R Hw Htc. eapply running_step; [exact R|by eapply kwake_inv; [apply R|..]|..].
  - apply kwake_scalars.
  - rewrite kwake_tcbs by done. rewrite decide_False; [done|].
    intros ->. apply (running_not_queued _ _ pl R). rewrite Hw. apply list_elem_of_here.
Qed.

(** A queue of waiters is read off together with the TCB of its head. *)
Lemma running_waiter me s pl w ws :
  running me s -> qlist (ring_of pl) s = w :: ws ->
  exists tc, zget (g_tcbs s) w = Some tc /\ w <> me /\ state tc = place_state pl.
Proof.
  intros R Hw. destruct (inv_head_tcb _ _ _ _ _ (run_inv _ _ R) Hw) as (tc & ? & _ & Hno & ? & _).
  exists tc. split_and!; [done| |done]. intros ->. apply Hno, list_elem_of_here.
Qed.

(** ** Giving up the processor *)

Lemma kset_lpush_comm pl id me tc s :
  kset_tcb me tc (lpush (ring_of pl) id s) = lpush (ring_of pl) id (kset_tcb me tc s).
Proof.
  unfold lpush. rewrite kset_rget. destruct (rget (ring_of pl) s); [|done]. by destruct pl.
Qed.

Lemma kyield_inv me s tc :
  running me s -> zget (g_tcbs s) me = Some tc -> sched_inv [] (kyield me tc s).
Proof.
  intros R Htc. destruct (running_prio _ _ _ R Htc) as [Hs Hp].
  eapply (inv_enqueue [] _ (PReady (prio tc))) with (tc := tcb_refill tc); try done.
  - eapply inv_set_tcb; [apply R|done| |by right].
    eapply tcb_refill_wf, inv_tcb_wf; [apply R|done].
  - by apply not_elem_of_nil.
  - by eapply kset_tcb_get.
  - by intros pr [= <-].
  - exact (inv_rq _ _ _ (run_inv _ _ R) Hp).
Qed.

Lemma ksleep_inv me ms s tc :
  running me s -> zget (g_tcbs s) me = Some tc -> sched_inv [] (ksleep me ms tc s).
Proof.
  intros R Htc. destruct (running_prio _ _ _ R Htc) as [Hs Hp].
  eapply inv_release; [|by eapply kset_tcb_get|by left].
  eapply inv_set_tcb; [apply R|done| |left; split; [apply list_elem_of_here|done]].
  destruct (inv_tcb_wf _ _ _ _ (run_inv _ _ R) Htc). split; cbn -[Z.pow u32]; try done.
  apply u32_range.
Qed.

Lemma kdelete_inv me s tc :
  running me s -> zget (g_tcbs s) me = Some tc ->
  sched_inv [] (kset_tcb me (tcb_set_state HRT_UNUSED tc) s).
Proof.
  intros R Htc. destruct (running_prio _ _ _ R Htc) as [Hs Hp].
  eapply inv_release; [|by eapply kset_tcb_get|by right].
  eapply inv_set_tcb; [apply R|done| |left; split; [apply list_elem_of_here|done]].
  by destruct (inv_tcb_wf _ _ _ _ (run_inv _ _ R) Htc).
Qed.

Lemma kblock_inv me s pl tc :
  running me s -> zget (g_tcbs s) me = Some tc -> place_state pl = HRT_BLOCKED ->
  ring_ok (ring_of pl) s -> sched_inv [] (kblock pl me tc s).
Proof.
  intros R Htc Hpl Hr. destruct (running_prio _ _ _ R Htc) as [Hs Hp].
  unfold kblock. rewrite kset_lpush_comm.
  eapply (inv_enqueue [] _ pl) with (tc := tcb_set_state HRT_BLOCKED tc).
  - eapply inv_set_tcb; [apply R|done| |left; split; [apply list_elem_of_here|done]].
    by destruct (inv_tcb_wf _ _ _ _ (run_inv _ _ R) Htc).
  - by apply not_elem_of_nil.
  - by eapply kset_tcb_get.
  - done.
  - by intros pr ->.
  - unfold ring_ok. by rewrite kset_rget.
Qed.

Lemma kblock_qlist me s pl tc pl' :
  running me s -> ring_ok (ring_of pl) s ->
  qlist (ring_of pl') (kblock pl me tc s)
  = qlist (ring_of pl') s ++ (if decide (pl = pl') then [me] else []).
Proof.
  intros R Hr. unfold kblock. rewrite kset_qlist. apply qlist_lpush; [done|].
  by eapply running_room.
Qed.

Lemma kyield_qlist me s tc pl' :
  running me s -> zget (g_tcbs s) me = Some tc ->
  qlist (ring_of pl') (kyield me tc s)
  = qlist (ring_of pl') s ++ (if decide (PReady (prio tc) = pl') then [me] else []).
Proof.
  intros R Htc. destruct (running_prio _ _ _ R Htc) as [Hs Hp]. unfold kyield.
  change (rq_ring (prio tc)) with (ring_of (PReady (prio tc))).
  rewrite <- kset_lpush_comm, kset_qlist. apply qlist_lpush.
  - exact (inv_rq _ _ _ (run_inv _ _ R) Hp).
  - by eapply running_room.
Qed.

Lemma running_rq me s tc :
  running me s -> zget (g_tcbs s) me = Some tc ->
  ring_ok (rq_ring (prio tc)) s /\
  Z.of_nat (length (qlist (rq_ring (prio tc)) s)) < HARDRT_MAX_TASKS.
Proof.
  intros R Htc. destruct (running_prio _ _ _ R Htc) as [Hs Hp]. split.
  - by apply (inv_rq _ _ _ (run_inv _ _ R) Hp).
  - by apply (running_room _ _ (PReady (prio tc)) R).
Qed.

(** The calls, up to the hop of the port. *)
Lemma running_exec_yield n me s p tc :
  running me s -> zget (g_tcbs s) me = Some tc ->
  exec n hrt_yield s p
  = exec n (call hrt_port_yield_to_scheduler) (kyield me tc s) (pend_switch p).
Proof.
  intros R Htc. destruct (running_prio _ _ _ R Htc) as [Hs Hp].
  destruct (running_rq _ _ _ R Htc) as [Hr Hl]. pose proof (running_valid _ _ R) as Hv.
  pose proof (run_cur _ _ R) as Hc. unfold kyield. rewrite <- Hc in *.
  by apply exec_yield.
Qed.

End facts.

(** ** Over a switching port *)

Section switching.
Context `{C : Config} {Cok : ConfigOk C} {PL : PortLayer} {SP : SwitchPort PL}.
Implicit Types (s : kern) (p : pstate) (me : Z).

Lemma exec_hop {A} n (k : unit -> prog A) s p :
  can_switch (g_current s) p ->
  exec n (bind (call hrt_port_yield_to_scheduler) k) s p = Swapped (k tt) s (swap_out p).
Proof. intros H. cbn. by rewrite switch_yields. Qed.

Lemma kyield_current me tc s : g_current (kyield me tc s) = g_current s.
Proof. apply (lpush_scalars (PReady (prio tc)) me (kset_tcb me (tcb_refill tc) s)). Qed.

Lemma kblock_current pl me tc s : g_current (kblock pl me tc s) = g_current s.
Proof. apply (lpush_scalars pl me s). Qed.

Lemma running_yield {A} n me s p tc (k : unit -> prog A) :
  running me s -> zget (g_tcbs s) me = Some tc -> can_switch me p ->
  exec n (bind hrt_yield k) s p = Swapped (k tt) (kyield me tc s) (swap_out (pend_switch p)).
Proof.
  intros R Htc Hsw. destruct (running_prio _ _ _ R Htc) as [Hs Hp].
  destruct (running_rq _ _ _ R Htc) as [Hr Hl]. pose proof (running_valid _ _ R) as Hv.
  pose proof (run_cur _ _ R) as Hc.
  unfold hrt_yield. xrun. rewrite Hc, tcb_ptr by done. cbn [is_null]. destruct Hv as [? ?].
  zbool. rewrite !andb_false_r. xrun. xtcb. rewrite decide_True by done. xrun. xtcb.
  cbn [prio tcb_set_slice_left g_current kset_tcb set_tcbs]. rewrite Hc, valid_u8 by done.
  erewrite exec_bind by (apply exec_rq_push; done). xrun.
  rewrite exec_hop; [done|]. change (can_switch (g_current (kyield me tc s)) (pend_switch p)).
  rewrite kyield_current, Hc. by apply can_switch_pend.
Qed.

End switching.
