(* ===== verification/TimeFacts.v ===== *)
(** * Time: conversions, sleeping and waking

    The conversion of milliseconds to ticks, and what a sleep of that many
    ticks amounts to when the tick handler runs once per tick. *)

From stdpp Require Import base tactics numbers list option gmap.
From S2P Require Import Prelude Types Prog Ring Core Sched PortPosix CoreFacts Inv.
From S2P Require Import SchedFacts Running.
Open Scope Z_scope.
Open Scope prog_scope.

(** ** Conversions *)

(** The number of ticks that covers [ms] milliseconds, rounded up. *)
Definition ceil_ticks (ms hz : Z) : Z := (ms * hz + 999) / 1000.

Lemma ms_to_ticks_eq ms hz :
  0 < ms < 2 ^ 32 -> 0 < hz < 2 ^ 32 ->
  hrt__ms_to_ticks ms hz = Z.min (ceil_ticks ms hz) UINT32_MAX.
Proof.
  intros Hm Hh. unfold hrt__ms_to_ticks, ceil_ticks, UINT32_MAX.
  assert (Hp : 0 < ms * hz <= (2 ^ 32 - 1) * (2 ^ 32 - 1)) by nia.
  rewrite (u64_id (ms * hz)), u64_id by lia. zbool.
  assert (1 <= (ms * hz + 999) / 1000) by (apply Z.div_le_lower_bound; lia).
  zbool. destruct (2 ^ 32 - 1 <? (ms * hz + 999) / 1000) eqn:E; btest.
  - rewrite Z.min_r by lia. apply u32_id. lia.
  - rewrite Z.min_l by lia. apply u32_id. lia.
Qed.

Lemma ms_to_ticks_range ms hz :
  0 <= ms < 2 ^ 32 -> 0 <= hz < 2 ^ 32 -> 1 <= hrt__ms_to_ticks ms hz < 2 ^ 32.
Proof.
  intros Hm Hh. destruct (decide (ms = 0)) as [->|]; [done|].
  destruct (decide (hz = 0)) as [->|].
  { unfold hrt__ms_to_ticks. rewrite orb_true_r. done. }
  rewrite ms_to_ticks_eq by lia. unfold ceil_ticks, UINT32_MAX.
  assert (1 <= (ms * hz + 999) / 1000) by (apply Z.div_le_lower_bound; nia). lia.
Qed.

(** ** The wrap-around comparison *)

Lemma i32_neg_iff z : 0 <= z < 2 ^ 32 -> i32 z <= 0 <-> z = 0 \/ 2 ^ 31 <= z.
Proof.
  intros Hz. unfold i32, u32. rewrite Z.mod_small by lia.
  destruct (z <? 2 ^ 31) eqn:E; btest; lia.
Qed.

Lemma u32_sub_add t0 a b : 0 <= a - b < 2 ^ 32 -> u32 (u32 (t0 + a) - u32 (t0 + b)) = a - b.
Proof.
  intros H. unfold u32. rewrite <- Zminus_mod.
  replace (t0 + a - (t0 + b)) with (a - b) by lia. by apply Z.mod_small.
Qed.

(** [k] ticks after the time [t0], a wake-up time of [t0 + T] is due when
    [k = T] and not before, as long as [T - k] stays below [2^31]. *)
Lemma wake_due_iff t0 T k :
  0 <= k <= T -> T < 2 ^ 32 ->
  wake_due (u32 (t0 + T)) (u32 (t0 + k)) = true <-> k = T \/ 2 ^ 31 <= T - k.
Proof.
  intros Hk HT. unfold wake_due. rewrite u32_sub_add by lia. rewrite Z.leb_le.
  rewrite i32_neg_iff by lia. lia.
Qed.

(** ** Sequences of ticks *)

Section ticks.
Context `{C : Config} {Cok : ConfigOk C}.
Implicit Types (s : kern).

(** [k] ticks in a row. *)
Definition ticked (k : nat) (s : kern) : kern := Nat.iter k (fun s => (tick_spec s).1) s.

Lemma ticked_inv k s : sched_inv [] s -> sched_inv [] (ticked k s).
Proof.
  intros I. induction k as [|k IH]; [done|]. cbn. by apply tick_spec_inv; [|apply awake_nil].
Qed.

Lemma tick_spec_scalars s :
  g_tick (tick_spec s).1 = u32 (g_tick s + 1) /\ g_current (tick_spec s).1 = g_current s /\
  g_policy (tick_spec s).1 = g_policy s.
Proof.
  unfold tick_spec. set (s1 := set_tick (u32 (g_tick s + 1)) s).
  destruct (wake_all_scalars all_ids s1) as (H1 & H2 & _ & H3 & _).
  destruct (id_out_of_range (g_current s)); cbn [fst]; [done|].
  unfold charge. destruct (zget _ _) as [tc|]; [|done]. by destruct (_ && (slice_left tc >? 0)).
Qed.

Lemma ticked_tick k s :
  0 <= g_tick s < 2 ^ 32 -> g_tick (ticked k s) = u32 (g_tick s + Z.of_nat k).
Proof.
  intros Ht. induction k as [|k IH].
  { change (ticked 0 s) with s. rewrite Z.add_0_r, u32_id by lia. done. }
  destruct (tick_spec_scalars (ticked k s)) as (E & _ & _).
  change (ticked (S k) s) with (tick_spec (ticked k s)).1.
  rewrite E, IH. unfold u32. rewrite Zplus_mod_idemp_l. f_equal. lia.
Qed.

(** The ticks the POSIX port generates in a row are these. *)
Lemma posix_ticks k s (p : Posix.posix) :
  sched_inv [] s -> HARDRT_STALL_ON_ERROR = false ->
  exists p', Posix.ticks k s p = Done tt (ticked k s) p'.
Proof.
  intros I Hst. revert s p I. induction k as [|k IH]; intros s p I; [by exists p|].
  cbn [Posix.ticks].
  rewrite (exec_tick_isr (PL := Posix.posix_port) 0 [] s p); [|done|apply awake_nil|by left].
  destruct (IH (tick_spec s).1 (if (tick_spec s).2 then Posix.posix_pend p else p)) as [p' Hp'].
  { apply tick_spec_inv; [done|apply awake_nil]. }
  exists p'. etrans; [exact Hp'|]. f_equal.
  symmetry. apply (Nat.iter_succ_r k (fun s => (tick_spec s).1) s).
Qed.

(** ** One sleeper *)

(** What a tick does to the TCB of a task that sleeps. *)
Lemma tick_sleeper s i tc :
  sched_inv [] s -> zget (g_tcbs s) i = Some tc -> state tc = HRT_SLEEP ->
  if wake_due (wake_tick tc) (u32 (g_tick s + 1))
  then exists tc', zget (g_tcbs (tick_spec s).1) i = Some tc' /\ state tc' = HRT_READY /\
                   prio tc' = prio tc /\ i ∈ qlist (rq_ring (prio tc)) (tick_spec s).1
  else zget (g_tcbs (tick_spec s).1) i = Some tc.
Proof.
  intros I Htc Hs. set (s1 := set_tick (u32 (g_tick s + 1)) s).
  assert (I1 : sched_inv [] s1) by (apply inv_set_tick; [done|apply u32_range]).
  assert (Hin : i ∈ all_ids) by (apply elem_of_all_ids; by eapply inv_tcb_valid).
  assert (Hd : due s1 i = wake_due (wake_tick tc) (u32 (g_tick s + 1))).
  { unfold due. cbn. rewrite Htc. by rewrite bool_decide_true. }
  pose proof (wake_all_tcbs all_ids s1 i all_ids_nodup) as Hw.
  rewrite bool_decide_true in Hw by done. cbn [andb] in Hw. rewrite Hd in Hw.
  change (zget (g_tcbs s1) i) with (zget (g_tcbs s) i) in Hw. rewrite Htc in Hw.
  set (s2 := wake_all all_ids s1) in *.
  assert (I2 : sched_inv [] (tick_spec s).1) by (apply tick_spec_inv; [done|apply awake_nil]).
  assert (Ht : exists tc', zget (g_tcbs (tick_spec s).1) i = Some tc' /\
    if wake_due (wake_tick tc) (u32 (g_tick s + 1))
    then state tc' = HRT_READY /\ prio tc' = prio tc else tc' = tc).
  { unfold tick_spec. fold s1. fold s2.
    destruct (id_out_of_range (g_current s)); cbn [fst].
    { destruct (wake_due _ _); eexists; split; [exact Hw|done|exact Hw|done]. }
    unfold charge. destruct (zget (g_tcbs s2) (g_current s2)) as [t|] eqn:Hcur.
    2: { destruct (wake_due _ _); eexists; split; [exact Hw|done|exact Hw|done]. }
    destruct (bool_decide (state t = HRT_READY) && _ && _ && (slice_left t >? 0)) eqn:Hc; cbn [fst].
    2: { destruct (wake_due _ _); eexists; split; [exact Hw|done|exact Hw|done]. }
    erewrite kset_tcb_lookup by done. destruct (decide (g_current s2 = i)) as [Hci|Hci].
    - rewrite Hci in Hcur. btest. apply bool_decide_eq_true in H. rewrite Hcur in Hw.
      destruct (wake_due _ _); injection Hw as ->; [by eexists|]. congruence.
    - destruct (wake_due _ _); eexists; split; [exact Hw|done|exact Hw|done]. }
  destruct Ht as (tc' & Htc' & Hif). destruct (wake_due _ _); [|by subst].
  destruct Hif as [Hr Hp]. exists tc'. split_and!; try done.
  destruct (inv_complete _ _ I2 i tc' Htc') as (pl & Hpl & Hq); [apply not_elem_of_nil|by left|].
  destruct (inv_in _ _ I2 pl i Hq) as (t & Ht & _ & Hpr). rewrite Htc' in Ht. injection Ht as <-.
  destruct pl as [pr|?|?|?|?]; cbn in Hpl; try congruence. rewrite <- Hp, (Hpr pr) by done. done.
Qed.

(** A sleeper whose wake-up time is [T] ticks ahead stays asleep for the
    first [T - 1] ticks. *)
Lemma ticked_asleep k s i tc T :
  sched_inv [] s -> zget (g_tcbs s) i = Some tc -> state tc = HRT_SLEEP ->
  wake_tick tc = u32 (g_tick s + T) -> Z.of_nat k < T <= 2 ^ 31 ->
  zget (g_tcbs (ticked k s)) i = Some tc.
Proof.
  intros I Htc Hs Hw Hk. induction k as [|k IH]; [done|].
  assert (Htk : zget (g_tcbs (ticked k s)) i = Some tc) by (apply IH; lia).
  pose proof (tick_sleeper (ticked k s) i tc (ticked_inv k s I) Htk Hs) as H.
  assert (Hrng := kwf_tick s (bwf_kern s (inv_base _ _ I))).
  assert (Hnd : wake_due (wake_tick tc) (u32 (g_tick (ticked k s) + 1)) = false).
  { apply not_true_iff_false. rewrite Hw, ticked_tick by lia.
    replace (u32 (u32 (g_tick s + Z.of_nat k) + 1)) with (u32 (g_tick s + (Z.of_nat k + 1))).
    - rewrite wake_due_iff by lia. lia.
    - unfold u32. rewrite Zplus_mod_idemp_l. f_equal. lia. }
  rewrite Hnd in H. exact H.
Qed.

Lemma ticked_wakes k s i tc :
  sched_inv [] s -> zget (g_tcbs s) i = Some tc -> state tc = HRT_SLEEP ->
  wake_tick tc = u32 (g_tick s + (Z.of_nat k + 1)) -> Z.of_nat k + 1 <= 2 ^ 31 ->
  exists tc', zget (g_tcbs (ticked (S k) s)) i = Some tc' /\ state tc' = HRT_READY /\
    prio tc' = prio tc /\ i ∈ qlist (rq_ring (prio tc)) (ticked (S k) s).
Proof.
  intros I Htc Hs Hw Hk.
  assert (Htk : zget (g_tcbs (ticked k s)) i = Some tc)
    by (eapply ticked_asleep; [done|done|done|exact Hw|lia]).
  pose proof (tick_sleeper (ticked k s) i tc (ticked_inv k s I) Htk Hs) as H.
  assert (Hrng := kwf_tick s (bwf_kern s (inv_base _ _ I))).
  assert (Hd : wake_due (wake_tick tc) (u32 (g_tick (ticked k s) + 1)) = true).
  { rewrite Hw, ticked_tick by lia.
    replace (u32 (u32 (g_tick s + Z.of_nat k) + 1)) with (u32 (g_tick s + (Z.of_nat k + 1))).
    - rewrite wake_due_iff by lia. by left.
    - unfold u32. rewrite Zplus_mod_idemp_l. f_equal. lia. }
  rewrite Hd in H. exact H.
Qed.

End ticks.
