(* ===== verification/PosixFacts.v ===== *)
(** * Correctness of the POSIX port

    The port switches as its clients rely on ([SwitchPort]); critical
    sections nest and mask the tick signal. *)

From stdpp Require Import base tactics numbers list option gmap.
From S2P Require Import Prelude Types Prog Core PortPosix Running.
Open Scope Z_scope.

Section posix.
Context `{C : Config}.
Import Posix.

(** Task [i] has a prepared context, and is not the idle slot. *)
Definition has_context (i : Z) (p : posix) : Prop :=
  0 <= i /\ i <> HRT_IDLE_ID /\ exists c, zget (g_ctxs p) i = Some c /\ valid c = true.

Definition posix_swap_out (p : posix) : posix := (block_sigalrm p).1.

Definition posix_prep (i base words : Z) (p : posix) : posix :=
  set_ctxs (<[Z.to_nat i := mkCtx base (words * 4) true]> (g_ctxs p)) p.

Definition posix_ok (p : posix) : Prop := Z.of_nat (length (g_ctxs p)) = HARDRT_MAX_TASKS.

Lemma crit_enter_ctxs p : g_ctxs (posix_crit_enter p) = g_ctxs p.
Proof. unfold posix_crit_enter. by destruct (g_crit_depth p =? 0). Qed.

Lemma crit_exit_ctxs p : g_ctxs (posix_crit_exit p) = g_ctxs p.
Proof. unfold posix_crit_exit. by destruct (g_crit_depth p - 1 =? 0). Qed.

Lemma has_context_ext i p p' : g_ctxs p' = g_ctxs p -> has_context i p -> has_context i p'.
Proof. unfold has_context. by intros ->. Qed.

Program Definition posix_base : BasePort posix_port := {|
  port_ok := posix_ok;
  can_switch := has_context;
  pending p := g_switch_pending p = true
|}.
Next Obligation. intros p. unfold posix_ok. cbn. by rewrite crit_enter_ctxs. Qed.
Next Obligation. intros p. unfold posix_ok. cbn. by rewrite crit_exit_ctxs. Qed.
Next Obligation. done. Qed.
Next Obligation. intros i p. apply has_context_ext, crit_enter_ctxs. Qed.
Next Obligation. intros i p. apply has_context_ext, crit_exit_ctxs. Qed.
Next Obligation. done. Qed.
Next Obligation. intros p. cbn. unfold posix_crit_enter. by destruct (g_crit_depth p =? 0). Qed.
Next Obligation. intros p. cbn. unfold posix_crit_exit. by destruct (g_crit_depth p - 1 =? 0). Qed.
Next Obligation. done. Qed.

#[export] Program Instance posix_switches : SwitchPort posix_port := {
  switch_base := posix_base;
  swap_out := posix_swap_out;
  prep := posix_prep
}.
Next Obligation. done. Qed.
Next Obligation. intros i b w p. cbn. unfold posix_ok. cbn. by rewrite length_insert. Qed.
Next Obligation. done. Qed.
Next Obligation.
  intros i j b w p (Hi & Hne & c & Hc & Hv). split_and!; [done|done|].
  assert (Hr := zget_Some _ _ _ Hc). unfold zget in *. cbn. zbool. revert Hc. zbool. intros Hc.
  destruct (decide (Z.to_nat j = Z.to_nat i)) as [->|].
  - eexists. split; [apply list_lookup_insert_eq; lia|done].
  - exists c. by rewrite list_lookup_insert_ne.
Qed.
Next Obligation. done. Qed.
Next Obligation.
  intros i b w p Hp Hi Hne. split_and!; [lia|done|]. eexists.
  split; [apply zget_insert_eq; cbn in Hp; unfold posix_ok in Hp; lia|done].
Qed.
Next Obligation.
  intros s p (Hi & Hne & c & Hc & Hv). cbn. unfold posix_yield. rewrite Hc, Hv. by zbool.
Qed.
Next Obligation.
  intros i b w s p Hp Hi. cbn in Hp. unfold posix_ok in Hp. cbn. unfold posix_prepare.
  by rewrite zset_Some by lia.
Qed.

(** ** Critical sections *)

(** [n] nested entries, and [n] exits. *)
Definition enters (n : nat) : posix -> posix := Nat.iter n posix_crit_enter.
Definition exits (n : nat) : posix -> posix := Nat.iter n posix_crit_exit.

Lemma crit_enter_spec p :
  posix_crit_enter p =
  set_depth (g_crit_depth p + 1)
    (if g_crit_depth p =? 0 then set_blocked (sigalrm_blocked p || g_sigalrm_set p) p else p).
Proof. unfold posix_crit_enter. by destruct (g_crit_depth p =? 0). Qed.

Lemma enters_spec n p :
  (0 < n)%nat -> g_crit_depth p = 0 ->
  enters n p = set_depth (Z.of_nat n) (set_blocked (sigalrm_blocked p || g_sigalrm_set p) p).
Proof.
  intros Hn Hd. induction n as [|[|n] IH]; [lia| |].
  - cbn. rewrite crit_enter_spec, Hd. done.
  - change (enters (S (S n)) p) with (posix_crit_enter (enters (S n) p)).
    rewrite IH by lia. rewrite crit_enter_spec. cbn [g_crit_depth set_depth].
    zbool. unfold set_depth. cbn -[Z.of_nat]. do 1 f_equal; lia.
Qed.

Lemma exits_nested n k p :
  (n < k)%nat -> g_crit_depth p = Z.of_nat k ->
  exits n p = set_depth (Z.of_nat (k - n)) p.
Proof.
  intros Hn Hd. induction n as [|n IH].
  - cbn. rewrite Nat.sub_0_r, <- Hd. by destruct p.
  - change (exits (S n) p) with (posix_crit_exit (exits n p)). rewrite IH by lia.
    unfold posix_crit_exit. cbn [g_crit_depth set_depth]. zbool.
    unfold set_depth. cbn -[Z.of_nat Nat.sub]. f_equal. lia.
Qed.

End posix.
