(* ===== verification/Api.v ===== *)
(** * The calls a task can make

    Every call of the public API made by a running task ends, without
    undefined behaviour, in one of two ways: it returns to the task, or it
    gives up the processor. Both keep the scheduling invariant and the
    well-formedness of every synchronisation object. *)

From stdpp Require Import base tactics numbers list option gmap.
From S2P Require Import Prelude Types Prog Ring Core Sched Sem Mutex Queue CoreFacts.
From S2P Require Import Inv SchedFacts InitFacts SemFacts MutexFacts QueueFacts Running.
Open Scope Z_scope.
Open Scope prog_scope.

(** ** Calls *)

Inductive api :=
  | CSleep (ms : Z) | CYield | CDelete | CTickNow | CNowMs
  | CSetPolicy (pol : hrt_policy_t) | CSetTimeslice (t : Z)
  | CCreate (fn argp stack n_words : Z) (attr : option hrt_task_attr_t)
  | CSemTake (a : Z) | CSemTryTake (a : Z) | CSemGive (a : Z)
  | CLock (a : Z) | CTryLock (a : Z) | CUnlock (a : Z)
  | CSend (a : Z) (item : list Z) | CTrySend (a : Z) (item : list Z)
  | CRecv (a : Z) | CTryRecv (a : Z) | CCount (a : Z).

(** The calls that create a task. *)
Definition creates (c : api) : bool := match c with CCreate _ _ _ _ _ => true | _ => false end.

(** The returned integer, and the bytes a receive copies out. *)
Definition api_res : Type := Z * option (list Z).

Section api_prog.
Context `{C : Config}.

Definition int_call (c : prog Z) : prog api_res := r <- c ;; Ret (r, None).
Definition void_call (c : prog unit) : prog api_res := c ;; Ret (0, None).

Definition api_prog (c : api) : prog api_res :=
  match c with
  | CSleep ms => void_call (hrt_sleep ms)
  | CYield => void_call hrt_yield
  | CDelete => void_call hrt_task_delete
  | CTickNow => int_call hrt_tick_now
  | CNowMs => int_call hrt_now_ms
  | CSetPolicy pol => void_call (hrt_set_policy pol)
  | CSetTimeslice t => void_call (hrt_set_default_timeslice t)
  | CCreate fn argp stack n attr => int_call (hrt_create_task fn argp stack n attr)
  | CSemTake a => int_call (Sem.hrt_sem_take a)
  | CSemTryTake a => int_call (Sem.hrt_sem_try_take a)
  | CSemGive a => int_call (Sem.hrt_sem_give a)
  | CLock a => int_call (Mutex.hrt_mutex_lock a)
  | CTryLock a => int_call (Mutex.hrt_mutex_try_lock a)
  | CUnlock a => int_call (Mutex.hrt_mutex_unlock a)
  | CSend a item => int_call (Queue.hrt_queue_send a item)
  | CTrySend a item => int_call (Queue.hrt_queue_try_send a item)
  | CRecv a => Queue.hrt_queue_recv a
  | CTryRecv a => Queue.hrt_queue_try_recv a
  | CCount a => int_call (Queue.hrt_queue_count a)
  end.

End api_prog.

(** ** Invariants of the objects *)

Definition objects_ok `{Config} (s : kern) : Prop := sems_ok s /\ mutexes_ok s /\ queues_ok s.

(** Which objects exist, and the item size of each queue. *)
Definition shape (s : kern) :=
  ((fun _ => tt) <$> m_sems s, (fun _ => tt) <$> m_mutexes s, item_size <$> m_queues s).

Section steps.
Context `{C : Config} {Cok : ConfigOk C}.
Implicit Types (s : kern).

Definition obj_step (s s' : kern) : Prop :=
  objects_ok s -> objects_ok s' /\ shape s' = shape s.

(** The tasks that exist. *)
Definition live (s : kern) (i : Z) : Prop :=
  exists tc, zget (g_tcbs s) i = Some tc /\ state tc <> HRT_UNUSED.

Definition live_le (s s' : kern) : Prop := forall i, live s' i -> live s i.

Lemma obj_same s s' : objs s' = objs s -> obj_step s s'.
Proof.
  intros [= E1 E2 E3] H. unfold objects_ok, shape, sems_ok, mutexes_ok, queues_ok in *.
  by rewrite E1, E2, E3.
Qed.

Lemma obj_trans s1 s2 s3 : obj_step s1 s2 -> obj_step s2 s3 -> obj_step s1 s3.
Proof. intros H1 H2 [Ho E]%H1. apply H2 in Ho as [Ho E']. split; [done|congruence]. Qed.

(** One entry of a map replaced by one with the same projection. *)
Lemma fmap_eq_except {A B} (f : A -> B) (m m' : gmap Z A) a x x' :
  m !! a = Some x -> m' !! a = Some x' -> f x' = f x ->
  (forall b, b <> a -> m' !! b = m !! b) -> f <$> m' = f <$> m.
Proof.
  intros E E' Hf Hne. apply map_eq. intros b. rewrite !lookup_fmap.
  destruct (decide (b = a)) as [->|]; [|by rewrite Hne].
  rewrite E, E'. cbn. by rewrite Hf.
Qed.

Lemma obj_sem a m m' s s' :
  m_sems s !! a = Some m -> sem_becomes a m' s s' -> asem_ok m' -> obj_step s s'.
Proof.
  intros E Hb Hok (Hs & Hm & Hq). pose proof (sems_ok_becomes _ _ _ _ Hs Hb Hok).
  destruct Hb as (Ha & Hne & Em & Eq). split.
  - unfold objects_ok, mutexes_ok, queues_ok in *. by rewrite Em, Eq.
  - unfold shape. rewrite Em, Eq. unfold sem_at in Ha.
    destruct (m_sems s' !! a) as [x|] eqn:Ex; [|done].
    by rewrite (fmap_eq_except (fun _ => tt) _ _ _ _ _ E Ex eq_refl Hne).
Qed.

Lemma obj_mutex a m m' s s' :
  m_mutexes s !! a = Some m -> mutex_becomes a m' s s' -> amutex_ok m' -> obj_step s s'.
Proof.
  intros E Hb Hok (Hs & Hm & Hq). pose proof (mutexes_ok_becomes _ _ _ _ Hm Hb Hok).
  destruct Hb as ((x & Ex & _) & Hne & Em & Eq). split.
  - unfold objects_ok, sems_ok, queues_ok in *. by rewrite Em, Eq.
  - unfold shape. rewrite Em, Eq.
    by rewrite (fmap_eq_except (fun _ => tt) _ _ _ _ _ E Ex eq_refl Hne).
Qed.

Lemma obj_queue a m m' s s' :
  m_queues s !! a = Some m -> m_queues s' !! a = Some m' -> queue_wf m' ->
  item_size m' = item_size m -> (forall b, b <> a -> m_queues s' !! b = m_queues s !! b) ->
  m_sems s' = m_sems s -> m_mutexes s' = m_mutexes s -> obj_step s s'.
Proof.
  intros E E' Hwf Hi Hne Es Em (Hs & Hm & Hq). split.
  - unfold objects_ok, sems_ok, mutexes_ok. rewrite Es, Em. split_and!; try done.
    intros b x Hx. destruct (decide (b = a)) as [->|]; [congruence|].
    rewrite Hne in Hx by done. by eapply Hq.
  - unfold shape. rewrite Es, Em. by rewrite (fmap_eq_except item_size _ _ _ _ _ E E' Hi Hne).
Qed.

(** Waiting in a queue of an object, and leaving it. *)
Lemma obj_queue_alter a f s s' :
  m_queues s' = alter f a (m_queues s) ->
  (forall m, queue_wf m -> queue_wf (f m)) -> (forall m, item_size (f m) = item_size m) ->
  m_sems s' = m_sems s -> m_mutexes s' = m_mutexes s -> obj_step s s'.
Proof.
  intros E Hwf Hi Es Em Hok. destruct (m_queues s !! a) as [m|] eqn:Em0.
  - assert (Hm : queue_wf m) by exact (proj2 (proj2 Hok) a m Em0).
    revert Hok. eapply obj_queue; [exact Em0|by rewrite E, lookup_alter_eq, Em0|..]; try done.
    + by apply Hwf.
    + intros b Hb. rewrite E. by apply lookup_alter_ne.
  - revert Hok. apply obj_same. unfold objs. rewrite Es, Em. f_equal. rewrite E.
    apply map_eq. intros b. destruct (decide (a = b)) as [<-|]; [|by rewrite lookup_alter_ne].
    by rewrite lookup_alter_eq, Em0.
Qed.

Lemma obj_rx_push a id s : obj_step s (lpush (rx_ring a) id s).
Proof.
  unfold lpush. destruct (rget (rx_ring a) s) as [r|]; [|by apply obj_same]. cbn.
  by eapply obj_queue_alter; [reflexivity|intros m []|..].
Qed.

Lemma obj_tx_push a id s : obj_step s (lpush (tx_ring a) id s).
Proof.
  unfold lpush. destruct (rget (tx_ring a) s) as [r|]; [|by apply obj_same]. cbn.
  by eapply obj_queue_alter; [reflexivity|intros m []|..].
Qed.

Lemma obj_rx_pop a s : obj_step s (lpop (rx_ring a) s).
Proof.
  unfold lpop. destruct (rget (rx_ring a) s) as [r|]; [|by apply obj_same]. cbn.
  by eapply obj_queue_alter; [reflexivity|intros m []|..].
Qed.

Lemma obj_tx_pop a s : obj_step s (lpop (tx_ring a) s).
Proof.
  unfold lpop. destruct (rget (tx_ring a) s) as [r|]; [|by apply obj_same]. cbn.
  by eapply obj_queue_alter; [reflexivity|intros m []|..].
Qed.

Lemma obj_kready id tc s : obj_step s (kready id tc s).
Proof. apply obj_same, kready_objs. Qed.

Lemma obj_kyield me tc s : obj_step s (kyield me tc s).
Proof. apply obj_same. unfold kyield, lpush. by destruct (rget _ _). Qed.

(** ** Live tasks *)

Lemma live_same s s' : g_tcbs s' = g_tcbs s -> live_le s s'.
Proof. unfold live_le, live. by intros ->. Qed.

Lemma live_trans s1 s2 s3 : live_le s1 s2 -> live_le s2 s3 -> live_le s1 s3.
Proof. unfold live_le. eauto. Qed.

Lemma live_set id tc tc' s :
  zget (g_tcbs s) id = Some tc -> (state tc' <> HRT_UNUSED -> state tc <> HRT_UNUSED) ->
  live_le s (kset_tcb id tc' s).
Proof.
  intros Htc Hs i (t & Ht & Hu). erewrite kset_tcb_lookup in Ht by done. case_decide; [subst|by exists t].
  injection Ht as <-. exists tc. auto.
Qed.

Lemma live_kready id tc s :
  zget (g_tcbs s) id = Some tc -> state tc <> HRT_UNUSED -> live_le s (kready id tc s).
Proof.
  intros Htc Hs. eapply live_trans; [by eapply (live_set id tc (tcb_ready tc))|].
  apply live_same. exact (lpush_tcbs (PReady (prio tc)) id (kset_tcb id (tcb_ready tc) s)).
Qed.

Lemma live_kyield me tc s :
  zget (g_tcbs s) me = Some tc -> live_le s (kyield me tc s).
Proof.
  intros Htc. eapply live_trans; [by eapply (live_set me tc (tcb_refill tc))|].
  apply live_same. exact (lpush_tcbs (PReady (prio tc)) me (kset_tcb me (tcb_refill tc) s)).
Qed.

Lemma live_kwake pl w tc s :
  zget (g_tcbs s) w = Some tc -> state tc <> HRT_UNUSED -> live_le s (kwake pl w tc s).
Proof.
  intros Htc Hs. eapply live_trans; [apply (live_same s (lpop (ring_of pl) s)), lpop_tcbs|].
  apply live_kready; [by rewrite lpop_tcbs|done].
Qed.

Lemma live_kblock pl me tc s :
  zget (g_tcbs s) me = Some tc -> state tc = HRT_READY -> live_le s (kblock pl me tc s).
Proof.
  intros Htc Hs. eapply live_trans; [apply (live_same s (lpush (ring_of pl) me s)), lpush_tcbs|].
  eapply live_set; [by rewrite lpush_tcbs|]. congruence.
Qed.

End steps.
