(* ===== verification/ApiSafe.v ===== *)
(** * Every call of a task is safe

    [api_post] is what the scheduler relies on when a task makes a call:
    the call comes back to the task or gives up the processor, with the
    invariants kept. *)

From stdpp Require Import base tactics numbers list option gmap.
From S2P Require Import Prelude Types Prog Ring Core Sched Sem Mutex Queue CoreFacts.
From S2P Require Import Inv SchedFacts InitFacts SemFacts MutexFacts QueueFacts Running.
From S2P Require Import Api.
Open Scope Z_scope.
Open Scope prog_scope.

Section base.
Context `{C : Config} {Cok : ConfigOk C} {PL : PortLayer} {BP : BasePort PL}.
Implicit Types (s : kern) (p : pstate) (me : Z).

(** Every live task can be switched away from. *)
Definition switch_ok s p : Prop := port_ok p /\ forall i, live s i -> can_switch i p.

Definition port_le p p' : Prop :=
  (port_ok p -> port_ok p') /\ (pending p -> pending p') /\
  forall i, can_switch i p -> can_switch i p'.

Definition kstep s p s' p' : Prop := obj_step s s' /\ live_le s s' /\ port_le p p'.

Record client_ok me s p : Prop := {
  cl_run : running me s;
  cl_obj : objects_ok s;
  cl_port : switch_ok s p
}.

(** The task that gave up the processor keeps no claim on its quantum:
    [hrt__on_scheduler_entry] has nothing to do for it. *)
Definition parked me s : Prop :=
  g_current s = me /\
  exists tc, zget (g_tcbs s) me = Some tc /\
             (state tc <> HRT_READY \/ slice_left tc = timeslice_cfg tc).

Definition api_post {A} (res : prog A -> Prop) me s p (r : result A) : Prop :=
  match r with
  | Done _ s' p' => running me s' /\ kstep s p s' p'
  | Swapped k s' p' =>
      sched_inv [] s' /\ parked me s' /\ kstep s p s' p' /\ pending p' /\ res k
  | _ => False
  end.

Definition returns {A} (k : prog A) : Prop := exists r, k = Ret r.

Lemma port_le_refl p : port_le p p.
Proof. done. Qed.

Lemma port_le_trans p1 p2 p3 : port_le p1 p2 -> port_le p2 p3 -> port_le p1 p3.
Proof. intros (? & ? & ?) (? & ? & ?). split_and!; eauto. Qed.

Lemma port_le_enter p : port_le p (crit_enter p).
Proof. split_and!; eauto with hrt. Qed.
Lemma port_le_exit p : port_le p (crit_exit p).
Proof. split_and!; eauto with hrt. Qed.
Lemma port_le_pend p : port_le p (pend_switch p).
Proof. split_and!; eauto with hrt. Qed.

Lemma switch_ok_step s p s' p' :
  switch_ok s p -> live_le s s' -> port_le p p' -> switch_ok s' p'.
Proof. intros [H1 H2] Hl (L1 & _ & L2). split; auto. Qed.

Lemma kstep_refl s p : kstep s p s p.
Proof. split_and!; [by apply obj_same|by intros i|done]. Qed.

Lemma kstep_trans s1 p1 s2 p2 s3 p3 :
  kstep s1 p1 s2 p2 -> kstep s2 p2 s3 p3 -> kstep s1 p1 s3 p3.
Proof.
  intros (O1 & L1 & P1) (O2 & L2 & P2).
  split_and!; [by eapply obj_trans|by eapply live_trans|by eapply port_le_trans].
Qed.

Lemma client_step me s p s' p' :
  client_ok me s p -> running me s' -> kstep s p s' p' -> client_ok me s' p'.
Proof.
  intros [R O P] R' (Ho & Hl & Hp). split; [done|by apply Ho|by eapply switch_ok_step].
Qed.

Lemma client_switch me s p : client_ok me s p -> can_switch me p.
Proof.
  intros [R _ [_ H]]. apply H. destruct (run_tcb _ _ R) as (tc & ? & Hs).
  exists tc. split; [done|congruence].
Qed.

(** A first step taken by the caller, then a safe rest. *)
Lemma post_trans {A} (res : prog A -> Prop) me s p s1 p1 r :
  kstep s p s1 p1 -> api_post res me s1 p1 r -> api_post res me s p r.
Proof.
  intros K. destruct r; cbn; try done.
  - intros [? ?]. split; [done|]. by eapply kstep_trans.
  - intros (? & ? & ? & ? & ?). split_and!; [done|done| |done|done]. by eapply kstep_trans.
Qed.

Lemma post_mono {A} (res res' : prog A -> Prop) me s p r :
  (forall k, res k -> res' k) -> api_post res me s p r -> api_post res' me s p r.
Proof. intros H. destruct r; cbn; try done. intros (? & ? & ? & ? & ?). auto 10. Qed.

(** Sequencing with a continuation that only returns. *)
Lemma post_bind_ret {A B} n (c : prog A) (f : A -> B) me s p :
  api_post returns me s p (exec n c s p) ->
  api_post returns me s p (exec n (a <- c ;; Ret (f a)) s p).
Proof.
  destruct (exec n c s p) as [a s' p'|k s' p'|h s' p'|s' p'] eqn:E; cbn; try done.
  - erewrite exec_bind by exact E. done.
  - intros (? & ? & ? & ? & r & ->). erewrite exec_swap_bind by exact E.
    cbn. split_and!; [done|done|done|done|by eexists].
Qed.

End base.

Section safe.
Context `{C : Config} {Cok : ConfigOk C} {PL : PortLayer} {SP : SwitchPort PL}.
Implicit Types (s : kern) (p : pstate) (me : Z).

Lemma port_le_swap p : port_le p (swap_out p).
Proof. split_and!; eauto with hrt. Qed.

(** The hop of a task that leaves the processor for good reasons. *)
Lemma post_hop {A} n (v : A) me s p s1 p1 :
  client_ok me s p -> kstep s p s1 p1 -> sched_inv [] s1 -> parked me s1 -> pending p1 ->
  api_post returns me s p (exec n (call hrt_port_yield_to_scheduler ;; Ret v) s1 p1).
Proof.
  intros Cl (O & L & Pl) I Hpk Hpd. rewrite exec_hop.
  - cbn. split_and!; [done|done| |by auto with hrt|by eexists]. split_and!; [done|done|].
    by eapply port_le_trans; [exact Pl|apply port_le_swap].
  - rewrite (proj1 Hpk). apply Pl. by eapply client_switch.
Qed.

Lemma post_yield {A} n (v : A) me s p :
  client_ok me s p -> api_post returns me s p (exec n (hrt_yield ;; Ret v) s p).
Proof.
  intros Cl. destruct (cl_run _ _ _ Cl) as [I Hc (tc & Htc & Hs)]. pose proof (cl_run _ _ _ Cl) as R.
  rewrite (running_yield n me s p tc) by (done || by eapply client_switch).
  cbn [api_post]. split_and!; [by apply kyield_inv| | |by auto with hrt|by eexists]; [|split_and!].
  - split; [by rewrite kyield_current|]. exists (tcb_refill tc). split; [|by right].
    unfold kyield. rewrite (lpush_tcbs (PReady (prio tc))). by eapply kset_tcb_get.
  - apply obj_kyield.
  - by apply live_kyield.
  - eapply port_le_trans; [apply port_le_pend|apply port_le_swap].
Qed.

End safe.

#[export] Hint Resolve port_le_refl port_le_enter port_le_exit port_le_pend port_le_swap : hrt.

(** [p'] is reached from [p] by port calls that keep the port's promises. *)
Ltac port_steps :=
  repeat first
    [ apply port_le_refl
    | eapply port_le_trans; [|apply port_le_pend]
    | eapply port_le_trans; [|apply port_le_exit]
    | eapply port_le_trans; [|apply port_le_enter] ].

Section calls.
Context `{C : Config} {Cok : ConfigOk C} {PL : PortLayer} {SP : SwitchPort PL}.
Implicit Types (s : kern) (p : pstate) (me : Z).

(** ** Waiting and waking *)

(** Any call that stores the running task in queue [pl] and hops. *)
Lemma post_block {A} n (v : A) me s p p1 pl tc :
  client_ok me s p -> zget (g_tcbs s) me = Some tc -> place_state pl = HRT_BLOCKED ->
  ring_ok (ring_of pl) s -> obj_step s (kblock pl me tc s) -> port_le p p1 -> pending p1 ->
  api_post returns me s p
    (exec n (call hrt_port_yield_to_scheduler ;; Ret v) (kblock pl me tc s) p1).
Proof.
  intros Cl Htc Hpl Hr Ho Hp Hpd. pose proof (cl_run _ _ _ Cl) as R. apply post_hop; [done| | | |done].
  - split_and!; [done| |done]. apply live_kblock; [done|]. by apply (running_prio _ _ _ R Htc).
  - by apply kblock_inv.
  - split; [rewrite kblock_current; apply R|]. exists (tcb_set_state HRT_BLOCKED tc).
    split; [|by left]. unfold kblock. eapply kset_tcb_get. by rewrite lpush_tcbs.
Qed.

Lemma wake_client me s p p1 pl w ws tc :
  client_ok me s p -> qlist (ring_of pl) s = w :: ws -> zget (g_tcbs s) w = Some tc ->
  obj_step s (kwake pl w tc s) -> port_le p p1 ->
  client_ok me (kwake pl w tc s) p1 /\ kstep s p (kwake pl w tc s) p1.
Proof.
  intros Cl Hw Htc Ho Hp. pose proof (cl_run _ _ _ Cl) as R.
  assert (K : kstep s p (kwake pl w tc s) p1).
  { split_and!; [done| |done]. apply live_kwake; [done|].
    destruct (running_waiter _ _ _ _ _ R Hw) as (tc' & Htc' & _ & Hst).
    rewrite Htc in Htc'. injection Htc' as <-. rewrite Hst. by destruct pl. }
  split; [|done]. eapply client_step; [exact Cl|by eapply running_wake|done].
Qed.

(** ** Semaphores *)

Lemma sem_ring_ok out s a m :
  sched_inv out s -> m_sems s !! a = Some m -> ring_ok (sem_ring a) s.
Proof.
  intros I E. eapply (ring_ok_exists _ _ (PSem a)); [done|]. cbn. rewrite E. by eexists.
Qed.

Lemma safe_sem_set me s p p1 a m c :
  client_ok me s p -> m_sems s !! a = Some m ->
  asem_ok (mkAsem c (sem_max_count m) (ring_list (sem_waitq m))) -> port_le p p1 ->
  running me (kset_sem a (mkSem c (sem_max_count m) (sem_waitq m)) s) /\
  kstep s p (kset_sem a (mkSem c (sem_max_count m) (sem_waitq m)) s) p1.
Proof.
  intros Cl E Hok Hp. pose proof (cl_run _ _ _ Cl) as R. split.
  - eapply running_step; [exact R|by apply inv_set_sem, E; apply R|done|done].
  - split_and!; [|by apply live_same|done].
    eapply obj_sem; [exact E|by eapply sem_becomes_set|done].
Qed.

Lemma safe_sem_try_take n me s p a m :
  client_ok me s p -> m_sems s !! a = Some m ->
  api_post returns me s p (exec n (Sem.hrt_sem_try_take a) s p).
Proof.
  intros Cl E. pose proof (proj1 (cl_obj _ _ _ Cl) a m E) as Hok.
  rewrite (exec_sem_try_take n s p a m) by done.
  destruct (0 <? sem_count m) eqn:Hc; btest; cbn.
  - apply safe_sem_set; [done|done| |port_steps].
    pose proof (asem_take_ok 0 _ Hok) as H. unfold asem_take in H. cbn in H.
    revert H. by zbool.
  - split; [apply Cl|]. split_and!; [by apply obj_same|by apply live_same|port_steps].
Qed.

Lemma safe_sem_take n me s p a m :
  client_ok me s p -> m_sems s !! a = Some m ->
  api_post returns me s p (exec n (Sem.hrt_sem_take a) s p).
Proof.
  intros Cl E. pose proof (proj1 (cl_obj _ _ _ Cl) a m E) as Hok.
  pose proof (cl_run _ _ _ Cl) as R. destruct (run_tcb _ _ R) as (tc & Htc & Hs).
  pose proof (asem_take_ok me _ Hok) as H. unfold asem_take in H. cbn in H.
  destruct (0 <? sem_count m) eqn:Hc; btest.
  - rewrite (exec_sem_take n s p a m) by done. cbn. apply safe_sem_set; [done|done|done|port_steps].
  - assert (Hr := sem_ring_ok _ _ _ _ (run_inv _ _ R) E).
    pose proof (running_room me s (PSem a) R) as Hroom. cbn in Hroom.
    destruct Hok as [Hc0 _ _]. cbn in Hc0. pose proof (run_cur _ _ R) as Hcur.
    rewrite (exec_sem_take_block n s p a m tc); try (done || lia).
    + rewrite Hcur. apply (post_block n 0 me s p _ (PSem a) tc); try done; [|port_steps|by auto with hrt].
      eapply obj_sem; [exact E| |exact H].
      by apply (sem_becomes_push a me s m).
    + apply (proj1 (cl_obj _ _ _ Cl) a m E).
    + rewrite Hcur. by eapply running_valid.
    + by rewrite Hcur.
Qed.

Lemma obj_sem_wake s a m w ws tc :
  m_sems s !! a = Some m -> ring_ok (sem_ring a) s -> ring_list (sem_waitq m) = w :: ws ->
  asem_ok (sem_abs m) -> obj_step s (kwake (PSem a) w tc s).
Proof.
  intros E Hr Hw Hok. pose proof (asem_give_ok _ Hok) as H. unfold asem_give in H.
  cbn in H. rewrite Hw in H. eapply obj_trans; [|apply obj_kready].
  eapply obj_sem; [exact E|by eapply sem_becomes_pop|exact H].
Qed.

(** A give in task context and in an ISR. *)
Lemma safe_give n isr b me s p a m :
  client_ok me s p -> m_sems s !! a = Some m ->
  api_post returns me s p (exec n (Sem._give_common a isr b) s p).
Proof.
  intros Cl E. pose proof (proj1 (cl_obj _ _ _ Cl) a m E) as Hok.
  pose proof (cl_run _ _ _ Cl) as R. assert (Hr := sem_ring_ok _ _ _ _ (run_inv _ _ R) E).
  destruct (ring_list (sem_waitq m)) as [|w ws] eqn:Hw.
  - rewrite (exec_give_count n [me] s p a m) by (done || apply R). cbn.
    destruct (sem_count m <? sem_max_count m) eqn:Hc; btest.
    + apply safe_sem_set; [done|done| |port_steps].
      pose proof (asem_give_ok _ Hok) as H. unfold asem_give in H. cbn in H.
      rewrite Hw in *. cbn in H. by rewrite Z.min_l in H by lia.
    + split; [done|]. split_and!; [by apply obj_same|by apply live_same|port_steps].
  - rewrite <- (sem_qlist a s m E) in Hw.
    destruct (running_waiter _ _ (PSem a) _ _ R Hw) as (tc & Htc & _ & _).
    rewrite (sem_qlist a s m E) in Hw.
    rewrite (exec_give_wake n [me] s p a m isr b w ws tc) by (done || apply R).
    assert (Ho := obj_sem_wake s a m w ws tc E Hr Hw Hok). rewrite <- (sem_qlist a s m E) in Hw.
    destruct isr.
    + destruct (wake_client me s p (pend_switch (crit_exit (crit_enter p))) (PSem a) w ws tc)
        as [Cl' K]; try done; [port_steps|]. split; [apply Cl'|exact K].
    + destruct (wake_client me s p (crit_exit (crit_enter p)) (PSem a) w ws tc) as [Cl' K];
        try done; [port_steps|]. eapply post_trans; [exact K|]. by apply post_yield.
Qed.

Lemma safe_sem_give n me s p a m :
  client_ok me s p -> m_sems s !! a = Some m ->
  api_post returns me s p (exec n (Sem.hrt_sem_give a) s p).
Proof. intros. unfold Sem.hrt_sem_give. by eapply (post_bind_ret n _ (fun _ => 0)), safe_give. Qed.

(** ** Mutexes *)

Lemma safe_mutex_set me s p p1 a m l o :
  client_ok me s p -> m_mutexes s !! a = Some m ->
  mtx_ok (mkMutex l o (mtx_waitq m)) -> port_le p p1 ->
  running me (kset_mutex a (mkMutex l o (mtx_waitq m)) s) /\
  kstep s p (kset_mutex a (mkMutex l o (mtx_waitq m)) s) p1.
Proof.
  intros Cl E [Hrep Hok] Hp. pose proof (cl_run _ _ _ Cl) as R. split.
  - eapply running_step; [exact R|by apply inv_set_mutex, E; apply R|done|done].
  - split_and!; [|by apply live_same|done]. eapply obj_mutex; [exact E| |exact Hok].
    split_and!; try done; [|intros b Hb; by apply lookup_insert_ne].
    eexists. split_and!; [apply kset_mutex_lookup|done|done].
Qed.

Lemma mtx_acquired_ok me m :
  valid_id me -> mtx_ok m -> (amutex_lock me (mtx_abs m)).2 = Acquired ->
  mtx_ok (mkMutex 1 me (mtx_waitq m)).
Proof.
  intros Hv [Hrep Hok] Ha. split; [by right|]. unfold amutex_lock, amutex_ok in *. cbn in *.
  destruct (mtx_locked m =? 0); [by rewrite Hok; apply not_elem_of_nil|].
  by destruct (mtx_owner m =? me).
Qed.

(** A call that fails and only records an error. *)
Lemma safe_error me s p p1 e :
  client_ok me s p -> port_le p p1 -> running me (set_error e s) /\ kstep s p (set_error e s) p1.
Proof.
  intros Cl Hp. pose proof (cl_run _ _ _ Cl) as R. split.
  - eapply running_step; [exact R|by apply inv_set_error, R|done|done].
  - split_and!; [by apply obj_same|by apply live_same|done].
Qed.

Lemma safe_try_lock n me s p a m :
  HARDRT_STALL_ON_ERROR = false -> client_ok me s p -> m_mutexes s !! a = Some m ->
  api_post returns me s p (exec n (Mutex.hrt_mutex_try_lock a) s p).
Proof.
  intros Hst Cl E. pose proof (proj1 (proj2 (cl_obj _ _ _ Cl)) a m E) as Hok.
  pose proof (cl_run _ _ _ Cl) as R. pose proof (run_cur _ _ R) as Hc.
  pose proof (running_valid _ _ R) as Hv. rewrite <- Hc in Hv.
  rewrite (exec_mutex_try_lock n s p a m) by (done || apply Hok). cbv zeta.
  destruct (amutex_lock (g_current s) (mtx_abs m)).2 eqn:Ha; cbn.
  - apply safe_mutex_set; [done|done|by apply mtx_acquired_ok|port_steps].
  - apply safe_error; [done|port_steps].
  - split; [done|]. split_and!; [by apply obj_same|by apply live_same|port_steps].
Qed.

Lemma safe_lock n me s p a m :
  HARDRT_STALL_ON_ERROR = false -> client_ok me s p -> m_mutexes s !! a = Some m ->
  api_post returns me s p (exec n (Mutex.hrt_mutex_lock a) s p).
Proof.
  intros Hst Cl E. pose proof (proj1 (proj2 (cl_obj _ _ _ Cl)) a m E) as Hok.
  pose proof (cl_run _ _ _ Cl) as R. pose proof (run_cur _ _ R) as Hc.
  pose proof (running_valid _ _ R) as Hv. destruct (run_tcb _ _ R) as (tc & Htc & Hs).
  destruct (amutex_lock (g_current s) (mtx_abs m)).2 eqn:Ha; rewrite <- Hc in Hv, Htc.
  - rewrite (exec_mutex_lock n s p a m) by (done || apply Hok). cbn.
    apply safe_mutex_set; [done|done|by apply mtx_acquired_ok|port_steps].
  - rewrite (exec_mutex_lock_recursive n s p a m) by (done || apply Hok). cbn.
    apply safe_error; [done|port_steps].
  - assert (Hr := mutex_ring_ok _ _ _ _ (run_inv _ _ R) E).
    pose proof (running_room me s (PMutex a) R) as Hroom. cbn in Hroom.
    rewrite (exec_mutex_lock_block n s p a m tc) by (done || apply Hok).
    rewrite Hc in *. apply (post_block n 0 me s p _ (PMutex a) tc); try done; [|port_steps|by auto with hrt].
    eapply obj_mutex with (m' := (amutex_lock me (mtx_abs m)).1); [exact E| |].
    + rewrite amutex_lock_waiting by done.
      exact (mutex_becomes_push a me s m E (proj1 Hok) Hr Hroom).
    + apply amutex_lock_ok; [apply Hok|]. cbn. rewrite <- (mutex_qlist a s m E).
      by apply (running_not_queued _ _ (PMutex a)).
Qed.

(** Handing a mutex to its oldest waiter. *)
Lemma handover_client me s p p1 a m m' w :
  client_ok me s p -> m_mutexes s !! a = Some m ->
  amutex_unlock (g_current s) (mtx_abs m) = Some (m', Some w) -> port_le p p1 ->
  exists tc, zget (g_tcbs s) w = Some tc /\
    client_ok me (khandover a w tc s) p1 /\ kstep s p (khandover a w tc s) p1.
Proof.
  intros Cl E Hu Hp. pose proof (proj1 (proj2 (cl_obj _ _ _ Cl)) a m E) as [Hrep Hok].
  pose proof (cl_run _ _ _ Cl) as R.
  pose proof (amutex_unlock_handover _ _ _ _ Hu) as (ws & Hw & ->). cbn in Hw.
  assert (Hq := mutex_qlist a s m E). rewrite Hw in Hq.
  destruct (running_waiter _ _ (PMutex a) _ _ R Hq) as (tc & Htc & Hne & Hs).
  exists tc. split; [done|].
  assert (K : kstep s p (khandover a w tc s) p1).
  { split_and!; [| |done].
    - eapply obj_mutex; [exact E|eapply khandover_becomes; [apply R|done..]|].
      eapply amutex_unlock_ok; [exact Hok| |exact Hu]. cbn.
      rewrite <- (mutex_qlist a s m E). apply (inv_nodup _ _ (run_inv _ _ R) (PMutex a)).
    - intros i (t & Ht & Hu'). rewrite (khandover_tcbs s a m w tc E Htc) in Ht.
      case_decide; [subst|by exists t]. exists tc. split; [done|]. rewrite Hs. done. }
  split; [|done]. eapply client_step; [exact Cl| |exact K].
  eapply running_step; [exact R|eapply khandover_inv; [apply R|done..]| |].
  - by apply (khandover_scalars s a m w tc E).
  - rewrite (khandover_tcbs s a m w tc E Htc). by rewrite decide_False.
Qed.

Lemma safe_unlock n me s p a m :
  HARDRT_STALL_ON_ERROR = false -> client_ok me s p -> m_mutexes s !! a = Some m ->
  api_post returns me s p (exec n (Mutex.hrt_mutex_unlock a) s p).
Proof.
  intros Hst Cl E. pose proof (proj1 (proj2 (cl_obj _ _ _ Cl)) a m E) as [Hrep Hok].
  pose proof (cl_run _ _ _ Cl) as R. pose proof (run_cur _ _ R) as Hc.
  pose proof (running_valid _ _ R) as Hv. rewrite <- Hc in Hv.
  destruct (amutex_unlock (g_current s) (mtx_abs m)) as [[m' [w|]]|] eqn:Hu.
  - destruct (handover_client me s p (crit_exit (crit_enter p)) a m m' w) as (tc & Htc & Cl' & K);
      try done; [port_steps|].
    rewrite (exec_mutex_unlock_handover n [me] s p a m _ w tc) by (done || apply R).
    eapply post_trans; [exact K|]. by apply post_yield.
  - rewrite (exec_mutex_unlock_free n [me] s p a m m') by (done || apply R). cbn.
    apply safe_mutex_set; [done|done| |port_steps]. split; [by left|].
    unfold amutex_ok. cbn. by apply (amutex_unlock_free _ _ _ Hu).
  - rewrite (exec_mutex_unlock_refused n s p a m) by done. cbn.
    apply safe_error; [done|port_steps].
Qed.

(** ** Queues *)

Lemma safe_pass me s p p1 pl :
  client_ok me s p -> (forall id tc, obj_step s (kwake pl id tc s)) -> port_le p p1 ->
  client_ok me (kpass pl s) p1 /\ kstep s p (kpass pl s) p1.
Proof.
  intros Cl Ho Hp. pose proof (cl_run _ _ _ Cl) as R. unfold kpass.
  assert (K0 : kstep s p s p1) by (split_and!; [by apply obj_same|by apply live_same|done]).
  destruct (qlist (ring_of pl) s) as [|w ws] eqn:Hw.
  - split; [by eapply client_step|done].
  - destruct (running_waiter _ _ _ _ _ R Hw) as (tc & Htc & _). rewrite Htc. cbn.
    by eapply wake_client.
Qed.

Lemma obj_rx_wake a id tc s : obj_step s (kwake (PRx a) id tc s).
Proof. eapply obj_trans; [apply obj_rx_pop|apply obj_kready]. Qed.

Lemma obj_tx_wake a id tc s : obj_step s (kwake (PTx a) id tc s).
Proof. eapply obj_trans; [apply obj_tx_pop|apply obj_kready]. Qed.

Lemma safe_set_queue me s p p1 a m m' :
  client_ok me s p -> m_queues s !! a = Some m -> queue_wf m' -> item_size m' = item_size m ->
  rx m' = rx m -> tx m' = tx m -> port_le p p1 ->
  client_ok me (kset_queue a m' s) p1 /\ kstep s p (kset_queue a m' s) p1.
Proof.
  intros Cl E Hwf Hi Hrx Htx Hp. pose proof (cl_run _ _ _ Cl) as R.
  assert (K : kstep s p (kset_queue a m' s) p1).
  { split_and!; [|by apply live_same|done].
    eapply obj_queue; [exact E|apply kset_queue_lookup|done|done| |done|done].
    intros b Hb. by apply lookup_insert_ne. }
  split; [|done]. eapply client_step; [exact Cl| |exact K].
  eapply running_step; [exact R|by eapply inv_set_queue; [apply R|..]|done|done].
Qed.

Lemma safe_ksend me s p p1 a m item :
  client_ok me s p -> m_queues s !! a = Some m -> q_count m < capacity m ->
  Z.of_nat (length item) = item_size m -> port_le p p1 ->
  client_ok me (ksend a item m s) p1 /\ kstep s p (ksend a item m s) p1.
Proof.
  intros Cl E Hc Hlen Hp. pose proof (proj2 (proj2 (cl_obj _ _ _ Cl)) a m E) as W.
  destruct (safe_set_queue me s p p a m (q_enq item m)) as [Cl1 K1]; try done.
  { by apply q_enq_spec. }
  destruct (safe_pass me _ p p1 (PRx a) Cl1) as [Cl2 K2]; [intros; apply obj_rx_wake|done|].
  split; [done|by eapply kstep_trans].
Qed.

Lemma safe_krecv me s p p1 a m :
  client_ok me s p -> m_queues s !! a = Some m -> 0 < q_count m -> port_le p p1 ->
  client_ok me (krecv a m s) p1 /\ kstep s p (krecv a m s) p1.
Proof.
  intros Cl E Hc Hp. pose proof (proj2 (proj2 (cl_obj _ _ _ Cl)) a m E) as W.
  destruct (safe_set_queue me s p p a m (q_deq m)) as [Cl1 K1]; try done.
  { by apply q_deq_wf. }
  destruct (safe_pass me _ p p1 (PTx a) Cl1) as [Cl2 K2]; [intros; apply obj_tx_wake|done|].
  split; [done|by eapply kstep_trans].
Qed.

(** A task that may have woken another one yields to it. *)
Lemma post_maybe_yield {A} n (b : bool) (v : A) me s p :
  client_ok me s p ->
  api_post returns me s p (exec n ((if b then hrt_yield else skip) ;; Ret v) s p).
Proof.
  intros Cl. destruct b; [by apply post_yield|]. xrun. split; [apply Cl|apply kstep_refl].
Qed.

Lemma safe_try_send n me s p a m item :
  client_ok me s p -> m_queues s !! a = Some m -> Z.of_nat (length item) = item_size m ->
  api_post returns me s p (exec n (Queue.hrt_queue_try_send a item) s p).
Proof.
  intros Cl E Hlen. pose proof (proj2 (proj2 (cl_obj _ _ _ Cl)) a m E) as W.
  pose proof (cl_run _ _ _ Cl) as R. destruct (q_count m <? capacity m) eqn:Hc; btest.
  - rewrite (exec_try_send n [me] s p a m item) by (done || apply R).
    destruct (safe_ksend me s p (crit_exit (crit_enter p)) a m item) as [Cl' K];
      try done; [port_steps|]. eapply post_trans; [exact K|]. by apply post_maybe_yield.
  - rewrite (exec_try_send_full n s p a m item) by done. split; [done|].
    split_and!; [by apply obj_same|by apply live_same|port_steps].
Qed.

Lemma safe_try_recv n me s p a m :
  client_ok me s p -> m_queues s !! a = Some m ->
  api_post returns me s p (exec n (Queue.hrt_queue_try_recv a) s p).
Proof.
  intros Cl E. pose proof (proj2 (proj2 (cl_obj _ _ _ Cl)) a m E) as W.
  pose proof (cl_run _ _ _ Cl) as R. destruct (0 <? q_count m) eqn:Hc; btest.
  - rewrite (exec_try_recv n [me] s p a m) by (done || apply R).
    destruct (safe_krecv me s p (crit_exit (crit_enter p)) a m) as [Cl' K];
      try done; [port_steps|]. eapply post_trans; [exact K|]. by apply post_maybe_yield.
  - rewrite (exec_try_recv_empty n s p a m) by (done || destruct W; lia). split; [done|].
    split_and!; [by apply obj_same|by apply live_same|port_steps].
Qed.

End calls.
