(* ===== verification/ApiCalls.v ===== *)
(** * Every call of a task is safe, continued

    The blocking queue calls, the calls on the task itself, the creation
    of tasks, and the statement for the whole API. *)

From stdpp Require Import base tactics numbers list option gmap.
From S2P Require Import Prelude Types Prog Ring Core Sched Sem Mutex Queue CoreFacts.
From S2P Require Import Inv SchedFacts InitFacts SemFacts MutexFacts QueueFacts Running.
From S2P Require Import Api ApiSafe.
Open Scope Z_scope.
Open Scope prog_scope.

Section blocking.
Context `{C : Config} {Cok : ConfigOk C} {PL : PortLayer} {SP : SwitchPort PL}.
Implicit Types (s : kern) (p : pstate) (me : Z).

(** ** One iteration of the retry loops *)

Lemma exec_send_body_ok n out s p a m item :
  sched_inv out s -> m_queues s !! a = Some m -> queue_wf m -> q_count m < capacity m ->
  Z.of_nat (length item) = item_size m -> has_waiter (PRx a) s = false ->
  exec n (Queue.send_body a item) s p
  = Done (Some 0) (ksend a item m s) (crit_exit (crit_enter p)).
Proof.
  intros I E W Hc Hl Hw. unfold Queue.send_body. erewrite exec_bind.
  2: { rewrite (exec_try_send n out s p a m item) by done. rewrite Hw. xrun. reflexivity. }
  done.
Qed.

Lemma exec_recv_body_ok n out s p a m :
  sched_inv out s -> m_queues s !! a = Some m -> queue_wf m -> 0 < q_count m ->
  has_waiter (PTx a) s = false ->
  exec n (Queue.recv_body a) s p
  = Done (Some (0, Some (q_slot m (q_head m)))) (krecv a m s) (crit_exit (crit_enter p)).
Proof.
  intros I E W Hc Hw. unfold Queue.recv_body. erewrite exec_bind.
  2: { rewrite (exec_try_recv n out s p a m) by done. rewrite Hw. xrun. reflexivity. }
  done.
Qed.

Lemma exec_send_body_full n me s p a m item tc :
  running me s -> m_queues s !! a = Some m -> capacity m <= q_count m ->
  zget (g_tcbs s) me = Some tc ->
  exec n (Queue.send_body a item) s p
  = exec n (call hrt_port_yield_to_scheduler ;; Ret None) (kblock (PTx a) me tc s)
      (pend_switch (crit_exit (crit_enter (crit_exit (crit_enter p))))).
Proof.
  intros R E Hc Htc. pose proof (running_valid _ _ R) as Hv. pose proof (run_cur _ _ R) as Hcur.
  assert (Hr : ring_ok (tx_ring a) s)
    by (eapply (ring_ok_exists _ _ (PTx a)); [apply R|by eapply queue_tx_some]).
  pose proof (running_room me s (PTx a) R) as Hroom. cbn [ring_of] in Hroom.
  unfold Queue.send_body, hrt__get_current.
  erewrite exec_bind by by eapply exec_try_send_full. zbool. xrun.
  do 2 (rewrite (exec_queue_read _ _ _ _ _ _ _ E); xrun). zbool. rewrite Hcur, valid_u8 by done.
  erewrite exec_bind by by apply exec_wq_push; [apply _|..].
  rewrite tcb_ptr by done. cbn [is_null].
  erewrite (exec_tcb_write _ _ _ _ _ _ tc); [by xrun|]. by rewrite (lpush_tcbs (PTx a)).
Qed.

Lemma exec_recv_body_empty n me s p a m tc :
  running me s -> m_queues s !! a = Some m -> q_count m = 0 ->
  zget (g_tcbs s) me = Some tc ->
  exec n (Queue.recv_body a) s p
  = exec n (call hrt_port_yield_to_scheduler ;; Ret None) (kblock (PRx a) me tc s)
      (pend_switch (crit_exit (crit_enter (crit_exit (crit_enter p))))).
Proof.
  intros R E Hc Htc. pose proof (running_valid _ _ R) as Hv. pose proof (run_cur _ _ R) as Hcur.
  assert (Hr : ring_ok (rx_ring a) s)
    by (eapply (ring_ok_exists _ _ (PRx a)); [apply R|by eapply queue_rx_some]).
  pose proof (running_room me s (PRx a) R) as Hroom. cbn [ring_of] in Hroom.
  unfold Queue.recv_body, hrt__get_current.
  erewrite exec_bind by by eapply exec_try_recv_empty. cbn [fst]. zbool. xrun.
  rewrite (exec_queue_read _ _ _ _ _ _ _ E). zbool. rewrite Hcur, valid_u8 by done.
  erewrite exec_bind by by apply exec_wq_push; [apply _|..].
  rewrite tcb_ptr by done. cbn [is_null].
  erewrite (exec_tcb_write _ _ _ _ _ _ tc); [by xrun|]. by rewrite (lpush_tcbs (PRx a)).
Qed.

(** An iteration finishes the call or leaves the processor: it never falls
    through to the next one on its own. *)
Lemma safe_send_body n me s p a m item :
  client_ok me s p -> m_queues s !! a = Some m -> Z.of_nat (length item) = item_size m ->
  api_post returns me s p (exec n (Queue.send_body a item) s p) /\
  (forall s' p', exec n (Queue.send_body a item) s p <> Done None s' p').
Proof.
  intros Cl E Hlen. pose proof (proj2 (proj2 (cl_obj _ _ _ Cl)) a m E) as W.
  pose proof (cl_run _ _ _ Cl) as R. destruct (run_tcb _ _ R) as (tc & Htc & Hs).
  destruct (q_count m <? capacity m) eqn:Hc; btest.
  - destruct (safe_ksend me s p (crit_exit (crit_enter p)) a m item) as [Cl' K];
      try done; [port_steps|]. destruct (has_waiter (PRx a) s) eqn:Hw.
    + destruct (run_tcb _ _ (cl_run _ _ _ Cl')) as (tc' & Htc' & _).
      assert (Hx : exec n (Queue.hrt_queue_try_send a item) s p
        = Swapped (Ret 0) (kyield me tc' (ksend a item m s))
            (swap_out (pend_switch (crit_exit (crit_enter p))))).
      { rewrite (exec_try_send n [me] s p a m item) by (done || apply R). rewrite Hw.
        apply running_yield; [apply Cl'|done|by eapply client_switch]. }
      unfold Queue.send_body. erewrite exec_swap_bind by exact Hx. split; [|done].
      pose proof (post_yield n 0 _ _ _ Cl') as Hy.
      rewrite (running_yield n me _ _ tc') in Hy; [|apply Cl'|done|by eapply client_switch].
      destruct Hy as (I' & Hpk & K' & Hpd & _). cbn.
      split_and!; [done|done|by eapply kstep_trans|done|by eexists].
    + rewrite (exec_send_body_ok n [me] s p a m item) by (done || apply R).
      split; [|done]. split; [apply Cl'|done].
  - rewrite (exec_send_body_full n me s p a m item tc) by done.
    assert (Hp : api_post (A := option Z) returns me s p
      (exec n (call hrt_port_yield_to_scheduler ;; Ret None) (kblock (PTx a) me tc s)
        (pend_switch (crit_exit (crit_enter (crit_exit (crit_enter p))))))).
    { apply post_block; try done; [|apply obj_trans with (lpush (tx_ring a) me s);
        [apply obj_tx_push|by apply obj_same]|port_steps|by auto with hrt].
      eapply (ring_ok_exists _ _ (PTx a)); [apply R|by eapply queue_tx_some]. }
    split; [exact Hp|]. intros s' p' Hx. rewrite exec_hop in Hx; [done|].
    rewrite kblock_current, (run_cur _ _ R). pose proof (client_switch _ _ _ Cl). by auto 10 with hrt.
Qed.

Lemma safe_recv_body n me s p a m :
  client_ok me s p -> m_queues s !! a = Some m ->
  api_post returns me s p (exec n (Queue.recv_body a) s p) /\
  (forall s' p', exec n (Queue.recv_body a) s p <> Done None s' p').
Proof.
  intros Cl E. pose proof (proj2 (proj2 (cl_obj _ _ _ Cl)) a m E) as W.
  pose proof (cl_run _ _ _ Cl) as R. destruct (run_tcb _ _ R) as (tc & Htc & Hs).
  destruct (0 <? q_count m) eqn:Hc; btest.
  - destruct (safe_krecv me s p (crit_exit (crit_enter p)) a m) as [Cl' K];
      try done; [port_steps|]. destruct (has_waiter (PTx a) s) eqn:Hw.
    + destruct (run_tcb _ _ (cl_run _ _ _ Cl')) as (tc' & Htc' & _).
      assert (Hx : exec n (Queue.hrt_queue_try_recv a) s p
        = Swapped (Ret (0, Some (q_slot m (q_head m)))) (kyield me tc' (krecv a m s))
            (swap_out (pend_switch (crit_exit (crit_enter p))))).
      { rewrite (exec_try_recv n [me] s p a m) by (done || apply R). rewrite Hw.
        apply running_yield; [apply Cl'|done|by eapply client_switch]. }
      unfold Queue.recv_body. erewrite exec_swap_bind by exact Hx. split; [|done].
      pose proof (post_yield n 0 _ _ _ Cl') as Hy.
      rewrite (running_yield n me _ _ tc') in Hy; [|apply Cl'|done|by eapply client_switch].
      destruct Hy as (I' & Hpk & K' & Hpd & _). cbn.
      split_and!; [done|done|by eapply kstep_trans|done|by eexists].
    + rewrite (exec_recv_body_ok n [me] s p a m) by (done || apply R).
      split; [|done]. split; [apply Cl'|done].
  - assert (Hz : q_count m = 0) by (destruct W; lia).
    rewrite (exec_recv_body_empty n me s p a m tc) by done.
    assert (Hp : api_post (A := option (Z * option (list Z))) returns me s p
      (exec n (call hrt_port_yield_to_scheduler ;; Ret None) (kblock (PRx a) me tc s)
        (pend_switch (crit_exit (crit_enter (crit_exit (crit_enter p))))))).
    { apply post_block; try done; [|apply obj_trans with (lpush (rx_ring a) me s);
        [apply obj_rx_push|by apply obj_same]|port_steps|by auto with hrt].
      eapply (ring_ok_exists _ _ (PRx a)); [apply R|by eapply queue_rx_some]. }
    split; [exact Hp|]. intros s' p' Hx. rewrite exec_hop in Hx; [done|].
    rewrite kblock_current, (run_cur _ _ R). pose proof (client_switch _ _ _ Cl). by auto 10 with hrt.
Qed.

(** A retry loop whose iterations are safe and do not fall through. *)
Lemma safe_loop {A} n (body : prog (option A)) (f : A -> api_res) me s p :
  (api_post returns me s p (exec (S n) body s p) /\
   forall s' p', exec (S n) body s p <> Done None s' p') ->
  api_post (fun k => returns k \/ k = (r <- forever body ;; Ret (f r))) me s p
    (exec (S n) (r <- forever body ;; Ret (f r)) s p).
Proof.
  intros [Hp Hn]. change (exec (S n) (r <- forever body ;; Ret (f r)) s p) with
    (iter_loop (S n) (exec (S n) body) (fun b => exec (S n) (bind (Ret b) (fun r => Ret (f r))))
       (fun o => match o with Some b => bind (Ret b) (fun r => Ret (f r))
                 | None => Loop body (fun b => bind (Ret b) (fun r => Ret (f r))) end) s p).
  cbn [iter_loop].
  destruct (exec (S n) body s p) as [[v|] s' p'|k s' p'|h s' p'|s' p'] eqn:Hx; try done.
  - by destruct (Hn s' p').
  - destruct Hp as (I & Hpk & K & Hpd & [[v|] ->]); cbn.
    + split_and!; [done|done|done|done|]. left. by eexists.
    + split_and!; [done|done|done|done|]. by right.
Qed.

End blocking.

(** ** The calls on the task itself *)

Section own.
Context `{C : Config} {Cok : ConfigOk C} {PL : PortLayer} {SP : SwitchPort PL}.
Implicit Types (s : kern) (p : pstate) (me : Z).

Lemma hop_bind {A} n (c : prog unit) (v : A) s p s1 p1 :
  exec n c s p = exec n (call hrt_port_yield_to_scheduler) s1 p1 ->
  can_switch (g_current s1) p1 ->
  exec n (c ;; Ret v) s p = exec n (call hrt_port_yield_to_scheduler ;; Ret v) s1 p1.
Proof.
  intros E Hs. rewrite exec_hop by done.
  apply (exec_swap_bind n c (fun _ => Ret v) s p (Ret tt)). rewrite E.
  cbn. by rewrite switch_yields.
Qed.

Lemma parked_set me s tc :
  g_current s = me -> zget (g_tcbs s) me = Some tc -> state tc <> HRT_READY -> parked me s.
Proof. intros Hc Htc Hs. split; [done|]. exists tc. auto. Qed.

Lemma safe_sleep n me s p ms :
  client_ok me s p -> api_post returns me s p (exec n (hrt_sleep ms ;; Ret (0, @None (list Z))) s p).
Proof.
  intros Cl. pose proof (cl_run _ _ _ Cl) as R. destruct (run_tcb _ _ R) as (tc & Htc & Hs).
  pose proof (running_valid _ _ R) as Hv. pose proof (run_cur _ _ R) as Hc.
  pose proof (client_switch _ _ _ Cl) as Hsw.
  erewrite hop_bind; [|eapply exec_sleep; by rewrite Hc|].
  - rewrite Hc. apply post_hop; [done| |by apply ksleep_inv
      |by eapply parked_set; [|by eapply kset_tcb_get|]|by auto with hrt].
    split_and!; [by apply obj_same| |port_steps].
    eapply live_set; [done|]. congruence.
  - cbn [g_current kset_tcb set_tcbs]. rewrite Hc. by auto with hrt.
Qed.

Lemma safe_delete n me s p :
  client_ok me s p -> api_post returns me s p (exec n (hrt_task_delete ;; Ret (0, @None (list Z))) s p).
Proof.
  intros Cl. pose proof (cl_run _ _ _ Cl) as R. destruct (run_tcb _ _ R) as (tc & Htc & Hs).
  pose proof (running_valid _ _ R) as Hv. pose proof (run_cur _ _ R) as Hc.
  pose proof (client_switch _ _ _ Cl) as Hsw.
  destruct (decide (me = HRT_IDLE_ID)) as [Hi|Hi].
  { unfold hrt_task_delete, hrt__get_current. xrun. rewrite Hc, Hi, Z.eqb_refl, orb_true_r. xrun.
    split; [by rewrite <- Hi|apply kstep_refl]. }
  erewrite hop_bind; [|apply exec_task_delete; by rewrite Hc|].
  - rewrite Hc. apply post_hop; [done| |by apply kdelete_inv
      |by eapply parked_set; [|by eapply kset_tcb_get|]|by auto with hrt].
    split_and!; [by apply obj_same| |port_steps]. by eapply live_set.
  - cbn [g_current kset_tcb set_tcbs]. rewrite Hc. by auto with hrt.
Qed.

(** ** Settings *)

Lemma safe_setting me s p s' :
  client_ok me s p -> g_tcbs s' = g_tcbs s -> g_rq s' = g_rq s -> objs s' = objs s ->
  g_current s' = g_current s -> g_tick s' = g_tick s -> g_tick_hz s' = g_tick_hz s ->
  0 <= g_default_slice s' < 2 ^ 16 -> running me s' /\ kstep s p s' p.
Proof.
  intros Cl Ht Hr Ho Hc H1 H2 H3. pose proof (cl_run _ _ _ Cl) as R. pose proof Ho as [= E1 E2 E3].
  destruct (bwf_kern _ (inv_base _ _ (run_inv _ _ R))). split.
  - eapply running_step; [exact R| |done|by rewrite Ht].
    eapply inv_frame; [apply R|done| |..]; rewrite ?Hr, ?H1, ?H2; try done.
    intros []; cbn; by rewrite ?Hr, ?E1, ?E2, ?E3.
  - split_and!; [by apply obj_same|by apply live_same|done].
Qed.

(** ** Creating a task *)

Definition attr_prio (attr : option hrt_task_attr_t) : Z :=
  u8 (match attr with Some a => priority a | None => HRT_PRIO1 end).

(** The state a successful creation leaves. *)
Definition kcreate (i fn argp stack n_words : Z) (attr : option hrt_task_attr_t) (s : kern) : kern :=
  kready i (new_tcb s fn argp stack n_words attr) s.

Lemma free_slot_tcb out s i :
  sched_inv out s -> free_slot s = i -> valid_id i ->
  exists tc, zget (g_tcbs s) i = Some tc /\ state tc = HRT_UNUSED.
Proof.
  intros I Hf Hv. destruct (free_slot_cases s) as [[Hn _]|(_ & Hu & _)]; [destruct Hv; lia|].
  rewrite Hf in Hu. unfold is_unused in Hu. destruct (zget (g_tcbs s) i) as [tc|]; [|done].
  apply bool_decide_eq_true in Hu. by exists tc.
Qed.

(** The end of the call, once the port has prepared the stack: the TCB of
    the new task is [nt]. *)
Lemma exec_create_rest n out s p i nt :
  sched_inv out s -> free_slot s = i -> valid_id i -> 0 <= prio nt < HARDRT_MAX_PRIO ->
  exec n (tcb_write (Some i) (tcb_set_state HRT_READY) ;;
          tcb_write (Some i) tcb_refill ;;
          pr <- tcb_read (Some i) prio ;;
          rq_push pr i ;; Ret i) (kset_tcb i nt s) p
  = Done i (kready i nt s) p.
Proof.
  intros I Hf Hv Hpr. destruct (free_slot_tcb _ _ _ I Hf Hv) as (tc & Htc & Hu).
  erewrite exec_tcb_write by by eapply kset_tcb_get. rewrite kset_tcb_twice.
  erewrite exec_tcb_write by by eapply kset_tcb_get. rewrite kset_tcb_twice.
  erewrite exec_tcb_read by by eapply kset_tcb_get.
  change (prio (tcb_refill (tcb_set_state HRT_READY nt))) with (prio nt).
  erewrite exec_bind; [reflexivity|]. unfold kready.
  assert (I' : sched_inv (i :: out) s) by (eapply inv_hold; [done|done|by right]).
  apply exec_rq_push; [done|done|by eapply (inv_rq (i :: out) s)|].
  change (rq_ring (prio nt)) with (ring_of (PReady (prio nt))).
  rewrite kset_qlist. eapply inv_room; [exact I'|done|]. apply (inv_out _ _ I'), list_elem_of_here.
Qed.

Lemma exec_create_ok n s p fn argp stack n_words attr i out :
  sched_inv out s -> port_ok p -> free_slot s = i -> valid_id i ->
  0 <= attr_prio attr < HARDRT_MAX_PRIO -> fn <> 0 -> stack <> 0 -> 64 <= n_words ->
  exec n (hrt_create_task fn argp stack n_words attr) s p
  = Done i (kcreate i fn argp stack n_words attr s) (prep i stack n_words p).
Proof.
  intros I Hp Hf Hv Hpr H1 H2 H3. destruct (bwf_kern _ (inv_base _ _ I)).
  rewrite (exec_create n s p fn argp stack n_words attr i) by done.
  cbn [bind exec port_do]. rewrite prepare_returns by done.
  by apply (exec_create_rest n out).
Qed.

Lemma knew_inv out s i nt :
  sched_inv out s -> free_slot s = i -> valid_id i -> i ∉ out -> tcb_wf nt ->
  0 <= prio nt < HARDRT_MAX_PRIO -> sched_inv out (kready i nt s).
Proof.
  intros I Hf Hv Hno Hwf Hp. destruct (free_slot_tcb _ _ _ I Hf Hv) as (tc & Htc & Hs).
  assert (I' : sched_inv (i :: out) s) by (eapply inv_hold; [done|done|by right]).
  eapply (inv_enqueue out _ (PReady (prio nt))) with (tc := tcb_ready nt); try done.
  - eapply inv_set_tcb; [exact I'|done|by apply tcb_ready_wf|].
    left. split; [apply list_elem_of_here|done].
  - by eapply kset_tcb_get.
  - by intros pr [= <-].
  - exact (inv_rq _ _ _ I' Hp).
Qed.

Lemma kcreate_inv out s i fn argp stack n_words attr :
  sched_inv out s -> free_slot s = i -> valid_id i -> i ∉ out ->
  0 <= attr_prio attr < HARDRT_MAX_PRIO ->
  sched_inv out (kcreate i fn argp stack n_words attr s).
Proof. intros I Hf Hv Hno Hp. apply knew_inv; try done. apply new_tcb_wf. Qed.

Lemma kcreate_tcbs out s i fn argp stack n_words attr j :
  sched_inv out s -> valid_id i ->
  zget (g_tcbs (kcreate i fn argp stack n_words attr s)) j
  = if decide (i = j) then Some (tcb_ready (new_tcb s fn argp stack n_words attr))
    else zget (g_tcbs s) j.
Proof.
  intros I Hv. destruct (zget_is_Some (g_tcbs s) i) as [tc Htc].
  { destruct (bwf_kern _ (inv_base _ _ I)), Hv. lia. }
  by apply (kready_tcbs _ _ _ _ tc).
Qed.

End own.
