(* ===== verification/ApiTheorem.v ===== *)
(** * The API as a whole, and the interrupt handlers

    [api_call_safe] covers every call a task can make; [isr_safe] covers
    the handlers that run between the statements of a task or of the
    scheduler. *)

From stdpp Require Import base tactics numbers list option gmap.
From S2P Require Import Prelude Types Prog Ring Core Sched Sem Mutex Queue CoreFacts.
From S2P Require Import Inv SchedFacts InitFacts SemFacts MutexFacts QueueFacts Running.
From S2P Require Import Api ApiSafe ApiCalls.
Open Scope Z_scope.
Open Scope prog_scope.

Section api.
Context `{C : Config} {Cok : ConfigOk C} {PL : PortLayer} {SP : SwitchPort PL}.
Implicit Types (s : kern) (p : pstate) (me : Z).

(** What a task must respect: the objects exist, an item has the size of
    the queue, and a created task has a priority of the build and does not
    take the idle slot. *)
Definition api_pre s (c : api) : Prop :=
  match c with
  | CSemTake a | CSemTryTake a | CSemGive a => is_Some (m_sems s !! a)
  | CLock a | CTryLock a | CUnlock a => is_Some (m_mutexes s !! a)
  | CSend a item | CTrySend a item =>
      exists m, m_queues s !! a = Some m /\ Z.of_nat (length item) = item_size m
  | CRecv a | CTryRecv a | CCount a => is_Some (m_queues s !! a)
  | CSetTimeslice t => 0 <= t < 2 ^ 16
  | CCreate _ _ _ _ attr =>
      0 <= attr_prio attr < HARDRT_MAX_PRIO /\ free_slot s <> HRT_IDLE_ID
  | _ => True
  end.

(** What is left of a call that gave up the processor: nothing but its
    return, or the whole call for the retry loops of the queues. *)
Definition resumable s (k : prog api_res) : Prop :=
  (exists r, k = Ret r) \/
  (exists a item, k = api_prog (CSend a item) /\ api_pre s (CSend a item)) \/
  (exists a, k = api_prog (CRecv a) /\ api_pre s (CRecv a)).

(** The outcome of a call: back in the task, or in the scheduler. *)
Definition api_outcome me s (r : result api_res) : Prop :=
  match r with
  | Done _ s' p' => client_ok me s' p' /\ shape s' = shape s
  | Swapped k s' p' =>
      sched_inv [] s' /\ parked me s' /\ objects_ok s' /\ switch_ok s' p' /\ pending p' /\
      shape s' = shape s /\ resumable s k
  | _ => False
  end.

Lemma post_outcome me s p r :
  client_ok me s p -> api_post (resumable s) me s p r -> api_outcome me s r.
Proof.
  intros Cl. destruct r; cbn; try done.
  - intros [R K]. split; [by eapply client_step|]. by apply K, Cl.
  - intros (I & Hpk & (O & L & P) & Hpd & Hr). destruct (O (cl_obj _ _ _ Cl)).
    split_and!; try done; by eapply switch_ok_step; [apply Cl|..].
Qed.

Lemma returns_outcome me s p r :
  client_ok me s p -> api_post returns me s p r -> api_outcome me s r.
Proof.
  intros Cl H. eapply post_outcome; [exact Cl|]. eapply post_mono; [|exact H].
  intros k Hk. by left.
Qed.

Lemma int_outcome n me s p c :
  client_ok me s p -> api_post returns me s p (exec n c s p) ->
  api_outcome me s (exec n (int_call c) s p).
Proof.
  intros Cl H. eapply returns_outcome; [exact Cl|].
  by apply (post_bind_ret n c (fun r => (r, None))).
Qed.

Lemma get_outcome n me s p (f : kern -> Z) :
  client_ok me s p -> api_outcome me s (exec n (int_call (gets f)) s p).
Proof. intros Cl. by split. Qed.

Lemma send_outcome n me s p a item :
  client_ok me s p -> api_pre s (CSend a item) ->
  api_outcome me s (exec (S n) (api_prog (CSend a item)) s p).
Proof.
  intros Cl (m & E & Hl). eapply post_outcome; [exact Cl|].
  eapply post_mono; [|by apply (safe_loop n _ (fun r => (r, None))), (safe_send_body _ _ _ _ _ m)].
  intros k [Hk|Hk]; [by left|]. right. left. exists a, item. split; [done|by exists m].
Qed.

(** [hrt_queue_recv] is its own call: no conversion of the result. *)
Lemma recv_prog a : api_prog (CRecv a) = (r <- forever (Queue.recv_body a) ;; Ret r).
Proof. done. Qed.

Lemma recv_outcome n me s p a :
  client_ok me s p -> api_pre s (CRecv a) ->
  api_outcome me s (exec (S n) (api_prog (CRecv a)) s p).
Proof.
  intros Cl [m E]. eapply post_outcome; [exact Cl|].
  eapply post_mono; [|rewrite recv_prog; apply (safe_loop n _ id), (safe_recv_body _ _ _ _ _ m)]; [|done..].
  intros k [Hk|Hk]; [by left|]. right. right. exists a. split; [done|by exists m].
Qed.

Lemma create_outcome n me s p fn argp stack n_words attr :
  HARDRT_STALL_ON_ERROR = false -> client_ok me s p ->
  api_pre s (CCreate fn argp stack n_words attr) ->
  api_outcome me s (exec n (api_prog (CCreate fn argp stack n_words attr)) s p).
Proof.
  intros Hst Cl [Hp Hidle]. pose proof (cl_run _ _ _ Cl) as R.
  destruct (bwf_kern _ (inv_base _ _ (run_inv _ _ R))).
  destruct (decide (fn = 0 \/ stack = 0 \/ n_words < 64)) as [Hb|Hb].
  { apply int_outcome; [done|]. rewrite exec_create_bad by done. by apply safe_error. }
  destruct (free_slot_cases s) as [[Hf _]|(Hv & _ & _)].
  { apply int_outcome; [done|]. rewrite exec_create_full by (done || lia). by apply safe_error. }
  set (i := free_slot s) in *.
  assert (Hne : i <> me).
  { intros E. destruct (free_slot_tcb _ _ i (run_inv _ _ R) eq_refl Hv) as (tc & Htc & Hs).
    rewrite E in Htc. destruct (running_prio _ _ _ R Htc). congruence. }
  cbn [api_prog]. unfold int_call. erewrite exec_bind.
  2: { eapply (exec_create_ok n s p); [apply R|apply Cl|reflexivity|done|done|lia..]. }
  assert (Hl := fun j => kcreate_tcbs [me] s i fn argp stack n_words attr j (run_inv _ _ R) Hv).
  rewrite exec_ret. split.
  - split.
    + eapply running_step; [exact R|apply kcreate_inv; try done; [apply R|]| |].
      * by rewrite list_elem_of_singleton.
      * apply kready_scalars.
      * rewrite Hl. by rewrite decide_False.
    + by apply obj_kready, Cl.
    + destruct (cl_port _ _ _ Cl) as [Hok Hsw]. split; [by auto with hrt|].
      intros j (tc & Htc & Hu). rewrite Hl in Htc. case_decide as Hij.
      * subst j. by apply can_switch_new.
      * apply can_switch_prep, Hsw. by exists tc.
  - by apply obj_kready, Cl.
Qed.

Theorem api_safe n me s p c :
  HARDRT_STALL_ON_ERROR = false -> client_ok me s p -> api_pre s c ->
  api_outcome me s (exec (S n) (api_prog c) s p).
Proof.
  intros Hst Cl Hpre. destruct c; try by apply get_outcome.
  - eapply returns_outcome; [exact Cl|]. by apply safe_sleep.
  - eapply returns_outcome; [exact Cl|]. by apply post_yield.
  - eapply returns_outcome; [exact Cl|]. by apply safe_delete.
  - cbn [api_prog]. unfold int_call, hrt_now_ms. xrun.
    destruct (g_tick_hz s =? 0); xrun; by split.
  - destruct (bwf_kern _ (inv_base _ _ (run_inv _ _ (cl_run _ _ _ Cl)))).
    eapply returns_outcome; [exact Cl|]. by apply safe_setting.
  - eapply returns_outcome; [exact Cl|]. by apply safe_setting.
  - by apply create_outcome.
  - destruct Hpre as [m E]. apply int_outcome; [done|]. by eapply safe_sem_take.
  - destruct Hpre as [m E]. apply int_outcome; [done|]. by eapply safe_sem_try_take.
  - destruct Hpre as [m E]. apply int_outcome; [done|]. by eapply safe_sem_give.
  - destruct Hpre as [m E]. apply int_outcome; [done|]. by eapply safe_lock.
  - destruct Hpre as [m E]. apply int_outcome; [done|]. by eapply safe_try_lock.
  - destruct Hpre as [m E]. apply int_outcome; [done|]. by eapply safe_unlock.
  - destruct Hpre as [m E]. apply send_outcome; [done|]. by exists m.
  - destruct Hpre as [m E]. apply int_outcome; [done|]. eapply safe_try_send; [done|apply E..].
  - destruct Hpre as [m E]. apply recv_outcome; [done|]. by exists m.
  - destruct Hpre as [m E]. eapply returns_outcome; [exact Cl|]. by eapply safe_try_recv.
  - destruct Hpre as [m E]. cbn [api_prog]. unfold int_call, Queue.hrt_queue_count.
    rewrite (exec_queue_read _ _ _ _ _ _ _ E). by split.
Qed.

(** So is what is left of a call that gave up the processor. *)
Lemma rest_safe n me s p k :
  HARDRT_STALL_ON_ERROR = false -> client_ok me s p -> resumable s k ->
  api_outcome me s (exec (S n) k s p).
Proof.
  intros Hst Cl [[r ->]|[(a & it & -> & Hp)|(a & -> & Hp)]]; [by split|by apply api_safe..].
Qed.

(** One iteration of each loop is enough. *)
Lemma outcome_ended me s r : api_outcome me s r -> ended r = true.
Proof. by destruct r. Qed.

Lemma api_fuel n me s p c :
  HARDRT_STALL_ON_ERROR = false -> client_ok me s p -> api_pre s c ->
  exec (S n) (api_prog c) s p = exec 1 (api_prog c) s p.
Proof. intros. apply exec_fuel; [lia|]. by eapply outcome_ended, api_safe. Qed.

Lemma rest_fuel n me s p k :
  HARDRT_STALL_ON_ERROR = false -> client_ok me s p -> resumable s k ->
  exec (S n) k s p = exec 1 k s p.
Proof. intros. apply exec_fuel; [lia|]. by eapply outcome_ended, rest_safe. Qed.

End api.
