(* ===== verification/IsrSafe.v ===== *)
(** * The interrupt handlers are safe

    The tick and the ISR variants of the primitives, run while the tasks of
    [held] are outside of the queues: the running task, or none when the
    scheduler runs. *)

From stdpp Require Import base tactics numbers list option gmap.
From S2P Require Import Prelude Types Prog Ring Core Sched Sem Mutex Queue CoreFacts.
From S2P Require Import Inv SchedFacts InitFacts SemFacts MutexFacts QueueFacts Running.
From S2P Require Import Api ApiSafe.
Open Scope Z_scope.
Open Scope prog_scope.

Inductive isr :=
  | ITick | IExtTick | IGive (a : Z) (out : bool)
  | ISend (a : Z) (item : list Z) (out : bool) | IRecv (a : Z) (out : bool).

Section isr.
Context `{C : Config} {Cok : ConfigOk C} {PL : PortLayer} {BP : BasePort PL}.
Implicit Types (s : kern) (p : pstate) (held : list Z).

Definition isr_prog (h : isr) : prog unit :=
  match h with
  | ITick => hrt__tick_isr
  | IExtTick => hrt_tick_from_isr
  | IGive a out => _ <- Sem.hrt_sem_give_from_isr a out ;; skip
  | ISend a item out => _ <- Queue.hrt_queue_try_send_from_isr a item out ;; skip
  | IRecv a out => _ <- Queue.hrt_queue_try_recv_from_isr a out ;; skip
  end.

Definition isr_pre s (h : isr) : Prop :=
  match h with
  | ITick | IExtTick => True
  | IGive a _ => is_Some (m_sems s !! a)
  | ISend a item _ => exists m, m_queues s !! a = Some m /\ Z.of_nat (length item) = item_size m
  | IRecv a _ => is_Some (m_queues s !! a)
  end.

(** The held tasks keep their state, and the current task is the same. *)
Definition held_same held s s' : Prop :=
  g_current s' = g_current s /\
  forall i, i ∈ held -> state <$> zget (g_tcbs s') i = state <$> zget (g_tcbs s) i.

(** Task [i] is ready; no task becomes ready. *)
Definition is_ready s (i : Z) : Prop :=
  exists tc, zget (g_tcbs s) i = Some tc /\ state tc = HRT_READY.

Definition ready_le s s' : Prop := forall i, is_ready s' i -> is_ready s i.

(** A handler that makes a task ready requests a switch. *)
Definition isr_post held s p (r : result unit) : Prop :=
  match r with
  | Done _ s' p' =>
      sched_inv held s' /\ held_same held s s' /\ kstep s p s' p' /\
      (pending p' \/ ready_le s s')
  | _ => False
  end.

Lemma ready_le_tcbs s s' : g_tcbs s' = g_tcbs s -> ready_le s s'.
Proof. unfold ready_le, is_ready. by intros ->. Qed.

Lemma ready_le_states s s' :
  (forall i, state <$> zget (g_tcbs s') i = state <$> zget (g_tcbs s) i) -> ready_le s s'.
Proof.
  intros H i (t & Ht & Hr). specialize (H i). rewrite Ht in H.
  destruct (zget (g_tcbs s) i) as [tc|] eqn:Htc; [|done]. injection H as H.
  exists tc. split; [done|congruence].
Qed.

Lemma isr_skip held s p p1 : sched_inv held s -> port_le p p1 -> isr_post held s p (Done tt s p1).
Proof.
  intros I Hp. split_and!; [done|done| |right; by apply ready_le_tcbs].
  split_and!; [by apply obj_same|by apply live_same|done].
Qed.

(** ** The tick *)

Lemma wake_step_obj s i : obj_step s (wake_step s i).
Proof.
  unfold wake_step. destruct (zget (g_tcbs s) i); [|by apply obj_same].
  destruct (due s i); [apply obj_kready|by apply obj_same].
Qed.

Lemma wake_all_obj ids s : obj_step s (wake_all ids s).
Proof.
  unfold wake_all. revert s. induction ids as [|i ids IH]; intros s; [by apply obj_same|].
  eapply obj_trans; [apply wake_step_obj|apply IH].
Qed.

Lemma wake_all_live ids s : NoDup ids -> live_le s (wake_all ids s).
Proof.
  intros Hnd i (t & Ht & Hu). rewrite wake_all_tcbs in Ht by done.
  destruct (bool_decide (i ∈ ids) && due s i) eqn:E; [|by exists t].
  apply andb_true_iff in E as [_ (tc & Htc & Hs & _)%due_inv]. exists tc. split; [done|congruence].
Qed.

Lemma charge_tcbs s i :
  state <$> zget (g_tcbs (charge s).1) i = state <$> zget (g_tcbs s) i.
Proof.
  unfold charge. destruct (zget (g_tcbs s) (g_current s)) as [tc|] eqn:Htc; [|done].
  destruct (_ && (slice_left tc >? 0)); [|done]. cbn [fst].
  erewrite kset_tcb_lookup by done. case_decide; [subst|done]. by rewrite Htc.
Qed.

Lemma live_states s s' :
  (forall i, state <$> zget (g_tcbs s') i = state <$> zget (g_tcbs s) i) -> live_le s s'.
Proof.
  intros H i (t & Ht & Hu). specialize (H i). rewrite Ht in H.
  destruct (zget (g_tcbs s) i) as [tc|] eqn:Htc; [|done]. injection H as H.
  exists tc. split; [done|congruence].
Qed.

Lemma charge_same s : objs (charge s).1 = objs s /\ g_current (charge s).1 = g_current s.
Proof.
  unfold charge. destruct (zget (g_tcbs s) (g_current s)) as [tc|]; [|done].
  by destruct (_ && (slice_left tc >? 0)).
Qed.

Lemma tick_spec_step held s p :
  sched_inv held s -> awake held s ->
  held_same held s (tick_spec s).1 /\ kstep s p (tick_spec s).1 p.
Proof.
  intros I Ha. unfold tick_spec. set (s1 := set_tick (u32 (g_tick s + 1)) s).
  set (s2 := wake_all all_ids s1).
  assert (Hc : g_current s2 = g_current s) by exact (proj1 (wake_all_scalars all_ids s1)).
  assert (Ho : obj_step s s2) by (eapply obj_trans; [by apply (obj_same s s1)|apply wake_all_obj]).
  assert (Hl : live_le s s2)
    by (eapply live_trans; [by apply (live_same s s1)|apply wake_all_live, all_ids_nodup]).
  assert (Hh : forall i, i ∈ held -> zget (g_tcbs s2) i = zget (g_tcbs s) i).
  { intros i Hi. unfold s2. rewrite wake_all_tcbs by apply all_ids_nodup.
    rewrite (awake_due held s1 i Ha Hi), andb_false_r. done. }
  destruct (id_out_of_range (g_current s)); cbn [fst].
  - split; [split; [exact Hc|intros i Hi; cbn; by rewrite Hh]|].
    split_and!; [|by eapply live_trans; [exact Hl|by apply live_same]|done].
    eapply obj_trans; [exact Ho|by apply obj_same].
  - destruct (charge_same s2) as [E1 E2]. split; [split; [congruence|]|].
    + intros i Hi. rewrite charge_tcbs. by rewrite Hh.
    + split_and!; [|by eapply live_trans; [exact Hl|apply live_states, charge_tcbs]|done].
      eapply obj_trans; [exact Ho|by apply obj_same].
Qed.

(** A tick that requests no switch wakes nobody up. *)
Lemma wake_all_none ids s :
  existsb (due s) ids = false -> wake_all ids s = s.
Proof.
  unfold wake_all. revert s. induction ids as [|i ids IH]; intros s; [done|].
  cbn [existsb foldl]. intros [H1 H2]%orb_false_iff.
  assert (wake_step s i = s) as ->; [|by apply IH].
  unfold wake_step. rewrite H1. by destruct (zget (g_tcbs s) i).
Qed.

Lemma tick_quiet_ready s : (tick_spec s).2 = false -> ready_le s (tick_spec s).1.
Proof.
  unfold tick_spec. destruct (id_out_of_range (g_current s)); cbn [fst snd].
  - intros H. rewrite wake_all_none by done. by apply ready_le_tcbs.
  - intros [H _]%orb_false_iff. rewrite wake_all_none by done.
    apply ready_le_states. intros i. by rewrite charge_tcbs.
Qed.

Lemma safe_tick n held s p :
  HARDRT_STALL_ON_ERROR = false \/ valid_id (g_current s) ->
  sched_inv held s -> awake held s -> isr_post held s p (exec n hrt__tick_isr s p).
Proof.
  intros Hst I Ha. rewrite (exec_tick_isr n held s p) by done.
  destruct (tick_spec_step held s (if (tick_spec s).2 then pend_switch p else p) I Ha) as [Hh K].
  split_and!; [by apply tick_spec_inv|done| |].
  - eapply kstep_trans; [|exact K]. split_and!; [by apply obj_same|by apply live_same|].
    destruct (tick_spec s).2; [apply port_le_pend|done].
  - destruct (tick_spec s).2 eqn:E; [left; by auto with hrt|right; by apply tick_quiet_ready].
Qed.

(** ** The primitives *)

Lemma held_wake held s pl w ws tc :
  sched_inv held s -> qlist (ring_of pl) s = w :: ws -> zget (g_tcbs s) w = Some tc ->
  held_same held s (kwake pl w tc s) /\ live_le s (kwake pl w tc s).
Proof.
  intros I Hw Htc. destruct (inv_head_tcb _ _ _ _ _ I Hw) as (tc' & Htc' & _ & Hno & Hs & _).
  rewrite Htc in Htc'. injection Htc' as <-. split.
  - split; [apply kwake_scalars|]. intros i Hi. rewrite kwake_tcbs by done.
    by rewrite decide_False by congruence.
  - apply live_kwake; [done|]. rewrite Hs. by destruct pl.
Qed.

Lemma safe_isr_give n held s p a m out :
  sched_inv held s -> objects_ok s -> m_sems s !! a = Some m ->
  isr_post held s p (exec n (isr_prog (IGive a out)) s p).
Proof.
  intros I Ho E. pose proof (proj1 Ho a m E) as Hok.
  cbn [isr_prog]. unfold Sem.hrt_sem_give_from_isr. xrun.
  assert (Hr := sem_ring_ok _ _ _ _ I E). destruct (ring_list (sem_waitq m)) as [|w ws] eqn:Hw.
  - erewrite exec_bind by by apply (exec_give_count n held s p a m). xrun.
    destruct (sem_count m <? sem_max_count m) eqn:Hc; btest.
    + split_and!; [by apply inv_set_sem|done| |right; by apply ready_le_tcbs].
      split_and!; [|by apply live_same|port_steps].
      eapply obj_sem; [exact E|by eapply sem_becomes_set|].
      pose proof (asem_give_ok _ Hok) as H. unfold asem_give in H. cbn in H.
      rewrite Hw in H. cbn in H. rewrite Z.min_l in H by lia. unfold sem_abs. cbn. by rewrite Hw.
    + apply isr_skip; [done|port_steps].
  - assert (Hq := sem_qlist a s m E). rewrite Hw in Hq.
    destruct (inv_head_tcb _ _ (PSem a) _ _ I Hq) as (tc & Htc & _).
    erewrite exec_bind by by apply (exec_give_wake n held s p a m true out w ws tc). xrun.
    destruct (held_wake held s (PSem a) w ws tc) as [Hh Hl]; try done.
    split_and!; [by eapply kwake_inv|done| |left; by auto with hrt].
    split_and!; [|done|port_steps]. by eapply obj_sem_wake.
Qed.

Lemma held_pass held s pl :
  sched_inv held s -> held_same held s (kpass pl s) /\ live_le s (kpass pl s) /\
                      sched_inv held (kpass pl s).
Proof.
  intros I. unfold kpass. destruct (qlist (ring_of pl) s) as [|w ws] eqn:Hw.
  { split_and!; [done|by apply live_same|done]. }
  destruct (inv_head_tcb _ _ _ _ _ I Hw) as (tc & Htc & _). rewrite Htc. cbn.
  destruct (held_wake held s pl w ws tc) as [Hh Hl]; try done.
  split_and!; [done|done|by eapply kwake_inv].
Qed.

Lemma kpass_obj pl s : (forall id tc, obj_step s (kwake pl id tc s)) -> obj_step s (kpass pl s).
Proof.
  intros H. unfold kpass. destruct (qlist (ring_of pl) s) as [|w ws]; [by apply obj_same|].
  destruct (zget (g_tcbs s) w); [apply H|by apply obj_same].
Qed.

Lemma queue_set_step a m m' s p :
  m_queues s !! a = Some m -> queue_wf m' -> item_size m' = item_size m ->
  kstep s p (kset_queue a m' s) p.
Proof.
  intros E Hwf Hi. split_and!; [|by apply live_same|done].
  eapply obj_queue; [exact E|apply kset_queue_lookup|done|done| |done|done].
  intros b Hb. by apply lookup_insert_ne.
Qed.

Lemma isr_pass held s p p1 a m m' pl :
  sched_inv held s -> m_queues s !! a = Some m -> queue_wf m' -> item_size m' = item_size m ->
  rx m' = rx m -> tx m' = tx m -> pl = PRx a \/ pl = PTx a -> port_le p p1 ->
  (has_waiter pl s = true -> pending p1) ->
  isr_post held s p (Done tt (kpass pl (kset_queue a m' s)) p1).
Proof.
  intros I E Hwf Hi Hrx Htx Hpl Hp Hpd.
  assert (I1 : sched_inv held (kset_queue a m' s)) by by eapply inv_set_queue.
  destruct (held_pass held _ pl I1) as (Hh & Hl & I2).
  split_and!; [done|done| |].
  - eapply kstep_trans; [by eapply queue_set_step|].
    split_and!; [|done|done]. apply kpass_obj. intros id tc.
    destruct Hpl as [-> | ->]; [apply obj_rx_wake|apply obj_tx_wake].
  - unfold has_waiter in Hpd. rewrite <- (kset_queue_qlist a m m' s pl E Hrx Htx) in Hpd.
    unfold kpass. destruct (qlist (ring_of pl) (kset_queue a m' s)); [right; by apply ready_le_tcbs|left; by apply Hpd].
Qed.

Lemma safe_isr_send n held s p a m item out :
  sched_inv held s -> objects_ok s -> m_queues s !! a = Some m ->
  Z.of_nat (length item) = item_size m ->
  isr_post held s p (exec n (isr_prog (ISend a item out)) s p).
Proof.
  intros I Ho E Hl. pose proof (proj2 (proj2 Ho) a m E) as W. cbn [isr_prog].
  destruct (q_count m <? capacity m) eqn:Hc; btest.
  - erewrite exec_bind by by apply (exec_try_send_isr n held s p a m). xrun.
    eapply isr_pass; [done|exact E|by apply q_enq_spec|done|done|done|by left|..].
    + destruct (has_waiter (PRx a) s); port_steps.
    + intros ->. by auto with hrt.
  - erewrite exec_bind; [apply isr_skip; [done|]|].
    2: { unfold Queue.hrt_queue_try_send_from_isr. xrun.
         erewrite exec_send_cs_full by done. xrun. reflexivity. }
    port_steps.
Qed.

Lemma safe_isr_recv n held s p a m out :
  sched_inv held s -> objects_ok s -> m_queues s !! a = Some m ->
  isr_post held s p (exec n (isr_prog (IRecv a out)) s p).
Proof.
  intros I Ho E. pose proof (proj2 (proj2 Ho) a m E) as W. cbn [isr_prog].
  destruct (0 <? q_count m) eqn:Hc; btest.
  - erewrite exec_bind by by apply (exec_try_recv_isr n held s p a m). xrun.
    eapply isr_pass; [done|exact E|by apply q_deq_wf|done|done|done|by right|..].
    + destruct (has_waiter (PTx a) s); port_steps.
    + intros ->. by auto with hrt.
  - erewrite exec_bind; [apply isr_skip; [done|]|].
    2: { unfold Queue.hrt_queue_try_recv_from_isr. xrun.
         erewrite exec_recv_cs_empty by (done || destruct W; lia). xrun. reflexivity. }
    port_steps.
Qed.

Lemma isr_all_safe n held s p h :
  HARDRT_STALL_ON_ERROR = false -> sched_inv held s -> awake held s -> objects_ok s ->
  isr_pre s h -> isr_post held s p (exec n (isr_prog h) s p).
Proof.
  intros Hst I Ha Ho Hpre. destruct h.
  - apply safe_tick; auto.
  - cbn [isr_prog]. unfold hrt_tick_from_isr, hrt__cfg_tick_src. xrun.
    case_decide; [by apply isr_skip|apply safe_tick; auto].
  - destruct Hpre as [m E]. by eapply safe_isr_give.
  - destruct Hpre as (m & E & Hl). by eapply safe_isr_send.
  - destruct Hpre as [m E]. by eapply safe_isr_recv.
Qed.

(** An interrupt leaves a running task running. *)
Lemma isr_running me s s' :
  running me s -> sched_inv [me] s' -> held_same [me] s s' -> running me s'.
Proof.
  intros R I [Hc Hh]. destruct (run_tcb _ _ R) as (tc & Htc & Hs). split; [done| |].
  - rewrite Hc. apply R.
  - specialize (Hh me (list_elem_of_here _ _)). rewrite Htc in Hh.
    destruct (zget (g_tcbs s') me) as [t|]; [|done]. injection Hh as Hh. exists t. split; congruence.
Qed.

End isr.
