(* ===== verification/PickFacts.v ===== *)
(** * Selection: the code against its reference

    [pick_spec] on the abstract ready queues, and what the concrete queues
    look like after a selection. *)

From stdpp Require Import base tactics numbers list option gmap.
From S2P Require Import Prelude Types Prog Ring Core CoreFacts Inv SchedFacts.
Open Scope Z_scope.
Open Scope prog_scope.

Lemma pick_spec_intro (rd : list (list Z)) i x l :
  rd !! i = Some (x :: l) -> (forall j, (j < i)%nat -> rd !! j = Some []) ->
  pick_spec rd = Some (x, <[i := l]> rd).
Proof.
  revert i. induction rd as [|d rd IH]; intros i Hi Hj; [done|].
  destruct i as [|i]; cbn in Hi.
  - by injection Hi as ->.
  - assert (E := Hj 0%nat ltac:(lia)). injection E as ->. cbn. rewrite (IH i); [done|done|].
    intros j Hlt. apply (Hj (S j)). lia.
Qed.

Lemma pick_spec_none (rd : list (list Z)) :
  (forall j l, rd !! j = Some l -> l = []) -> pick_spec rd = None.
Proof.
  induction rd as [|d rd IH]; intros H; [done|].
  assert (E := H 0%nat d eq_refl). subst d. cbn. rewrite IH; [done|].
  intros j l Hl. by apply (H (S j)).
Qed.

Section pick.
Context `{C : Config} {Cok : ConfigOk C}.
Implicit Types (s : kern).

Lemma first_ready_none s ps pr :
  first_ready s ps = None -> pr ∈ ps -> qlist (rq_ring pr) s = [].
Proof.
  induction ps as [|q ps IH]; [by intros _ ?%not_elem_of_nil|]. cbn [first_ready].
  destruct (qlist (rq_ring q) s) eqn:E; [|done]. intros Hn [->|Hin]%elem_of_cons; auto.
Qed.

(** The first non-empty queue of an interval of priorities. *)
Lemma first_ready_least s a n pr x :
  first_ready s (seqZ a n) = Some (pr, x) ->
  a <= pr < a + n /\ (exists l, qlist (rq_ring pr) s = x :: l) /\
  forall j, a <= j < pr -> qlist (rq_ring j) s = [].
Proof.
  remember (Z.to_nat n) as k eqn:Ek. revert a n Ek.
  induction k as [|k IH]; intros a n Ek; [by rewrite seqZ_nil by lia|].
  rewrite seqZ_cons by lia. cbn [first_ready].
  destruct (qlist (rq_ring a) s) as [|y l] eqn:E.
  - intros (H1 & H2 & H3)%IH; [|lia]. split_and!; [lia|lia|done|].
    intros j Hj. destruct (decide (j = a)) as [->|]; [done|]. apply H3. lia.
  - intros [= <- <-]. split_and!; [lia|lia|by exists l|]. lia.
Qed.

Lemma ready_lpop s pr x l :
  kern_wf s -> 0 <= pr < HARDRT_MAX_PRIO -> ring_ok (rq_ring pr) s ->
  qlist (rq_ring pr) s = x :: l ->
  ready (lpop (rq_ring pr) s) = <[Z.to_nat pr := l]> (ready s).
Proof.
  intros W Hp Hr Hl. destruct (zget_is_Some (g_rq s) pr) as [r E]; [destruct W; lia|].
  pose proof (lpop_spec x l s Hr Hl) as [_ Hq]. revert Hq. unfold ready, lpop, qlist.
  cbn [rget rq_ring rput]. rewrite E. cbn [from_option g_rq set_rq].
  rewrite zget_insert_eq by (destruct W; lia). cbn. intros <-. by rewrite list_fmap_insert.
Qed.

End pick.
