(* ===== verification/System.v ===== *)
(** * The whole system on the POSIX port

    Tasks that make arbitrary calls, the scheduler loop of the port, the
    tick signal and other interrupt handlers, as a transition system. A
    call of a task, a handler and an iteration of the scheduler are single
    steps: handlers are taken between calls. *)

From stdpp Require Import base tactics numbers list option gmap relations.
From S2P Require Import Prelude Types Prog Ring Core Sched Sem Mutex Queue PortPosix.
From S2P Require Import CoreFacts Inv SchedFacts InitFacts SemFacts MutexFacts.
From S2P Require Import QueueFacts Running PosixFacts Api ApiSafe ApiCalls ApiTheorem.
From S2P Require Import IsrSafe PickFacts.
Open Scope Z_scope.
Open Scope prog_scope.
Import Posix.

(** [InMain]: before [hrt_start]. [InTask me old]: task [me] runs its own code; [old] is the signal mask
    the scheduler saved before it switched. [Resume me old k]: task [me]
    was switched to in the middle of a call, of which [k] is left. *)
Inductive mode :=
  | InMain
  | InSched
  | InTask (me : Z) (old : bool)
  | Resume (me : Z) (old : bool) (k : prog api_res)
  | Crashed (h : halt).

Record sys := mkSys {
  s_kern : kern;
  s_port : posix;
  s_mode : mode;
  s_conts : gmap Z (prog api_res)   (** what is left of the calls of switched-out tasks *)
}.

Section system.
Context `{C : Config}.

(** After a call: back in the task, or through the rest of the scheduler's
    iteration to its next one. *)
Definition after_call (me : Z) (old : bool) (conts : gmap Z (prog api_res)) (r : result api_res)
    : sys :=
  match r with
  | Done _ s p => mkSys s p (InTask me old) conts
  | Swapped k s p =>
      match sched_return old s p with
      | Done _ s' p' => mkSys s' p' InSched (<[me := k]> conts)
      | Halted h s' p' => mkSys s' p' (Crashed h) conts
      | Swapped _ s' p' | Spinning s' p' => mkSys s' p' (Crashed HUndef) conts
      end
  | Halted h s p => mkSys s p (Crashed h) conts
  | Spinning s p => mkSys s p (Crashed HStall) conts
  end.

(** A new task has a fresh context: nothing is left of an earlier one. *)
Definition forget_new (c : api) (r : result api_res) (conts : gmap Z (prog api_res))
    : gmap Z (prog api_res) :=
  match c, r with
  | CCreate _ _ _ _ _, Done (id, _) _ _ => delete id conts
  | _, _ => conts
  end.

Definition after_isr (sg : sys) (r : result unit) : sys :=
  match r with
  | Done _ s p => mkSys s p (s_mode sg) (s_conts sg)
  | Halted h s p => mkSys s p (Crashed h) (s_conts sg)
  | Swapped _ s p | Spinning s p => mkSys s p (Crashed HUndef) (s_conts sg)
  end.

Definition resume_mode (id : Z) (old : bool) (conts : gmap Z (prog api_res)) : mode :=
  match conts !! id with Some k => Resume id old k | None => InTask id old end.

(** The signal mask of a task that is switched to is its own. *)
Definition after_iteration (b : bool) (sg : sys) : sys :=
  match sched_iteration (s_kern sg) (s_port sg) with
  | (SRun id old, s, p) =>
      mkSys s (set_blocked b p) (resume_mode id old (s_conts sg)) (delete id (s_conts sg))
  | (SHalt h, s, p) => mkSys s p (Crashed h) (s_conts sg)
  | (_, s, p) => mkSys s p InSched (s_conts sg)
  end.

Definition crashed (sg : sys) : bool := match s_mode sg with Crashed _ => true | _ => false end.

(** [main] creates tasks, and starts the scheduler. *)
Definition after_create (sg : sys) (r : result Z) : sys :=
  match r with
  | Done _ s p => mkSys s p InMain (s_conts sg)
  | Halted h s p => mkSys s p (Crashed h) (s_conts sg)
  | Swapped _ s p | Spinning s p => mkSys s p (Crashed HUndef) (s_conts sg)
  end.

Definition after_start (sg : sys) (r : result unit) : sys :=
  match r with
  | Swapped _ s p => mkSys s p InSched (s_conts sg)
  | Done _ s p => mkSys s p InMain (s_conts sg)
  | Halted h s p => mkSys s p (Crashed h) (s_conts sg)
  | Spinning s p => mkSys s p (Crashed HUndef) (s_conts sg)
  end.

Inductive initial : sys -> Prop :=
  | init_sys cfg s0 p0 s p :
      objects_idle s0 -> objects_ok s0 -> cfg_wf cfg -> posix_ok p0 ->
      exec 0 (hrt_init cfg) s0 p0 = Done 0 s p -> initial (mkSys s p InMain ∅).

Inductive step : sys -> sys -> Prop :=
  | step_create sg fn argp stack n_words attr :
      s_mode sg = InMain -> api_pre (s_kern sg) (CCreate fn argp stack n_words attr) ->
      step sg (after_create sg
        (exec 0 (hrt_create_task fn argp stack n_words attr) (s_kern sg) (s_port sg)))
  | step_start sg :
      s_mode sg = InMain -> step sg (after_start sg (exec 0 hrt_start (s_kern sg) (s_port sg)))
  | step_sched sg b :
      s_mode sg = InSched -> step sg (after_iteration b sg)
  | step_call sg me old c n :
      s_mode sg = InTask me old -> api_pre (s_kern sg) c ->
      step sg (let r := exec (S n) (api_prog c) (s_kern sg) (s_port sg) in
               after_call me old (forget_new c r (s_conts sg)) r)
  | step_resume sg me old k n :
      s_mode sg = Resume me old k ->
      step sg (after_call me old (s_conts sg) (exec (S n) k (s_kern sg) (s_port sg)))
  | step_signal sg :
      crashed sg = false -> sigalrm_blocked (s_port sg) = false ->
      step sg (after_isr sg (_tick_sighandler (s_kern sg) (s_port sg)))
  | step_isr sg h :
      crashed sg = false -> isr_pre (s_kern sg) h ->
      step sg (after_isr sg (exec 0 (isr_prog h) (s_kern sg) (s_port sg))).

(** The tasks that run, and the invariant of the system: while the scheduler
    runs and a task is ready, a switch is requested ([si_work]). *)
Definition mode_ok (m : mode) (s : kern) : Prop :=
  match m with
  | InMain | InSched => sched_inv [] s
  | InTask me _ => running me s
  | Resume me _ k => running me s /\ resumable s k
  | Crashed _ => False
  end.

Record sys_inv (sg : sys) : Prop := {
  si_mode : mode_ok (s_mode sg) (s_kern sg);
  si_obj : objects_ok (s_kern sg);
  si_port : switch_ok (PL := posix_port) (s_kern sg) (s_port sg);
  si_conts : map_Forall (fun _ k => resumable (s_kern sg) k) (s_conts sg);
  si_work : s_mode sg = InSched -> forall i, is_ready (s_kern sg) i ->
    pending (PL := posix_port) (s_port sg)
}.

End system.

Section system_facts.
Context `{C : Config} {Cok : ConfigOk C}.

Lemma shape_pre s s' c :
  shape s' = shape s ->
  match c with CSend _ _ | CRecv _ => api_pre s c -> api_pre s' c | _ => True end.
Proof.
  intros [= _ _ E]. destruct c; try done; cbn.
  - intros (m & Hm & Hl). pose proof (f_equal (lookup a) E) as Ea.
    rewrite !lookup_fmap, Hm in Ea. destruct (m_queues s' !! a) as [m'|]; [|done].
    injection Ea as Ea. exists m'. split; congruence.
  - intros [m Hm]. pose proof (f_equal (lookup a) E) as Ea.
    rewrite !lookup_fmap, Hm in Ea. destruct (m_queues s' !! a); [by eexists|done].
Qed.

Lemma resumable_shape s s' k : shape s' = shape s -> resumable s k -> resumable s' k.
Proof.
  intros E [Hr|[(a & it & -> & Hp)|(a & -> & Hp)]]; [by left| |]; right.
  - left. exists a, it. split; [done|]. by apply (shape_pre s s' (CSend a it) E).
  - right. exists a. split; [done|]. by apply (shape_pre s s' (CRecv a) E).
Qed.

Lemma conts_shape s s' (m : gmap Z (prog api_res)) :
  shape s' = shape s -> map_Forall (fun _ k => resumable s k) m ->
  map_Forall (fun _ k => resumable s' k) m.
Proof. intros E H i k Hk. eapply resumable_shape; [exact E|by eapply H]. Qed.

(** Only the contexts of the port concern [switch_ok]. *)
Lemma switch_ok_ctxs s s' (p p' : posix) :
  switch_ok (PL := posix_port) s p -> live_le s s' -> g_ctxs p' = g_ctxs p ->
  switch_ok (PL := posix_port) s' p'.
Proof.
  intros [Hok Hsw] Hl E. split; [cbn; unfold posix_ok; by rewrite E|].
  intros i Hi. by apply (has_context_ext i p), Hsw, Hl.
Qed.

(** ** The scheduler *)

Lemma parked_entry me s (p : posix) :
  sched_inv [] s -> parked me s -> exec 0 hrt__on_scheduler_entry s p = Done tt s p.
Proof.
  intros I (Hc & tc & Htc & Hs). eapply exec_scheduler_entry_skip.
  - rewrite Hc. by eapply inv_tcb_valid.
  - by rewrite Hc.
  - destruct Hs as [Hs|Hs]; [by left|]. destruct (decide (slice_left tc = 0)); [|by right; left].
    right. right. left. lia.
Qed.

Lemma first_ready_spec s ps pr x :
  first_ready s ps = Some (pr, x) -> pr ∈ ps /\ exists l, qlist (rq_ring pr) s = x :: l.
Proof.
  induction ps as [|q ps IH]; [done|]. cbn [first_ready]. destruct (qlist (rq_ring q) s) as [|y l] eqn:E.
  - intros [Hin Hl]%IH. split; [by apply list_elem_of_further|done].
  - intros [= <- <-]. split; [apply list_elem_of_here|by exists l].
Qed.

(** A ready task is in the queue of its priority: selection finds one. *)
Lemma ready_queued s i tc :
  sched_inv [] s -> zget (g_tcbs s) i = Some tc -> state tc = HRT_READY ->
  i ∈ qlist (rq_ring (prio tc)) s /\ 0 <= prio tc < HARDRT_MAX_PRIO.
Proof.
  intros I Htc Hs. split; [|by eapply (inv_prio _ _ I); [|congruence]].
  destruct (inv_complete _ _ I i tc Htc) as (pl & Hpl & Hq); [apply not_elem_of_nil|by left|].
  destruct (inv_in _ _ I pl i Hq) as (tc' & Htc' & _ & Hpr). rewrite Htc in Htc'. injection Htc' as <-.
  destruct pl as [pr|?|?|?|?]; cbn in Hpl; try congruence. by rewrite (Hpr pr eq_refl).
Qed.

(** A ready task that nobody holds is in that queue only. *)
Lemma ready_queued_out s i tc out :
  sched_inv out s -> i ∉ out -> zget (g_tcbs s) i = Some tc -> state tc = HRT_READY ->
  forall pl, i ∈ qlist (ring_of pl) s <-> pl = PReady (prio tc).
Proof.
  intros I Hno Htc Hs. destruct (inv_complete _ _ I i tc Htc Hno (or_introl Hs)) as (pl0 & Hpl & Hq).
  assert (pl0 = PReady (prio tc)) as ->.
  { destruct (inv_in _ _ I pl0 i Hq) as (t & Ht & _ & Hpr). rewrite Htc in Ht. injection Ht as <-.
    destruct pl0 as [pr|?|?|?|?]; cbn in Hpl; try congruence. by rewrite (Hpr pr eq_refl). }
  intros pl. split; [|by intros ->]. intros Hq'. by eapply (inv_disj _ _ I).
Qed.

Lemma ready_found s i :
  sched_inv [] s -> is_ready s i -> first_ready s (seqZ 0 HARDRT_MAX_PRIO) <> None.
Proof.
  intros I (tc & Htc & Hs) Hn. destruct (ready_queued s i tc I Htc Hs) as [Hq Hp].
  rewrite (first_ready_none _ _ (prio tc) Hn) in Hq; [by apply not_elem_of_nil in Hq|].
  apply elem_of_seqZ. lia.
Qed.

Lemma first_ready_highest s pr x y ty :
  sched_inv [] s -> first_ready s (seqZ 0 HARDRT_MAX_PRIO) = Some (pr, x) ->
  zget (g_tcbs s) y = Some ty -> state ty = HRT_READY ->
  exists tx, zget (g_tcbs s) x = Some tx /\ state tx = HRT_READY /\ prio tx <= prio ty.
Proof.
  intros I Hf Hty Hsy. destruct (ready_queued s y ty I Hty Hsy) as [Hq Hpy].
  apply first_ready_least in Hf as (Hp & [l Hl] & Hlow).
  destruct (inv_in _ _ I (PReady pr) x) as (tx & Htx & Hsx & Hprx).
  { cbn [ring_of]. rewrite Hl. apply list_elem_of_here. }
  exists tx. split_and!; [done|done|]. rewrite (Hprx pr eq_refl).
  destruct (Z.le_gt_cases pr (prio ty)) as [|Hlt]; [done|].
  rewrite Hlow in Hq by lia. by apply not_elem_of_nil in Hq.
Qed.

Lemma exec_pick `{PL : PortLayer} n out s p :
  sched_inv out s ->
  exec n hrt__pick_next_ready s p =
  match first_ready s (seqZ 0 HARDRT_MAX_PRIO) with
  | Some (pr, x) => Done x (lpop (rq_ring pr) s) p
  | None => Done HRT_IDLE_ID s p
  end.
Proof.
  intros I. apply exec_pick_from. intros pr Hpr%elem_of_seqZ. split_and!; [lia|lia| |].
  - eapply inv_rq; [done|lia].
  - by apply (inv_valid _ _ (PReady pr) I).
Qed.

(** Dispatching the task the selection returns. *)
Lemma dispatch_running s pr x l :
  sched_inv [] s -> 0 <= pr < HARDRT_MAX_PRIO -> qlist (rq_ring pr) s = x :: l ->
  running x (set_current x (lpop (rq_ring pr) s)) /\ live s x /\
  live_le s (set_current x (lpop (rq_ring pr) s)).
Proof.
  intros I Hp Hl. destruct (inv_head_tcb _ _ (PReady pr) _ _ I Hl) as (tc & Htc & Hv & _ & Hs & _).
  assert (Ht : g_tcbs (set_current x (lpop (rq_ring pr) s)) = g_tcbs s)
    by exact (lpop_tcbs (PReady pr) s).
  split_and!.
  - split; [|done|exists tc; by rewrite Ht].
    apply inv_set_current, (inv_dequeue [] s (PReady pr) x l); [done|done|by eapply inv_rq].
  - exists tc. split; [done|]. rewrite Hs. done.
  - by apply live_same.
Qed.

Lemma iteration_spec s (p : posix) :
  sched_inv [] s -> switch_ok (PL := posix_port) s p ->
  match sched_iteration s p with
  | (SRun x old, s', p') =>
      exists pr, first_ready s (seqZ 0 HARDRT_MAX_PRIO) = Some (pr, x) /\
        s' = set_current x (lpop (rq_ring pr) s) /\ running x s' /\ live_le s s' /\
        g_ctxs p' = g_ctxs p /\ g_test_stop p' = g_test_stop p
  | (SIdle, s', p') => s' = s /\ g_ctxs p' = g_ctxs p /\
      (g_switch_pending p = true -> first_ready s (seqZ 0 HARDRT_MAX_PRIO) = None)
  | (SStopped, s', p') => s' = s /\ g_ctxs p' = g_ctxs p /\ g_test_stop p = true /\
      g_switch_pending p' = g_switch_pending p
  | (SHalt _, _, _) => False
  end.
Proof.
  intros I [Hok Hsw]. unfold sched_iteration. destruct (g_test_stop p) eqn:Hts; [done|].
  destruct (g_switch_pending p) eqn:Hpd; cbn [negb]; [|done]. cbn [block_sigalrm].
  rewrite (exec_pick 0 [] s) by done.
  destruct (first_ready s (seqZ 0 HARDRT_MAX_PRIO)) as [[pr x]|] eqn:Hf.
  - destruct (first_ready_spec _ _ _ _ Hf) as [Hin [l Hl]]. apply elem_of_seqZ in Hin.
    destruct (dispatch_running s pr x l) as (R & Hlx & Hle); [done|lia|done|].
    destruct (Hsw x Hlx) as (Hx & Hne & _). zbool.
    unfold hrt__set_current. rewrite id_in_range, andb_false_r by by eapply running_valid.
    exists pr. split_and!; try done; lia.
  - rewrite Z.eqb_refl, orb_true_r. done.
Qed.

(** ** Every step keeps the invariant *)

Hypothesis Hstall : HARDRT_STALL_ON_ERROR = false.

Lemma init_live cfg s i : ~ live (init_state cfg s) i.
Proof. intros (tc & ->%init_tcb & Hu). by apply Hu. Qed.

Lemma initial_inv sg : initial sg -> sys_inv sg.
Proof.
  intros [cfg s0 p0 s p Ho Hok Hc Hp E]. rewrite exec_init in E. cbn in E.
  injection E as <- <-. split; cbn.
  - by apply init_inv.
  - assert (objs (init_state cfg s0) = objs s0) as Hob by by destruct cfg.
    exact (proj1 (obj_same _ _ Hob Hok)).
  - split; [|intros i []%init_live]. cbn. unfold posix_ok, posix_start_systick.
    by case_decide.
  - apply map_Forall_empty.
  - done.
Qed.

Lemma create_inv sg fn argp stack n_words attr :
  sys_inv sg -> s_mode sg = InMain -> api_pre (s_kern sg) (CCreate fn argp stack n_words attr) ->
  sys_inv (after_create sg
    (exec 0 (hrt_create_task fn argp stack n_words attr) (s_kern sg) (s_port sg))).
Proof.
  intros [Hm Ho Hsw Hk _] Em [Hp Hidle]. rewrite Em in Hm. cbn in Hm.
  destruct sg as [s p m conts]. cbn in *. subst m. destruct (bwf_kern _ (inv_base _ _ Hm)).
  assert (Herr : forall e, sys_inv (mkSys (set_error e s) p InMain conts)).
  { intros e. split; cbn; [by apply inv_set_error|done..]. }
  destruct (decide (fn = 0 \/ stack = 0 \/ n_words < 64)) as [Hb|Hb].
  { rewrite exec_create_bad by done. apply Herr. }
  destruct (free_slot_cases s) as [[Hf _]|(Hv & _ & _)].
  { rewrite exec_create_full by (done || lia). apply Herr. }
  set (i := free_slot s) in *.
  erewrite (exec_create_ok (PL := posix_port) 0 s p); [|exact Hm|apply Hsw|reflexivity|done|done|lia..].
  assert (Hl := fun j => kcreate_tcbs [] s i fn argp stack n_words attr j Hm Hv).
  destruct (obj_kready i (new_tcb s fn argp stack n_words attr) s Ho) as [Ho' Hsh].
  split; cbn [after_create s_mode s_kern s_port s_conts mode_ok]; [..|done].
  - apply kcreate_inv; try done. by apply not_elem_of_nil.
  - done.
  - destruct Hsw as [Hpo Hsw]. split; [by auto with hrt|].
    intros j (tc & Htc & Hu). rewrite Hl in Htc. case_decide as Hij.
    + subst j. by apply can_switch_new.
    + apply can_switch_prep, Hsw. by exists tc.
  - by eapply conts_shape.
Qed.

Lemma after_call_inv s me old conts r :
  api_outcome (PL := posix_port) me s r -> map_Forall (fun _ k => resumable s k) conts ->
  sys_inv (after_call me old conts r).
Proof.
  intros Hr Hk. destruct r as [v s' p'|k s' p'|h s' p'|s' p']; cbn in Hr; try done; cbn.
  - destruct Hr as [[R O P] E]. split; cbn; try done. by eapply conts_shape.
  - destruct Hr as (I & Hpk & O & P & Hpd & E & Hres). unfold sched_return.
    rewrite (parked_entry me s' p' I Hpk). split; cbn; try done.
    apply map_Forall_insert_2; [by eapply resumable_shape|by eapply conts_shape].
Qed.

Lemma client_of s p me m conts :
  sys_inv (mkSys s p m conts) -> running me s -> client_ok (PL := posix_port) me s p.
Proof. by intros [_ Ho Hsw _ _]. Qed.

Lemma resume_outcome n me s p k :
  client_ok (PL := posix_port) me s p -> resumable s k ->
  api_outcome me s (exec (S n) k s p).
Proof. by apply rest_safe. Qed.

(** An interrupt handler, in any mode. *)
Lemma after_isr_inv sg s' p' :
  sys_inv sg ->
  (forall held, sched_inv held (s_kern sg) -> awake held (s_kern sg) ->
     isr_post (PL := posix_port) held (s_kern sg) (s_port sg) (Done tt s' p')) ->
  sys_inv (mkSys s' p' (s_mode sg) (s_conts sg)).
Proof.
  intros [Hm Ho Hsw Hk Hw] Hp. destruct sg as [s p m conts]. cbn in *.
  assert (Hidle : sched_inv [] s ->
    sched_inv [] s' /\ objects_ok s' /\ switch_ok s' p' /\ shape s' = shape s /\
    (g_switch_pending p = true -> g_switch_pending p' = true) /\
    (g_switch_pending p' = true \/ ready_le s s')).
  { intros I. destruct (Hp [] I) as (I' & _ & (O & L & P) & Hpd).
    { intros i tc Hi. by apply not_elem_of_nil in Hi. }
    destruct (O Ho). split_and!; try done; [by eapply switch_ok_step..|apply P]. }
  assert (Hrun : forall me, running me s ->
    running me s' /\ objects_ok s' /\ switch_ok s' p' /\ shape s' = shape s).
  { intros me R. destruct (Hp [me] (run_inv _ _ R)) as (I' & Hh & (O & L & P) & _).
    { intros i tc Hi Htc. apply list_elem_of_singleton in Hi as ->.
      destruct (running_prio _ _ _ R Htc). congruence. }
    destruct (O Ho). split_and!; try done; [by eapply isr_running|by eapply switch_ok_step..]. }
  destruct m as [| |me old|me old k|h]; cbn in Hm.
  - destruct (Hidle Hm) as (? & ? & ? & ? & _). split; cbn; try done. by eapply conts_shape.
  - destruct (Hidle Hm) as (? & ? & ? & ? & Hmono & Hpd).
    split; cbn; try done; [by eapply conts_shape|]. intros _ i Hi.
    destruct Hpd as [Hpd|Hpd]; [done|]. by eapply Hmono, Hw, Hpd.
  - destruct (Hrun me Hm) as (? & ? & ? & ?). split; cbn; try done. by eapply conts_shape.
  - destruct Hm as [R Hres]. destruct (Hrun me R) as (? & ? & ? & ?).
    split; cbn; [split; [done|by eapply resumable_shape]|done|done|by eapply conts_shape|done].
  - done.
Qed.

(** The tasks the running code holds. *)
Lemma mode_held sg :
  sys_inv sg -> exists held, sched_inv held (s_kern sg) /\ awake held (s_kern sg).
Proof.
  intros [Hm _ _ _ _]. destruct (s_mode sg) as [| |me old|me old k|h]; cbn in Hm; [| | | |done].
  1,2: exists []; split; [done|intros i tc ?%not_elem_of_nil; done].
  1: rename Hm into R. 2: destruct Hm as [R _].
  all: exists [me]; split; [apply R|]; intros i tc ->%list_elem_of_singleton Htc;
    destruct (running_prio _ _ _ R Htc); congruence.
Qed.

Lemma isr_step_inv sg (r : result unit) f :
  sys_inv sg ->
  (forall held, sched_inv held (s_kern sg) -> awake held (s_kern sg) ->
     isr_post (PL := posix_port) held (s_kern sg) (s_port sg) r) ->
  (forall p, g_ctxs (f p) = g_ctxs p) ->
  (forall p, g_switch_pending p = true -> g_switch_pending (f p) = true) ->
  sys_inv (after_isr sg (match r with
    | Done _ s p => Done tt s (f p) | Swapped k s p => Swapped k s p
    | Halted h s p => Halted h s p | Spinning s p => Spinning s p end)).
Proof.
  intros Hi Hp Hf Hfp.
  assert (Hx : exists s' p', r = Done tt s' p').
  { destruct (mode_held sg Hi) as (held & I & Ha).
    specialize (Hp held I Ha). destruct r as [[] s' p'|? ? ?|? ? ?|? ?]; try done. by exists s', p'. }
  destruct Hx as (s' & p' & ->). cbn [after_isr]. apply after_isr_inv; [done|].
  intros held I Ha. destruct (Hp held I Ha) as (I' & Hh & (O & L & P) & Hpd).
  split_and!; try done; [|destruct Hpd as [Hpd|]; [left; by apply Hfp|by right]].
  split_and!; try done. eapply port_le_trans; [exact P|].
  split_and!; [cbn; unfold posix_ok; by rewrite Hf|apply Hfp|]. intros i. apply has_context_ext, Hf.
Qed.

Lemma iteration_inv b sg : sys_inv sg -> s_mode sg = InSched -> sys_inv (after_iteration b sg).
Proof.
  intros [Hm Ho Hsw Hk Hw] Em. rewrite Em in Hm. cbn in Hm. unfold after_iteration.
  pose proof (iteration_spec (s_kern sg) (s_port sg) Hm Hsw) as Hs.
  destruct (sched_iteration (s_kern sg) (s_port sg)) as [[r s'] p'].
  assert (Hobj : forall x pr, s' = set_current x (lpop (rq_ring pr) (s_kern sg)) ->
                              objs s' = objs (s_kern sg)).
  { intros x pr ->. unfold lpop. by destruct (rget _ _). }
  destruct r as [| |x old|h].
  - destruct Hs as (-> & E & _ & Ep). split; cbn; try done.
    + eapply (switch_ok_ctxs (s_kern sg) _ (s_port sg)); [done|by apply live_same|exact E].
    + intros _ i Hi. rewrite Ep. by eapply Hw.
  - destruct Hs as (-> & E & Hn). split; cbn; try done.
    + eapply (switch_ok_ctxs (s_kern sg) _ (s_port sg)); [done|by apply live_same|exact E].
    + intros _ i Hi. destruct (ready_found _ i Hm Hi). by eapply Hn, Hw.
  - destruct Hs as (pr & _ & Es & R & L & E & _).
    destruct (obj_same _ _ (Hobj _ _ Es) Ho) as [Ho' Hsh].
    split; cbn; [|done|eapply (switch_ok_ctxs (s_kern sg) _ (s_port sg)); [done|done|exact E]| |].
    + unfold resume_mode. destruct (s_conts sg !! x) as [k|] eqn:Hx; [|done].
      split; [done|]. eapply resumable_shape; [exact Hsh|by eapply Hk].
    + apply map_Forall_delete. by eapply conts_shape.
    + unfold resume_mode. by destruct (s_conts sg !! x).
  - done.
Qed.

Lemma step_inv sg sg' : sys_inv sg -> step sg sg' -> sys_inv sg'.
Proof.
  intros Hi Hs. destruct Hs as [sg fn argp stack n_words attr Em Hpre|sg Em|sg b Em
    |sg me old c n Em Hpre|sg me old k n Em|sg Hc Hb|sg h Hc Hpre].
  - by apply create_inv.
  - destruct Hi as [Hm Ho Hsw Hk Hw]. rewrite Em in Hm. split; cbn; try done.
  - by apply iteration_inv.
  - destruct sg as [s p m conts]. cbn in *. subst m. pose proof (si_mode _ Hi) as R. cbn in R.
    eapply after_call_inv; [apply api_safe; [done|by eapply client_of|done]|].
    pose proof (si_conts _ Hi) as Hk. cbn in Hk. destruct c; try exact Hk. cbn.
    destruct (exec _ _ _ _) as [[v o] s' p'|? ? ?|? ? ?|? ?]; try done. by apply map_Forall_delete.
  - destruct sg as [s p m conts]. cbn in *. subst m. pose proof (si_mode _ Hi) as [R Hres].
    eapply after_call_inv; [apply resume_outcome; [by eapply client_of|done]|apply Hi].
  - unfold _tick_sighandler. apply (isr_step_inv sg _ (set_pending true)); [done| |done|done].
    intros held I Ha. apply safe_tick; auto.
  - pose proof (isr_step_inv sg (exec 0 (isr_prog h) (s_kern sg) (s_port sg)) id Hi) as H.
    assert (Hp : forall held, sched_inv held (s_kern sg) -> awake held (s_kern sg) ->
      isr_post (PL := posix_port) held (s_kern sg) (s_port sg)
        (exec 0 (isr_prog h) (s_kern sg) (s_port sg))).
    { intros held I Ha. apply isr_all_safe; try done. apply Hi. }
    specialize (H Hp (fun _ => eq_refl) (fun _ h => h)). revert H.
    by destruct (exec (H := posix_port) 0 (isr_prog h) (s_kern sg) (s_port sg)) as [[]| | |].
Qed.

Lemma reachable_inv sg0 sg : initial sg0 -> rtc step sg0 sg -> sys_inv sg.
Proof.
  intros H0 Hr. apply initial_inv in H0. induction Hr as [x|x y z Hxy _ IH]; [done|].
  apply IH. by eapply step_inv.
Qed.

End system_facts.
