(* ===== verification/App.v ===== *)
(** * Applications

    The code of an application: calls into the kernel, output, its own
    variables, and the endless loop of a task. An application runs on the
    POSIX system of System.v: [main] runs up to [hrt_start]; then tasks,
    the scheduler and the tick take turns. *)

From stdpp Require Import base tactics numbers list option gmap relations strings.
From S2P Require Import Prelude Types Prog Ring Core Sched Sem Mutex Queue PortPosix.
From S2P Require Import CoreFacts Inv SchedFacts InitFacts SemFacts MutexFacts.
From S2P Require Import QueueFacts Running PosixFacts Api ApiSafe ApiCalls ApiTheorem.
From S2P Require Import IsrSafe PickFacts System.
Open Scope Z_scope.
Open Scope prog_scope.
Import Posix.

(** ** Output: a call of [puts] or [printf] with its arguments. [fflush]
    adds nothing to the sequence of lines. *)

Inductive parg := AInt (v : Z) | AStr (s : string).
Inductive out := Puts (s : string) | Printf (fmt : string) (args : list parg).

(** ** Code *)

(** [G]: the variables of the application with static storage. *)
Inductive app (G : Type) (A : Type) : Type :=
  | ARet (a : A)
  | ACall (c : prog api_res) (k : api_res -> app G A)
  | AOut (o : out) (k : app G A)
  | AGlob {B : Type} (f : G -> B * G) (k : B -> app G A)
  | AForever {L : Type} (body : L -> app G L) (l : L).

Arguments ARet {G A} a.
Arguments ACall {G A} c k.
Arguments AOut {G A} o k.
Arguments AGlob {G A B} f k.
Arguments AForever {G A L} body l.

Fixpoint abind {G A B} (c : app G A) (f : A -> app G B) {struct c} : app G B :=
  match c with
  | ARet a => f a
  | ACall c k => ACall c (fun r => abind (k r) f)
  | AOut o k => AOut o (abind k f)
  | AGlob g k => AGlob g (fun b => abind (k b) f)
  | AForever body l => AForever body l
  end.

Declare Scope app_scope.
Delimit Scope app_scope with app.
Bind Scope app_scope with app.

Notation "x <- c1 ;; c2" := (abind c1 (fun x => c2))
  (at level 100, c1 at next level, right associativity) : app_scope.
Notation "c1 ;; c2" := (abind c1 (fun _ => c2))
  (at level 100, right associativity) : app_scope.

(** A call of a kernel function that returns an integer, nothing, or an
    integer and received bytes. *)
Definition icall {G} (c : prog Z) : app G Z := ACall (int_call c) (fun r => ARet r.1).
Definition vcall {G} (c : prog unit) : app G unit := ACall (void_call c) (fun _ => ARet tt).
Definition rcall {G} (c : prog api_res) : app G api_res := ACall c ARet.
Definition puts {G} (s : string) : app G unit := AOut (Puts s) (ARet tt).
Definition printf {G} (fmt : string) (args : list parg) : app G unit := AOut (Printf fmt args) (ARet tt).
Definition aget {G A} (f : G -> A) : app G A := AGlob (fun g => (f g, g)) ARet.
Definition aset {G} (f : G -> G) : app G unit := AGlob (fun g => (tt, f g)) ARet.
(** [for (;;) { ... }] without and with local variables. *)
Definition for_ever {G} (body : app G unit) : app G unit := AForever (fun _ : unit => body) tt.
Definition for_ever_with {G L} (l : L) (body : L -> app G L) : app G unit := AForever body l.

(** ** [main]

    [main] runs up to [hrt_start], which does not return; no interrupt is
    taken meanwhile. *)

Inductive main_end `{PortLayer} (G : Type) :=
  | MStarted (s : kern) (p : pstate) (g : G) (o : list out)
  | MReturned (s : kern) (p : pstate) (g : G) (o : list out)
  | MHalted (h : halt) (s : kern) (p : pstate) (g : G) (o : list out).
Arguments MStarted {_ G} s p g o.
Arguments MReturned {_ G} s p g o.
Arguments MHalted {_ G} h s p g o.

Fixpoint run_main `{PortLayer} {G A} (c : app G A) (s : kern) (p : pstate) (g : G) (o : list out)
    : main_end G :=
  match c with
  | ARet _ => MReturned s p g o
  | AOut e k => run_main k s p g (o ++ [e])
  | AGlob f k => let '(b, g') := f g in run_main (k b) s p g' o
  | ACall c k =>
      match exec 1 c s p with
      | Done v s' p' => run_main (k v) s' p' g o
      | Swapped _ s' p' => MStarted s' p' g o
      | Halted h s' p' => MHalted h s' p' g o
      | Spinning s' p' => MHalted HStall s' p' g o
      end
  | AForever _ _ => MHalted HStall s p g o
  end.

(** ** Programs *)

(** A program: the initial values of its variables, its kernel objects in
    zeroed memory, the functions it passes to [hrt_create_task] by address,
    [main] (after the constructors of static objects), and the interrupt
    handlers that can run. *)
Record program := mkProgram {
  p_glob : Type;
  p_init : p_glob;
  p_kern : kern;
  p_code : Z -> Z -> app p_glob unit;
  p_main : app p_glob Z;
  p_isrs : isr -> bool
}.

(** What a task is doing: running its code, or waiting for a call. *)
Inductive tstate (G : Type) :=
  | Running (c : app G unit)
  | Calling (k : api_res -> app G unit).
Arguments Running {G} c.
Arguments Calling {G} k.

Record asys (G : Type) := mkA {
  a_sys : sys;
  a_code : gmap Z (tstate G);
  a_glob : G;
  a_out : list out   (** oldest first *)
}.
Arguments mkA {G} a_sys a_code a_glob a_out.
Arguments a_sys {G} _.
Arguments a_code {G} _.
Arguments a_glob {G} _.
Arguments a_out {G} _.

Section machine.
Context `{C : Config}.

(** The trampoline: the task function, then [hrt_task_delete]. *)
Definition entry_code {G} (code : Z -> Z -> app G unit) (tc : _hrt_tcb_t) : app G unit :=
  (code (entry tc) (arg tc) ;; vcall hrt_task_delete)%app.

(** A step of a task that does not involve the kernel. *)
Definition local_step {G} (c : app G unit) (g : G) : option (app G unit * G * list out) :=
  match c with
  | AOut o k => Some (k, g, [o])
  | AGlob f k => let '(b, g') := f g in Some (k b, g', [])
  | AForever body l => Some (abind (body l) (AForever body), g, [])
  | ARet _ | ACall _ _ => None
  end.

(** Code all of whose calls are in [P]. *)
Fixpoint calls_only {G A} (P : prog api_res -> Prop) (c : app G A) : Prop :=
  match c with
  | ARet _ => True
  | ACall c k => P c /\ forall r, calls_only P (k r)
  | AOut _ k => calls_only P k
  | AGlob _ k => forall b, calls_only P (k b)
  | AForever body _ => forall l, calls_only P (body l)
  end.

Definition tstate_calls {G} (P : prog api_res -> Prop) (t : tstate G) : Prop :=
  match t with Running c => calls_only P c | Calling k => forall r, calls_only P (k r) end.

Lemma calls_only_bind {G A B} P (c : app G A) (f : A -> app G B) :
  calls_only P c -> (forall a, calls_only P (f a)) -> calls_only P (abind c f).
Proof. revert B f. induction c; intros D h; cbn [calls_only abind]; try done; intuition eauto. Qed.

Lemma calls_only_local {G} P (c : app G unit) g c' g' o :
  calls_only P c -> local_step c g = Some (c', g', o) -> calls_only P c'.
Proof.
  destruct c as [a|c k|e k|B f k|L body l]; cbn [calls_only local_step]; try done.
  - by intros H [= <- <- <-].
  - intros H. destruct (f g) as [b g1]. by intros [= <- <- <-].
  - intros H [= <- <- <-]. by apply calls_only_bind.
Qed.

Lemma calls_only_entry {G} P (code : Z -> Z -> app G unit) tc :
  (forall fn argp, calls_only P (code fn argp)) -> P (void_call hrt_task_delete) ->
  calls_only P (entry_code code tc).
Proof. intros H Hd. apply calls_only_bind; [apply H|]. by intros []. Qed.

(** The tasks of [ts] that wait for a call are those of which [cs] holds the
    rest of one. *)
Definition in_calls {G} (cs : gmap Z (prog api_res)) (ts : gmap Z (tstate G)) : Prop :=
  forall i, is_Some (cs !! i) <-> exists k, ts !! i = Some (Calling k).

Lemma in_calls_insert {G} (cs cs' : gmap Z (prog api_res)) (ts : gmap Z (tstate G)) i t :
  in_calls cs ts -> (forall j, j <> i -> cs' !! j = cs !! j) ->
  (is_Some (cs' !! i) <-> exists k, t = Calling k) -> in_calls cs' (<[i := t]> ts).
Proof.
  intros H Hne Hi j. destruct (decide (j = i)) as [->|Hj].
  - rewrite lookup_insert_eq, Hi. split; intros [k Hk]; exists k; congruence.
  - rewrite lookup_insert_ne, Hne by done. apply H.
Qed.

(** What a task does after a call: go on with the result, or wait. *)
Definition after_return {G} (k : api_res -> app G unit) (r : result (H := posix_port) api_res) : tstate G :=
  match r with Done v _ _ => Running (k v) | _ => Calling k end.

Definition with_sys {G} (sg : sys) (x : asys G) : asys G := mkA sg (a_code x) (a_glob x) (a_out x).

(** The scheduler, the tick, and the interrupt handlers of the program. *)
Inductive env_step (isrs : isr -> bool) : sys -> sys -> Prop :=
  | env_sched sg b : s_mode sg = InSched -> env_step isrs sg (after_iteration b sg)
  | env_signal sg :
      crashed sg = false -> sigalrm_blocked (s_port sg) = false ->
      env_step isrs sg (after_isr sg (_tick_sighandler (s_kern sg) (s_port sg)))
  | env_isr sg h :
      crashed sg = false -> isrs h = true -> isr_pre (s_kern sg) h ->
      env_step isrs sg (after_isr sg (exec 0 (isr_prog h) (s_kern sg) (s_port sg))).

Inductive astep (P : program) : asys (p_glob P) -> asys (p_glob P) -> Prop :=
  | a_env x sg' : env_step (p_isrs P) (a_sys x) sg' -> astep P x (with_sys sg' x)
  | a_enter x me old tc :
      s_mode (a_sys x) = InTask me old -> a_code x !! me = None ->
      zget (g_tcbs (s_kern (a_sys x))) me = Some tc ->
      astep P x (mkA (a_sys x) (<[me := Running (entry_code (p_code P) tc)]> (a_code x))
                     (a_glob x) (a_out x))
  | a_local x me old c c' g' o :
      s_mode (a_sys x) = InTask me old -> a_code x !! me = Some (Running c) ->
      local_step c (a_glob x) = Some (c', g', o) ->
      astep P x (mkA (a_sys x) (<[me := Running c']> (a_code x)) g' (a_out x ++ o))
  | a_call x me old c k n :
      s_mode (a_sys x) = InTask me old -> a_code x !! me = Some (Running (ACall c k)) ->
      astep P x (let r := exec (S n) c (s_kern (a_sys x)) (s_port (a_sys x)) in
                 mkA (after_call me old (s_conts (a_sys x)) r)
                     (<[me := after_return k r]> (a_code x)) (a_glob x) (a_out x))
  | a_resume x me old kk k n :
      s_mode (a_sys x) = Resume me old kk -> a_code x !! me = Some (Calling k) ->
      astep P x (let r := exec (S n) kk (s_kern (a_sys x)) (s_port (a_sys x)) in
                 mkA (after_call me old (s_conts (a_sys x)) r)
                     (<[me := after_return k r]> (a_code x)) (a_glob x) (a_out x)).

(** The state in which [main] starts the scheduler of the POSIX port. *)
Definition boot (P : program) : asys (p_glob P) :=
  match run_main (H := posix_port) (p_main P) (p_kern P) posix_boot (p_init P) [] with
  | MStarted s p g o => mkA (mkSys s p InSched ∅) ∅ g o
  | MReturned s p g o => mkA (mkSys s p InMain ∅) ∅ g o
  | MHalted h s p g o => mkA (mkSys s p (Crashed h) ∅) ∅ g o
  end.

(** ** A schedule

    One run of the program: every task runs until it gives up the
    processor; the tick comes when the scheduler has nothing to do. *)

Definition anext (P : program) (x : asys (p_glob P)) : asys (p_glob P) :=
  let sg := a_sys x in
  match s_mode sg with
  | InSched =>
      if g_switch_pending (s_port sg) then with_sys (after_iteration false sg) x
      else if p_isrs P IExtTick
      then with_sys (after_isr sg (exec 0 (isr_prog IExtTick) (s_kern sg) (s_port sg))) x
      else if sigalrm_blocked (s_port sg) then x
      else with_sys (after_isr sg (_tick_sighandler (s_kern sg) (s_port sg))) x
  | InTask me old =>
      match a_code x !! me with
      | None =>
          match zget (g_tcbs (s_kern sg)) me with
          | Some tc => mkA sg (<[me := Running (entry_code (p_code P) tc)]> (a_code x))
                           (a_glob x) (a_out x)
          | None => x
          end
      | Some (Running (ACall c k)) =>
          let r := exec 1 c (s_kern sg) (s_port sg) in
          mkA (after_call me old (s_conts sg) r) (<[me := after_return k r]> (a_code x))
              (a_glob x) (a_out x)
      | Some (Running c) =>
          match local_step c (a_glob x) with
          | Some (c', g', o) => mkA sg (<[me := Running c']> (a_code x)) g' (a_out x ++ o)
          | None => x
          end
      | Some (Calling _) => x
      end
  | Resume me old kk =>
      match a_code x !! me with
      | Some (Calling k) =>
          let r := exec 1 kk (s_kern sg) (s_port sg) in
          mkA (after_call me old (s_conts sg) r) (<[me := after_return k r]> (a_code x))
              (a_glob x) (a_out x)
      | _ => x
      end
  | _ => x
  end.

Fixpoint arun (P : program) (n : nat) (x : asys (p_glob P)) : asys (p_glob P) :=
  match n with O => x | S n' => arun P n' (anext P x) end.

Lemma anext_step P x : rtc (astep P) x (anext P x).
Proof.
  unfold anext. destruct (s_mode (a_sys x)) as [| |me old|me old kk|h] eqn:Em; [done| | | |done].
  - destruct (g_switch_pending _); [by apply rtc_once, a_env, env_sched|].
    assert (Hc : crashed (a_sys x) = false) by (unfold crashed; by rewrite Em).
    destruct (p_isrs P IExtTick) eqn:Hi; [by apply rtc_once, a_env, env_isr|].
    destruct (sigalrm_blocked _) eqn:Hb; [done|]. by apply rtc_once, a_env, env_signal.
  - destruct (a_code x !! me) as [[c|k]|] eqn:Ec; [|done|].
    + destruct c as [a|c k|o k|B f k|L body l]; cbn [local_step].
      * done.
      * by eapply rtc_once, (a_call P x me old c k 0).
      * by eapply rtc_once, a_local.
      * destruct (f (a_glob x)) as [b g'] eqn:Ef.
        eapply rtc_once, a_local; [done|done|]. cbn [local_step]. by rewrite Ef.
      * by eapply rtc_once, a_local.
    + destruct (zget _ me) as [tc|] eqn:Et; [|done]. by eapply rtc_once, a_enter.
  - destruct (a_code x !! me) as [[c|k]|] eqn:Ec; [done| |done].
    by eapply rtc_once, (a_resume P x me old kk k 0).
Qed.

Lemma arun_steps P n x : rtc (astep P) x (arun P n x).
Proof.
  revert x. induction n as [|n IH]; intros x; [done|]. cbn [arun].
  etrans; [apply anext_step|apply IH].
Qed.

End machine.
