(* ===== verification/Frame.v ===== *)
(** * What a program leaves alone

    [keeps_of obs c]: no statement of [c] changes the observation [obs] of
    the kernel state (the mutexes, the items of a queue). It is closed
    under sequencing, and an execution of such a program leaves what is
    observed as it was, over every port that does not touch it. The
    classes say on which parts of the state an observation does not
    depend. *)

From stdpp Require Import base tactics numbers list option gmap.
From S2P Require Import Prelude Types Prog Ring Core Sched Sem Mutex Queue PortPosix.
Open Scope Z_scope.
Open Scope prog_scope.

Definition prim_keeps {X B} (obs : kern -> X) (f : kern -> option (B * kern)) : Prop :=
  forall s b s', f s = Some (b, s') -> obs s' = obs s.

Fixpoint keeps_of {X A} (obs : kern -> X) (c : prog A) : Prop :=
  match c with
  | Ret _ | Halt _ => True
  | Prim f k => prim_keeps obs f /\ forall b, keeps_of obs (k b)
  | Port _ k => keeps_of obs k
  | Loop body k => keeps_of obs body /\ forall b, keeps_of obs (k b)
  end.

(** All the calls of the port that a program contains satisfy [P]. *)
Fixpoint calls_of {A} (P : port_call -> Prop) (c : prog A) : Prop :=
  match c with
  | Ret _ | Halt _ => True
  | Prim f k => forall b, calls_of P (k b)
  | Port pc k => P pc /\ calls_of P k
  | Loop body k => calls_of P body /\ forall b, calls_of P (k b)
  end.

Lemma calls_of_all {A} (P : port_call -> Prop) (c : prog A) : (forall pc, P pc) -> calls_of P c.
Proof. intros H. induction c; cbn; auto. Qed.

(** The fields of a TCB that are written when the task is created, and its
    saved stack pointer, which only the context switch writes. *)
Definition tcb_static (tc : _hrt_tcb_t) :=
  (sp tc, stack_base tc, stack_words tc, entry tc, arg tc, timeslice_cfg tc, prio tc).

(** The scheduler, and the task table apart from those fields; the task table; the semaphores; the contents of the queues; the
    waiters of the queues. *)
Class Frame {X} (obs : kern -> X) : Prop := {
  frame_tcb i tc tc' l s :
    zget (g_tcbs s) i = Some tc -> zset (g_tcbs s) i tc' = Some l ->
    tcb_static tc' = tcb_static tc -> obs (set_tcbs l s) = obs s;
  frame_rq v s : obs (set_rq v s) = obs s;
  frame_current v s : obs (set_current v s) = obs s;
  frame_tick v s : obs (set_tick v s) = obs s;
  frame_policy v s : obs (set_policy v s) = obs s;
  frame_default_slice v s : obs (set_default_slice v s) = obs s;
  frame_error v s : obs (set_error v s) = obs s
}.
Class FrameTcbs {X} (obs : kern -> X) : Prop := frame_tcbs v s : obs (set_tcbs v s) = obs s.
Class FrameSems {X} (obs : kern -> X) : Prop := frame_sems v s : obs (set_sems v s) = obs s.
Class FrameQueues {X} (obs : kern -> X) : Prop := frame_queues v s : obs (set_queues v s) = obs s.

(** The rings an observation does not depend on. *)
Definition elsewhere {X} (obs : kern -> X) (L : ring_at) : Prop :=
  forall r s, obs (rput L r s) = obs s.

Class FrameWaiters {X} (obs : kern -> X) : Prop := {
  frame_rx a : elsewhere obs (rx_ring a);
  frame_tx a : elsewhere obs (tx_ring a)
}.

Create HintDb keeps.
Create HintDb frame.
#[export] Hint Extern 0 (Frame _) => typeclasses eauto : keeps frame.
#[export] Hint Extern 0 (FrameTcbs _) => typeclasses eauto : keeps frame.
#[export] Hint Extern 0 (FrameSems _) => typeclasses eauto : keeps frame.
#[export] Hint Extern 0 (FrameQueues _) => typeclasses eauto : keeps frame.
#[export] Hint Extern 0 (FrameWaiters _) => typeclasses eauto : keeps frame.
#[export] Hint Resolve frame_rq frame_current frame_tick frame_policy frame_default_slice
  frame_error : frame.

(** The kernel state in which an execution stops. *)
Definition final_kern `{PortLayer} {A} (r : result A) : kern :=
  match r with Done _ s _ | Swapped _ s _ | Halted _ s _ | Spinning s _ => s end.

Section rules.
Context {X : Type} {obs : kern -> X}.
Local Abbreviation keeps := (keeps_of obs).

Lemma keeps_bind {A B} (c : prog A) (f : A -> prog B) :
  keeps c -> (forall a, keeps (f a)) -> keeps (bind c f).
Proof.
  revert B f. induction c; cbn; intros B' g Hc Hf; try done.
  - destruct Hc. split; eauto.
  - eauto.
  - destruct Hc. split; eauto.
Qed.

Lemma keeps_gets {A} (f : kern -> A) : keeps (gets f).
Proof. split; [|done]. by intros s b s' [= _ <-]. Qed.

Lemma keeps_reads {A} (f : kern -> option A) : keeps (reads f).
Proof.
  split; [|done]. intros s b s'. destruct (f s); cbn; [|done]. by intros [= _ <-].
Qed.

Lemma keeps_modify f : (forall s, obs (f s) = obs s) -> keeps (modify f).
Proof. intros H. split; [|done]. by intros s b s' [= _ <-]. Qed.

Lemma keeps_writes f :
  (forall s s', f s = Some s' -> obs s' = obs s) -> keeps (writes f).
Proof.
  intros H. split; [|done]. intros s b s'. destruct (f s) eqn:E; cbn; [|done].
  intros [= _ <-]. by apply H.
Qed.

Lemma keeps_call c : keeps (call c).
Proof. done. Qed.

Lemma keeps_if {A} (b : bool) (c d : prog A) : keeps c -> keeps d -> keeps (if b then c else d).
Proof. by destruct b. Qed.

Lemma keeps_decide {A} (P : Prop) {D : Decision P} (c d : prog A) :
  keeps c -> keeps d -> keeps (if decide P then c else d).
Proof. by destruct (decide P). Qed.

Lemma keeps_forever {A} (body : prog (option A)) : keeps body -> keeps (forever body).
Proof. done. Qed.

End rules.

#[export] Hint Resolve keeps_gets keeps_reads keeps_call : keeps.

(** Walk through a program; what is left are its own statements. *)
Ltac keep :=
  repeat first
    [ done
    | progress cbv zeta
    | progress eauto with keeps nocore
    | apply keeps_bind; [|intros]
    | apply keeps_if
    | apply keeps_decide
    | apply keeps_forever
    | apply keeps_modify; intros; solve [auto with frame nocore | reflexivity]
    | match goal with |- context [match ?x with _ => _ end] => destruct x end ].

Section code.
Context `{C : Config} {X : Type} {obs : kern -> X} {F : Frame obs}.
Local Abbreviation keeps := (keeps_of obs).

(** An update of a TCB that leaves those fields alone. *)
Definition same_static (f : _hrt_tcb_t -> _hrt_tcb_t) : Prop :=
  forall tc, tcb_static (f tc) = tcb_static tc.

Lemma tcb_upd_obs t f s s' : same_static f -> tcb_upd t f s = Some s' -> obs s' = obs s.
Proof.
  intros Hf. unfold tcb_upd. destruct t as [i|]; cbn; [|done].
  destruct (zget (g_tcbs s) i) as [tc|] eqn:Hi; cbn; [|done].
  destruct (zset (g_tcbs s) i (f tc)) eqn:Hz; cbn; [|done]. intros [= <-].
  by eapply frame_tcb; [exact Hi|exact Hz|apply Hf..].
Qed.

Lemma keeps_tcb_write t f : same_static f -> keeps (tcb_write t f).
Proof. intros Hf. apply keeps_writes. intros s s'. by apply tcb_upd_obs. Qed.

Lemma keeps_tcb_fill `{FT : FrameTcbs X obs} t f : keeps (tcb_write t f).
Proof.
  apply keeps_writes. intros s s'. unfold tcb_upd. destruct t as [i|]; cbn; [|done].
  destruct (zget (g_tcbs s) i) as [tc|]; cbn; [|done].
  destruct (zset (g_tcbs s) i (f tc)); cbn; [|done]. intros [= <-]. apply frame_tcbs.
Qed.

Lemma keeps_tcb_read {A} t (f : _hrt_tcb_t -> A) : keeps (tcb_read t f).
Proof. apply keeps_reads. Qed.

Lemma keeps_error e : keeps (hrt_error e).
Proof. unfold hrt_error. keep. Qed.

Hint Extern 0 (same_static _) => (intros ?; reflexivity) : keeps.
Hint Resolve keeps_tcb_write keeps_tcb_read keeps_error : keeps.

Lemma keeps_ring_upd L f : elsewhere obs L -> keeps (ring_upd L f).
Proof.
  intros H. apply keeps_writes. intros s s'. destruct (rget L s) as [r|]; cbn; [|done].
  destruct (f r); cbn; [|done]. intros [= <-]. apply H.
Qed.

Lemma elsewhere_rq p : elsewhere obs (rq_ring p).
Proof. intros r s. apply frame_rq. Qed.
Lemma elsewhere_sem `{FS : FrameSems X obs} a : elsewhere obs (sem_ring a).
Proof. intros r s. apply frame_sems. Qed.
Lemma elsewhere_rx `{FW : FrameWaiters X obs} a : elsewhere obs (rx_ring a).
Proof. apply frame_rx. Qed.
Lemma elsewhere_tx `{FW : FrameWaiters X obs} a : elsewhere obs (tx_ring a).
Proof. apply frame_tx. Qed.

Lemma keeps_ring_store L id : elsewhere obs L -> keeps (ring_store L id).
Proof. apply keeps_ring_upd. Qed.
Lemma keeps_ring_tail L : elsewhere obs L -> keeps (ring_advance_tail L).
Proof. apply keeps_ring_upd. Qed.
Lemma keeps_ring_inc L : elsewhere obs L -> keeps (ring_inc_count L).
Proof. apply keeps_ring_upd. Qed.
Lemma keeps_ring_head L : elsewhere obs L -> keeps (ring_advance_head L).
Proof. apply keeps_ring_upd. Qed.
Lemma keeps_ring_dec L : elsewhere obs L -> keeps (ring_dec_count L).
Proof. apply keeps_ring_upd. Qed.
Lemma keeps_ring_count L : keeps (ring_count L).
Proof. apply keeps_reads. Qed.
Lemma keeps_ring_read L : keeps (ring_read_head L).
Proof. apply keeps_reads. Qed.

Hint Resolve elsewhere_rq elsewhere_sem elsewhere_rx elsewhere_tx keeps_ring_store keeps_ring_tail
  keeps_ring_inc keeps_ring_head keeps_ring_dec keeps_ring_count keeps_ring_read : keeps.

(** ** The core and the tick *)

Lemma keeps_rq_push p id : keeps (rq_push p id).
Proof. unfold rq_push. keep. Qed.
Lemma keeps_rq_pop p : keeps (rq_pop p).
Proof. unfold rq_pop. keep. Qed.

Hint Resolve keeps_rq_push keeps_rq_pop : keeps.

Lemma keeps_yield : keeps hrt_yield.
Proof. unfold hrt_yield. keep. Qed.
Lemma keeps_make_ready id : keeps (hrt__make_ready id).
Proof. unfold hrt__make_ready. keep. Qed.
Lemma keeps_sleep ms : keeps (hrt_sleep ms).
Proof.
  unfold hrt_sleep. keep. apply keeps_writes. intros s s'. by apply tcb_upd_obs.
Qed.
Lemma keeps_delete : keeps hrt_task_delete.
Proof. unfold hrt_task_delete, hrt__get_current. keep. Qed.

Lemma keeps_find_unused ids : keeps (find_unused ids).
Proof. induction ids as [|i ids IH]; [done|]. cbn [find_unused]. keep. Qed.

Lemma keeps_pick ps : keeps (pick_from ps).
Proof. induction ps as [|i ids IH]; [done|]. cbn [pick_from]. keep. Qed.

Lemma keeps_scheduler_entry : keeps hrt__on_scheduler_entry.
Proof. unfold hrt__on_scheduler_entry. keep. Qed.

Hint Resolve keeps_yield keeps_make_ready keeps_sleep keeps_delete keeps_find_unused keeps_pick : keeps.

Lemma keeps_create `{FT : FrameTcbs X obs} fn argp stack n attr :
  keeps (hrt_create_task fn argp stack n attr).
Proof. unfold hrt_create_task. keep; apply keeps_tcb_fill. Qed.

Lemma keeps_wake_sleepers ids trig : keeps (wake_sleepers ids trig).
Proof.
  revert trig. induction ids as [|i ids IH]; intros trig; [done|]. cbn [wake_sleepers].
  unfold hrt_tick_now. keep.
Qed.

Lemma keeps_account trig : keeps (account_slice trig).
Proof. unfold account_slice, hrt__get_current, hrt__policy. keep. Qed.

Hint Resolve keeps_wake_sleepers keeps_account : keeps.

Lemma keeps_tick : keeps hrt__tick_isr.
Proof. unfold hrt__tick_isr, hrt__inc_tick. keep. Qed.

Hint Resolve keeps_tick : keeps.

Lemma keeps_ext_tick : keeps hrt_tick_from_isr.
Proof. unfold hrt_tick_from_isr, hrt__cfg_tick_src. keep. Qed.

(** ** Semaphores and queues *)

Context {FS : FrameSems obs} {FW : FrameWaiters obs}.

Lemma keeps_sem_write a f : keeps (Sem.sem_write a f).
Proof.
  apply keeps_writes. intros s s'. unfold Sem.sem_upd. destruct (m_sems s !! a); cbn; [|done].
  intros [= <-]. apply frame_sems.
Qed.
Lemma keeps_sem_read {A} a (f : hrt_sem_t -> A) : keeps (Sem.sem_read a f).
Proof. apply keeps_reads. Qed.

Lemma keeps_queue_write `{FQ : FrameQueues X obs} a f : keeps (Queue.queue_write a f).
Proof.
  apply keeps_writes. intros s s'. unfold Queue.queue_upd. destruct (m_queues s !! a) as [m|]; cbn; [|done].
  destruct (f m); cbn; [|done]. intros [= <-]. apply frame_queues.
Qed.
Lemma keeps_queue_read {A} a (f : hrt_queue_t -> A) : keeps (Queue.queue_read a f).
Proof. apply keeps_reads. Qed.

Hint Resolve keeps_sem_write keeps_sem_read keeps_queue_read : keeps.

Lemma keeps_sem_push a id : keeps (Sem._waitq_push a id).
Proof. unfold Sem._waitq_push. keep. Qed.
Lemma keeps_sem_pop a : keeps (Sem._waitq_pop a).
Proof. unfold Sem._waitq_pop. keep. Qed.
Lemma keeps_wq_push L id : elsewhere obs L -> keeps (Queue._wq_push L id).
Proof. intros H. unfold Queue._wq_push. keep. Qed.
Lemma keeps_wq_pop L : elsewhere obs L -> keeps (Queue._wq_pop L).
Proof. intros H. unfold Queue._wq_pop. keep. Qed.

Hint Resolve keeps_sem_push keeps_sem_pop keeps_wq_push keeps_wq_pop : keeps.

Lemma keeps_try_take a : keeps (Sem.hrt_sem_try_take a).
Proof. unfold Sem.hrt_sem_try_take. keep. Qed.
Lemma keeps_give a isr out : keeps (Sem._give_common a isr out).
Proof. unfold Sem._give_common. keep. Qed.

Hint Resolve keeps_try_take keeps_give : keeps.

Lemma keeps_take a : keeps (Sem.hrt_sem_take a).
Proof. unfold Sem.hrt_sem_take, hrt__get_current. keep. Qed.

Lemma keeps_wake_one L : elsewhere obs L -> keeps (Queue.wake_one L).
Proof. intros H. unfold Queue.wake_one. keep. Qed.
Context {FQ : FrameQueues obs}.
Hint Resolve keeps_queue_write : keeps.

Lemma keeps_enqueue a item : keeps (Queue._enqueue_cs a item).
Proof. unfold Queue._enqueue_cs. keep. Qed.
Lemma keeps_dequeue a : keeps (Queue._dequeue_cs a).
Proof. unfold Queue._dequeue_cs. keep. Qed.

Hint Resolve keeps_wake_one keeps_enqueue keeps_dequeue : keeps.

Lemma keeps_try_send a item : keeps (Queue.hrt_queue_try_send a item).
Proof. unfold Queue.hrt_queue_try_send. keep. Qed.
Lemma keeps_try_recv a : keeps (Queue.hrt_queue_try_recv a).
Proof. unfold Queue.hrt_queue_try_recv. keep. Qed.

Hint Resolve keeps_try_send keeps_try_recv : keeps.

Lemma keeps_send a item : keeps (Queue.hrt_queue_send a item).
Proof. unfold Queue.hrt_queue_send, Queue.send_body, hrt__get_current. keep. Qed.
Lemma keeps_recv a : keeps (Queue.hrt_queue_recv a).
Proof. unfold Queue.hrt_queue_recv, Queue.recv_body, hrt__get_current. keep. Qed.
Lemma keeps_send_isr a item out : keeps (Queue.hrt_queue_try_send_from_isr a item out).
Proof. unfold Queue.hrt_queue_try_send_from_isr. keep. Qed.
Lemma keeps_recv_isr a out : keeps (Queue.hrt_queue_try_recv_from_isr a out).
Proof. unfold Queue.hrt_queue_try_recv_from_isr. keep. Qed.

End code.

#[export] Hint Resolve keeps_error keeps_yield keeps_sleep keeps_delete keeps_create keeps_pick
  keeps_scheduler_entry keeps_tick keeps_ext_tick keeps_take keeps_try_take keeps_give keeps_send
  keeps_recv keeps_try_send keeps_try_recv keeps_send_isr keeps_recv_isr keeps_queue_read : keeps.

(** ** Execution *)

Section exec.
Context `{C : Config} {PL : PortLayer}.

(** A call of the port that does not touch the kernel state. *)
Definition quiet_call (c : port_call) : Prop :=
  forall s p, match port_do c s p with PCont s' _ | PSwap s' _ | PStop _ s' _ => s' = s end.

Context {X : Type} {obs : kern -> X}.

Lemma iter_keeps {A B} n (run : kern -> pstate -> result (option B))
    (leave : B -> kern -> pstate -> result A) again s p :
  (forall s p, obs (final_kern (run s p)) = obs s) ->
  (forall b s p, obs (final_kern (leave b s p)) = obs s) ->
  obs (final_kern (iter_loop n run leave again s p)) = obs s.
Proof.
  intros Hr Hl. revert s p. induction n as [|n IH]; intros s p; [done|]. cbn [iter_loop].
  specialize (Hr s p). destruct (run s p) as [[b|] s1 p1|k s1 p1|h s1 p1|s1 p1]; cbn in Hr |- *; try done.
  - by rewrite Hl.
  - by rewrite IH.
Qed.

Lemma exec_keeps_on {A} n (c : prog A) s p :
  calls_of quiet_call c -> keeps_of obs c -> obs (final_kern (exec n c s p)) = obs s.
Proof.
  revert s p. induction c as [A a|A h|A B f k IH|A pc k IH|A B body IHb k IHk]; intros s p;
    cbn [exec keeps_of calls_of].
  - done.
  - done.
  - intros Hq [Hf Hk]. destruct (f s) as [[b s1]|] eqn:E; [|done]. rewrite IH by done. by eapply Hf.
  - intros [Hq Hc] Hk. specialize (Hq s p).
    destruct (port_do pc s p) as [s1 p1|s1 p1|h s1 p1]; cbn; subst; [by rewrite IH|done|done].
  - intros [Hqb Hqk] [Hb Hk]. apply iter_keeps; [intros; by apply IHb|intros; by apply IHk].
Qed.

(** A port all of whose calls are of that kind. *)
Class QuietPort : Prop := port_quiet : forall c, quiet_call c.

Context {QP : QuietPort}.

Lemma exec_keeps {A} n (c : prog A) s p :
  keeps_of obs c -> obs (final_kern (exec n c s p)) = obs s.
Proof. apply exec_keeps_on, calls_of_all, port_quiet. Qed.

End exec.

#[export] Instance posix_quiet `{Config} : QuietPort (PL := Posix.posix_port).
Proof.
  intros [] s p; cbn; try done.
  - unfold Posix.posix_yield. destruct (_ || _); [done|].
    destruct (zget (Posix.g_ctxs p) (g_current s)) as [c|]; [|done]. by destruct (Posix.valid c).
  - unfold Posix.posix_prepare. by destruct (zset _ _ _).
Qed.

(** ** The observations *)

#[export] Instance mutexes_frame : Frame m_mutexes.
Proof. done. Qed.
#[export] Instance mutexes_frame_tcbs : FrameTcbs m_mutexes.
Proof. done. Qed.
#[export] Instance mutexes_frame_sems : FrameSems m_mutexes.
Proof. done. Qed.
#[export] Instance mutexes_frame_queues : FrameQueues m_mutexes.
Proof. done. Qed.
#[export] Instance mutexes_frame_waiters : FrameWaiters m_mutexes.
Proof. done. Qed.

(** The unchanging fields of every slot of the task table. *)
Definition statics (s : kern) := tcb_static <$> g_tcbs s.

#[export] Instance statics_frame : Frame statics.
Proof.
  split; try done. intros i tc tc' l s Hg Hz Hs. unfold statics, set_tcbs. cbn [g_tcbs].
  pose proof (zget_Some _ _ _ Hg) as Hr. rewrite zset_Some in Hz by done. injection Hz as <-.
  rewrite list_fmap_insert, Hs. apply list_insert_id. rewrite list_lookup_fmap.
  unfold zget in Hg. destruct (i <? 0); [done|]. by rewrite Hg.
Qed.
#[export] Instance statics_frame_sems : FrameSems statics.
Proof. done. Qed.
#[export] Instance statics_frame_queues : FrameQueues statics.
Proof. done. Qed.
#[export] Instance statics_frame_waiters : FrameWaiters statics.
Proof. done. Qed.

Lemma statics_lookup s s' i :
  statics s' = statics s ->
  tcb_static <$> zget (g_tcbs s') i = tcb_static <$> zget (g_tcbs s) i.
Proof.
  unfold statics, zget. intros E. destruct (i <? 0); [done|].
  by rewrite <- !list_lookup_fmap, E.
Qed.
