(* ===== verification/AppFacts.v ===== *)
(** * Applications are safe

    If the calls of an application respect the preconditions of the API,
    every step of the application is a step of the system, and the
    invariant of the system holds in every reachable state. *)

From stdpp Require Import base tactics numbers list option gmap relations strings.
From S2P Require Import Prelude Types Prog Ring Core Sched Sem Mutex Queue PortPosix.
From S2P Require Import CoreFacts Inv SchedFacts InitFacts SemFacts MutexFacts.
From S2P Require Import QueueFacts Running PosixFacts Api ApiSafe ApiCalls ApiTheorem.
From S2P Require Import IsrSafe PickFacts System App Frame.
Open Scope Z_scope.
Open Scope prog_scope.
Import Posix.

(** A call of the API other than a creation, with its precondition. *)
Definition call_ok `{C : Config} (s : kern) (c : prog api_res) : Prop :=
  exists a, c = api_prog a /\ creates a = false /\ api_pre s a.

(** Every call that the code can make is one. *)
Abbreviation code_ok s := (calls_only (call_ok s)).
Abbreviation tstate_ok s := (tstate_calls (call_ok s)).

Section facts.
Context `{C : Config} {Cok : ConfigOk C}.

(** The preconditions only depend on which objects there are. *)
Lemma lookup_shape {A B} (f : A -> B) (m m' : gmap Z A) a x :
  f <$> m' = f <$> m -> m !! a = Some x -> exists x', m' !! a = Some x' /\ f x' = f x.
Proof.
  intros E Hx. pose proof (f_equal (lookup a) E) as Ea. rewrite !lookup_fmap, Hx in Ea.
  destruct (m' !! a) as [x'|]; [|done]. injection Ea as Ea. by exists x'.
Qed.

Lemma pre_shape s s' a : shape s' = shape s -> creates a = false -> api_pre s a -> api_pre s' a.
Proof.
  intros [= E1 E2 E3] Hc. destruct a; cbn [api_pre]; try done.
  1-3: intros [x Hx]; destruct (lookup_shape _ _ _ _ _ E1 Hx) as (x' & -> & _); by eexists.
  1-3: intros [x Hx]; destruct (lookup_shape _ _ _ _ _ E2 Hx) as (x' & -> & _); by eexists.
  1-2: intros (x & Hx & Hl); destruct (lookup_shape _ _ _ _ _ E3 Hx) as (x' & -> & Hi);
    exists x'; split; congruence.
  1-3: intros [x Hx]; destruct (lookup_shape _ _ _ _ _ E3 Hx) as (x' & -> & _); by eexists.
Qed.

Lemma call_ok_shape s s' c : shape s' = shape s -> call_ok s c -> call_ok s' c.
Proof. intros E (a & -> & Hc & Hp). exists a. split_and!; [done|done|by eapply pre_shape]. Qed.

Definition final_of (r : result (H := posix_port) unit) : kern :=
  match r with Done _ s _ | Swapped _ s _ | Halted _ s _ | Spinning s _ => s end.

(** ** The invariant *)

(** [s0]: the kernel state after [main]. A task that was switched out in a
    call is waiting for it. *)
Record ainv (P : program) (s0 : kern) (x : asys (p_glob P)) : Prop := {
  ai_sys : sys_inv (a_sys x);
  ai_shape : shape (s_kern (a_sys x)) = shape s0;
  ai_code : map_Forall (fun _ t => tstate_ok s0 t) (a_code x);
}.

Lemma after_return_ok {G} s (k : api_res -> app G unit) r :
  (forall v, code_ok s (k v)) -> tstate_ok s (after_return k r).
Proof. destruct r; cbn; auto. Qed.

Lemma forget_none a r (m : gmap Z (prog api_res)) : creates a = false -> forget_new a r m = m.
Proof. by destruct a. Qed.

Hypothesis Hstall : HARDRT_STALL_ON_ERROR = false.

(** The shape of the kernel's objects along the steps of the system. *)
Lemma shape_iteration sg b :
  sys_inv sg -> s_mode sg = InSched ->
  shape (s_kern (after_iteration b sg)) = shape (s_kern sg).
Proof.
  intros Hi Em. pose proof (si_mode _ Hi) as Hm. rewrite Em in Hm.
  unfold after_iteration. pose proof (iteration_spec _ _ Hm (si_port _ Hi)) as Hs.
  destruct (sched_iteration (s_kern sg) (s_port sg)) as [[r s'] p'].
  destruct r as [| |x old|h]; [by destruct Hs as [-> _]..| |done].
  destruct Hs as (pr & _ & -> & _). cbn [s_kern]. unfold lpop. by destruct (rget _ _).
Qed.

Lemma shape_after_call me old conts s r :
  api_outcome (PL := posix_port) me s r -> shape (s_kern (after_call me old conts r)) = shape s.
Proof.
  destruct r as [v s' p'|k s' p'|h s' p'|s' p']; cbn; try done; [by intros [_ ->]|].
  intros (I & Hpk & _ & _ & _ & <- & _). unfold sched_return.
  by rewrite (parked_entry me s' p') by done.
Qed.

Lemma client_mode sg me :
  sys_inv sg -> running me (s_kern sg) -> client_ok (PL := posix_port) me (s_kern sg) (s_port sg).
Proof. intros [_ Ho Hp _ _] R. by split. Qed.

Lemma isr_shape sg h :
  sys_inv sg -> isr_pre (s_kern sg) h ->
  shape (final_of (exec (H := posix_port) 0 (isr_prog h) (s_kern sg) (s_port sg))) = shape (s_kern sg).
Proof.
  intros Hi Hpre. destruct (mode_held sg Hi) as (held & I & Ha).
  pose proof (isr_all_safe (PL := posix_port) 0 held (s_kern sg) (s_port sg) h Hstall I Ha (si_obj _ Hi) Hpre) as H.
  destruct (exec (H := posix_port) 0 (isr_prog h) (s_kern sg) (s_port sg)); cbn in H |- *; try done.
  destruct H as (_ & _ & (O & _ & _) & _). by apply O, Hi.
Qed.

Lemma env_step_step isrs sg sg' : env_step isrs sg sg' -> step sg sg'.
Proof. intros []; by constructor. Qed.

Lemma env_shape isrs sg sg' :
  sys_inv sg -> env_step isrs sg sg' -> shape (s_kern sg') = shape (s_kern sg).
Proof.
  intros Hi He. destruct He as [sg b Em|sg Hc Hb|sg h Hc Hh Hpre]; [by apply shape_iteration| |].
  - pose proof (isr_shape sg ITick Hi Logic.I) as Hs. cbn [isr_prog] in Hs.
    unfold after_isr, _tick_sighandler.
    by destruct (exec (H := posix_port) 0 hrt__tick_isr (s_kern sg) (s_port sg)).
  - pose proof (isr_shape sg h Hi Hpre) as Hs. unfold after_isr.
    by destruct (exec (H := posix_port) 0 (isr_prog h) (s_kern sg) (s_port sg)).
Qed.

(** The outcome of a call and of a resumption. *)
Lemma call_outcome sg me old c n :
  sys_inv sg -> s_mode sg = InTask me old -> call_ok (s_kern sg) c ->
  api_outcome (PL := posix_port) me (s_kern sg) (exec (S n) c (s_kern sg) (s_port sg)) /\
  step sg (after_call me old (s_conts sg) (exec (S n) c (s_kern sg) (s_port sg))).
Proof.
  intros Hi Em (a & -> & Hc & Hpre). pose proof (si_mode _ Hi) as R. rewrite Em in R.
  split; [apply api_safe; [done|by apply client_mode|done]|].
  pose proof (step_call sg me old a n Em Hpre) as Hs. cbv zeta in Hs. by rewrite forget_none in Hs.
Qed.

Lemma resumed_outcome sg me old k n :
  sys_inv sg -> s_mode sg = Resume me old k ->
  api_outcome (PL := posix_port) me (s_kern sg) (exec (S n) k (s_kern sg) (s_port sg)).
Proof.
  intros Hi Em. pose proof (si_mode _ Hi) as R. rewrite Em in R. destruct R as [R Hk].
  apply resume_outcome; [done|by apply client_mode|done].
Qed.

(** ** Every step keeps it *)

Context (P : program) (s0 : kern).
Hypothesis Hcode : forall fn argp, code_ok s0 (p_code P fn argp).

Lemma ainv_step x y : ainv P s0 x -> astep P x y -> ainv P s0 y.
Proof.
  intros [Hi Hsh Hc] Hs. destruct Hs as [x sg' He|x me old tc Em Ec Ht|x me old c c' g' o Em Ec Hl
    |x me old c k n Em Ec|x me old kk k n Em Ec].
  - split; cbn; [by eapply step_inv, env_step_step|by rewrite (env_shape _ _ _ Hi He)|done].
  - split; cbn; [done|done|]. apply map_Forall_insert_2; [|done]. cbn.
    apply calls_only_entry; [apply Hcode|]. by exists CDelete.
  - split; cbn; [done|done|]. apply map_Forall_insert_2; [|done]. cbn.
    eapply calls_only_local; [|done]. exact (Hc me _ Ec).
  - destruct (Hc me _ Ec) as [Hok Hk].
    destruct (call_outcome (a_sys x) me old c n Hi Em) as [Ho Hst];
      [by eapply call_ok_shape|]. split; cbn.
    + by eapply step_inv.
    + by rewrite (shape_after_call _ _ _ _ _ Ho).
    + apply map_Forall_insert_2; [by apply after_return_ok|done].
  - pose proof (resumed_outcome (a_sys x) me old kk n Hi Em) as Ho. split; cbn.
    + eapply step_inv; [done|exact Hi|]. by apply step_resume.
    + by rewrite (shape_after_call _ _ _ _ _ Ho).
    + apply map_Forall_insert_2; [|done]. apply after_return_ok. exact (Hc me _ Ec).
Qed.

Lemma ainv_reach x y : ainv P s0 x -> rtc (astep P) x y -> ainv P s0 y.
Proof. intros Hi Hr. induction Hr; [done|]. eauto using ainv_step. Qed.

Lemma ainv_running x : ainv P s0 x -> crashed (a_sys x) = false.
Proof.
  intros [Hi _ _]. pose proof (si_mode _ Hi) as Hm. unfold crashed.
  by destruct (s_mode (a_sys x)).
Qed.

End facts.

(** ** What the steps of the system leave alone

    Observations of the kernel state that the scheduler, the tick and the
    return to the scheduler do not change. *)

Section sys_frame.
Context `{C : Config} {X : Type} {obs : kern -> X} {F : Frame obs}.

Abbreviation posix_exec := (exec (H := posix_port)).

Lemma exec_obs {A} n (c : prog A) s p :
  keeps_of obs c -> obs (final_kern (posix_exec n c s p)) = obs s.
Proof. apply (exec_keeps (PL := posix_port)). Qed.

Lemma after_call_obs me old conts r :
  obs (s_kern (after_call me old conts r)) = obs (final_kern r).
Proof.
  destruct r as [v s p|k s p|h s p|s p]; try done. cbn [after_call final_kern].
  pose proof (exec_obs 0 hrt__on_scheduler_entry s p keeps_scheduler_entry) as H.
  unfold sched_return. by destruct (posix_exec 0 hrt__on_scheduler_entry s p).
Qed.

Lemma iteration_obs sg b : obs (s_kern (after_iteration b sg)) = obs (s_kern sg).
Proof.
  unfold after_iteration, sched_iteration. destruct (g_test_stop (s_port sg)); [done|].
  destruct (negb (g_switch_pending (s_port sg))); [done|]. cbn [block_sigalrm].
  match goal with |- context [posix_exec 0 hrt__pick_next_ready ?s ?p] =>
    pose proof (exec_obs 0 hrt__pick_next_ready s p (keeps_pick _)) as H;
    destruct (posix_exec 0 hrt__pick_next_ready s p) as [x s1 p1|k s1 p1|h s1 p1|s1 p1];
      cbn in H |- *; try done
  end.
  destruct ((x <? 0) || (x =? HRT_IDLE_ID)); [done|].
  pose proof (exec_obs 0 (hrt__set_current x) s1 p1 ltac:(unfold hrt__set_current; by keep)) as H1.
  destruct (posix_exec 0 (hrt__set_current x) s1 p1); cbn in H1 |- *; congruence.
Qed.

Lemma isr_obs sg h :
  keeps_of obs (isr_prog h) ->
  obs (s_kern (after_isr sg (posix_exec 0 (isr_prog h) (s_kern sg) (s_port sg)))) = obs (s_kern sg).
Proof.
  intros Hk. pose proof (exec_obs 0 (isr_prog h) (s_kern sg) (s_port sg) Hk) as H.
  unfold after_isr. destruct (posix_exec 0 (isr_prog h) _ _); cbn in *; congruence.
Qed.

Lemma signal_obs sg :
  obs (s_kern (after_isr sg (_tick_sighandler (s_kern sg) (s_port sg)))) = obs (s_kern sg).
Proof.
  pose proof (exec_obs 0 hrt__tick_isr (s_kern sg) (s_port sg) keeps_tick) as H.
  unfold after_isr, _tick_sighandler. destruct (posix_exec 0 hrt__tick_isr _ _); cbn in *; congruence.
Qed.

Lemma env_obs isrs sg sg' :
  (forall h, isrs h = true -> keeps_of obs (isr_prog h)) -> env_step isrs sg sg' ->
  obs (s_kern sg') = obs (s_kern sg).
Proof.
  intros Hk He. destruct He; [apply iteration_obs|apply signal_obs|by apply isr_obs, Hk].
Qed.

End sys_frame.
