(* ===== verification/Examples.v ===== *)
(** * The POSIX example applications (examples/)

    One module per C program: its tasks, its [main] and the program they
    make. The addresses of functions, stacks and objects are the linker's:
    what matters is that they are not null, and distinct. *)

From stdpp Require Import base tactics numbers list option gmap relations strings.
From S2P Require Import Prelude Types Prog Ring Core Sched Sem Mutex Queue Info Cpp PortPosix.
From S2P Require Import IsrSafe Api System App.
Open Scope Z_scope.
Open Scope app_scope.

(** ** Addresses, and objects in zeroed memory *)

Definition FN1 : Z := 4096.
Definition FN2 : Z := 4352.
Definition STACK1 : Z := 65536.
Definition STACK2 : Z := 131072.
Definition OBJ : Z := 8192.

Definition code_table {G} (f1 f2 : app G unit) (fn argp : Z) : app G unit :=
  if fn =? FN1 then f1 else if fn =? FN2 then f2 else ARet tt.

Definition no_isr (h : isr) : bool := false.
Definition ext_tick (h : isr) : bool := match h with IExtTick => true | _ => false end.

(** ** Idioms the programs share *)

Section idioms.
Context `{C : Config} `{B : Info.BuildInfo}.

(** [{ .tick_hz=1000, .policy=HRT_SCHED_PRIORITY_RR, .default_slice=5 }];
    what is not named is zero. *)
Definition example_cfg : hrt_config_t :=
  {| cfg_tick_hz := 1000; cfg_policy := HRT_SCHED_PRIORITY_RR; cfg_default_slice := 5;
     cfg_core_hz := 0; cfg_tick_src := HRT_TICK_SYSTICK |}.

Definition task_attr (p t : Z) : hrt_task_attr_t := {| priority := p; timeslice := t |}.

(** [if (hrt_create_task(...) < 0) puts(msg);] *)
Definition create_or_puts {G} (c : prog Z) (msg : string) : app G unit :=
  r <- icall c ;; if r <? 0 then puts msg else ARet tt.

Definition print_version {G} : app G unit :=
  printf "HardRT version: %s (0x%06X), port: %s (id=%d)"
    [AStr Info.hrt_version_string; AInt Info.hrt_version_u32;
     AStr Info.hrt_port_name; AInt Info.hrt_port_id].

End idioms.

(** ** examples/two_tasks/main.c *)

Module TwoTasks.
Section two_tasks.
Context `{C : Config} `{B : Info.BuildInfo}.

(** [static uint32_t counter] of [taskA] *)
Definition G : Type := Z.

Definition taskA : app G unit :=
  for_ever (
    counter <- aget id ;;
    printf "[A] tick count [%d]" [AInt (i32 counter)] ;;
    vcall (hrt_sleep 500) ;;
    aset (fun counter => u32 (counter + 1))).

Definition taskB : app G unit :=
  for_ever (
    puts "[B] tock -----" ;;
    vcall (hrt_sleep 1000)).

Definition main : app G Z :=
  print_version ;;
  r <- icall (hrt_init (Some example_cfg)) ;;
  if negb (r =? 0) then puts "HardRT init failed" ;; ARet 1
  else
    create_or_puts (hrt_create_task FN1 0 STACK1 2048 (Some (task_attr HRT_PRIO0 0)))
      "create taskA failed" ;;
    create_or_puts (hrt_create_task FN2 0 STACK2 2048 (Some (task_attr HRT_PRIO1 5)))
      "create taskB failed" ;;
    vcall hrt_start ;;
    ARet 0.

Definition prog : program := mkProgram G 0 kern_boot (code_table taskA taskB) main no_isr.

End two_tasks.
End TwoTasks.

(** ** examples/two_tasks_external/main.c *)

Module TwoTasksExternal.
Section two_tasks_external.
Context `{C : Config} `{B : Info.BuildInfo}.

Record G := mkG { g_run_tick_thread : Z; g_tick_hz : Z; counter : Z }.

Definition G_init : G := mkG 1 200 0.

(** [tick_thread_fn] before its loop: the period of the thread. *)
Definition tick_thread_init (g : G) : G * Z :=
  let g := if g_tick_hz g =? 0 then mkG (g_run_tick_thread g) 1000 (counter g) else g in
  (g, 1000000000 / g_tick_hz g).

(** One turn of its loop: the handler it calls and the time it sleeps, in
    nanoseconds, or the end of the thread. *)
Definition tick_thread_turn (nsec : Z) (g : G) : option (isr * Z) :=
  if negb (g_run_tick_thread g =? 0) then Some (IExtTick, nsec) else None.

Definition taskA : app G unit :=
  for_ever (
    c <- aget counter ;;
    printf "[A] External tick; counter [%u]" [AInt c] ;;
    vcall (hrt_sleep 500) ;;
    aset (fun g => mkG (g_run_tick_thread g) (g_tick_hz g) (u32 (counter g + 1)))).

Definition taskB : app G unit :=
  for_ever (
    puts "[B] External tock -----" ;;
    vcall (hrt_sleep 1000)).

(** [pthread_rc]: the result of [pthread_create]. *)
Definition main (pthread_rc : Z) : app G Z :=
  print_version ;;
  hz <- aget g_tick_hz ;;
  let cfg := {| cfg_tick_hz := hz; cfg_policy := HRT_SCHED_PRIORITY_RR; cfg_default_slice := 5;
                cfg_core_hz := 0; cfg_tick_src := HRT_TICK_EXTERNAL |} in
  r <- icall (hrt_init (Some cfg)) ;;
  if negb (r =? 0) then puts "HardRT init failed" ;; ARet 1
  else if negb (pthread_rc =? 0) then puts "Failed to start tick thread" ;; ARet 1
  else
    create_or_puts (hrt_create_task FN1 0 STACK1 2048 (Some (task_attr HRT_PRIO0 0)))
      "create taskA failed" ;;
    create_or_puts (hrt_create_task FN2 0 STACK2 2048 (Some (task_attr HRT_PRIO1 5)))
      "create taskB failed" ;;
    vcall hrt_start ;;
    aset (fun g => mkG 0 (g_tick_hz g) (counter g)) ;;
    ARet 0.

Definition prog : program :=
  mkProgram G G_init kern_boot (code_table taskA taskB) (main 0) ext_tick.

End two_tasks_external.
End TwoTasksExternal.

(** ** examples/sem_basic/main.c *)

Module SemBasic.
Section sem_basic.
Context `{C : Config}.

Definition sem : Z := OBJ.

Definition A : app unit unit :=
  for_ever (
    _ <- icall (Sem.hrt_sem_take sem) ;;
    puts "[A] got sem" ;;
    vcall (hrt_sleep 200) ;;
    _ <- icall (Sem.hrt_sem_give sem) ;;
    vcall (hrt_sleep 200)).

Definition B : app unit unit :=
  for_ever (
    r <- icall (Sem.hrt_sem_try_take sem) ;;
    (if r =? 0 then
       puts "[B] got sem" ;;
       vcall (hrt_sleep 100) ;;
       _ <- icall (Sem.hrt_sem_give sem) ;;
       ARet tt
     else puts "[B] waiting") ;;
    vcall (hrt_sleep 100)).

Definition main : app unit Z :=
  _ <- icall (hrt_init (Some example_cfg)) ;;
  vcall (Sem.hrt_sem_init sem 1) ;;
  _ <- icall (hrt_create_task FN1 0 STACK1 2048 (Some (task_attr HRT_PRIO0 0))) ;;
  _ <- icall (hrt_create_task FN2 0 STACK2 2048 (Some (task_attr HRT_PRIO1 5))) ;;
  vcall hrt_start ;;
  ARet 0.

Definition objects : kern := set_sems {[sem := mkSem 0 0 ring_empty]} kern_boot.

Definition prog : program := mkProgram unit tt objects (code_table A B) main no_isr.

End sem_basic.
End SemBasic.

(** ** examples/sem_counting/main.c *)

Module SemCounting.
Section sem_counting.
Context `{C : Config}.

Definition sem : Z := OBJ.

Definition producer : app unit unit :=
  for_ever (
    puts "[P] burst give x3" ;;
    _ <- icall (Sem.hrt_sem_give sem) ;;
    _ <- icall (Sem.hrt_sem_give sem) ;;
    _ <- icall (Sem.hrt_sem_give sem) ;;
    vcall (hrt_sleep 300)).

Definition consumer : app unit unit :=
  for_ever (
    _ <- icall (Sem.hrt_sem_take sem) ;;
    puts "[C] took token" ;;
    vcall (hrt_sleep 200)).

Definition main : app unit Z :=
  _ <- icall (hrt_init (Some example_cfg)) ;;
  vcall (Sem.hrt_sem_init_counting sem 0 5) ;;
  create_or_puts (hrt_create_task FN1 0 STACK1 2048 (Some (task_attr HRT_PRIO0 0)))
    "create producer failed" ;;
  create_or_puts (hrt_create_task FN2 0 STACK2 2048 (Some (task_attr HRT_PRIO1 0)))
    "create consumer failed" ;;
  vcall hrt_start ;;
  ARet 0.

Definition prog : program :=
  mkProgram unit tt SemBasic.objects (code_table producer consumer) main no_isr.

End sem_counting.
End SemCounting.

(** ** examples/mutex_basic/main.c *)

Module MutexBasic.
Section mutex_basic.
Context `{C : Config}.

Definition mutex : Z := OBJ.

Definition A : app unit unit :=
  for_ever (
    puts "[A] waiting for mutex" ;;
    r <- icall (Mutex.hrt_mutex_lock mutex) ;;
    (if r =? 0 then
       puts "[A] locked mutex" ;;
       vcall (hrt_sleep 300) ;;
       puts "[A] unlocking mutex" ;;
       _ <- icall (Mutex.hrt_mutex_unlock mutex) ;;
       ARet tt
     else ARet tt) ;;
    vcall (hrt_sleep 200)).

Definition B : app unit unit :=
  for_ever (
    r <- icall (Mutex.hrt_mutex_try_lock mutex) ;;
    (if r =? 0 then
       puts "[B] got mutex via try_lock" ;;
       vcall (hrt_sleep 150) ;;
       _ <- icall (Mutex.hrt_mutex_unlock mutex) ;;
       ARet tt
     else puts "[B] mutex busy, waiting") ;;
    vcall (hrt_sleep 100)).

Definition main : app unit Z :=
  _ <- icall (hrt_init (Some example_cfg)) ;;
  vcall (Mutex.hrt_mutex_init mutex) ;;
  _ <- icall (hrt_create_task FN1 0 STACK1 2048 (Some (task_attr HRT_PRIO0 5))) ;;
  _ <- icall (hrt_create_task FN2 0 STACK2 2048 (Some (task_attr HRT_PRIO1 5))) ;;
  puts "Starting mutex basic example..." ;;
  vcall hrt_start ;;
  ARet 0.

Definition objects : kern := set_mutexes {[mutex := mkMutex 0 0 ring_empty]} kern_boot.

Definition prog : program := mkProgram unit tt objects (code_table A B) main no_isr.

End mutex_basic.
End MutexBasic.

(** ** examples/queue_posix/main.c *)

Module QueuePosix.
Section queue_posix.
Context `{C : Config} `{B : Info.BuildInfo}.

Definition q_u32 : Z := OBJ.
Definition q_storage : list Z := replicate 128 0.

(** [v] is a local variable: its bytes are what [&v] points to. *)
Definition producer_body (v : Z) : app unit Z :=
  _ <- icall (Queue.hrt_queue_send q_u32 (u32_bytes v)) ;;
  printf "[producer] sent %u" [AInt v] ;;
  let v := u32 (v + 1) in
  vcall (hrt_sleep 200) ;;
  ARet v.

Definition producer : app unit unit := for_ever_with 0 producer_body.

(** [v] is what the call copied out, or what it was before. *)
Definition consumer_body (v : Z) : app unit Z :=
  r <- rcall (Queue.hrt_queue_recv q_u32) ;;
  let v := QueueRef.received v r.2 in
  printf "[consumer] got  %u" [AInt v] ;;
  vcall (hrt_sleep 500) ;;
  ARet v.

Definition consumer : app unit unit := for_ever_with 0 consumer_body.

Definition main : app unit Z :=
  print_version ;;
  r <- icall (hrt_init (Some example_cfg)) ;;
  if negb (r =? 0) then puts "HardRT init failed" ;; ARet 1
  else
    vcall (Queue.hrt_queue_init q_u32 (Some q_storage) 32 4) ;;
    create_or_puts (hrt_create_task FN1 0 STACK1 2048 (Some (task_attr HRT_PRIO0 0)))
      "create producer failed" ;;
    create_or_puts (hrt_create_task FN2 0 STACK2 2048 (Some (task_attr HRT_PRIO1 5)))
      "create consumer failed" ;;
    vcall hrt_start ;;
    ARet 0.

Definition objects : kern :=
  set_queues {[q_u32 := mkQueue [] 0 0 0 0 0 ring_empty ring_empty]} kern_boot.

Definition prog : program := mkProgram unit tt objects (code_table producer consumer) main no_isr.

End queue_posix.
End QueuePosix.
