(* ===== verification/ExamplesCpp.v ===== *)
(** * The POSIX example applications in C++ (examples/*_cpp)

    The programs of Examples.v written against the C++ wrapper. The
    constructors of objects with static storage run before [main]. *)

From stdpp Require Import base tactics numbers list option gmap relations strings.
From S2P Require Import Prelude Types Prog Ring Core Sched Sem Mutex Queue Info Cpp PortPosix.
From S2P Require Import IsrSafe Api System App Examples.
Open Scope Z_scope.
Open Scope app_scope.

(** The stacks of the instances of [Task::create] the programs use. *)
#[export] Instance example_stacks : StaticStacks :=
  { static_stack _ tag := if tag =? 0 then STACK1 else STACK2 }.

Section idioms.
Context `{C : Config} `{B : Info.BuildInfo}.

Definition print_version_cpp {G} : app G unit :=
  printf "HardRT version: %s (0x%06X), port: %s (id=%d)"
    [AStr Sys.version_string; AInt Sys.version_u32; AStr Sys.port_name; AInt Sys.port_id].

(** [StaticQueue::recv] in a task: the kernel call, then [out] is read
    through the reference. *)
Definition static_queue_recv {G T} `{O : Object T} (this : Z) (v : T) : app G (Z * T) :=
  r <- rcall (Queue.hrt_queue_recv (StaticQueue.native_handle this)) ;;
  ARet (r.1, QueueRef.received v r.2).

End idioms.

(** ** examples/two_tasks_cpp/main.cpp *)

Module TwoTasksCpp.
Section two_tasks_cpp.
Context `{C : Config} `{B : Info.BuildInfo}.

(** [counter] is a local variable here. *)
Definition taskA : app unit unit :=
  for_ever_with 0 (fun counter =>
    printf "[A] tick count [%u]" [AInt counter] ;;
    vcall (Task.sleep 500) ;;
    ARet (u32 (counter + 1))).

Definition taskB : app unit unit :=
  for_ever (
    puts "[B] tock -----" ;;
    vcall (Task.sleep 1000)).

Definition main : app unit Z :=
  print_version_cpp ;;
  r <- icall (Sys.init example_cfg) ;;
  if negb (r =? 0) then puts "HardRT init failed" ;; ARet 1
  else
    create_or_puts (Task.create 1024 0 FN1 0 HRT_PRIO0 0) "create taskA failed" ;;
    create_or_puts (Task.create 2048 1 FN2 0 HRT_PRIO1 5) "create taskB failed" ;;
    vcall Sys.start ;;
    ARet 0.

Definition prog : program := mkProgram unit tt kern_boot (code_table taskA taskB) main no_isr.

End two_tasks_cpp.
End TwoTasksCpp.

(** ** examples/sem_basic_cpp/main.cpp *)

Module SemBasicCpp.
Section sem_basic_cpp.
Context `{C : Config}.

Definition sem : Z := OBJ.

Definition A : app unit unit :=
  for_ever (
    _ <- icall (Semaphore.take sem) ;;
    puts "[A] got sem" ;;
    vcall (Task.sleep 200) ;;
    _ <- icall (Semaphore.give sem) ;;
    vcall (Task.sleep 200)).

Definition B : app unit unit :=
  for_ever (
    r <- icall (Semaphore.try_take sem) ;;
    (if r =? 0 then
       puts "[B] got sem" ;;
       vcall (Task.sleep 100) ;;
       _ <- icall (Semaphore.give sem) ;;
       ARet tt
     else puts "[B] waiting") ;;
    vcall (Task.sleep 100)).

Definition main : app unit Z :=
  vcall (Semaphore.Semaphore sem 1 1) ;;
  _ <- icall (Sys.init example_cfg) ;;
  create_or_puts (Task.create 2048 0 FN1 0 HRT_PRIO0 0) "create A failed" ;;
  create_or_puts (Task.create 2048 1 FN2 0 HRT_PRIO1 5) "create B failed" ;;
  vcall Sys.start ;;
  ARet 0.

Definition prog : program := mkProgram unit tt SemBasic.objects (code_table A B) main no_isr.

End sem_basic_cpp.
End SemBasicCpp.

(** ** examples/sem_counting_cpp/main.cpp *)

Module SemCountingCpp.
Section sem_counting_cpp.
Context `{C : Config}.

Definition sem : Z := OBJ.

Definition producer : app unit unit :=
  for_ever (
    puts "[P] burst give x3" ;;
    _ <- icall (Semaphore.give sem) ;;
    _ <- icall (Semaphore.give sem) ;;
    _ <- icall (Semaphore.give sem) ;;
    vcall (Task.sleep 300)).

Definition consumer : app unit unit :=
  for_ever (
    _ <- icall (Semaphore.take sem) ;;
    puts "[C] took token" ;;
    vcall (Task.sleep 200)).

Definition main : app unit Z :=
  vcall (Semaphore.Semaphore sem 0 5) ;;
  _ <- icall (Sys.init example_cfg) ;;
  create_or_puts (Task.create 2048 0 FN1 0 HRT_PRIO0 0) "create producer failed" ;;
  create_or_puts (Task.create 2048 1 FN2 0 HRT_PRIO1 0) "create consumer failed" ;;
  vcall Sys.start ;;
  ARet 0.

Definition prog : program :=
  mkProgram unit tt SemBasic.objects (code_table producer consumer) main no_isr.

End sem_counting_cpp.
End SemCountingCpp.

(** ** examples/mutex_basic_cpp/main.cpp *)

Module MutexBasicCpp.
Section mutex_basic_cpp.
Context `{C : Config}.

Definition mutex : Z := OBJ.

Definition A : app unit unit :=
  for_ever (
    printf "[A] waiting for mutex" [] ;;
    r <- icall (CppMutex.lock mutex) ;;
    (if r =? 0 then
       printf "[A] locked mutex" [] ;;
       vcall (Task.sleep 200) ;;
       printf "[A] unlocking mutex" [] ;;
       _ <- icall (CppMutex.unlock mutex) ;;
       ARet tt
     else ARet tt) ;;
    vcall (Task.sleep 200)).

Definition B : app unit unit :=
  for_ever (
    r <- icall (CppMutex.try_lock mutex) ;;
    (if r =? 0 then
       printf "[B] got mutex via try_lock" [] ;;
       vcall (Task.sleep 150) ;;
       _ <- icall (CppMutex.unlock mutex) ;;
       ARet tt
     else printf "[B] mutex busy, waiting" []) ;;
    vcall (Task.sleep 50)).

Definition main : app unit Z :=
  vcall (CppMutex.ctor mutex) ;;
  _ <- icall (Sys.init example_cfg) ;;
  r <- icall (Task.create 2048 0 FN1 0 HRT_PRIO0 5) ;;
  (if r <? 0 then printf "create A failed" [] else ARet tt) ;;
  r <- icall (Task.create 2048 1 FN2 0 HRT_PRIO1 5) ;;
  (if r <? 0 then printf "create B failed" [] else ARet tt) ;;
  printf "Starting mutex basic C++ example..." [] ;;
  vcall Sys.start ;;
  ARet 0.

Definition prog : program := mkProgram unit tt MutexBasic.objects (code_table A B) main no_isr.

End mutex_basic_cpp.
End MutexBasicCpp.

(** ** examples/queue_posix_cpp/main.cpp *)

Module QueuePosixCpp.
Section queue_posix_cpp.
Context `{C : Config} `{B : Info.BuildInfo}.

(** [static hardrt::StaticQueue<uint32_t, 32> q] *)
Definition q : Z := OBJ.

Definition producer_body (v : Z) : app unit Z :=
  _ <- icall (StaticQueue.send q v) ;;
  printf "[producer] sent %u" [AInt v] ;;
  let v := u32 (v + 1) in
  vcall (Task.sleep 200) ;;
  ARet v.

Definition producer : app unit unit := for_ever_with 0 producer_body.

Definition consumer_body (v : Z) : app unit Z :=
  r <- static_queue_recv q v ;;
  let v := r.2 in
  printf "[consumer] got  %u" [AInt v] ;;
  vcall (Task.sleep 500) ;;
  ARet v.

Definition consumer : app unit unit := for_ever_with 0 consumer_body.

Definition main : app unit Z :=
  vcall (StaticQueue.StaticQueue (T := Z) 32 q) ;;
  print_version_cpp ;;
  r <- icall (Sys.init example_cfg) ;;
  if negb (r =? 0) then puts "HardRT init failed" ;; ARet 1
  else
    _ <- icall (Task.create 2048 0 FN1 0 HRT_PRIO0 0) ;;
    _ <- icall (Task.create 2048 1 FN2 0 HRT_PRIO1 5) ;;
    vcall Sys.start ;;
    ARet 0.

Definition prog : program :=
  mkProgram unit tt QueuePosix.objects (code_table producer consumer) main no_isr.

End queue_posix_cpp.
End QueuePosixCpp.
