(* ===== verification/Bsp.v ===== *)
(** * Board support

    The heap provider and the system calls that come with the STM32
    examples (src/system.c, src/syscalls.c of each of them; the copies are
    the same) and the hard fault trap of the Cortex-M port
    (src/port/cortex_m/hardfault_diag.c). *)

From stdpp Require Import base tactics numbers list option gmap.
From S2P Require Import Prelude PortCortexM.
Open Scope Z_scope.

(** ** The heap ([_sbrk]) *)

Module Heap.

(** The addresses the linker gives; 0 for a symbol it does not define. *)
Class HeapSymbols := {
  _end : Z;
  _estack : Z;
  __HeapBase : Z;
  __HeapLimit : Z
}.

Section heap.
Context `{H : HeapSymbols}.

(** [(void * )-1] *)
Definition SBRK_FAILED : Z := u32 (-1).

(** The static [heap] (0: not chosen yet); the result, and its new value.
    Addresses are 32-bit. *)
Definition _sbrk (incr heap : Z) : Z * Z :=
  let heap :=
    if heap =? 0 then if negb (__HeapBase =? 0) then __HeapBase else _end else heap in
  let prev := heap in
  let next := u32 (heap + incr) in
  if negb (__HeapLimit =? 0) && (next >? __HeapLimit) then (SBRK_FAILED, heap)
  else if (__HeapLimit =? 0) && (u32 (next + 256) >? _estack) then (SBRK_FAILED, heap)
  else (prev, next).

End heap.
End Heap.

(** ** System calls of newlib *)

Module Syscalls.

Inductive errno_t := ENONE | EBADF | ESPIPE | EAGAIN.

#[export] Instance errno_t_eq_dec : EqDecision errno_t.
Proof. solve_decision. Defined.

(** The character device mode [_fstat] reports. *)
Inductive mode_t := S_IFCHR.

(** Each function: its result and the value it leaves in [errno]. *)
Definition _close (fd : Z) (errno : errno_t) : Z * errno_t := (-1, EBADF).
Definition _fstat (fd : Z) (st : bool) (errno : errno_t) : Z * option mode_t * errno_t :=
  (0, if st then Some S_IFCHR else None, errno).
Definition _isatty (fd : Z) (errno : errno_t) : Z * errno_t := (1, errno).
Definition _lseek (fd ptr dir : Z) (errno : errno_t) : Z * errno_t := (-1, ESPIPE).
Definition _read (fd cnt : Z) (errno : errno_t) : Z * errno_t := (-1, EAGAIN).
Definition _write (fd cnt : Z) (errno : errno_t) : Z * errno_t := (cnt, errno).

End Syscalls.

(** ** The hard fault trap *)

Module HardFault.
Import CortexM.

(** What the handler leaves for a debugger. *)
Record fault := mkFault {
  g_cfsr : Z; g_hfsr : Z; g_bfar : Z; g_afsr : Z;
  g_r0 : Z; g_r1 : Z; g_r2 : Z; g_r3 : Z; g_r12 : Z; g_lr : Z; g_pc : Z; g_psr : Z;
  g_psp_at_fault : Z;
  g_msp_at_fault : Z
}.

(** The registers it reads: the stack pointers and the fault status
    registers of the SCB. *)
Record fault_regs := mkFaultRegs {
  f_msp : Z; f_psp : Z;
  SCB_CFSR : Z; SCB_HFSR : Z; SCB_BFAR : Z; SCB_AFSR : Z
}.

(** [sp[i]] *)
Definition word_at (m : gmap Z Z) (sp : Z) (i : Z) : Z := default 0 (m !! (sp + 4 * i)).

(** [hardfault_c] up to its endless loop. *)
Definition hardfault_c (sp : Z) (r : fault_regs) (m : gmap Z Z) : fault :=
  mkFault (SCB_CFSR r) (SCB_HFSR r) (SCB_BFAR r) (SCB_AFSR r)
    (word_at m sp 0) (word_at m sp 1) (word_at m sp 2) (word_at m sp 3)
    (word_at m sp 4) (word_at m sp 5) (word_at m sp 6) (word_at m sp 7)
    (f_psp r) (f_msp r).

(** [HardFault_Handler]: bit 2 of the exception return value selects the
    stack the frame is on. *)
Definition HardFault_Handler (lr : Z) (r : fault_regs) (m : gmap Z Z) : fault :=
  hardfault_c (if Z.land lr 4 =? 0 then f_msp r else f_psp r) r m.

End HardFault.
