(* ===== verification/H755.v ===== *)
(** * The STM32H755 example applications (hardrt_h755_... of examples/)

    Their tasks, interrupt handlers, device set-up and [main], in the
    language of App.v. The global state of each program holds its
    variables and the memory-mapped registers it uses. What the vendor's
    headers and [SystemInit] define is a parameter. *)

From stdpp Require Import base tactics numbers list option gmap strings.
From S2P Require Import Prelude Types Prog Core Sem Cpp Info PortCortexM App.
From S2P Require Import Examples.
Open Scope Z_scope.
Open Scope app_scope.

(** ** Registers *)

(** The 32-bit registers, by address. *)
Definition regs : Type := Z -> Z.
Definition wr (a v : Z) (r : regs) : regs := fun x => if x =? a then u32 v else r x.
(** [*a |= v], [*a &= ~v] *)
Definition set_bits (a v : Z) (r : regs) : regs := wr a (Z.lor (r a) v) r.
Definition clear_bits (a v : Z) (r : regs) : regs := wr a (Z.land (r a) (u32 (Z.lnot v))) r.

(** Addresses and bits of the vendor's device header. *)
Class Stm32 := {
  RCC_AHB4ENR : Z; RCC_AHB4ENR_GPIOBEN : Z; RCC_AHB4ENR_GPIOEEN : Z;
  RCC_APB1LENR : Z; RCC_APB1LENR_TIM2EN : Z; RCC_APB1LENR_TIM3EN : Z;
  RCC_APB1LRSTR : Z; RCC_APB1LRSTR_TIM2RST : Z; RCC_APB1LRSTR_TIM3RST : Z;
  GPIO_MODER : Z -> Z; GPIO_OTYPER : Z -> Z; GPIO_ODR : Z -> Z;
  GPIOB : Z; GPIOE : Z;
  TIM2 : Z; TIM3 : Z; TIM2_IRQn : Z; TIM3_IRQn : Z;
  TIM_CR1 : Z -> Z; TIM_DIER : Z -> Z; TIM_SR : Z -> Z; TIM_EGR : Z -> Z;
  TIM_PSC : Z -> Z; TIM_ARR : Z -> Z;
  TIM_EGR_UG : Z; TIM_DIER_UIE : Z; TIM_CR1_CEN : Z; TIM_SR_UIF : Z;
  SystemInit : regs -> regs;
  (** [NVIC_SetPriority], [NVIC_ClearPendingIRQ], [NVIC_EnableIRQ] *)
  nvic_enable : Z -> Z -> regs -> regs
}.

(** [hold_cm4]: [RCC_GCR] and [RCC_GRSTCSETR] of the program text. *)
Definition RCC_BASE_NEW : Z := 1476543488.
Definition RCC_GCR : Z := RCC_BASE_NEW + 0.
Definition RCC_GRSTCSETR : Z := RCC_BASE_NEW + 8.

(** ** examples/hardrt_h755_demo/src/main.c *)

Module H755Demo.
Section demo.
Context `{C : Config} `{Env : CortexM.CortexEnv} `{S : Stm32}.

Record G := mkG {
  dregs : regs;
  dbg_counterA : Z; dbg_counterB : Z; dbg_exit_counterA : Z; dbg_exit_counterB : Z
}.

Definition on_regs (f : regs -> regs) (g : G) : G :=
  mkG (f (dregs g)) (dbg_counterA g) (dbg_counterB g) (dbg_exit_counterA g) (dbg_exit_counterB g).

Definition TaskA : app G unit :=
  for_ever (
    aset (fun g => mkG (dregs g) (u32 (dbg_counterA g + 1)) (dbg_counterB g)
                     (dbg_exit_counterA g) (dbg_exit_counterB g)) ;;
    vcall (hrt_sleep 500) ;;
    aset (fun g => mkG (dregs g) (dbg_counterA g) (dbg_counterB g)
                     (u32 (dbg_exit_counterA g + 1)) (dbg_exit_counterB g))).

Definition TaskB : app G unit :=
  for_ever (
    aset (fun g => mkG (dregs g) (dbg_counterA g) (u32 (dbg_counterB g + 1))
                     (dbg_exit_counterA g) (dbg_exit_counterB g)) ;;
    vcall (hrt_sleep 1000) ;;
    aset (fun g => mkG (dregs g) (dbg_counterA g) (dbg_counterB g)
                     (dbg_exit_counterA g) (u32 (dbg_exit_counterB g + 1)))).

Definition hold_cm4 (r : regs) : regs :=
  let r := clear_bits RCC_GCR (Z.shiftl 1 0) r in
  wr RCC_GRSTCSETR (Z.shiftl 1 0) r.

Definition cfg : hrt_config_t :=
  {| cfg_tick_hz := 1000; cfg_policy := HRT_SCHED_PRIORITY_RR; cfg_default_slice := 5;
     cfg_core_hz := CortexM.SystemCoreClock; cfg_tick_src := HRT_TICK_SYSTICK |}.

Definition main (stackA stackB : Z) : app G Z :=
  aset (on_regs SystemInit) ;;
  aset (on_regs hold_cm4) ;;
  _ <- icall (hrt_init (Some cfg)) ;;
  _ <- icall (hrt_create_task FN1 0 stackA 512 (Some (task_attr HRT_PRIO0 5))) ;;
  _ <- icall (hrt_create_task FN2 0 stackB 512 (Some (task_attr HRT_PRIO1 5))) ;;
  vcall hrt_start ;;
  ARet 1.

End demo.
End H755Demo.

(** ** examples/hardrt_h755_blinky/src/main.c *)

Module Blinky.
Section blinky.
Context `{C : Config} `{Env : CortexM.CortexEnv} `{S : Stm32}.

Definition LED1_GPIO : Z := GPIOB.
Definition LED1_ENR : Z := RCC_AHB4ENR_GPIOBEN.
Definition LED1_PIN : Z := 0.
Definition LED2_GPIO : Z := GPIOE.
Definition LED2_ENR : Z := RCC_AHB4ENR_GPIOEEN.
Definition LED2_PIN : Z := 1.

Definition hold_cm4 (r : regs) : regs :=
  let r := clear_bits RCC_GCR (Z.shiftl 1 0) r in
  wr RCC_GRSTCSETR (Z.shiftl 1 0) r.

Definition gpio_init (r : regs) : regs :=
  let r := set_bits RCC_AHB4ENR (Z.lor LED1_ENR LED2_ENR) r in
  let r := clear_bits (GPIO_MODER LED1_GPIO) (Z.shiftl 3 (LED1_PIN * 2)) r in
  let r := set_bits (GPIO_MODER LED1_GPIO) (Z.shiftl 1 (LED1_PIN * 2)) r in
  let r := clear_bits (GPIO_OTYPER LED1_GPIO) (Z.shiftl 1 LED1_PIN) r in
  let r := clear_bits (GPIO_MODER LED2_GPIO) (Z.shiftl 3 (LED2_PIN * 2)) r in
  let r := set_bits (GPIO_MODER LED2_GPIO) (Z.shiftl 1 (LED2_PIN * 2)) r in
  clear_bits (GPIO_OTYPER LED2_GPIO) (Z.shiftl 1 LED2_PIN) r.

(** [gpio->ODR ^= (1u << pin)]: a read and a write. *)
Definition toggle (gpio pin : Z) : app regs unit :=
  v <- aget (fun r => r (GPIO_ODR gpio)) ;;
  aset (wr (GPIO_ODR gpio) (Z.lxor v (Z.shiftl 1 pin))).

Definition TaskA : app regs unit :=
  for_ever (
    toggle LED1_GPIO LED1_PIN ;;
    vcall (hrt_sleep 250)).

Definition TaskB : app regs unit :=
  for_ever (
    toggle LED2_GPIO LED2_PIN ;;
    vcall (hrt_sleep 500)).

Definition cfg : hrt_config_t :=
  {| cfg_tick_hz := 1000; cfg_policy := HRT_SCHED_PRIORITY_RR; cfg_default_slice := 5;
     cfg_core_hz := CortexM.SystemCoreClock; cfg_tick_src := HRT_TICK_SYSTICK |}.

Definition main (stackA stackB : Z) : app regs Z :=
  aset SystemInit ;;
  aset hold_cm4 ;;
  aset gpio_init ;;
  _ <- icall (hrt_init (Some cfg)) ;;
  _ <- icall (hrt_create_task FN1 0 stackA 512 (Some (task_attr HRT_PRIO0 5))) ;;
  _ <- icall (hrt_create_task FN2 0 stackB 512 (Some (task_attr HRT_PRIO1 5))) ;;
  vcall hrt_start ;;
  ARet 0.

End blinky.
End Blinky.

(** ** examples/hardrt_h755_blinky_cpp/src/main.cpp *)

Module BlinkyCpp.
Section blinky_cpp.
Context `{C : Config} `{Env : CortexM.CortexEnv} `{S : Stm32} `{St : StaticStacks}.

Definition LED1_GPIO : Z := GPIOB.
Definition LED1_ENR : Z := RCC_AHB4ENR_GPIOBEN.
Definition LED1_PIN : Z := 0.
Definition LED2_GPIO : Z := GPIOE.
Definition LED2_ENR : Z := RCC_AHB4ENR_GPIOEEN.
Definition LED2_PIN : Z := 1.

Definition hold_cm4 (r : regs) : regs :=
  let r := clear_bits RCC_GCR (Z.shiftl 1 0) r in
  wr RCC_GRSTCSETR (Z.shiftl 1 0) r.

Definition gpio_init (r : regs) : regs :=
  let r := set_bits RCC_AHB4ENR (Z.lor LED1_ENR LED2_ENR) r in
  let r := clear_bits (GPIO_MODER LED1_GPIO) (Z.shiftl 3 (LED1_PIN * 2)) r in
  let r := set_bits (GPIO_MODER LED1_GPIO) (Z.shiftl 1 (LED1_PIN * 2)) r in
  let r := clear_bits (GPIO_OTYPER LED1_GPIO) (Z.shiftl 1 LED1_PIN) r in
  let r := clear_bits (GPIO_MODER LED2_GPIO) (Z.shiftl 3 (LED2_PIN * 2)) r in
  let r := set_bits (GPIO_MODER LED2_GPIO) (Z.shiftl 1 (LED2_PIN * 2)) r in
  clear_bits (GPIO_OTYPER LED2_GPIO) (Z.shiftl 1 LED2_PIN) r.

Definition TaskA : app regs unit :=
  for_ever (
    Blinky.toggle LED1_GPIO LED1_PIN ;;
    vcall (Task.sleep 100)).

Definition TaskB : app regs unit :=
  for_ever (
    Blinky.toggle LED2_GPIO LED2_PIN ;;
    vcall (Task.sleep 250)).

Definition cfg : hrt_config_t :=
  {| cfg_tick_hz := 1000; cfg_policy := HRT_SCHED_PRIORITY_RR; cfg_default_slice := 5;
     cfg_core_hz := CortexM.SystemCoreClock; cfg_tick_src := HRT_TICK_SYSTICK |}.

(** The results of [Task::create] are compared and ignored. *)
Definition main : app regs Z :=
  aset SystemInit ;;
  aset hold_cm4 ;;
  aset gpio_init ;;
  _ <- icall (Sys.init cfg) ;;
  _ <- icall (Task.create 512 0 FN1 0 HRT_PRIO0 5) ;;
  _ <- icall (Task.create 512 1 FN2 0 HRT_PRIO1 5) ;;
  vcall Sys.start ;;
  ARet 0.

End blinky_cpp.
End BlinkyCpp.

(** ** The NUCLEO-H755ZI-Q board

    Addresses and bits of the STM32H755 (reference manual RM0399) for the
    parameters above, on which the properties of the board examples are
    evaluated. *)

Module NucleoBoard.

Definition RCC : Z := 1476543488.

#[export] Instance nucleo : Stm32 := {
  RCC_AHB4ENR := RCC + 224; RCC_AHB4ENR_GPIOBEN := Z.shiftl 1 1; RCC_AHB4ENR_GPIOEEN := Z.shiftl 1 4;
  RCC_APB1LENR := RCC + 232; RCC_APB1LENR_TIM2EN := Z.shiftl 1 0; RCC_APB1LENR_TIM3EN := Z.shiftl 1 1;
  RCC_APB1LRSTR := RCC + 144; RCC_APB1LRSTR_TIM2RST := Z.shiftl 1 0; RCC_APB1LRSTR_TIM3RST := Z.shiftl 1 1;
  GPIO_MODER := fun g => g; GPIO_OTYPER := fun g => g + 4; GPIO_ODR := fun g => g + 20;
  GPIOB := 1476527104; GPIOE := 1476530176;
  TIM2 := 1073741824; TIM3 := 1073742848; TIM2_IRQn := 28; TIM3_IRQn := 29;
  TIM_CR1 := fun t => t; TIM_DIER := fun t => t + 12; TIM_SR := fun t => t + 16; TIM_EGR := fun t => t + 20;
  TIM_PSC := fun t => t + 40; TIM_ARR := fun t => t + 44;
  TIM_EGR_UG := 1; TIM_DIER_UIE := 1; TIM_CR1_CEN := 1; TIM_SR_UIF := 1;
  SystemInit := fun r => r;
  nvic_enable := fun n _ => wr (3758153984 + 4 * (n / 32)) (Z.shiftl 1 (n mod 32))
}.

#[export] Instance nucleo_env : CortexM.CortexEnv := {
  CortexM.__RAM_START__ := 536870912; CortexM.__RAM_END__ := 537001984;
  CortexM.SystemCoreClock := 400000000; CortexM.HARDRT_NVIC_PRIO_BITS := 4;
  CortexM.HARDRT_MAX_SYSCALL_IRQ_PRIO := 5; CortexM.addr_task_trampoline := 134221825;
  CortexM.addr_idle_task := 134222081; CortexM.addr_idle_stack := 536872960
}.

End NucleoBoard.
