(* ===== verification/Timing.v ===== *)
(** * The latency measurement (examples/hardrt_h755_dwt_timing/src/main.c)

    Two timers raise events; their handlers note the cycle counter and give
    a semaphore; two tasks take the semaphores and record the latency. *)

From stdpp Require Import base tactics numbers list option gmap strings.
From S2P Require Import Prelude Types Prog Core Sem PortCortexM Api App Examples H755.
Open Scope Z_scope.
Open Scope app_scope.

Module DwtTiming.

(** ** Registers and targets *)

Definition DEMCR : Z := 3758157308.
Definition DWT_CTRL : Z := 3758100480.
Definition DWT_CYCCNT : Z := 3758100484.
Definition TICK_TARGET_SAMPLES : Z := 10000.
Definition EVT_TARGET_SAMPLES : Z := 10000.

Definition dwt_init (r : regs) : regs :=
  let r := set_bits DEMCR (Z.shiftl 1 24) r in
  let r := wr DWT_CYCCNT 0 r in
  set_bits DWT_CTRL 1 r.

Definition hold_cm4 (r : regs) : regs :=
  let r := clear_bits RCC_GCR (Z.shiftl 1 0) r in
  wr RCC_GRSTCSETR (Z.shiftl 1 0) r.

(** ** Statistics *)

Record hrt_stats_t := mkStats { st_min : Z; st_max : Z; st_avg : Z; st_count : Z; st_sum : Z }.

Definition stats_init : hrt_stats_t := mkStats UINT32_MAX 0 0 0 0.

(** [None]: a division by zero, when the count wraps. *)
Definition stats_record (s : hrt_stats_t) (v : Z) : option hrt_stats_t :=
  let mn := if v <? st_min s then v else st_min s in
  let mx := if v >? st_max s then v else st_max s in
  let sum := u64 (st_sum s + v) in
  let count := u32 (st_count s + 1) in
  if count =? 0 then None else Some (mkStats mn mx (u32 (sum / count)) count sum).

(** ** Variables *)

(** The variables of one event source: [g_tick_stats], [g_tick_done],
    [t0_tick], [tick_armed], and those of the other event. *)
Record source := mkSource { stats : hrt_stats_t; done : Z; t0 : Z; armed : Z }.

Record G := mkG {
  tregs : regs;
  tick_src : source;
  evt_src : source;
  g_irqs_enabled : Z;
  tim2_psc_dbg : Z; tim2_arr_dbg : Z; tim3_psc_dbg : Z; tim3_arr_dbg : Z;
  breakpoints : Z   (** how often [timing_target_reached] stopped *)
}.

Definition on_regs (f : regs -> regs) (g : G) : G :=
  mkG (f (tregs g)) (tick_src g) (evt_src g) (g_irqs_enabled g) (tim2_psc_dbg g) (tim2_arr_dbg g)
    (tim3_psc_dbg g) (tim3_arr_dbg g) (breakpoints g).
Definition on_tick (f : source -> source) (g : G) : G :=
  mkG (tregs g) (f (tick_src g)) (evt_src g) (g_irqs_enabled g) (tim2_psc_dbg g) (tim2_arr_dbg g)
    (tim3_psc_dbg g) (tim3_arr_dbg g) (breakpoints g).
Definition on_evt (f : source -> source) (g : G) : G :=
  mkG (tregs g) (tick_src g) (f (evt_src g)) (g_irqs_enabled g) (tim2_psc_dbg g) (tim2_arr_dbg g)
    (tim3_psc_dbg g) (tim3_arr_dbg g) (breakpoints g).
Definition set_irqs (v : Z) (g : G) : G :=
  mkG (tregs g) (tick_src g) (evt_src g) v (tim2_psc_dbg g) (tim2_arr_dbg g)
    (tim3_psc_dbg g) (tim3_arr_dbg g) (breakpoints g).
Definition set_tim2_dbg (psc arr : Z) (g : G) : G :=
  mkG (tregs g) (tick_src g) (evt_src g) (g_irqs_enabled g) psc arr
    (tim3_psc_dbg g) (tim3_arr_dbg g) (breakpoints g).
Definition set_tim3_dbg (psc arr : Z) (g : G) : G :=
  mkG (tregs g) (tick_src g) (evt_src g) (g_irqs_enabled g) (tim2_psc_dbg g) (tim2_arr_dbg g)
    psc arr (breakpoints g).
Definition timing_target_reached (g : G) : G :=
  mkG (tregs g) (tick_src g) (evt_src g) (g_irqs_enabled g) (tim2_psc_dbg g) (tim2_arr_dbg g)
    (tim3_psc_dbg g) (tim3_arr_dbg g) (breakpoints g + 1).

Definition set_stats v (x : source) : source := mkSource v (done x) (t0 x) (armed x).
Definition set_done v (x : source) : source := mkSource (stats x) v (t0 x) (armed x).
Definition set_t0 v (x : source) : source := mkSource (stats x) (done x) v (armed x).
Definition set_armed v (x : source) : source := mkSource (stats x) (done x) (t0 x) v.

Definition cycles_now (g : G) : Z := tregs g DWT_CYCCNT.

(** [stats_record(&..., d)] on the statistics of a source, as one step: the
    only other reader, the handler, reads the count, which is written
    once. *)
Definition record (d : Z) (x : source) : source :=
  match stats_record (stats x) d with Some st => set_stats st x | None => x end.

Definition maybe_finish : app G unit :=
  td <- aget (fun g => done (tick_src g)) ;;
  if negb (td =? 0) then
    ed <- aget (fun g => done (evt_src g)) ;;
    if negb (ed =? 0) then aset timing_target_reached else ARet tt
  else ARet tt.

Section timing.
Context `{C : Config} `{Env : CortexM.CortexEnv} `{S : Stm32}.

Definition sem_tick : Z := OBJ.
Definition sem_evt : Z := OBJ + 64.

(** ** Tasks *)

Definition tick_turn : app G unit :=
  _ <- icall (Sem.hrt_sem_take sem_tick) ;;
  a <- aget (fun g => armed (tick_src g)) ;;
  if negb (a =? 0) then
    t1 <- aget cycles_now ;;
    t <- aget (fun g => t0 (tick_src g)) ;;
    let d := u32 (t1 - t) in
    aset (on_tick (set_armed 0)) ;;
    aset (on_tick (record d)) ;;
    n <- aget (fun g => st_count (stats (tick_src g))) ;;
    if n >=? TICK_TARGET_SAMPLES then
      aset (on_tick (set_done 1)) ;;
      maybe_finish
    else ARet tt
  else ARet tt.

Definition TaskTickLatency : app G unit :=
  aset (set_irqs 1) ;;
  for_ever tick_turn.

Definition evt_turn : app G unit :=
  _ <- icall (Sem.hrt_sem_take sem_evt) ;;
  a <- aget (fun g => armed (evt_src g)) ;;
  if negb (a =? 0) then
    t1 <- aget cycles_now ;;
    t <- aget (fun g => t0 (evt_src g)) ;;
    let d := u32 (t1 - t) in
    aset (on_evt (set_armed 0)) ;;
    aset (on_evt (record d)) ;;
    n <- aget (fun g => st_count (stats (evt_src g))) ;;
    if n >=? EVT_TARGET_SAMPLES then
      aset (on_evt (set_done 1)) ;;
      maybe_finish
    else ARet tt
  else ARet tt.

Definition TaskEventLatency : app G unit := for_ever evt_turn.

(** ** Timers *)

Definition tim_psc (core_clock : Z) : Z :=
  let tim_clk := core_clock / 2 in
  let psc := tim_clk / 1000000 in
  let psc := if psc =? 0 then 1 else psc in
  psc - 1.

Definition tim_arr (hz default_hz : Z) : Z :=
  let hz := if hz =? 0 then default_hz else hz in
  let arr := 1000000 / hz in
  let arr := if arr =? 0 then 1 else arr in
  arr - 1.

Definition tim2_init_event (hz : Z) (g : G) : G :=
  let g := on_regs (set_bits RCC_APB1LENR RCC_APB1LENR_TIM2EN) g in
  let g := on_regs (set_bits RCC_APB1LRSTR RCC_APB1LRSTR_TIM2RST) g in
  let g := on_regs (clear_bits RCC_APB1LRSTR RCC_APB1LRSTR_TIM2RST) g in
  let psc := tim_psc CortexM.SystemCoreClock in
  let arr := tim_arr hz 1000 in
  let g := on_regs (wr (TIM_PSC TIM2) psc) g in
  let g := on_regs (wr (TIM_ARR TIM2) arr) g in
  let g := set_tim2_dbg psc arr g in
  let g := on_regs (wr (TIM_EGR TIM2) TIM_EGR_UG) g in
  let g := on_regs (wr (TIM_SR TIM2) 0) g in
  let g := on_regs (wr (TIM_DIER TIM2) TIM_DIER_UIE) g in
  let g := on_regs (wr (TIM_CR1 TIM2) TIM_CR1_CEN) g in
  on_regs (nvic_enable TIM2_IRQn 12) g.

Definition tim3_init_event (hz : Z) (g : G) : G :=
  let g := on_regs (set_bits RCC_APB1LENR RCC_APB1LENR_TIM3EN) g in
  let g := on_regs (set_bits RCC_APB1LRSTR RCC_APB1LRSTR_TIM3RST) g in
  let g := on_regs (clear_bits RCC_APB1LRSTR RCC_APB1LRSTR_TIM3RST) g in
  let psc := tim_psc CortexM.SystemCoreClock in
  let arr := tim_arr hz 200 in
  let g := on_regs (wr (TIM_PSC TIM3) psc) g in
  let g := on_regs (wr (TIM_ARR TIM3) arr) g in
  let g := set_tim3_dbg psc arr g in
  let g := on_regs (wr (TIM_EGR TIM3) TIM_EGR_UG) g in
  let g := on_regs (wr (TIM_SR TIM3) 0) g in
  let g := on_regs (wr (TIM_DIER TIM3) TIM_DIER_UIE) g in
  let g := on_regs (wr (TIM_CR1 TIM3) TIM_CR1_CEN) g in
  on_regs (nvic_enable TIM3_IRQn 12) g.

(** ** Interrupt handlers *)

(** [hrt_sem_give_from_isr(&sem, &should_switch)], [should_switch] unused. *)
Definition give_from_isr (a : Z) : app G Z :=
  icall (r <- Sem.hrt_sem_give_from_isr a true ;; Ret r.1)%prog.

Definition TIM2_IRQHandler : app G unit :=
  sr <- aget (fun g => tregs g (TIM_SR TIM2)) ;;
  if negb (Z.land sr TIM_SR_UIF =? 0) then
    aset (on_regs (clear_bits (TIM_SR TIM2) TIM_SR_UIF)) ;;
    en <- aget g_irqs_enabled ;;
    if en =? 0 then ARet tt
    else
      n <- aget (fun g => st_count (stats (tick_src g))) ;;
      if n >=? TICK_TARGET_SAMPLES then ARet tt
      else
        a <- aget (fun g => armed (tick_src g)) ;;
        (if a =? 0 then
           aset (fun g => on_tick (set_t0 (cycles_now g)) g) ;;
           aset (on_tick (set_armed 1))
         else ARet tt) ;;
        _ <- give_from_isr sem_tick ;;
        ARet tt
  else ARet tt.

Definition TIM3_IRQHandler : app G unit :=
  sr <- aget (fun g => tregs g (TIM_SR TIM3)) ;;
  if negb (Z.land sr TIM_SR_UIF =? 0) then
    aset (on_regs (clear_bits (TIM_SR TIM3) TIM_SR_UIF)) ;;
    en <- aget g_irqs_enabled ;;
    if en =? 0 then ARet tt
    else
      n <- aget (fun g => st_count (stats (evt_src g))) ;;
      if n >=? EVT_TARGET_SAMPLES then ARet tt
      else
        a <- aget (fun g => armed (evt_src g)) ;;
        (if a =? 0 then
           aset (fun g => on_evt (set_t0 (cycles_now g)) g) ;;
           aset (on_evt (set_armed 1))
         else ARet tt) ;;
        _ <- give_from_isr sem_evt ;;
        ARet tt
  else ARet tt.

(** ** [main] *)

Definition cfg : hrt_config_t :=
  {| cfg_tick_hz := 1000; cfg_policy := HRT_SCHED_PRIORITY_RR; cfg_default_slice := 5;
     cfg_core_hz := CortexM.SystemCoreClock; cfg_tick_src := HRT_TICK_SYSTICK |}.

Definition main (stackTick stackEvt : Z) : app G Z :=
  aset (on_regs SystemInit) ;;
  aset (on_regs hold_cm4) ;;
  aset (on_regs dwt_init) ;;
  aset (on_tick (set_stats stats_init)) ;;
  aset (on_evt (set_stats stats_init)) ;;
  _ <- icall (hrt_init (Some cfg)) ;;
  vcall (Sem.hrt_sem_init sem_tick 0) ;;
  vcall (Sem.hrt_sem_init sem_evt 0) ;;
  _ <- icall (hrt_create_task FN1 0 stackTick 1024 (Some (task_attr HRT_PRIO0 0))) ;;
  _ <- icall (hrt_create_task FN2 0 stackEvt 1024 (Some (task_attr HRT_PRIO1 0))) ;;
  aset (tim2_init_event 1000) ;;
  aset (tim3_init_event 200) ;;
  vcall hrt_start ;;
  ARet 0.

End timing.
End DwtTiming.
