(* ===== verification/Preempt.v ===== *)
(** * Preemption at every step

    Applications under the weakest assumptions about the kernel and the
    hardware: after [main] has returned from [hrt_start] the tasks run in
    any order, one access to a variable or one call at a time; a call
    returns any result and leaves the variables alone; an interrupt handler
    runs as a whole between two steps of the tasks; the hardware changes
    its registers when it likes. What holds of every run of this machine
    holds for every scheduler.

    [rg] proves properties of such runs thread by thread: an assertion for
    every point of the code, which the steps of the others ([rely]) do not
    invalidate, while the thread's own steps are among those it promises
    ([guar]). *)

From stdpp Require Import base tactics numbers list option relations strings.
From S2P Require Import Prelude Prog Api App.

Open Scope app_scope.

Section machine.
Context {G : Type}.

(** One step of a thread. *)
Definition tstep {A} (c : app G A) (g : G) (c' : app G A) (g' : G) : Prop :=
  match c with
  | ARet _ => False
  | ACall _ k => exists r, c' = k r /\ g' = g
  | AOut _ k => c' = k /\ g' = g
  | AGlob f k => c' = k (f g).1 /\ g' = (f g).2
  | AForever body l => c' = abind (body l) (AForever body) /\ g' = g
  end.

(** A handler from entry to return. *)
Fixpoint runs {A} (c : app G A) (g g' : G) : Prop :=
  match c with
  | ARet _ => g' = g
  | ACall _ k => exists r, runs (k r) g g'
  | AOut _ k => runs k g g'
  | AGlob f k => runs (k (f g).1) (f g).2 g'
  | AForever _ _ => False
  end.

Record board := mkBoard {
  b_boot : G -> Prop;                 (** the variables before [main] *)
  b_main : app G Z;
  b_tasks : list (app G unit);
  b_handlers : list (app G unit);
  b_hw : G -> G -> Prop
}.

Inductive phase := PMain (c : app G Z) | PTasks (cs : list (app G unit)).

Definition interrupt (b : board) (g g' : G) : Prop :=
  b_hw b g g' \/ exists h, h ∈ b_handlers b /\ runs h g g'.

Inductive pstep (b : board) : phase * G -> phase * G -> Prop :=
  | p_interrupt ph g g' : interrupt b g g' -> pstep b (ph, g) (ph, g')
  | p_main c c' g g' : tstep c g c' g' -> pstep b (PMain c, g) (PMain c', g')
  | p_start v g : pstep b (PMain (ARet v), g) (PTasks (b_tasks b), g)
  | p_task cs i c c' g g' :
      cs !! i = Some c -> tstep c g c' g' -> pstep b (PTasks cs, g) (PTasks (<[i := c']> cs), g').

Definition preachable (b : board) (x : phase * G) : Prop :=
  exists g0, b_boot b g0 /\ rtc (pstep b) (PMain (b_main b), g0) x.

(** ** One schedule *)

Inductive choice := CMain (r : api_res) | CStart | CTask (i : nat) (r : api_res) | CHandler (i : nat).

Definition tnext {A} (c : app G A) (g : G) (r : api_res) : option (app G A * G) :=
  match c with
  | ARet _ => None
  | ACall _ k => Some (k r, g)
  | AOut _ k => Some (k, g)
  | AGlob f k => Some (k (f g).1, (f g).2)
  | AForever body l => Some (abind (body l) (AForever body), g)
  end.

(** Calls in a handler return 0 here. *)
Fixpoint hnext {A} (c : app G A) (g : G) : option G :=
  match c with
  | ARet _ => Some g
  | ACall _ k => hnext (k (0%Z, None)) g
  | AOut _ k => hnext k g
  | AGlob f k => hnext (k (f g).1) (f g).2
  | AForever _ _ => None
  end.

Definition pnext (b : board) (ch : choice) (x : phase * G) : option (phase * G) :=
  match ch, x.1 with
  | CMain r, PMain c => p ← tnext c x.2 r; Some (PMain p.1, p.2)
  | CStart, PMain (ARet _) => Some (PTasks (b_tasks b), x.2)
  | CTask i r, PTasks cs => c ← cs !! i; p ← tnext c x.2 r; Some (PTasks (<[i := p.1]> cs), p.2)
  | CHandler i, ph => h ← b_handlers b !! i; g' ← hnext h x.2; Some (ph, g')
  | _, _ => None
  end.

Fixpoint prun (b : board) (chs : list choice) (x : phase * G) : option (phase * G) :=
  match chs with
  | [] => Some x
  | ch :: chs => y ← pnext b ch x; prun b chs y
  end.

Lemma tnext_step {A} (c c' : app G A) g g' r : tnext c g r = Some (c', g') -> tstep c g c' g'.
Proof. destruct c; cbn; intros [= <- <-]; eauto. Qed.

Lemma hnext_runs {A} (c : app G A) g g' : hnext c g = Some g' -> runs c g g'.
Proof. revert g. induction c; cbn; intros g0 Hh; simplify_eq; eauto. Qed.

Lemma pnext_step b ch x y : pnext b ch x = Some y -> pstep b x y.
Proof.
  destruct x as [ph g], ch as [r| |i r|i]; cbn.
  - destruct ph as [c|cs]; [|done]. destruct (tnext c g r) as [[c' g']|] eqn:E; intros [= <-].
    by eapply p_main, tnext_step.
  - destruct ph as [[]|cs]; try done. intros [= <-]. apply p_start.
  - destruct ph as [c|cs]; [done|]. destruct (cs !! i) as [c|] eqn:Ei; [cbn|done].
    destruct (tnext c g r) as [[c' g']|] eqn:E; intros [= <-]. by eapply p_task, tnext_step.
  - destruct (b_handlers b !! i) as [h|] eqn:Ei; [cbn|done].
    destruct (hnext h g) as [g'|] eqn:E; intros [= <-]. apply p_interrupt. right. exists h.
    split; [by eapply list_elem_of_lookup_2|by apply hnext_runs].
Qed.

Lemma prun_steps b chs x y : prun b chs x = Some y -> rtc (pstep b) x y.
Proof.
  revert x. induction chs as [|ch chs IH]; cbn; intros x Hr; [by simplify_eq|].
  destruct (pnext b ch x) as [z|] eqn:E; [|done]. eapply rtc_l; [by eapply pnext_step|by apply IH].
Qed.

(** ** Proof rules *)

Section rules.
Variables (rely guar : G -> G -> Prop) (I : G -> Prop).

Definition stable (P : G -> Prop) : Prop := forall g g', P g -> rely g g' -> P g'.
Definition assertion (P : G -> Prop) : Prop := stable P /\ forall g, P g -> I g.

Fixpoint rg {A} (P : G -> Prop) (c : app G A) (Q : A -> G -> Prop) {struct c} : Prop :=
  assertion P /\
  match c with
  | ARet a => forall g, P g -> Q a g
  | ACall _ k => forall r, rg P (k r) Q
  | AOut _ k => rg P k Q
  | @AGlob _ _ B f k => exists P' : B -> G -> Prop,
      (forall g, P g -> guar g (f g).2 /\ P' (f g).1 (f g).2) /\ forall b, rg (P' b) (k b) Q
  | @AForever _ _ L body l => exists J : L -> G -> Prop,
      (forall g, P g -> J l g) /\ forall l, rg (J l) (body l) J
  end.

Lemma rg_assertion {A} P (c : app G A) Q : rg P c Q -> assertion P.
Proof. by destruct c; intros []. Qed.

Lemma rg_pre {A} (P P' : G -> Prop) (c : app G A) Q :
  assertion P -> (forall g, P g -> P' g) -> rg P' c Q -> rg P c Q.
Proof.
  intros HP Hi. induction c; intros [HP' Hc]; (split; [done|]).
  - intros g Hg. by apply Hc, Hi.
  - intros r. by apply H.
  - by apply IHc.
  - destruct Hc as (P1 & H1 & H2). exists P1. split; [|done]. intros g Hg. by apply H1, Hi.
  - destruct Hc as (J & H1 & H2). exists J. split; [|done]. intros g Hg. by apply H1, Hi.
Qed.

Lemma rg_post {A} (P : G -> Prop) (c : app G A) (Q Q' : A -> G -> Prop) :
  (forall a g, Q a g -> Q' a g) -> rg P c Q -> rg P c Q'.
Proof.
  intros HQ. revert P. induction c; intros P [HP Hc]; (split; [done|]).
  - intros g Hg. by apply HQ, Hc.
  - intros r. by apply (H r Q).
  - by apply (IHc Q).
  - destruct Hc as (P1 & H1 & H2). exists P1. split; [done|]. intros b. by apply (H b Q).
  - done.
Qed.

Lemma rg_bind {A B} (c : app G A) (f : A -> app G B) P Q Q' :
  rg P c Q -> (forall a, rg (Q a) (f a) Q') -> rg P (abind c f) Q'.
Proof.
  revert P. induction c; intros P [HP Hc] Hf; cbn [abind].
  - by apply (rg_pre P (Q a)).
  - split; [done|]. intros r. by apply (H r f Q).
  - split; [done|]. by apply (IHc f Q).
  - destruct Hc as (P1 & H1 & H2). split; [done|]. exists P1. split; [done|].
    intros b. by apply (H b f Q).
  - destruct Hc as (J & H1 & H2). split; [done|]. by exists J.
Qed.

Lemma rg_ret {A} (a : A) P Q : assertion P -> (forall g, P g -> Q a g) -> rg P (ARet a) Q.
Proof. done. Qed.
Lemma rg_icall c P : assertion P -> rg P (icall c) (fun _ => P).
Proof. intros HP. split; [done|]. intros r. by apply rg_ret. Qed.
Lemma rg_vcall c P : assertion P -> rg P (vcall c) (fun _ => P).
Proof. intros HP. split; [done|]. intros r. by apply rg_ret. Qed.
Lemma rg_get {A} (f : G -> A) P Q :
  assertion P -> (forall a, assertion (Q a)) -> (forall g, P g -> guar g g /\ Q (f g) g) ->
  rg P (aget f) Q.
Proof. intros HP HQ Hf. split; [done|]. exists Q. split; [done|]. intros b. by apply rg_ret. Qed.
Lemma rg_set (f : G -> G) P Q :
  assertion P -> assertion (Q tt) -> (forall g, P g -> guar g (f g) /\ Q tt (f g)) -> rg P (aset f) Q.
Proof.
  intros HP HQ Hf. split; [done|]. exists (fun _ => Q tt). split; [done|]. intros []. by apply rg_ret.
Qed.
Lemma rg_for_ever (body : app G unit) P Q : rg P body (fun _ => P) -> rg P (for_ever body) Q.
Proof. intros Hb. split; [by eapply rg_assertion|]. exists (fun _ => P). by split. Qed.

(** A step of the thread stays within its promise and within the rules. *)
Lemma rg_step {A} P (c c' : app G A) g g' Q :
  rg P c Q -> P g -> tstep c g c' g' -> exists P', (guar g g' \/ g' = g) /\ P' g' /\ rg P' c' Q.
Proof.
  destruct c as [a|cl k|o k|B f k|L body l]; intros [HP Hc] Hg Ht; cbn in Ht.
  - done.
  - destruct Ht as (r & -> & ->). exists P. auto.
  - destruct Ht as [-> ->]. exists P. auto.
  - destruct Ht as [-> ->], Hc as (P1 & H1 & H2). destruct (H1 g Hg) as [H3 H4].
    exists (P1 (f g).1). auto.
  - destruct Ht as [-> ->], Hc as (J & H1 & H2). exists P. split_and!; [by right|done|].
    apply (rg_pre P (J l)); [done|done|]. eapply rg_bind; [apply H2|]. intros l'. cbn.
    split; [by eapply rg_assertion|]. by exists J.
Qed.

End rules.

(** ** Soundness *)

(** A thread of the machine: the steps it allows the others, the steps it
    takes itself, what holds whenever it is between two steps, and what it
    starts from. *)
Record contract := mkContract {
  k_rely : G -> G -> Prop; k_guar : G -> G -> Prop; k_inv : G -> Prop; k_pre : G -> Prop
}.

Definition meets (k : contract) (c : app G unit) (g : G) : Prop :=
  exists P Q, P g /\ rg (k_rely k) (k_guar k) (k_inv k) P c Q.

Definition compatible (b : board) (ks : list contract) : Prop :=
  (forall k g g', k ∈ ks -> interrupt b g g' -> k_rely k g g') /\
  (forall i j k k' g g', i <> j -> ks !! i = Some k -> ks !! j = Some k' ->
     k_guar k g g' -> k_rely k' g g').

Lemma meets_rely k c g g' : meets k c g -> k_rely k g g' -> meets k c g'.
Proof.
  intros (P & Q & HP & Hc) Hr. exists P, Q. split; [|done].
  destruct (rg_assertion _ _ _ _ _ _ Hc) as [Hs _]. by eapply Hs.
Qed.

Lemma tasks_step b ks cs i c c' g g' :
  compatible b ks -> Forall2 (fun k c => meets k c g) ks cs ->
  cs !! i = Some c -> tstep c g c' g' -> Forall2 (fun k c => meets k c g') ks (<[i := c']> cs).
Proof.
  intros [_ Hco] HF Hi Ht.
  destruct (Forall2_lookup_r _ _ _ _ _ HF Hi) as (k & Hk & P & Q & HP & Hc).
  destruct (rg_step _ _ _ _ _ _ _ _ _ Hc HP Ht) as (P' & Hg & HP' & Hc').
  apply Forall2_same_length_lookup. split.
  { rewrite length_insert. by eapply Forall2_length. }
  intros j k' cj Hk' Hj. destruct (decide (i = j)) as [<-|Hne].
  - apply lookup_lt_Some in Hi. rewrite list_lookup_insert_eq in Hj by done.
    simplify_eq. by exists P', Q.
  - rewrite list_lookup_insert_ne in Hj by done.
    pose proof (Forall2_lookup_lr _ _ _ _ _ _ HF Hk' Hj) as Hm.
    destruct Hg as [Hg| ->]; [|done]. eapply meets_rely; [exact Hm|]. by eapply (Hco i j k k').
Qed.

Lemma tasks_interrupt b ks cs g g' :
  compatible b ks -> Forall2 (fun k c => meets k c g) ks cs -> interrupt b g g' ->
  Forall2 (fun k c => meets k c g') ks cs.
Proof.
  intros [Hco _] HF Hint. apply Forall2_same_length_lookup. split; [by eapply Forall2_length|].
  intros i k c Hk Hc. pose proof (Forall2_lookup_lr _ _ _ _ _ _ HF Hk Hc) as Hm.
  eapply meets_rely; [exact Hm|].
  apply Hco; [by eapply list_elem_of_lookup_2|done].
Qed.

(** A board whose threads meet compatible contracts. *)
Record verified (b : board) (km : contract) (ks : list contract) : Prop := {
  v_compatible : compatible b ks;
  v_main_rely g g' : interrupt b g g' -> k_rely km g g';
  v_boot g : b_boot b g -> k_pre km g;
  v_main : rg (k_rely km) (k_guar km) (k_inv km) (k_pre km) (b_main b)
             (fun _ g => Forall (fun k => k_pre k g) ks);
  v_tasks : Forall2 (fun k c => exists Q, rg (k_rely k) (k_guar k) (k_inv k) (k_pre k) c Q)
              ks (b_tasks b)
}.

Definition pinv (km : contract) (ks : list contract) (x : phase * G) : Prop :=
  match x.1 with
  | PMain c => exists P : G -> Prop, P x.2 /\
      rg (k_rely km) (k_guar km) (k_inv km) P c (fun _ g => Forall (fun k => k_pre k g) ks)
  | PTasks cs => Forall2 (fun k c => meets k c x.2) ks cs
  end.

Lemma pinv_step b km ks x y : verified b km ks -> pstep b x y -> pinv km ks x -> pinv km ks y.
Proof.
  intros Hv Hs HI. destruct Hs as [[c|cs] g g' Hint|c c' g g' Ht|v g|cs i c c' g g' Hi Ht];
    unfold pinv in *; cbn in *.
  - destruct HI as (P & HP & Hc). exists P. split; [|done].
    destruct (rg_assertion _ _ _ _ _ _ Hc) as [Hs _]. eapply Hs; [done|]. by apply (v_main_rely _ _ _ Hv).
  - by eapply tasks_interrupt; [apply (v_compatible _ _ _ Hv)| |].
  - destruct HI as (P & HP & Hc). destruct (rg_step _ _ _ _ _ _ _ _ _ Hc HP Ht) as (P' & _ & ? & ?).
    by exists P'.
  - destruct HI as (P & HP & _ & Hc). apply Forall2_same_length_lookup.
    pose proof (v_tasks _ _ _ Hv) as HF. split; [by eapply Forall2_length|]. intros i k c Hk Hi.
    destruct (Forall2_lookup_lr _ _ _ _ _ _ HF Hk Hi) as [Q Hr]. exists (k_pre k), Q. split; [|done].
    by eapply (Forall_lookup_1 _ _ _ _ (Hc g HP)).
  - by eapply tasks_step; [apply (v_compatible _ _ _ Hv)| | |].
Qed.

(** Once the tasks run, every task's invariant holds after every step. *)
Lemma rg_sound b km ks cs g :
  verified b km ks -> preachable b (PTasks cs, g) -> Forall (fun k => k_inv k g) ks.
Proof.
  intros Hv (g0 & Hg0 & Hrun). assert (HI : pinv km ks (PTasks cs, g)).
  { refine (rtc_ind_r (pinv km ks) _ _ _ _ Hrun).
    - exists (k_pre km). split; [by apply (v_boot _ _ _ Hv)|apply (v_main _ _ _ Hv)].
    - intros x y _ Hs. by apply (pinv_step b). }
  unfold pinv in HI. cbn in HI. apply Forall_lookup. intros i k Hk.
  destruct (Forall2_lookup_l _ _ _ _ _ HI Hk) as (c & _ & P & Q & HP & Hc).
  destruct (rg_assertion _ _ _ _ _ _ Hc) as [_ H]. by apply H.
Qed.

End machine.
Arguments board : clear implicits.
Arguments contract : clear implicits.
Arguments phase : clear implicits.
