(* ===== verification/TimingFacts.v ===== *)
(** * Facts about the latency measurement: its statistics and timers *)

From stdpp Require Import base tactics numbers list option gmap strings.
From S2P Require Import Prelude Types Prog PortCortexM App H755 Timing.
Open Scope Z_scope.

(** ** Reference statistics of a list of samples *)

Module Reference.
Import DwtTiming.

Definition minimum (vs : list Z) : Z := foldr Z.min UINT32_MAX vs.
Definition maximum (vs : list Z) : Z := foldr Z.max 0 vs.
Definition total (vs : list Z) : Z := foldr Z.add 0 vs.
Definition size (vs : list Z) : Z := Z.of_nat (length vs).
Definition average (vs : list Z) : Z := total vs / size vs.

Definition statistics (vs : list Z) : hrt_stats_t :=
  mkStats (minimum vs) (maximum vs) (average vs) (size vs) (total vs).

Definition sample (v : Z) : Prop := 0 <= v < 2 ^ 32.

End Reference.

Import DwtTiming Reference.

Lemma minimum_app vs v : minimum (vs ++ [v]) = Z.min v (minimum vs) \/ UINT32_MAX < v.
Proof. unfold minimum. rewrite foldr_app. cbn. induction vs as [|w vs IH]; cbn; lia. Qed.
Lemma maximum_app vs v : 0 <= v -> maximum (vs ++ [v]) = Z.max v (maximum vs).
Proof. intros Hv. unfold maximum. rewrite foldr_app. cbn. induction vs as [|w vs IH]; cbn; lia. Qed.
Lemma total_app vs v : total (vs ++ [v]) = total vs + v.
Proof. unfold total. rewrite foldr_app. cbn. induction vs as [|w vs IH]; cbn; lia. Qed.
Lemma size_app vs v : size (vs ++ [v]) = size vs + 1.
Proof. unfold size. rewrite length_app. cbn. lia. Qed.
Lemma size_nonneg vs : 0 <= size vs.
Proof. unfold size. lia. Qed.

Lemma total_bounds vs :
  Forall sample vs -> minimum vs * size vs <= total vs <= maximum vs * size vs.
Proof.
  unfold minimum, maximum, total, size. induction 1 as [|v vs Hv _ IH]; cbn [foldr length]; [lia|].
  rewrite Nat2Z.inj_succ.
  set (mn := foldr Z.min UINT32_MAX vs) in *. set (mx := foldr Z.max 0 vs) in *.
  pose proof (Nat2Z.is_nonneg (length vs)).
  assert (Z.min v mn * Z.of_nat (length vs) <= mn * Z.of_nat (length vs)) by (apply Z.mul_le_mono_nonneg_r; lia).
  assert (mx * Z.of_nat (length vs) <= Z.max v mx * Z.of_nat (length vs)) by (apply Z.mul_le_mono_nonneg_r; lia).
  lia.
Qed.

Lemma extremes vs : Forall sample vs -> 0 <= minimum vs /\ maximum vs < 2 ^ 32.
Proof.
  unfold minimum, maximum, UINT32_MAX. induction 1 as [|v vs Hv _ IH]; cbn [foldr]; [lia|].
  unfold sample in Hv. lia.
Qed.

Lemma total_range vs : Forall sample vs -> 0 <= total vs <= size vs * (2 ^ 32 - 1).
Proof.
  unfold total, size. induction 1 as [|v vs Hv _ IH]; cbn [foldr length]; [lia|].
  unfold sample in Hv. rewrite Nat2Z.inj_succ. lia.
Qed.

Lemma average_between vs :
  Forall sample vs -> vs <> [] -> minimum vs <= average vs <= maximum vs.
Proof.
  intros Hs Hne. pose proof (total_bounds vs Hs) as Hb. unfold average.
  assert (0 < size vs) by (unfold size; destruct vs; [done|cbn; lia]).
  split; [apply Z.div_le_lower_bound; lia|]. apply Z.div_le_upper_bound; lia.
Qed.

(** One more sample. *)
Lemma stats_record_step vs v :
  Forall sample vs -> sample v -> size vs + 1 < 2 ^ 32 ->
  stats_record (mkStats (minimum vs) (maximum vs) (average vs) (size vs) (total vs)) v =
  Some (statistics (vs ++ [v])).
Proof.
  intros Hs Hv Hn. unfold sample in Hv. pose proof (size_nonneg vs). pose proof (total_range vs Hs) as Ht.
  assert (Hs' : Forall sample (vs ++ [v])) by (apply Forall_app; split; [done|by constructor]).
  assert (Ht' : 0 <= total (vs ++ [v]) < 2 ^ 64).
  { rewrite total_app. split; [lia|].
    assert (size vs * (2 ^ 32 - 1) + v < (2 ^ 32 - 1) * 2 ^ 32) by nia. lia. }
  unfold stats_record, statistics. cbn [st_min st_max st_sum st_count st_avg].
  rewrite (u32_id (size vs + 1)), <- (size_app vs v), <- (total_app vs v) by lia.
  rewrite (u64_id (total _)) by lia.
  rewrite (proj2 (Z.eqb_neq _ 0)) by (rewrite size_app; lia).
  pose proof (average_between (vs ++ [v]) Hs' ltac:(by destruct vs)) as Ha.
  pose proof (extremes (vs ++ [v]) Hs') as He. fold (average (vs ++ [v])). rewrite u32_id by lia.
  do 2 f_equal.
  - destruct (minimum_app vs v) as [->|]; [|unfold UINT32_MAX in *; lia].
    destruct (Z.ltb_spec v (minimum vs)); lia.
  - rewrite maximum_app by lia. rewrite Z.gtb_ltb. destruct (Z.ltb_spec (maximum vs) v); lia.
Qed.

(** ** Timer rate *)

Lemma tim_rate core_clock hz default_hz :
  0 < hz -> (hz | 1000000) -> (2000000 | core_clock) -> 0 < core_clock ->
  (tim_psc core_clock + 1) * (tim_arr hz default_hz + 1) * hz = core_clock / 2.
Proof.
  intros Hh [k Hk] [m Hm] Hc. unfold tim_psc, tim_arr.
  rewrite (proj2 (Z.eqb_neq hz 0)) by lia.
  replace (core_clock / 2) with (m * 1000000) by (subst core_clock; apply Z.div_unique_exact; lia).
  rewrite Z.div_mul by lia. replace (1000000 / hz) with k by (apply Z.div_unique_exact; lia).
  rewrite (proj2 (Z.eqb_neq m 0)), (proj2 (Z.eqb_neq k 0)) by nia. rewrite Hk. ring.
Qed.
