(* ===== verification/TimingRace.v ===== *)
(** * The latency measurement under preemption

    The threads of Timing.v as a board of Preempt.v: two tasks, the two
    timer handlers, a cycle counter and registers that change when they
    like. Both event sources are handled by the same text with other
    variables, so the proofs are done once for a source. *)

From stdpp Require Import base tactics numbers list option gmap relations strings.
From S2P Require Import Prelude Types Prog Core Sem PortCortexM Api App Examples H755 Timing Preempt TimingFacts.
Open Scope Z_scope.
Open Scope app_scope.
Import DwtTiming Reference.

(** ** Event sources *)

(** The variables of a source within those of the program. *)
Class EventSource (src oth : G -> source) (on : (source -> source) -> G -> G) := {
  es_src_on f g : src (on f g) = f (src g);
  es_oth_on f g : oth (on f g) = oth g;
  es_tregs_on f g : tregs (on f g) = tregs g;
  es_irqs_on f g : g_irqs_enabled (on f g) = g_irqs_enabled g;
  es_breakpoints_on f g : breakpoints (on f g) = breakpoints g;
  es_src_oth : (forall g, src g = tick_src g /\ oth g = evt_src g) \/
            (forall g, src g = evt_src g /\ oth g = tick_src g)
}.

#[export] Instance tick_source : EventSource tick_src evt_src on_tick.
Proof. split; try done. by left. Qed.
#[export] Instance evt_source : EventSource evt_src tick_src on_evt.
Proof. split; try done. by right. Qed.

(** The least number of samples both tasks wait for. *)
Definition T : Z := TICK_TARGET_SAMPLES.

Section source.
Context `{C : Config} `{Env : CortexM.CortexEnv} `{S : Stm32}.
Context (src oth : G -> source) (on : (source -> source) -> G -> G) `{ES : EventSource src oth on}.

Definition turn (sem : Z) : app G unit :=
  _ <- icall (Sem.hrt_sem_take sem) ;;
  a <- aget (fun g => armed (src g)) ;;
  if negb (a =? 0) then
    t1 <- aget cycles_now ;;
    t <- aget (fun g => t0 (src g)) ;;
    let d := u32 (t1 - t) in
    aset (on (set_armed 0)) ;;
    aset (on (record d)) ;;
    n <- aget (fun g => st_count (stats (src g))) ;;
    if n >=? T then
      aset (on (set_done 1)) ;;
      maybe_finish
    else ARet tt
  else ARet tt.

Definition handler (tim sem : Z) : app G unit :=
  sr <- aget (fun g => tregs g (TIM_SR tim)) ;;
  if negb (Z.land sr TIM_SR_UIF =? 0) then
    aset (on_regs (clear_bits (TIM_SR tim) TIM_SR_UIF)) ;;
    en <- aget g_irqs_enabled ;;
    if en =? 0 then ARet tt
    else
      n <- aget (fun g => st_count (stats (src g))) ;;
      if n >=? T then ARet tt
      else
        a <- aget (fun g => armed (src g)) ;;
        (if a =? 0 then
           aset (fun g => on (set_t0 (cycles_now g)) g) ;;
           aset (on (set_armed 1))
         else ARet tt) ;;
        _ <- give_from_isr sem ;;
        ARet tt
  else ARet tt.

(** ** What the threads may do *)

(** [L]: the longest time, in cycles, that an event is left armed. *)
Variable L : Z.

Definition clock_ok (s : G -> source) (g : G) : Prop :=
  armed (s g) <> 0 -> u32 (cycles_now g - t0 (s g)) <= L.

Definition finish_ok (g : G) : Prop :=
  breakpoints g <> 0 -> done (tick_src g) <> 0 /\ done (evt_src g) <> 0.

Definition mono (s : G -> source) (g g' : G) : Prop := done (s g) <> 0 -> done (s g') <> 0.

(** [fl]: the samples taken and not recorded yet. *)
Definition measured (fl : Z) (g : G) : Prop :=
  exists vs, Forall (fun v => 0 <= v <= L) vs /\ stats (src g) = statistics vs /\
    size vs + fl <= T + 1 /\ (armed (src g) <> 0 -> size vs + fl <= T) /\
    (done (src g) <> 0 -> T <= size vs).

Definition point (fl : Z) (g : G) : Prop := measured fl g /\ clock_ok src g /\ finish_ok g.

Definition rely (g g' : G) : Prop :=
  stats (src g') = stats (src g) /\ done (src g') = done (src g) /\
  (armed (src g) <> 0 -> armed (src g') = armed (src g) /\ t0 (src g') = t0 (src g)) /\
  (armed (src g) = 0 -> armed (src g') = 0 \/ st_count (stats (src g)) < T) /\
  (clock_ok src g -> clock_ok src g') /\ (finish_ok g -> finish_ok g') /\
  mono tick_src g g' /\ mono evt_src g g'.

Definition guar (g g' : G) : Prop :=
  oth g' = oth g /\ tregs g' = tregs g /\ (finish_ok g -> finish_ok g') /\
  mono tick_src g g' /\ mono evt_src g g'.

Definition inv (g : G) : Prop := measured 0 g /\ finish_ok g.

Definition source_contract : contract G := mkContract rely guar inv (point 0).

(** ** Points of the loop *)

Abbreviation stays X := (forall g g', X g -> rely g g' -> X g').

Lemma measured_stays fl : 0 <= fl <= 1 -> stays (measured fl).
Proof.
  intros Hfl g g' (vs & Hvs & Hst & Hn & Ha & Hd) (Es & Ed & E1 & E2 & _).
  exists vs. rewrite Es, Ed. split_and!; try done. intros Ha'.
  destruct (decide (armed (src g) = 0)) as [H0|H0].
  - destruct (E2 H0) as [H1|H1]; [done|]. rewrite Hst in H1. cbn in H1. lia.
  - by apply Ha.
Qed.

Lemma point_stays fl : 0 <= fl <= 1 -> stays (point fl).
Proof.
  intros Hfl g g' (Hm & Hc & Hf) Hr. pose proof Hr as (_ & _ & _ & _ & Hck & Hfi & _).
  split_and!; [by eapply measured_stays|auto|auto].
Qed.

Lemma point_assertion fl : 0 <= fl <= 1 -> assertion rely inv (point fl).
Proof.
  intros Hfl. split; [by intros g g'; apply point_stays|].
  intros g ((vs & ? & ? & ? & ? & ?) & _ & Hf). split; [|done]. exists vs. split_and!; try done; lia.
Qed.

(** The invariant and a fact that lasts. *)
Definition with_fact (X : G -> Prop) (g : G) : Prop := point 0 g /\ X g.

Lemma fact_assertion (X : G -> Prop) : stays X -> assertion rely inv (with_fact X).
Proof.
  intros HX. destruct (point_assertion 0 ltac:(lia)) as [Hs Hi]. split.
  - intros g g' [Hp Hx] Hr. split; [by eapply Hs|by eapply HX].
  - intros g [Hp _]. by apply Hi.
Qed.

Definition is_armed (g : G) : Prop := armed (src g) <> 0.

Lemma armed_stays : stays is_armed.
Proof. intros g g' Ha (_ & _ & E & _). unfold is_armed in *. destruct (E Ha) as [-> _]. done. Qed.

(** [t1] has been read while armed; then [t0] too. *)
Definition latency (t1 : Z) (g : G) : Prop := is_armed g /\ u32 (t1 - t0 (src g)) <= L.
Definition latency2 (d : Z) (g : G) : Prop := is_armed g /\ 0 <= d <= L.
Definition counted (n : Z) (g : G) : Prop := n = st_count (stats (src g)).
Definition is_done (g : G) : Prop := done (src g) <> 0.

Lemma latency_stays t1 : stays (latency t1).
Proof.
  intros g g' [Ha Hl] Hr. split; [by eapply armed_stays|]. destruct Hr as (_ & _ & E & _).
  by destruct (E Ha) as [_ ->].
Qed.
Lemma latency2_stays d : stays (latency2 d).
Proof. intros g g' [Ha Hl] Hr. split; [by eapply armed_stays|done]. Qed.
Lemma counted_stays n : stays (counted n).
Proof. intros g g' -> (E & _). unfold counted. by rewrite E. Qed.
Lemma done_stays : stays is_done.
Proof. intros g g' Hd (_ & E & _). unfold is_done. by rewrite E. Qed.

Lemma guar_refl g : guar g g.
Proof. unfold guar, mono. tauto. Qed.

(** ** The steps of the loop *)

Lemma src_on f g : src (on f g) = f (src g). Proof using ES. apply ES. Qed.
Lemma oth_on f g : oth (on f g) = oth g. Proof using ES. apply ES. Qed.
Lemma tregs_on f g : tregs (on f g) = tregs g. Proof using ES. apply ES. Qed.
Lemma breakpoints_on f g : breakpoints (on f g) = breakpoints g. Proof using ES. apply ES. Qed.
Lemma src_oth : (forall g, src g = tick_src g /\ oth g = evt_src g) \/
                (forall g, src g = evt_src g /\ oth g = tick_src g).
Proof using ES. apply ES. Qed.

Lemma guar_src f g :
  (finish_ok g -> finish_ok (on f g)) -> mono src g (on f g) -> guar g (on f g).
Proof using ES.
  intros Hf Hm. unfold guar. rewrite oth_on, tregs_on. split_and!; try done.
  - destruct src_oth as [E|E]; intros Hd.
    + destruct (E g) as [Eg _], (E (on f g)) as [Eg' _]. rewrite <- Eg' . rewrite <- Eg in Hd. by apply Hm.
    + destruct (E g) as [_ Eg], (E (on f g)) as [_ Eg']. by rewrite <- Eg', oth_on, Eg.
  - destruct src_oth as [E|E]; intros Hd.
    + destruct (E g) as [_ Eg], (E (on f g)) as [_ Eg']. by rewrite <- Eg', oth_on, Eg.
    + destruct (E g) as [Eg _], (E (on f g)) as [Eg' _]. rewrite <- Eg'. rewrite <- Eg in Hd. by apply Hm.
Qed.

(** Both sources, in either order. *)
Lemma finish_sym g :
  finish_ok g <-> (breakpoints g <> 0 -> done (src g) <> 0 /\ done (oth g) <> 0).
Proof using ES.
  unfold finish_ok. destruct src_oth as [E|E]; destruct (E g) as [-> ->]; tauto.
Qed.

Lemma finish_on f g : mono src g (on f g) -> finish_ok g -> finish_ok (on f g).
Proof using ES.
  rewrite !finish_sym, breakpoints_on, oth_on. unfold mono.
  intros Hm Hf Hb. destruct (Hf Hb). auto.
Qed.

Lemma guar_on f g : mono src g (on f g) -> guar g (on f g).
Proof using ES. intros Hm. apply guar_src; [by apply finish_on|done]. Qed.

Lemma step_disarm d g :
  with_fact (latency2 d) g ->
  guar g (on (set_armed 0) g) /\ (point 1 (on (set_armed 0) g) /\ 0 <= d <= L).
Proof using ES.
  intros [((vs & Hvs & Hst & Hn & Ha & Hd) & Hc & Hf) [Har Hl]].
  assert (Hm : mono src g (on (set_armed 0) g)) by (unfold mono; by rewrite src_on).
  split; [by apply guar_on|]. split; [|done]. split_and!.
  - exists vs. rewrite src_on. cbn. split_and!; try done. specialize (Ha Har). lia.
  - intros Ha'. by rewrite src_on in Ha'.
  - by apply finish_on.
Qed.

Lemma step_record d g :
  L < 2 ^ 32 -> point 1 g /\ 0 <= d <= L ->
  guar g (on (record d) g) /\ point 0 (on (record d) g).
Proof using ES.
  intros HL [((vs & Hvs & Hst & Hn & Ha & Hd) & Hc & Hf) Hl].
  assert (Hr : record d (src g) = set_stats (statistics (vs ++ [d])) (src g)).
  { unfold record. rewrite Hst. unfold statistics at 1. rewrite stats_record_step; [done| | |].
    - eapply Forall_impl; [done|]. unfold sample. lia.
    - unfold sample. lia.
    - unfold T, TICK_TARGET_SAMPLES in *. lia. }
  assert (Hm : mono src g (on (record d) g)) by (unfold mono; by rewrite src_on, Hr).
  split; [by apply guar_on|]. split_and!; [|..|by apply finish_on].
  - exists (vs ++ [d]). rewrite src_on, Hr, size_app. cbn. split_and!; try done; try lia.
    apply Forall_app. split; [done|]. by constructor.
  - unfold clock_ok, cycles_now. rewrite src_on, tregs_on, Hr. exact Hc.
Qed.

Lemma step_done n g :
  T <= n -> with_fact (counted n) g ->
  guar g (on (set_done 1) g) /\ with_fact is_done (on (set_done 1) g).
Proof using ES.
  intros Hn' [((vs & Hvs & Hst & Hn & Ha & Hd) & Hc & Hf) Hco].
  assert (Hm : mono src g (on (set_done 1) g)) by (unfold mono; by rewrite src_on).
  split; [by apply guar_on|]. split; [split_and!|].
  - exists vs. rewrite src_on. cbn. split_and!; try done. intros _. unfold counted in Hco.
    rewrite Hst in Hco. cbn in Hco. lia.
  - unfold clock_ok, cycles_now. rewrite src_on, tregs_on. exact Hc.
  - by apply finish_on.
  - unfold is_done. by rewrite src_on.
Qed.

Definition both_done (td : bool) (ed : bool) (g : G) : Prop :=
  (td = true -> done (tick_src g) <> 0) /\ (ed = true -> done (evt_src g) <> 0).

Lemma both_done_stays td ed : stays (both_done td ed).
Proof. intros g g' [H1 H2] (_ & _ & _ & _ & _ & _ & M1 & M2). split; auto. Qed.

Lemma step_finish g :
  with_fact (both_done true true) g ->
  guar g (timing_target_reached g) /\ point 0 (timing_target_reached g).
Proof.
  intros [(Hm & Hc & Hf) Hb]. destruct Hb as [H1 H2]; try done.
  assert (Es : src (timing_target_reached g) = src g /\ oth (timing_target_reached g) = oth g).
  { destruct src_oth as [E|E]; destruct (E g) as [-> ->], (E (timing_target_reached g)) as [-> ->]; done. }
  destruct Es as [Es Eo]. split.
  - unfold guar, finish_ok, mono. rewrite Eo. cbn. tauto.
  - split_and!.
    + unfold measured. by rewrite Es.
    + unfold clock_ok, cycles_now. rewrite Es. exact Hc.
    + intros _. auto.
Qed.

Lemma maybe_finish_ok :
  rg rely guar inv (with_fact is_done) maybe_finish (fun _ => point 0).
Proof using ES.
  pose proof (fact_assertion _ done_stays) as A1.
  pose proof (fun td ed => fact_assertion _ (both_done_stays td ed)) as A2.
  pose proof (point_assertion 0 ltac:(lia)) as A0.
  unfold maybe_finish. eapply rg_bind.
  { apply (rg_get _ _ _ _ _ (fun td => with_fact (both_done (negb (td =? 0)) false))); [done|by intros|].
    intros g [Hp _]. split; [apply guar_refl|]. split; [done|]. split; [|done].
    intros H. by apply negb_true_iff, Z.eqb_neq in H. }
  intros td. cbn beta. destruct (negb (td =? 0)); [|by apply rg_ret; [|intros g []]].
  eapply rg_bind.
  { apply (rg_get _ _ _ _ _ (fun ed => with_fact (both_done true (negb (ed =? 0))))); [done|by intros|].
    intros g [Hp [Ht _]]. split; [apply guar_refl|]. split; [done|]. split; [done|].
    intros H. by apply negb_true_iff, Z.eqb_neq in H. }
  intros ed. cbn beta. destruct (negb (ed =? 0)); [|by apply rg_ret; [|intros g []]].
  apply rg_set; [done|done|]. apply step_finish.
Qed.

Definition in_flight (d : Z) (g : G) : Prop := point 1 g /\ 0 <= d <= L.

Lemma in_flight_assertion d : assertion rely inv (in_flight d).
Proof.
  destruct (point_assertion 1 ltac:(lia)) as [Hs Hi]. split; [|by intros g []; apply Hi].
  intros g g' [Hp Hd] Hr. split; [by eapply Hs|done].
Qed.

(** The sample [d] is recorded, and the end of the measurement noticed. *)
Lemma record_ok d :
  L < 2 ^ 32 ->
  rg rely guar inv (with_fact (latency2 d))
    (aset (on (set_armed 0)) ;; aset (on (record d)) ;;
     n <- aget (fun g => st_count (stats (src g))) ;;
     if n >=? T then aset (on (set_done 1)) ;; maybe_finish else ARet tt)
    (fun _ => point 0).
Proof using ES.
  intros HL. pose proof (point_assertion 0 ltac:(lia)) as A0.
  eapply rg_bind.
  { apply (rg_set _ _ _ _ _ (fun _ => in_flight d)); [|apply in_flight_assertion|].
    - apply fact_assertion, latency2_stays.
    - intros g. apply step_disarm. }
  intros []. eapply rg_bind.
  { apply (rg_set _ _ _ _ _ (fun _ => point 0)); [apply in_flight_assertion|done|].
    intros g. by apply step_record. }
  intros []. eapply rg_bind.
  { apply (rg_get _ _ _ _ _ (fun n => with_fact (counted n))); [done| |].
    - intros n. apply fact_assertion, counted_stays.
    - intros g Hp. split; [apply guar_refl|done]. }
  intros n. cbn beta. rewrite Z.geb_leb. destruct (Z.leb_spec T n) as [Hn|Hn].
  - apply (rg_bind _ _ _ _ _ _ (fun _ => with_fact is_done)); [|intros []; apply maybe_finish_ok].
    apply rg_set; [apply fact_assertion, counted_stays|apply fact_assertion, done_stays|].
    intros g. by apply step_done.
  - apply rg_ret; [apply fact_assertion, counted_stays|by intros g []].
Qed.

(** One turn of the task's loop. *)
Lemma turn_ok sem :
  L < 2 ^ 32 -> rg rely guar inv (point 0) (turn sem) (fun _ => point 0).
Proof using ES.
  intros HL. pose proof (point_assertion 0 ltac:(lia)) as A0.
  assert (A1 : forall a, assertion rely inv (with_fact (fun g => a <> 0 -> is_armed g))).
  { intros a. apply fact_assertion. intros g g' H Hr Ha. by eapply armed_stays; [apply H|]. }
  unfold turn. eapply rg_bind; [by apply rg_icall|]. intros r. cbn beta. eapply rg_bind.
  { apply (rg_get _ _ _ _ _ (fun a => with_fact (fun g => a <> 0 -> is_armed g))); [done..|].
    intros g Hp. split; [apply guar_refl|done]. }
  intros a. cbn beta. destruct (Z.eqb_spec a 0) as [Ha|Ha]; cbn [negb].
  { by apply rg_ret; [|intros g []]. }
  eapply rg_bind.
  { apply (rg_get _ _ _ _ _ (fun t1 => with_fact (latency t1))); [done| |].
    - intros t1. apply fact_assertion, latency_stays.
    - intros g [Hp Hg]. specialize (Hg Ha). split; [apply guar_refl|]. split; [done|].
      split; [done|]. by apply Hp. }
  intros t1. eapply rg_bind.
  { apply (rg_get _ _ _ _ _ (fun t => with_fact (latency2 (u32 (t1 - t))))).
    - apply fact_assertion, latency_stays.
    - intros t. apply fact_assertion, latency2_stays.
    - intros g [Hp [Hg Hl]]. split; [apply guar_refl|]. split; [done|]. split; [done|].
      split; [apply u32_range|done]. }
  intros t. by apply record_ok.
Qed.

(** ** The handler *)

(** What a handler does to the variables. *)
Record handled (g g' : G) : Prop := {
  h_oth : oth g' = oth g;
  h_stats : stats (src g') = stats (src g);
  h_done : done (src g') = done (src g);
  h_cycles : cycles_now g' = cycles_now g;
  h_breakpoints : breakpoints g' = breakpoints g;
  h_irqs : g_irqs_enabled g' = g_irqs_enabled g;
  h_src : src g' = src g \/
          (g_irqs_enabled g <> 0 /\ armed (src g) = 0 /\ st_count (stats (src g)) < T /\
           t0 (src g') = cycles_now g)
}.

Lemma src_on_regs f g : src (on_regs f g) = src g /\ oth (on_regs f g) = oth g.
Proof using ES.
  destruct src_oth as [E|E]; destruct (E g) as [-> ->], (E (on_regs f g)) as [-> ->]; done.
Qed.

Lemma handled_refl g g' :
  (exists f, g' = on_regs f g /\ f (tregs g) DWT_CYCCNT = tregs g DWT_CYCCNT) -> handled g g'.
Proof using ES.
  intros (f & -> & Hf). destruct (src_on_regs f g) as [E1 E2]. split; rewrite ?E1; auto.
Qed.

Lemma handler_runs tim sem g g' :
  TIM_SR tim <> DWT_CYCCNT -> runs (handler tim sem) g g' -> handled g g'.
Proof using ES.
  intros Hne. unfold handler. cbn [abind aget aset runs fst snd].
  set (f := clear_bits (TIM_SR tim) TIM_SR_UIF). destruct (src_on_regs f g) as [E1 E2].
  assert (Hf : forall r, f r DWT_CYCCNT = r DWT_CYCCNT).
  { intros r. unfold f, clear_bits, wr. by rewrite (proj2 (Z.eqb_neq _ _)) by done. }
  assert (Hq : handled g (on_regs f g)) by (apply handled_refl; by exists f).
  assert (H0 : handled g g) by (by split; auto).
  destruct (negb _); cbn [abind aget aset runs fst snd]; [|by intros ->].
  destruct (Z.eqb_spec (g_irqs_enabled (on_regs f g)) 0) as [|Hen]; [by intros ->|].
  cbn [abind aget aset runs fst snd]. rewrite E1, Z.geb_leb.
  destruct (Z.leb_spec T (st_count (stats (src g)))) as [|Hc]; [by intros ->|].
  cbn [abind aget aset runs fst snd]. rewrite E1.
  destruct (Z.eqb_spec (armed (src g)) 0) as [Ha|Ha]; cbn [abind aget aset runs fst snd give_from_isr icall];
    intros [r ->]; [|done].
  split; rewrite ?src_on, ?oth_on, ?breakpoints_on, ?(es_irqs_on (EventSource := ES)), ?E1, ?E2; try done.
  - unfold cycles_now. rewrite !tregs_on. cbn. apply Hf.
  - right. split_and!; try done. cbn. unfold cycles_now. cbn. apply Hf.
Qed.

(** The tasks of both sources live with it. *)
Lemma finish_handled g g' : handled g g' -> finish_ok g -> finish_ok g'.
Proof using ES.
  intros Hh. rewrite !finish_sym, (h_breakpoints _ _ Hh), (h_done _ _ Hh), (h_oth _ _ Hh). done.
Qed.

Lemma mono_handled g g' : handled g g' -> mono tick_src g g' /\ mono evt_src g g'.
Proof using ES.
  intros Hh. unfold mono. pose proof (h_done _ _ Hh) as H1. pose proof (h_oth _ _ Hh) as H2.
  destruct src_oth as [E|E]; destruct (E g) as [E1 E2], (E g') as [E1' E2'];
    rewrite E1, E1' in H1; rewrite E2, E2' in H2; by rewrite H1, H2.
Qed.

Lemma rely_handled g g' : 0 <= L -> handled g g' -> rely g g'.
Proof using ES.
  intros HL Hh. pose proof (mono_handled _ _ Hh). pose proof (h_src _ _ Hh) as Hs.
  unfold rely. rewrite (h_stats _ _ Hh), (h_done _ _ Hh). split_and!; try tauto.
  - intros Ha. destruct Hs as [->|(_ & ? & _)]; done.
  - intros Ha. destruct Hs as [->|(_ & _ & ? & _)]; auto.
  - unfold clock_ok. rewrite (h_cycles _ _ Hh). intros Hc. destruct Hs as [->|(_ & _ & _ & ->)]; [done|].
    intros _. by rewrite Z.sub_diag.
  - by apply finish_handled.
Qed.

(** Nor do steps matter that leave the source alone. *)
Lemma rely_quiet g g' :
  src g' = src g -> (clock_ok src g -> clock_ok src g') -> (finish_ok g -> finish_ok g') ->
  mono tick_src g g' -> mono evt_src g g' -> rely g g'.
Proof. intros E Hc Hf H1 H2. unfold rely. rewrite E. tauto. Qed.

Lemma clock_same g g' : src g' = src g -> cycles_now g' = cycles_now g -> clock_ok src g -> clock_ok src g'.
Proof. unfold clock_ok. by intros -> ->. Qed.

End source.

Lemma tick_turn_is `{C : Config} : tick_turn = turn tick_src on_tick sem_tick.
Proof. reflexivity. Qed.
Lemma evt_turn_is `{C : Config} : evt_turn = turn evt_src on_evt sem_evt.
Proof. reflexivity. Qed.
Lemma tim2_handler_is `{C : Config} `{S : Stm32} : TIM2_IRQHandler = handler tick_src on_tick TIM2 sem_tick.
Proof. reflexivity. Qed.
Lemma tim3_handler_is `{C : Config} `{S : Stm32} : TIM3_IRQHandler = handler evt_src on_evt TIM3 sem_evt.
Proof. reflexivity. Qed.

(** ** The board *)

Section board.
Context `{C : Config} `{Env : CortexM.CortexEnv} `{S : Stm32}.
Variable L : Z.

(** The variables with static storage before [main]. *)
Definition zero_source : source := mkSource (mkStats 0 0 0 0 0) 0 0 0.
Definition boot_globals (g : G) : Prop :=
  tick_src g = zero_source /\ evt_src g = zero_source /\ g_irqs_enabled g = 0 /\ breakpoints g = 0.

(** The hardware changes its registers; it does not let an event wait for
    more than [L] cycles while it is armed. *)
Definition hardware (g g' : G) : Prop :=
  (exists f, g' = on_regs f g) /\ clock_ok L tick_src g' /\ clock_ok L evt_src g'.

Definition timing_board (stackTick stackEvt : Z) : board G :=
  mkBoard boot_globals (main stackTick stackEvt) [TaskTickLatency; TaskEventLatency]
    [TIM2_IRQHandler; TIM3_IRQHandler] hardware.

Abbreviation tick_contract := (source_contract tick_src evt_src L).
Abbreviation evt_contract := (source_contract evt_src tick_src L).

Hypothesis HL : 0 <= L < 2 ^ 32.
Hypothesis Hsr2 : TIM_SR TIM2 <> DWT_CYCCNT.
Hypothesis Hsr3 : TIM_SR TIM3 <> DWT_CYCCNT.

Lemma interrupt_cases st se g g' :
  interrupt (timing_board st se) g g' ->
  hardware g g' \/ handled tick_src evt_src g g' \/ handled evt_src tick_src g g'.
Proof using Hsr2 Hsr3.
  intros [?|(h & Hh & Hr)]; [by left|]. right.
  apply elem_of_cons in Hh as [->|Hh]; [|apply elem_of_cons in Hh as [->|Hh]; [|by apply not_elem_of_nil in Hh]].
  - left. rewrite tim2_handler_is in Hr. eapply handler_runs; [exact _|exact Hsr2|exact Hr].
  - right. rewrite tim3_handler_is in Hr. eapply handler_runs; [exact _|exact Hsr3|exact Hr].
Qed.

Lemma rely_hardware g g' : hardware g g' -> rely tick_src L g g' /\ rely evt_src L g g'.
Proof. intros ((f & ->) & H1 & H2). split; apply rely_quiet; first [done|intros _; assumption|intros H; exact H]. Qed.

(** A step that belongs to one source, seen from the other. *)
Lemma rely_other `{ES : EventSource src oth on} g g' :
  oth g' = oth g -> cycles_now g' = cycles_now g -> (finish_ok g -> finish_ok g') ->
  mono tick_src g g' -> mono evt_src g g' -> rely oth L g g'.
Proof. intros H1 H2 H3 H4 H5. apply rely_quiet; try done. by apply clock_same. Qed.

Lemma rely_interrupt st se g g' :
  interrupt (timing_board st se) g g' -> rely tick_src L g g' /\ rely evt_src L g g'.
Proof using HL Hsr2 Hsr3.
  intros [Hh|[Hh|Hh]]%interrupt_cases; [by apply rely_hardware|split..].
  - apply (rely_handled tick_src evt_src on_tick); [lia|done].
  - destruct (mono_handled tick_src evt_src on_tick _ _ Hh).
    apply (rely_other (src := tick_src) (on := on_tick)); try done; [apply Hh..|].
    by apply (finish_handled tick_src evt_src on_tick).
  - destruct (mono_handled evt_src tick_src on_evt _ _ Hh).
    apply (rely_other (src := evt_src) (on := on_evt)); try done; [apply Hh..|].
    by apply (finish_handled evt_src tick_src on_evt).
  - apply (rely_handled evt_src tick_src on_evt); [lia|done].
Qed.

Lemma rely_guar `{ES : EventSource src oth on} g g' : guar oth g g' -> rely oth L g g'.
Proof.
  intros (H1 & H2 & H3 & H4 & H5). apply (rely_other (ES := ES)); try done.
  unfold cycles_now. by rewrite H2.
Qed.

Lemma board_compatible st se : compatible (timing_board st se) [tick_contract; evt_contract].
Proof using HL Hsr2 Hsr3.
  split.
  - intros k g g' Hk [H1 H2]%rely_interrupt.
    apply elem_of_cons in Hk as [->|Hk]; [done|apply elem_of_cons in Hk as [->|Hk]; [done|]].
    by apply not_elem_of_nil in Hk.
  - intros [|[|i]] [|[|j]] k k' g g' Hij Hi Hj Hg; try done; simplify_eq/=.
    + by apply (rely_guar (ES := tick_source)).
    + by apply (rely_guar (ES := evt_source)).
Qed.

(** ** The tasks *)

Lemma tick_task_ok : exists Q, rg (k_rely tick_contract) (k_guar tick_contract) (k_inv tick_contract)
  (k_pre tick_contract) TaskTickLatency Q.
Proof using HL.
  exists (fun _ => point tick_src L 0). unfold TaskTickLatency. rewrite tick_turn_is.
  pose proof (point_assertion tick_src L 0 ltac:(lia)) as HA.
  eapply (rg_bind _ _ _ _ _ _ (fun _ => point tick_src L 0)).
  - apply rg_set; [done|done|]. intros g Hg. split; [|exact Hg]. exact (guar_refl evt_src g).
  - intros []. apply rg_for_ever. apply (turn_ok tick_src evt_src on_tick). lia.
Qed.

Lemma evt_task_ok : exists Q, rg (k_rely evt_contract) (k_guar evt_contract) (k_inv evt_contract)
  (k_pre evt_contract) TaskEventLatency Q.
Proof using HL.
  exists (fun _ => point evt_src L 0). unfold TaskEventLatency. rewrite evt_turn_is.
  apply rg_for_ever. apply (turn_ok evt_src tick_src on_evt). lia.
Qed.

(** ** [main] *)

(** Until the first task runs the handlers leave the variables alone. *)
Definition starting (ts es : hrt_stats_t) (g : G) : Prop :=
  g_irqs_enabled g = 0 /\ breakpoints g = 0 /\
  tick_src g = mkSource ts 0 0 0 /\ evt_src g = mkSource es 0 0 0.

Definition main_rely (g g' : G) : Prop :=
  g_irqs_enabled g = 0 -> g_irqs_enabled g' = 0 /\ breakpoints g' = breakpoints g /\
    tick_src g' = tick_src g /\ evt_src g' = evt_src g.

Definition main_contract : contract G :=
  mkContract main_rely (fun _ _ => True) (fun _ => True)
    (starting (mkStats 0 0 0 0 0) (mkStats 0 0 0 0 0)).

Lemma starting_assertion ts es : assertion main_rely (fun _ => True) (starting ts es).
Proof.
  split; [|done]. intros g g' (H1 & H2 & H3 & H4) Hr. destruct (Hr H1) as (? & E2 & E3 & E4).
  unfold starting. by rewrite E2, E3, E4.
Qed.

Lemma main_rely_interrupt st se g g' : interrupt (timing_board st se) g g' -> main_rely g g'.
Proof using Hsr2 Hsr3.
  intros [((f & ->) & _)|[Hh|Hh]]%interrupt_cases Hi; [done|..];
    rewrite (h_irqs _ _ _ _ Hh), (h_breakpoints _ _ _ _ Hh), (h_oth _ _ _ _ Hh);
    destruct (h_src _ _ _ _ Hh) as [->|[]]; done.
Qed.

Abbreviation mrg := (rg main_rely (fun _ _ => True) (fun _ => True)).

Lemma main_set {A} f (c : app G A) ts es ts' es' Q :
  (forall g, starting ts es g -> starting ts' es' (f g)) ->
  mrg (starting ts' es') c Q -> mrg (starting ts es) (aset f ;; c) Q.
Proof.
  intros Hf Hc. apply (rg_bind _ _ _ _ _ _ (fun _ => starting ts' es')); [|by intros []].
  apply rg_set; [apply starting_assertion..|]. intros g Hg. split; [done|by apply Hf].
Qed.

Lemma main_call {A} c (k : Z -> app G A) ts es Q :
  (forall r, mrg (starting ts es) (k r) Q) -> mrg (starting ts es) (r <- icall c ;; k r) Q.
Proof. intros Hk. eapply rg_bind; [apply rg_icall, starting_assertion|done]. Qed.

Lemma main_vcall {A} c (k : app G A) ts es Q :
  mrg (starting ts es) k Q -> mrg (starting ts es) (vcall c ;; k) Q.
Proof. intros Hk. eapply rg_bind; [apply rg_vcall, starting_assertion|done]. Qed.

Lemma main_ok st se :
  mrg (starting (mkStats 0 0 0 0 0) (mkStats 0 0 0 0 0)) (main st se)
    (fun _ => starting stats_init stats_init).
Proof.
  unfold main.
  do 3 (eapply main_set; [by intros g Hg|]).
  eapply (main_set _ _ _ _ stats_init (mkStats 0 0 0 0 0)).
  { intros g (? & ? & E1 & E2). unfold starting. cbn. by rewrite E1. }
  eapply (main_set _ _ _ _ stats_init stats_init).
  { intros g (? & ? & E1 & E2). unfold starting. cbn. by rewrite E2. }
  apply main_call. intros _. do 2 apply main_vcall. do 2 (apply main_call; intros _).
  do 2 (eapply main_set; [by intros g Hg|]). apply main_vcall.
  apply rg_ret; [apply starting_assertion|done].
Qed.

(** Both tasks can start then. *)
Lemma starting_point `{ES : EventSource src oth on} g :
  starting stats_init stats_init g -> point src L 0 g.
Proof.
  intros (H1 & H2 & H3 & H4).
  assert (Es : src g = mkSource stats_init 0 0 0).
  { destruct (es_src_oth (EventSource := ES)) as [E|E]; destruct (E g) as [-> _]; done. }
  split_and!.
  - exists []. rewrite Es. cbn. split_and!; try done.
  - intros Ha. by rewrite Es in Ha.
  - intros Hb. by rewrite H2 in Hb.
Qed.

Lemma board_verified st se :
  verified (timing_board st se) main_contract [tick_contract; evt_contract].
Proof using HL Hsr2 Hsr3.
  split.
  - apply board_compatible.
  - apply main_rely_interrupt.
  - intros g (H1 & H2 & H3 & H4). cbn. unfold starting. by rewrite H1, H2, H3, H4.
  - eapply rg_post; [|apply main_ok]. intros v g Hg. cbn.
    repeat constructor; by eapply starting_point.
  - cbn. repeat constructor; [apply tick_task_ok|apply evt_task_ok].
Qed.

End board.
