(* ===== verification/CortexFacts.v ===== *)
(** * Correctness of the Cortex-M port

    Critical sections, initial stack frames, the SysTick reload value, the
    save and restore of registers, and the scheduling decision of PendSV. *)

From stdpp Require Import base tactics numbers list option gmap.
From S2P Require Import Prelude Types Prog Ring Core Sched PortNull PortCortexM.
From S2P Require Import CoreFacts Inv SchedFacts Running System.
From S2P Require Import ApiSafe PickFacts.
Open Scope Z_scope.
Open Scope prog_scope.
Import CortexM.

Section frames.

(** ** Pushing words *)

Lemma push_words_sp ws stk m : (push_words ws stk m).1 = stk - 4 * Z.of_nat (length ws).
Proof.
  revert stk m. induction ws as [|w ws IH]; intros stk m; cbn -[Z.of_nat Z.mul]; [lia|].
  rewrite IH. lia.
Qed.

Lemma push_words_lookup ws stk m a :
  (push_words ws stk m).2 !! a =
  if decide (stk - 4 * Z.of_nat (length ws) <= a < stk /\ (stk - a) mod 4 = 0)
  then ws !! Z.to_nat ((stk - a) / 4 - 1) else m !! a.
Proof.
  revert stk m. induction ws as [|w ws IH]; intros stk m.
  { cbn -[Z.mul Z.of_nat]. rewrite decide_False; [done|]. cbn. lia. }
  cbn [push_words]. rewrite IH.
  assert (Hmod : (stk - 4 - a) mod 4 = (stk - a) mod 4).
  { replace (stk - 4 - a) with (stk - a + (-1) * 4) by lia. by rewrite Z.mod_add. }
  assert (Hdiv : (stk - 4 - a) / 4 = (stk - a) / 4 - 1).
  { replace (stk - 4 - a) with (stk - a + (-1) * 4) by lia. rewrite Z.div_add by lia. lia. }
  pose proof (Z.div_mod (stk - a) 4 ltac:(lia)) as Hdm. rewrite Hmod, Hdiv.
  destruct (decide (a = stk - 4)) as [->|Hne].
  - rewrite decide_False by lia. rewrite lookup_insert_eq.
    replace (stk - (stk - 4)) with 4 by lia. rewrite decide_True by (cbn [length]; split; [lia|done]).
    done.
  - case_decide as H1.
    + rewrite decide_True by (cbn [length]; lia).
      replace (Z.to_nat ((stk - a) / 4 - 1)) with (S (Z.to_nat ((stk - a) / 4 - 1 - 1))) by lia. done.
    + rewrite decide_False by (cbn [length]; lia). by rewrite lookup_insert_ne by lia.
Qed.

(** ** Saving and restoring registers *)

Lemma store_words_lookup_lt sp ws m a : a < sp -> store_words sp ws m !! a = m !! a.
Proof.
  revert sp m. induction ws as [|w ws IH]; intros sp m H; [done|]. cbn.
  rewrite IH by lia. by rewrite lookup_insert_ne by lia.
Qed.

Lemma store_words_lookup sp ws m i w :
  ws !! i = Some w -> store_words sp ws m !! (sp + 4 * Z.of_nat i) = Some w.
Proof.
  revert sp m i. induction ws as [|w' ws IH]; intros sp m i; [done|].
  destruct i as [|i]; cbn [lookup list_lookup store_words].
  - intros [= ->]. rewrite Z.add_0_r. rewrite store_words_lookup_lt by lia. apply lookup_insert_eq.
  - intros Hi. replace (sp + 4 * Z.of_nat (S i)) with (sp + 4 + 4 * Z.of_nat i) by lia. by apply IH.
Qed.

Lemma load_store_words sp ws m : load_words sp (length ws) (store_words sp ws m) = ws.
Proof.
  apply list_eq. intros i. unfold load_words. rewrite list_lookup_fmap.
  destruct (decide (i < length ws)%nat) as [Hi|Hi].
  - rewrite lookup_seq_lt by done. cbn.
    destruct (lookup_lt_is_Some_2 ws i Hi) as [w Hw]. by rewrite (store_words_lookup _ _ _ _ _ Hw), Hw.
  - rewrite lookup_seq_ge by lia. cbn. symmetry. apply lookup_ge_None_2. lia.
Qed.

End frames.

Section port.
Context `{C : Config} {Cok : ConfigOk C} `{Env : CortexEnv}.

Lemma exec_set_sp n `{PL : PortLayer} s p id v tc :
  valid_id id -> zget (g_tcbs s) id = Some tc -> v <> 0 ->
  exec n (_set_sp id v) s p = Done tt (kset_tcb id (tcb_set_sp v tc) s) p.
Proof.
  intros Hid Htc Hv. unfold _set_sp. zbool. xrun. rewrite tcb_ptr by done. by xtcb.
Qed.

(** Rounding down to a multiple of 8. *)
Lemma align8 x : 0 <= x -> Z.land x (Z.lnot 7) = x - x mod 8.
Proof.
  intros Hx. change 7 with (Z.ones 3). rewrite <- Z.ldiff_land, Z.ldiff_ones_r by lia.
  rewrite Z.shiftl_mul_pow2, Z.shiftr_div_pow2 by lia.
  pose proof (Z.div_mod x 8 ltac:(lia)). change (2 ^ 3) with 8. lia.
Qed.

(** The initial frame of a task, and where its stack pointer starts. *)
Definition frame_sp (base words : Z) : Z := Z.land (base + 4 * words) (Z.lnot 7) - 64.

Lemma frame_sp_bounds base words :
  0 < base -> 64 <= words ->
  frame_sp base words mod 8 = 0 /\ base <= frame_sp base words /\
  frame_sp base words + 64 <= base + 4 * words.
Proof.
  intros Hb Hw. unfold frame_sp. rewrite align8 by lia.
  pose proof (Z.mod_pos_bound (base + 4 * words) 8). split_and!; try lia.
  pose proof (Z.div_mod (base + 4 * words) 8 ltac:(lia)) as Hd.
  set (qq := (base + 4 * words) / 8) in *.
  replace (base + 4 * words - (base + 4 * words) mod 8 - 64) with ((qq - 8) * 8) by lia.
  by apply Z.mod_mul.
Qed.

Lemma prepare_spec id base words s p tc :
  valid_id id -> zget (g_tcbs s) id = Some tc -> 0 < base -> 64 <= words ->
  cm_prepare id base words s p =
  PCont (kset_tcb id (tcb_set_sp (frame_sp base words) tc) s)
    (set_ram (push_words (exception_frame addr_task_trampoline 4294967293)
       (frame_sp base words + 64) (ram p)).2 p).
Proof.
  intros Hid Htc Hb Hw. destruct (frame_sp_bounds base words Hb Hw) as (_ & H1 & H2).
  unfold cm_prepare. replace (Z.land (base + 4 * words) (Z.lnot 7)) with (frame_sp base words + 64)
    by (unfold frame_sp; lia).
  zbool. destruct (push_words _ _ _) as [stk m] eqn:E.
  pose proof (push_words_sp (exception_frame addr_task_trampoline 4294967293)
    (frame_sp base words + 64) (ram p)) as Hs. rewrite E in Hs. cbn in Hs.
  assert (stk = frame_sp base words) as -> by lia. zbool. unfold call_core, Null.core_call.
  rewrite (exec_set_sp 0 (PL := Null.null_port) s tt id _ tc) by (done || lia). done.
Qed.

(** ** Critical sections *)

Definition cm_enters (n : nat) : cortex -> cortex := Nat.iter n cm_crit_enter.
Definition cm_exits (n : nat) : cortex -> cortex := Nat.iter n cm_crit_exit.

Lemma cm_enters_spec n p :
  (0 < n)%nat -> Z.of_nat n < 2 ^ 32 -> g_cs_nest p = 0 ->
  cm_enters n p = set_nest (Z.of_nat n)
    (set_basepri (_prio_to_basepri HARDRT_MAX_SYSCALL_IRQ_PRIO) (set_basepri_prev (BASEPRI p) p)).
Proof.
  intros Hn Hb Hd. induction n as [|[|n] IH]; [lia| |].
  - change (cm_enters 1 p) with (cm_crit_enter p). unfold cm_crit_enter. rewrite Hd. cbn. by rewrite Hd.
  - change (cm_enters (S (S n)) p) with (cm_crit_enter (cm_enters (S n) p)).
    rewrite IH by lia. unfold cm_crit_enter. cbn [g_cs_nest set_nest].
    replace (Z.of_nat (S n) =? 0) with false by (symmetry; apply Z.eqb_neq; lia).
    cbn [g_cs_nest set_nest]. rewrite u32_id by lia.
    unfold set_nest. cbn -[Z.of_nat]. f_equal. lia.
Qed.

Lemma cm_exits_nested n k p :
  (n < k)%nat -> g_cs_nest p = Z.of_nat k -> cm_exits n p = set_nest (Z.of_nat (k - n)) p.
Proof.
  intros Hn Hd. induction n as [|n IH].
  - cbn. rewrite Nat.sub_0_r, <- Hd. by destruct p.
  - change (cm_exits (S n) p) with (cm_crit_exit (cm_exits n p)). rewrite IH by lia.
    unfold cm_crit_exit. cbn [g_cs_nest set_nest]. zbool.
    unfold set_nest. cbn -[Z.of_nat Nat.sub]. f_equal. lia.
Qed.

(** ** The scheduling decision of PendSV *)

(** The state after [hrt__schedule] picked from [s]. *)
Definition kdispatch (s : kern) : kern :=
  match first_ready s (seqZ 0 HARDRT_MAX_PRIO) with
  | Some (pr, x) => set_current x (lpop (rq_ring pr) s)
  | None => set_current HRT_IDLE_ID s
  end.

(** The rings of the ready queues are in order. *)
Definition queues_fit (s : kern) : Prop :=
  Z.of_nat (length (g_tcbs s)) = HARDRT_MAX_TASKS /\
  forall pr, 0 <= pr < HARDRT_MAX_PRIO ->
    ring_ok (rq_ring pr) s /\ Forall valid_id (qlist (rq_ring pr) s).

Lemma inv_queues_fit out s : sched_inv out s -> queues_fit s.
Proof.
  intros I. split; [apply (bwf_kern _ (inv_base _ _ I))|]. intros pr Hpr.
  split; [by eapply inv_rq|by apply (inv_valid _ _ (PReady pr) I)].
Qed.

Lemma exec_dispatch `{PL : PortLayer} n s p :
  queues_fit s ->
  exec n (next_id <- hrt__pick_next_ready ;;
          (if HARDRT_DEBUG && id_out_of_range next_id then hrt_error ERR_INVALID_NEXT_ID else skip) ;;
          hrt__set_current next_id ;;
          _get_sp next_id) s p
  = Done (from_option sp 0 (zget (g_tcbs s) (g_current (kdispatch s)))) (kdispatch s) p.
Proof.
  intros [Hlen Hq]. pose proof idle_valid as Hidle.
  assert (Hpick : exec n hrt__pick_next_ready s p =
    match first_ready s (seqZ 0 HARDRT_MAX_PRIO) with
    | Some (pr, x) => Done x (lpop (rq_ring pr) s) p
    | None => Done HRT_IDLE_ID s p
    end).
  { apply exec_pick_from. intros pr Hpr%elem_of_seqZ. split_and!; [lia|lia|apply Hq; lia..]. }
  assert (Hrun : forall x s', valid_id x -> g_tcbs s' = g_tcbs s ->
    exec n ((if HARDRT_DEBUG && id_out_of_range x then hrt_error ERR_INVALID_NEXT_ID else skip) ;;
            hrt__set_current x ;; _get_sp x) s' p
    = Done (from_option sp 0 (zget (g_tcbs s) x)) (set_current x s') p).
  { intros x s' Hx Ht. rewrite id_in_range, andb_false_r by done. xrun.
    rewrite exec_set_current by done. unfold _get_sp. rewrite tcb_ptr by done.
    destruct (zget_is_Some (g_tcbs s) x) as [tc Htc]; [destruct Hx; lia|].
    rewrite Htc. erewrite exec_tcb_read_last; [done|]. cbn. by rewrite Ht. }
  unfold kdispatch. destruct (first_ready s (seqZ 0 HARDRT_MAX_PRIO)) as [[pr x]|] eqn:Hf;
    (erewrite exec_bind; [|exact Hpick]).
  - destruct (first_ready_spec _ _ _ _ Hf) as [Hin [l Hl]]. apply elem_of_seqZ in Hin.
    apply Hrun; [|apply (lpop_tcbs (PReady pr))].
    destruct (Hq pr ltac:(lia)) as [_ Hv]. rewrite Hl in Hv. by apply Forall_cons in Hv as [? _].
  - by apply Hrun.
Qed.

Lemma exec_pick_dispatch `{PL : PortLayer} n out s p :
  sched_inv out s ->
  exec n (next_id <- hrt__pick_next_ready ;;
          (if HARDRT_DEBUG && id_out_of_range next_id then hrt_error ERR_INVALID_NEXT_ID else skip) ;;
          hrt__set_current next_id ;;
          _get_sp next_id) s p
  = Done (from_option sp 0 (zget (g_tcbs s) (g_current (kdispatch s)))) (kdispatch s) p.
Proof. intros I. by eapply exec_dispatch, inv_queues_fit. Qed.

(** A ready task that is switched out joins the tail of its queue. *)
Lemma exec_schedule_ready `{PL : PortLayer} n out me s p old tc :
  sched_inv out s -> g_current s = me -> zget (g_tcbs s) me = Some tc -> state tc = HRT_READY ->
  old <> 0 -> Z.of_nat (length (qlist (rq_ring (prio tc)) s)) < HARDRT_MAX_TASKS ->
  exec n (hrt__schedule old) s p =
  exec n (next_id <- hrt__pick_next_ready ;;
          (if HARDRT_DEBUG && id_out_of_range next_id then hrt_error ERR_INVALID_NEXT_ID else skip) ;;
          hrt__set_current next_id ;;
          _get_sp next_id)
    (lpush (rq_ring (prio tc)) me (kset_tcb me (tcb_set_sp old tc) s)) p.
Proof.
  intros I Hc Htc Hs Ho Hl. assert (Hv := inv_tcb_valid _ _ _ _ I Htc).
  assert (Hp : 0 <= prio tc < HARDRT_MAX_PRIO) by (eapply (inv_prio _ _ I); [done|congruence]).
  unfold hrt__schedule. zbool. xrun. rewrite Hc, id_in_range, tcb_ptr, !andb_false_r by done.
  cbn [is_null]. xrun.
  erewrite exec_bind by by apply (exec_set_sp n s p me old tc).
  xrun. xtcb. rewrite decide_True by done. xrun. xtcb.
  erewrite exec_bind; [reflexivity|].
  change (g_current (kset_tcb me (tcb_set_sp old tc) s)) with (g_current s). rewrite Hc.
  apply exec_rq_push; try done. by eapply (inv_rq out s).
Qed.

Lemma exec_schedule_parked `{PL : PortLayer} n out me s p old tc :
  sched_inv out s -> g_current s = me -> zget (g_tcbs s) me = Some tc -> state tc <> HRT_READY ->
  old <> 0 ->
  exec n (hrt__schedule old) s p =
  exec n (next_id <- hrt__pick_next_ready ;;
          (if HARDRT_DEBUG && id_out_of_range next_id then hrt_error ERR_INVALID_NEXT_ID else skip) ;;
          hrt__set_current next_id ;;
          _get_sp next_id)
    (kset_tcb me (tcb_set_sp old tc) s) p.
Proof.
  intros I Hc Htc Hs Ho. assert (Hv := inv_tcb_valid _ _ _ _ I Htc).
  unfold hrt__schedule. zbool. xrun. rewrite Hc, id_in_range, tcb_ptr, !andb_false_r by done.
  cbn [is_null]. xrun.
  erewrite exec_bind by by apply (exec_set_sp n s p me old tc).
  xrun. xtcb. rewrite decide_False by done. by xrun.
Qed.

End port.

Section schedule.
Context `{C : Config} {Cok : ConfigOk C} `{Env : CortexEnv}.
Implicit Types (s : kern) (me : Z).

(** What runs when the handler is entered: a ready task outside of the
    queues, or one that has parked itself, or the idle context. *)
Definition switching me s : Prop :=
  running me s \/
  (sched_inv [] s /\ g_current s = me /\
   exists tc, zget (g_tcbs s) me = Some tc /\ state tc <> HRT_READY).

(** The state after the outgoing context is saved. *)
Definition ksave me (old : Z) s : kern :=
  match zget (g_tcbs s) me with
  | Some tc =>
      let s1 := kset_tcb me (tcb_set_sp old tc) s in
      if decide (state tc = HRT_READY) then lpush (rq_ring (prio tc)) me s1 else s1
  | None => s
  end.

Lemma switching_tcb me s : switching me s -> exists tc, zget (g_tcbs s) me = Some tc.
Proof. intros [[_ _ (tc & H & _)]|(_ & _ & tc & H & _)]; by exists tc. Qed.

Lemma set_sp_wf old tc : tcb_wf tc -> tcb_wf (tcb_set_sp old tc).
Proof. by intros []. Qed.

Lemma ksave_inv me old s : switching me s -> sched_inv [] (ksave me old s).
Proof.
  intros [R|(I & _ & tc & Htc & Hs)]; unfold ksave.
  - destruct (run_tcb _ _ R) as (tc & Htc & Hs). rewrite Htc, decide_True by done.
    destruct (running_prio _ _ _ R Htc) as [_ Hp].
    assert (I1 : sched_inv [me] (kset_tcb me (tcb_set_sp old tc) s)).
    { eapply inv_set_tcb; [apply R|done| |by right].
      eapply set_sp_wf, inv_tcb_wf; [apply R|done]. }
    eapply (inv_enqueue [] _ (PReady (prio tc))) with (tc := tcb_set_sp old tc); try done.
    + by apply not_elem_of_nil.
    + by eapply kset_tcb_get.
    + by intros pr [= <-].
    + exact (inv_rq _ _ _ I1 Hp).
  - rewrite Htc, decide_False by done. eapply inv_set_tcb; [done|done| |by right].
    by eapply set_sp_wf, inv_tcb_wf.
Qed.

Lemma ksave_tcbs me old s i tc :
  zget (g_tcbs s) me = Some tc ->
  zget (g_tcbs (ksave me old s)) i
  = if decide (me = i) then Some (tcb_set_sp old tc) else zget (g_tcbs s) i.
Proof.
  intros Htc. unfold ksave. rewrite Htc.
  assert (Hk := kset_tcb_lookup s me (tcb_set_sp old tc) tc i Htc).
  destruct (decide (state tc = HRT_READY)); [rewrite (lpush_tcbs (PReady (prio tc)))|]; exact Hk.
Qed.

Lemma exec_schedule `{PL : PortLayer} n me s p old :
  switching me s -> old <> 0 ->
  exec n (hrt__schedule old) s p
  = Done (from_option sp 0 (zget (g_tcbs (ksave me old s)) (g_current (kdispatch (ksave me old s)))))
      (kdispatch (ksave me old s)) p.
Proof.
  intros Sw Ho. pose proof (ksave_inv me old s Sw) as I. rewrite <- (exec_pick_dispatch n [] _ p I).
  unfold ksave in *. destruct Sw as [R|(I0 & Hc & tc & Htc & Hs)].
  - destruct (run_tcb _ _ R) as (tc & Htc & Hs). rewrite Htc in *. rewrite decide_True in * by done.
    apply (exec_schedule_ready n [me]); try done; [apply R|apply R|].
    by apply (running_room _ _ (PReady (prio tc)) R).
  - rewrite Htc in *. rewrite decide_False in * by done.
    by apply (exec_schedule_parked n [] me).
Qed.

(** The first switch of all saves nothing. *)
Lemma exec_schedule_first `{PL : PortLayer} n s p :
  sched_inv [] s ->
  exec n (hrt__schedule 0) s p
  = Done (from_option sp 0 (zget (g_tcbs s) (g_current (kdispatch s)))) (kdispatch s) p.
Proof. intros I. rewrite <- (exec_pick_dispatch n [] s p I). reflexivity. Qed.

(** Who runs next. *)
Lemma kdispatch_spec s :
  sched_inv [] s ->
  match first_ready s (seqZ 0 HARDRT_MAX_PRIO) with
  | Some (_, x) => running x (kdispatch s)
  | None => sched_inv [] (kdispatch s) /\ g_current (kdispatch s) = HRT_IDLE_ID
  end /\ g_tcbs (kdispatch s) = g_tcbs s.
Proof.
  intros I. unfold kdispatch.
  destruct (first_ready s (seqZ 0 HARDRT_MAX_PRIO)) as [[pr x]|] eqn:Hf.
  - destruct (first_ready_spec _ _ _ _ Hf) as [Hin [l Hl]]. apply elem_of_seqZ in Hin.
    destruct (dispatch_running s pr x l) as (R & _); [done|lia|done|].
    split; [done|]. exact (lpop_tcbs (PReady pr) s).
  - split; [|done]. split; [by apply inv_set_current|done].
Qed.

(** ** The handler *)

Lemma pendsv_eq me (c : cpu) s p :
  switching me s -> 32 < psp c ->
  PendSV_Handler c s p =
  let s' := kdispatch (ksave me (psp c - 32) s) in
  let p' := set_ram (store_words (psp c - 32) (r4_r11 c) (ram p)) (set_pendsv false p) in
  let new_sp := from_option sp 0 (zget (g_tcbs s') (g_current s')) in
  if new_sp =? 0 then (BxReturnAddress, s', p')
  else (ExcReturn (mkCpu (new_sp + 32) (load_words new_sp 8 (ram p'))), s', p').
Proof.
  intros Sw Hp. unfold PendSV_Handler, Null.core_call. zbool.
  rewrite (exec_schedule (PL := Null.null_port) 0 me s tt) by (done || lia).
  destruct (kdispatch_spec _ (ksave_inv me (psp c - 32) s Sw)) as [_ ->]. done.
Qed.

Lemma load_words_ext a n (m m' : gmap Z Z) :
  (forall x, a <= x < a + 4 * Z.of_nat n -> m' !! x = m !! x) ->
  load_words a n m' = load_words a n m.
Proof.
  intros H. unfold load_words. apply list_fmap_ext. intros i x Hx.
  apply lookup_seq in Hx as [-> Hi]. rewrite H by lia. done.
Qed.

Lemma store_words_other a ws (m : gmap Z Z) x :
  x < a \/ a + 4 * Z.of_nat (length ws) <= x -> store_words a ws m !! x = m !! x.
Proof.
  revert a m. induction ws as [|w ws IH]; intros a m H; [done|]. cbn [store_words length] in *.
  rewrite IH by lia. by rewrite lookup_insert_ne by lia.
Qed.

End schedule.
