(* ===== verification/CritBal.v ===== *)
(** * Critical sections are balanced

    [bal prep m m' c]: on every path through [c], started inside a critical
    section exactly when [m], the critical sections do not nest, each is
    left again, every request for a context switch and every hop to the
    scheduler and every loop comes outside of them, and the program ends
    inside of one exactly when [m']. Only with [prep] does it prepare a task stack. *)

From stdpp Require Import base tactics numbers list option gmap.
From S2P Require Import Prelude Types Prog Ring Core Sched Sem Mutex Queue.
From S2P Require Import Api Running ApiSafe IsrSafe PortNull PortCortexM Frame Stmt.
Open Scope Z_scope.
Open Scope prog_scope.

Definition bal_call (prep m : bool) (c : port_call) : option bool :=
  match c, m with
  | hrt_port_crit_enter, false => Some true
  | hrt_port_crit_exit, true => Some false
  | hrt__pend_context_switch, false | hrt_port_yield_to_scheduler, false => Some false
  | hrt_port_prepare_task_stack _ _ _, false => if prep then Some false else None
  | _, _ => None
  end.

Fixpoint bal {A} (prep m m' : bool) (c : prog A) : Prop :=
  match c with
  | Ret _ => m = m'
  | Halt _ => True
  | Prim f k => forall b, bal prep m m' (k b)
  | Port pc k => exists m1, bal_call prep m pc = Some m1 /\ bal prep m1 m' k
  | Loop body k => m = false /\ bal prep false false body /\ forall b, bal prep false m' (k b)
  end.

(** ** Rules *)

Section rules.
Context {pr : bool}.

Lemma bal_bind {A B} m m1 m' (c : prog A) (f : A -> prog B) :
  bal pr m m1 c -> (forall a, bal pr m1 m' (f a)) -> bal pr m m' (bind c f).
Proof.
  revert B f m. induction c as [A a|A h|A B0 g k IH|A pc k IH|A B0 body IHb k IHk];
    intros B f m; cbn.
  - by intros ->.
  - done.
  - eauto.
  - intros (m2 & E & Hk) Hf. exists m2. eauto.
  - intros (-> & Hb & Hk) Hf. split_and!; eauto.
Qed.

Lemma bal_prep {A} m m' (c : prog A) : bal false m m' c -> bal pr m m' c.
Proof.
  revert m m'. induction c as [A a|A h|A B0 g k IH|A pc k IH|A B0 body IHb k IHk];
    intros m m'; cbn; try done.
  - eauto.
  - intros (m1 & E & Hk). exists m1. split; [|by apply IH]. by destruct pc, m, pr.
  - intros (-> & Hb & Hk). split_and!; eauto.
Qed.

Lemma bal_ret {A} m (a : A) : bal pr m m (Ret a).
Proof. done. Qed.
Lemma bal_prim {A} m (f : kern -> option (A * kern)) : bal pr m m (Prim f Ret).
Proof. done. Qed.
Lemma bal_enter : bal pr false true (call hrt_port_crit_enter).
Proof. by exists true. Qed.
Lemma bal_exit : bal pr true false (call hrt_port_crit_exit).
Proof. by exists false. Qed.
Lemma bal_pend : bal pr false false (call hrt__pend_context_switch).
Proof. by exists false. Qed.
Lemma bal_hop : bal pr false false (call hrt_port_yield_to_scheduler).
Proof. by exists false. Qed.
Lemma bal_if {A} m m' (b : bool) (c d : prog A) :
  bal pr m m' c -> bal pr m m' d -> bal pr m m' (if b then c else d).
Proof. by destruct b. Qed.
Lemma bal_decide {A} m m' (P : Prop) {D : Decision P} (c d : prog A) :
  bal pr m m' c -> bal pr m m' d -> bal pr m m' (if decide P then c else d).
Proof. by destruct (decide P). Qed.
Lemma bal_forever {A} (body : prog (option A)) : bal pr false false body -> bal pr false false (forever body).
Proof. done. Qed.

End rules.

Create HintDb bal.
#[export] Hint Resolve bal_ret bal_prim bal_enter bal_exit bal_pend bal_hop : bal.

(** Walk through a program. *)
Ltac balance :=
  repeat first
    [ progress cbv zeta
    | solve [eauto with bal nocore]
    | eapply bal_bind; [|intros]
    | apply bal_if
    | apply bal_decide
    | apply bal_forever
    | match goal with |- context [match ?x with _ => _ end] => destruct x end ].

(** ** The kernel *)

Section code.
Context `{C : Config} {pr : bool}.

Lemma bal_error m e : bal pr m m (hrt_error e).
Proof. unfold hrt_error. eapply (bal_bind m m); [apply bal_prim|]. intros _. by destruct HARDRT_STALL_ON_ERROR. Qed.
Lemma bal_gets {A} m (f : kern -> A) : bal pr m m (gets f).
Proof. done. Qed.
Lemma bal_reads {A} m (f : kern -> option A) : bal pr m m (reads f).
Proof. done. Qed.
Lemma bal_modify m f : bal pr m m (modify f).
Proof. done. Qed.
Lemma bal_writes m f : bal pr m m (writes f).
Proof. done. Qed.
Lemma bal_skip m : bal pr m m skip.
Proof. done. Qed.

Hint Resolve bal_error bal_gets bal_reads bal_modify bal_writes bal_skip : bal.

Lemma bal_tcb_read {A} m t (f : _hrt_tcb_t -> A) : bal pr m m (tcb_read t f).
Proof. apply bal_reads. Qed.
Lemma bal_tcb_write m t f : bal pr m m (tcb_write t f).
Proof. apply bal_writes. Qed.
Lemma bal_sem_read {A} m a (f : hrt_sem_t -> A) : bal pr m m (Sem.sem_read a f).
Proof. apply bal_reads. Qed.
Lemma bal_sem_write m a f : bal pr m m (Sem.sem_write a f).
Proof. apply bal_writes. Qed.
Lemma bal_mtx_read {A} m a (f : hrt_mutex_t -> A) : bal pr m m (Mutex.mtx_read a f).
Proof. apply bal_reads. Qed.
Lemma bal_mtx_write m a f : bal pr m m (Mutex.mtx_write a f).
Proof. apply bal_writes. Qed.
Lemma bal_queue_read {A} m a (f : hrt_queue_t -> A) : bal pr m m (Queue.queue_read a f).
Proof. apply bal_reads. Qed.
Lemma bal_queue_write m a f : bal pr m m (Queue.queue_write a f).
Proof. apply bal_writes. Qed.
Lemma bal_ring_upd m L f : bal pr m m (ring_upd L f).
Proof. apply bal_writes. Qed.
Lemma bal_ring_count m L : bal pr m m (ring_count L).
Proof. apply bal_reads. Qed.
Lemma bal_ring_read m L : bal pr m m (ring_read_head L).
Proof. apply bal_reads. Qed.
Lemma bal_get_current m : bal pr m m hrt__get_current.
Proof. apply bal_gets. Qed.

Hint Resolve bal_tcb_read bal_tcb_write bal_sem_read bal_sem_write bal_mtx_read bal_mtx_write
  bal_queue_read bal_queue_write bal_ring_upd bal_ring_count bal_ring_read bal_get_current : bal.

Lemma bal_rq_push m p id : bal pr m m (rq_push p id).
Proof. unfold rq_push, ring_store, ring_advance_tail, ring_inc_count. balance. Qed.
Lemma bal_find_unused m ids : bal pr m m (find_unused ids).
Proof. induction ids as [|i ids IH]; [done|]. cbn [find_unused]. balance. Qed.
Hint Resolve bal_rq_push bal_find_unused : bal.

Lemma bal_make_ready m id : bal pr m m (hrt__make_ready id).
Proof. unfold hrt__make_ready. balance. Qed.
Lemma bal_yield : bal pr false false hrt_yield.
Proof. unfold hrt_yield. balance. Qed.
Lemma bal_sleep ms : bal pr false false (hrt_sleep ms).
Proof. unfold hrt_sleep. balance. Qed.
Lemma bal_delete : bal pr false false hrt_task_delete.
Proof. unfold hrt_task_delete. balance. Qed.
Hint Resolve bal_make_ready bal_yield bal_sleep bal_delete : bal.

Lemma bal_wake_sleepers m ids trig : bal pr m m (wake_sleepers ids trig).
Proof.
  revert trig. induction ids as [|i ids IH]; intros trig; [done|]. cbn [wake_sleepers].
  unfold hrt_tick_now. balance.
Qed.
Lemma bal_account m trig : bal pr m m (account_slice trig).
Proof. unfold account_slice, hrt__policy. balance. Qed.
Hint Resolve bal_wake_sleepers bal_account : bal.

Lemma bal_tick : bal pr false false hrt__tick_isr.
Proof. unfold hrt__tick_isr, hrt__inc_tick. balance. Qed.
Hint Resolve bal_tick : bal.
Lemma bal_ext_tick : bal pr false false hrt_tick_from_isr.
Proof. unfold hrt_tick_from_isr, hrt__cfg_tick_src. balance. Qed.
Hint Resolve bal_ext_tick : bal.
Lemma bal_systick : bal pr false false CortexM.SysTick_Handler.
Proof. unfold CortexM.SysTick_Handler, hrt__cfg_tick_src. balance. Qed.

(** ** The primitives *)

Lemma bal_sem_push m a id : bal pr m m (Sem._waitq_push a id).
Proof. unfold Sem._waitq_push, ring_store, ring_advance_tail, ring_inc_count. balance. Qed.
Lemma bal_sem_pop m a : bal pr m m (Sem._waitq_pop a).
Proof. unfold Sem._waitq_pop, ring_advance_head, ring_dec_count. balance. Qed.
Lemma bal_mutex_push m a id : bal pr m m (Mutex._waitq_push a id).
Proof. unfold Mutex._waitq_push, ring_store, ring_advance_tail, ring_inc_count. balance. Qed.
Lemma bal_mutex_pop m a : bal pr m m (Mutex._waitq_pop a).
Proof. unfold Mutex._waitq_pop, ring_advance_head, ring_dec_count. balance. Qed.
Lemma bal_wq_push m L id : bal pr m m (Queue._wq_push L id).
Proof. unfold Queue._wq_push, ring_store, ring_advance_tail, ring_inc_count. balance. Qed.
Lemma bal_wq_pop m L : bal pr m m (Queue._wq_pop L).
Proof. unfold Queue._wq_pop, ring_advance_head, ring_dec_count. balance. Qed.
Hint Resolve bal_sem_push bal_sem_pop bal_mutex_push bal_mutex_pop bal_wq_push bal_wq_pop : bal.

Lemma bal_try_take a : bal pr false false (Sem.hrt_sem_try_take a).
Proof. unfold Sem.hrt_sem_try_take. balance. Qed.
Lemma bal_give a isr out : bal pr false false (Sem._give_common a isr out).
Proof. unfold Sem._give_common. balance. Qed.
Hint Resolve bal_try_take bal_give : bal.
Lemma bal_take a : bal pr false false (Sem.hrt_sem_take a).
Proof. unfold Sem.hrt_sem_take. balance. Qed.

Lemma bal_ownership m a id : bal pr m m (Mutex.take_ownership a id).
Proof. unfold Mutex.take_ownership. balance. Qed.
Hint Resolve bal_ownership : bal.
Lemma bal_try_lock a : bal pr false false (Mutex.hrt_mutex_try_lock a).
Proof. unfold Mutex.hrt_mutex_try_lock. balance. Qed.
Hint Resolve bal_try_lock : bal.
Lemma bal_lock a : bal pr false false (Mutex.hrt_mutex_lock a).
Proof. unfold Mutex.hrt_mutex_lock. balance. Qed.
Lemma bal_unlock a : bal pr false false (Mutex.hrt_mutex_unlock a).
Proof. unfold Mutex.hrt_mutex_unlock. balance. Qed.

Lemma bal_enqueue m a item : bal pr m m (Queue._enqueue_cs a item).
Proof. unfold Queue._enqueue_cs. balance. Qed.
Lemma bal_dequeue m a : bal pr m m (Queue._dequeue_cs a).
Proof. unfold Queue._dequeue_cs. balance. Qed.
Lemma bal_wake_one m L : bal pr m m (Queue.wake_one L).
Proof. unfold Queue.wake_one. balance. Qed.
Hint Resolve bal_enqueue bal_dequeue bal_wake_one : bal.
Lemma bal_try_send a item : bal pr false false (Queue.hrt_queue_try_send a item).
Proof. unfold Queue.hrt_queue_try_send. balance. Qed.
Lemma bal_try_recv a : bal pr false false (Queue.hrt_queue_try_recv a).
Proof. unfold Queue.hrt_queue_try_recv. balance. Qed.
Hint Resolve bal_try_send bal_try_recv bal_take bal_lock bal_unlock : bal.
Lemma bal_send a item : bal pr false false (Queue.hrt_queue_send a item).
Proof. unfold Queue.hrt_queue_send, Queue.send_body. balance. Qed.
Lemma bal_recv a : bal pr false false (Queue.hrt_queue_recv a).
Proof. unfold Queue.hrt_queue_recv, Queue.recv_body. balance. Qed.
Hint Resolve bal_send bal_recv : bal.

End code.

#[export] Hint Resolve bal_error bal_gets bal_reads bal_modify bal_writes bal_skip bal_tcb_read
  bal_tcb_write bal_find_unused bal_rq_push bal_yield bal_sleep bal_delete bal_tick bal_ext_tick
  bal_systick bal_try_take bal_take bal_give bal_try_lock bal_lock bal_unlock bal_try_send
  bal_try_recv bal_send bal_recv bal_queue_read bal_enqueue bal_dequeue bal_wake_one : bal.

Section programs.
Context `{C : Config} {Cok : ConfigOk C}.

Lemma bal_prepare i b w : bal true false false (call (hrt_port_prepare_task_stack i b w)).
Proof. by exists false. Qed.
Hint Resolve bal_prepare : bal.

Lemma bal_create fn argp stack n attr : bal true false false (hrt_create_task fn argp stack n attr).
Proof. unfold hrt_create_task. balance. Qed.
Hint Resolve bal_create : bal.

Lemma bal_api c : bal true false false (api_prog c).
Proof.
  destruct c; cbn [api_prog]; unfold int_call, void_call, hrt_tick_now, hrt_now_ms, hrt_set_policy,
    hrt_set_default_timeslice, Sem.hrt_sem_give, Queue.hrt_queue_count; balance.
Qed.

Lemma bal_isr h : bal false false false (isr_prog h).
Proof.
  destruct h; cbn [isr_prog]; unfold Sem.hrt_sem_give_from_isr, Queue.hrt_queue_try_send_from_isr,
    Queue.hrt_queue_try_recv_from_isr; balance.
Qed.

End programs.

(** ** On the Cortex-M port *)

Section cortex.
Context `{C : Config} {Cok : ConfigOk C} `{Env : CortexM.CortexEnv}.
Import CortexM.
Implicit Types (s : kern) (p : cortex).

Definition syscall_level : Z := _prio_to_basepri HARDRT_MAX_SYSCALL_IRQ_PRIO.

(** Inside, and outside, of a critical section. *)
Definition mask_ok (m : bool) p : Prop :=
  if m then g_cs_nest p = 1 /\ BASEPRI p = syscall_level /\ g_basepri_prev p = 0
  else g_cs_nest p = 0 /\ BASEPRI p = 0.

(** What critical sections and switch requests leave alone. *)
Definition port_rest p :=
  (irq_enabled p, (SysTick_LOAD p, SysTick_VAL p, SysTick_CTRL p), (SHPR10 p, SHPR11 p),
   ram p, g_idle_tcb p).

Lemma call_core_mask m c s p :
  mask_ok m p ->
  match call_core c s p with PCont _ p' => mask_ok m p' | PSwap _ _ => False | PStop _ _ _ => True end.
Proof. intros H. unfold call_core. by destruct (Null.core_call c s). Qed.

Lemma bal_call_mask m m1 pc s p :
  bal_call true m pc = Some m1 -> mask_ok m p ->
  match port_do (H := cortex_port) pc s p with
  | PCont _ p' => mask_ok m1 p'
  | PSwap _ _ => False
  | PStop _ _ _ => True
  end.
Proof.
  intros Hc. destruct pc as [| | | | | |i b w|], m; try discriminate Hc; injection Hc as <-;
    cbn -[call_core cm_prepare].
  - intros [Hn Hb]. unfold cm_crit_enter. rewrite Hn, Hb. cbn. by rewrite Hn.
  - intros (Hn & Hb & Hv). unfold cm_crit_exit. rewrite Hn. cbn. by rewrite Hv.
  - done.
  - done.
  - intros H. unfold cm_prepare.
    destruct (_ || _); [by apply (call_core_mask false)|].
    destruct (push_words _ _ _) as [stk mm]. destruct (stk <? b); by apply (call_core_mask false).
Qed.

Lemma bal_call_port m m1 pc s p :
  bal_call false m pc = Some m1 -> mask_ok m p ->
  exists p', port_do (H := cortex_port) pc s p = PCont s p' /\ mask_ok m1 p' /\
             port_rest p' = port_rest p /\ (pendsv p = true -> pendsv p' = true).
Proof.
  intros Hc Hm. assert (Hc' : bal_call true m pc = Some m1)
    by (destruct pc, m; first [discriminate Hc|exact Hc]).
  pose proof (bal_call_mask m m1 pc s p Hc' Hm) as H.
  destruct pc, m; try discriminate Hc; (eexists; split; [reflexivity|split; [exact H|]]).
  - cbn. unfold cm_crit_enter. by destruct (g_cs_nest p =? 0).
  - cbn. unfold cm_crit_exit. destruct (g_cs_nest p =? 0); [done|].
    by destruct (g_cs_nest (set_nest _ _) =? 0).
  - by split.
  - by split.
Qed.

Lemma bal_stmt {A} m m' (c : prog A) s p c' s' p' :
  bal true m m' c -> mask_ok m p -> stmt (PL := cortex_port) c s p = SNext c' s' p' ->
  exists m1, bal true m1 m' c' /\ mask_ok m1 p'.
Proof.
  destruct c as [a|h|B g k|pc k|B body k]; cbn [stmt bal]; try done.
  - intros Hk Hm. destruct (g s) as [[b s1]|]; [|done]. intros [= <- <- <-]. by exists m.
  - intros (m1 & Hc & Hk) Hm. pose proof (bal_call_mask _ _ _ s _ Hc Hm) as H.
    destruct (port_do (H := cortex_port) pc s p); try done. intros [= <- <- <-]. by exists m1.
  - intros (-> & Hb & Hk) Hm [= <- <- <-]. exists false. split; [|done].
    eapply bal_bind; [exact Hb|]. intros [b|]; [apply Hk|by split_and!].
Qed.

Lemma bal_steps {A} k m m' (c : prog A) s p c' s' p' :
  bal true m m' c -> mask_ok m p -> run_steps (PL := cortex_port) k c s p = Some (c', s', p') ->
  exists m1, bal true m1 m' c' /\ mask_ok m1 p'.
Proof.
  revert m c s p. induction k as [|k IH]; intros m c s p Hb Hm; cbn [run_steps].
  - intros [= <- <- <-]. by exists m.
  - destruct (stmt (PL := cortex_port) c s p) as [| |c1 s1 p1|] eqn:E; try done.
    destruct (bal_stmt _ _ _ _ _ _ _ _ Hb Hm E) as (m1 & Hb1 & Hm1). by eapply IH.
Qed.

(** A handler returns with the critical sections as it found them, and
    with nothing else of the port changed. *)
Lemma iter_bal {A B} n (run : kern -> cortex -> @result cortex_port (option B))
    (leave : B -> kern -> cortex -> @result cortex_port A) again m m' s p a s' p' :
  (forall s p o s' p', mask_ok m p -> run s p = Done o s' p' ->
     mask_ok m p' /\ port_rest p' = port_rest p) ->
  (forall b s p a s' p', mask_ok m p -> leave b s p = Done a s' p' ->
     mask_ok m' p' /\ port_rest p' = port_rest p) ->
  mask_ok m p -> iter_loop (H := cortex_port) n run leave again s p = Done a s' p' ->
  mask_ok m' p' /\ port_rest p' = port_rest p.
Proof.
  intros Hr Hl. revert s p. induction n as [|n IH]; intros s p Hm; cbn [iter_loop]; [done|].
  destruct (run s p) as [[b|] s1 p1|k1 s1 p1|h s1 p1|s1 p1] eqn:E; try done;
    destruct (Hr _ _ _ _ _ Hm E) as [Hm1 E1]; rewrite <- E1; [by apply Hl|by apply IH].
Qed.

Lemma bal_exec {A} n m m' (c : prog A) s p a s' p' :
  bal false m m' c -> mask_ok m p -> exec (H := cortex_port) n c s p = Done a s' p' ->
  mask_ok m' p' /\ port_rest p' = port_rest p.
Proof.
  revert m m' s p a s' p'. induction c as [A a0|A h|A B g k IH|A pc k IH|A B body IHb k IHk];
    intros m m' s p a s' p'; cbn [exec bal].
  - intros -> Hm [= _ _ <-]. done.
  - done.
  - intros Hk Hm. destruct (g s) as [[b s1]|]; [|done]. by eapply IH.
  - intros (m1 & Hc & Hk) Hm. destruct (bal_call_port _ _ _ s _ Hc Hm) as (p1 & -> & Hm1 & <- & _).
    by eapply IH.
  - intros (-> & Hb & Hk) Hm. apply (iter_bal n _ _ _ false m'); [|by intros; eapply IHk|done].
    intros s1 p1 o s2 p2 Hm1 E. eapply IHb; [exact Hb|done|exact E].
Qed.

(** It leaves the kernel state to its own statements. *)
Lemma bal_quiet {A} m m' (c : prog A) :
  bal false m m' c -> calls_of (quiet_call (PL := cortex_port)) c.
Proof.
  revert m m'. induction c as [A a0|A h|A B g k IH|A pc k IH|A B body IHb k IHk];
    intros m m'; cbn [calls_of bal]; try done.
  - eauto.
  - intros (m1 & Hc & Hk). split; [|by eapply IH].
    destruct pc, m; first [discriminate Hc|intros s p; reflexivity].
  - intros (-> & Hb & Hk). split; eauto.
Qed.

End cortex.
