(* ===== verification/StmtSafe.v ===== *)
(** * Calls that can be interrupted between any two statements

    A task can be interrupted, and on some ports lose the processor, between
    two statements of a call. [ok ph c] says that what is left of a call is
    safe under that. Outside of a critical section ([Open]) every statement
    is safe in every state in which the task runs; inside of one
    ([Masked s0 s]) the statements run from [s0] on without interference; a
    task that has parked itself ([Parked]) asks for a switch next, and gives
    up the processor after it has asked ([Asked]). [Window s] is the part of
    [hrt_yield] that puts the task back into its ready queue: it is not a
    critical section, but nothing may interrupt it.

    What a port makes of a request for a switch, and what is to be known
    about the other tasks, are the parameters of the class [Regime]. *)

From stdpp Require Import base tactics numbers list option gmap.
From S2P Require Import Prelude Types Prog Ring Core Sched Sem Mutex Queue PortNull.
From S2P Require Import CoreFacts Inv SchedFacts SemFacts MutexFacts QueueFacts.
From S2P Require Import Running Api ApiSafe ApiCalls ApiTheorem Frame Stmt.
Open Scope Z_scope.
Open Scope prog_scope.

Inductive phase := Open | Masked (s0 s : kern) | Window (s : kern) | Parked | Asked.

(** Which objects exist: it does not change while tasks run. *)
Definition world := (gmap Z unit * gmap Z unit * gmap Z Z)%type.

(** The other tasks, and what is fixed about this one, stay as they are. *)
Definition own me s s' : Prop :=
  g_current s' = g_current s /\ statics s' = statics s /\
  forall i, i <> me -> zget (g_tcbs s') i = zget (g_tcbs s) i.

(** How the tasks are interleaved: whether a switch is taken as soon as it
    is asked for; what a statement of [me] inside of a critical section
    leaves alone, and what a statement outside of one, and a critical section
    as a whole, leave alone. *)
Class Regime := {
  at_once : bool;
  inside : Z -> kern -> kern -> Prop;
  across : Z -> kern -> kern -> Prop;
  across_inside me s s' : across me s s' -> inside me s s';
  across_trans me s1 s2 s3 : across me s1 s2 -> across me s2 s3 -> across me s1 s3;
  across_same me s s' : g_tcbs s' = g_tcbs s -> g_current s' = g_current s -> across me s s';
  across_set me s tc tc' :
    zget (g_tcbs s) me = Some tc -> state tc = HRT_READY -> tcb_static tc' = tcb_static tc ->
    across me s (kset_tcb me tc' s)
}.

Section ok.
Context `{C : Config} {Rg : Regime}.
Implicit Types (s : kern) (me : Z) (w : world).

Record open_at me w s : Prop := {
  open_run : running me s;
  open_obj : objects_ok s;
  open_shape : shape s = w
}.

(** [hrt__on_scheduler_entry] has nothing to do for the task. *)
Definition no_requeue s (tc : _hrt_tcb_t) : Prop :=
  slice_left tc <> 0 \/ timeslice_cfg tc <= 0 \/ rr_policy (g_policy s) = false.

Record parked_at me w s : Prop := {
  pk_inv : sched_inv [] s;
  pk_cur : g_current s = me;
  pk_tcb : exists tc, zget (g_tcbs s) me = Some tc /\
             (state tc <> HRT_READY \/ at_once = false /\ no_requeue s tc);
  pk_obj : objects_ok s;
  pk_shape : shape s = w
}.

(** The phase a statement that left the kernel in [s] leads to. *)
Definition lands me w s (ph : phase) : Prop :=
  match ph with
  | Open => open_at me w s
  | Parked => parked_at me w s
  | Window s1 => s1 = s /\ g_current s = me
  | Masked _ _ | Asked => False
  end.

(** What is left of the part of [hrt_yield] that requeues the task, after
    the quantum has been refilled. *)
Inductive in_requeue : prog unit -> Prop :=
  | iq_prio t :
      in_requeue (p <- tcb_read t prio ;; cur' <- gets g_current ;; rq_push p (u8 cur'))
  | iq_cur p : in_requeue (cur' <- gets g_current ;; rq_push p (u8 cur'))
  | iq_push p id : in_requeue (rq_push p id)
  | iq_store p id :
      in_requeue (ring_store (rq_ring p) id ;; ring_advance_tail (rq_ring p) ;; ring_inc_count (rq_ring p))
  | iq_tail p : in_requeue (ring_advance_tail (rq_ring p) ;; ring_inc_count (rq_ring p))
  | iq_count p : in_requeue (ring_inc_count (rq_ring p)).

Definition requeuing {A} (c : prog A) : Prop := exists r k, in_requeue r /\ c = bind r k.

Fixpoint ok {A} me w (ph : phase) (c : prog A) : Prop :=
  match c with
  | Ret _ => ph = Open
  | Halt _ => False
  | Loop body k => ph = Open /\ ok me w Open body /\ forall b, ok me w Open (k b)
  | Prim f k =>
      match ph with
      | Open => forall s, open_at me w s ->
          exists b s' ph', f s = Some (b, s') /\ across me s s' /\ lands me w s' ph' /\ ok me w ph' (k b)
      | Masked s0 s =>
          exists b s', f s = Some (b, s') /\ inside me s s' /\ ok me w (Masked s0 s') (k b)
      | Window s => at_once = false /\ requeuing c /\
          exists b s' ph', f s = Some (b, s') /\ across me s s' /\ lands me w s' ph' /\ ok me w ph' (k b)
      | Parked | Asked => False
      end
  | Port hrt_port_crit_enter k =>
      ph = Open /\ forall s, open_at me w s -> ok me w (Masked s s) k
  | Port hrt_port_crit_exit k =>
      match ph with
      | Masked s0 s => across me s0 s /\ exists ph', lands me w s ph' /\ ok me w ph' k
      | _ => False
      end
  | Port hrt__pend_context_switch k =>
      match ph with
      | Open => ok me w Open k
      | Parked => ok me w (if at_once then Open else Asked) k
      | _ => False
      end
  | Port hrt_port_yield_to_scheduler k =>
      match ph with
      | Open | Parked => at_once = true /\ ok me w Open k
      | Asked => at_once = false /\ ok me w Open k
      | _ => False
      end
  | Port _ _ => False
  end.

(** Statements without a call of the port and without a loop, that do not
    touch the task table. *)
Definition tasks s := (g_tcbs s, g_current s).

Fixpoint straight {A} (c : prog A) : Prop :=
  match c with
  | Ret _ | Halt _ => True
  | Prim f k => prim_keeps tasks f /\ forall b, straight (k b)
  | Port _ _ | Loop _ _ => False
  end.

End ok.

Section rules.
Context `{C : Config} {Cok : ConfigOk C} {Rg : Regime}.
Context {me : Z} {w : world}.
Implicit Types (s : kern).
Local Abbreviation ok := (ok me w).

Lemma across_refl s : across me s s.
Proof. by apply across_same. Qed.

Lemma ok_bind {A B} ph (c : prog A) (f : A -> prog B) :
  ok ph c -> (forall a, ok Open (f a)) -> ok ph (bind c f).
Proof.
  intros Hc Hf. revert B f ph Hc Hf. induction c as [A a|A h|A B0 g k IH|A pc k IH|A B0 body IHb k IHk];
    intros B f ph; cbn [bind StmtSafe.ok].
  - intros -> Hf. apply Hf.
  - done.
  - destruct ph as [|s0 s|s| |]; intros H Hf; try done.
    + intros s Hs. destruct (H s Hs) as (b & s' & ph' & E & Ho & Hl & Hk). exists b, s', ph'. eauto.
    + destruct H as (b & s' & E & Ho & Hk). exists b, s'. eauto.
    + destruct H as (Ha & (r & k0 & Hr & Hp) & b & s' & ph' & E & Ho & Hl & Hk). split; [done|]. split.
      * exists r, (fun u => bind (k0 u) f). split; [done|]. by rewrite <- bind_assoc, <- Hp.
      * exists b, s', ph'. eauto.
  - destruct pc, ph as [|s0 s|s| |]; try done; intros H Hf; try (by apply IH);
      try (destruct H as [? H]; split; [done|]); try done; try (by apply IH).
    + intros s Hs. by apply IH; [apply H|].
    + destruct H as (ph' & Hl & Hk). exists ph'. eauto.
  - intros (-> & Hb & Hk) Hf. split; [done|]. split; [done|]. intros b. by apply IHk.
Qed.

Lemma ok_loop {A B} (body : prog (option B)) (k : B -> prog A) :
  ok Open (Loop body k) -> ok Open (bind body (loop_rest body k)).
Proof.
  intros (_ & Hb & Hk). apply ok_bind; [done|]. intros [b|]; [apply Hk|]. done.
Qed.

(** Where a switch is taken at once, nothing is inserted into a ready queue
    outside of a critical section. *)
Lemma ok_no_window {A} s (c : prog A) : at_once = true -> ~ ok (Window s) c.
Proof.
  intros Ha. destruct c as [a|h|B f k|pc k|B body k]; cbn; try done; try (by intros []).
  - rewrite Ha. by intros [].
  - destruct pc; try done; by intros [].
Qed.

Lemma ok_masked {A B} s0 s (c : prog A) (f : A -> prog B) a s' :
  straight c -> Null.core_call c s = @Done Null.null_port _ a s' tt -> ok (Masked s0 s') (f a) ->
  ok (Masked s0 s) (bind c f).
Proof.
  unfold Null.core_call. revert B f s a s'.
  induction c as [A a0|A h|A B0 g k IH|A pc k IH|A B0 body IHb k IHk];
    intros B f s a s'; cbn [straight exec bind StmtSafe.ok]; try done.
  - intros _ [= -> ->]. done.
  - intros [Hg Hs] E Hf. destruct (g s) as [[b s1]|] eqn:Eg; [|done]. exists b, s1.
    split; [done|]. split; [|by eapply IH]. pose proof (Hg _ _ _ Eg) as [= Et Ec].
    by apply across_inside, across_same.
Qed.

Lemma ok_skip {A} ph (f : unit -> prog A) : ok ph (f tt) -> ok ph (bind skip f).
Proof. done. Qed.

(** Entering and leaving a critical section. *)
Lemma ok_enter {A} (f : unit -> prog A) :
  (forall s, open_at me w s -> ok (Masked s s) (f tt)) -> ok Open (bind (call hrt_port_crit_enter) f).
Proof. by split. Qed.

Lemma ok_exit {A} s0 s ph (f : unit -> prog A) :
  across me s0 s -> lands me w s ph -> ok ph (f tt) ->
  ok (Masked s0 s) (bind (call hrt_port_crit_exit) f).
Proof. intros Ha Hl Hk. split; [done|]. by exists ph. Qed.

Lemma ok_gets {A B} (f : kern -> A) (k : A -> prog B) :
  (forall s, open_at me w s -> ok Open (k (f s))) -> ok Open (bind (gets f) k).
Proof. intros H s Hs. exists (f s), s, Open. split_and!; [done|apply across_refl|done|by apply H]. Qed.

Lemma ok_reads {A B} (f : kern -> option A) (k : A -> prog B) :
  (forall s, open_at me w s -> exists v, f s = Some v /\ ok Open (k v)) -> ok Open (bind (reads f) k).
Proof.
  intros H s Hs. destruct (H s Hs) as (v & E & Hk). exists v, s, Open. rewrite E.
  split_and!; [done|apply across_refl|done|done].
Qed.

Lemma ok_writes {A} f (k : unit -> prog A) ph :
  (forall s, open_at me w s -> exists s', f s = Some s' /\ across me s s' /\ lands me w s' ph) ->
  ok ph (k tt) -> ok Open (bind (writes f) k).
Proof.
  intros H Hk s Hs. destruct (H s Hs) as (s' & E & Ho & Hl). exists tt, s', ph.
  rewrite E. done.
Qed.

Lemma ok_modify {A} f (k : unit -> prog A) :
  (forall s, open_at me w s -> across me s (f s) /\ open_at me w (f s)) ->
  ok Open (k tt) -> ok Open (bind (modify f) k).
Proof.
  intros H Hk s Hs. destruct (H s Hs) as (Ho & Hl). by exists tt, (f s), Open.
Qed.

(** ** States *)

Lemma open_valid s : open_at me w s -> valid_id me.
Proof. intros Hs. by eapply running_valid, Hs. Qed.

Lemma open_tcb s : open_at me w s -> exists tc, zget (g_tcbs s) me = Some tc /\ state tc = HRT_READY.
Proof. intros [[_ _ H] _ _]. exact H. Qed.

Lemma open_same s s' :
  open_at me w s -> sched_inv [me] s' -> g_tcbs s' = g_tcbs s -> g_current s' = g_current s ->
  obj_step s s' -> across me s s' /\ open_at me w s'.
Proof.
  intros [R O E] I Et Ec Ho. destruct (Ho O) as [O' E'].
  split; [by apply across_same|].
  split; [|done|congruence]. eapply running_step; [exact R|done|done|by rewrite Et].
Qed.

Lemma open_error s e : open_at me w s -> across me s (set_error e s) /\ open_at me w (set_error e s).
Proof.
  intros Hs. apply open_same; [done|apply inv_set_error, Hs|done|done|by apply obj_same].
Qed.

(** Waiting in a queue of an object parks the task. *)
Lemma open_block s pl tc :
  open_at me w s -> zget (g_tcbs s) me = Some tc -> place_state pl = HRT_BLOCKED ->
  ring_ok (ring_of pl) s -> obj_step s (kblock pl me tc s) ->
  across me s (kblock pl me tc s) /\ parked_at me w (kblock pl me tc s).
Proof.
  intros [R O E] Htc Hpl Hr Ho. destruct (Ho O) as [O' E'].
  assert (Et := lpush_tcbs pl me s).
  assert (Ha : across me s (kblock pl me tc s)).
  { apply across_trans with (lpush (ring_of pl) me s).
    - apply across_same; [done|apply (lpush_scalars pl me s)].
    - eapply across_set; [by rewrite Et|by destruct (running_prio _ _ _ R Htc)|done]. }
  split; [done|].
  split; [by apply kblock_inv|rewrite kblock_current; apply R| |done|congruence].
  exists (tcb_set_state HRT_BLOCKED tc). split; [|by left]. unfold kblock. eapply kset_tcb_get. by rewrite Et.
Qed.

(** ** The calls on the task itself *)

Lemma ok_hop {A} ph (f : unit -> prog A) :
  ph = Parked -> ok Open (f tt) ->
  ok ph (bind (call hrt__pend_context_switch) (fun _ =>
         bind (call hrt_port_yield_to_scheduler) f)).
Proof. intros -> Hk. cbn. by destruct at_once. Qed.

Lemma ok_hop_last ph :
  ph = Parked ->
  ok ph (bind (call hrt__pend_context_switch) (fun _ => call hrt_port_yield_to_scheduler)).
Proof. intros ->. cbn. by destruct at_once. Qed.

Lemma ok_current {A} (k : Z -> prog A) : ok Open (k me) -> ok Open (bind (gets g_current) k).
Proof. intros H. apply ok_gets. intros s [[_ -> _] _ _]. done. Qed.

Hypothesis Hme : valid_id me.

Lemma ok_prog_sleep ms : ok Open (hrt_sleep ms).
Proof.
  unfold hrt_sleep. apply ok_current. pose proof Hme as [? ?]. zbool.
  rewrite !andb_false_r, tcb_ptr by done. cbn [is_null]. rewrite andb_false_r.
  apply ok_gets. intros s0 Hs0. generalize (hrt__ms_to_ticks ms (g_tick_hz s0)). intros ticks.
  apply (ok_writes _ _ Open).
  - intros s Hs. destruct (open_tcb s Hs) as (tc & Htc & Hst). eexists.
    split; [by apply tcb_upd_Some|].
    match goal with |- across _ _ (kset_tcb _ ?t _) /\ _ =>
      assert (Ha : across me s (kset_tcb me t s)) by by eapply across_set end.
    split; [done|]. destruct Hs as [R O E]. split; [|exact O|exact E]. destruct (inv_tcb_wf _ _ _ _ (run_inv _ _ R) Htc).
    split; [|apply R|].
    + eapply inv_set_tcb; [apply R|done| |by right]. split; cbn -[Z.pow u32]; try done. apply u32_range.
    + eexists. split; [by eapply kset_tcb_get|done].
  - apply (ok_writes _ _ Parked); [|by apply ok_hop_last].
    intros s Hs. destruct (open_tcb s Hs) as (tc & Htc & Hst). eexists.
    split; [by apply tcb_upd_Some|].
    assert (Ha : across me s (kset_tcb me (tcb_set_state HRT_SLEEP tc) s)) by by eapply across_set.
    split; [done|]. destruct Hs as [R O E]. destruct (running_prio _ _ _ R Htc) as [_ Hp].
    split; [|apply R| |exact O|exact E].
    + eapply inv_release; [|by eapply kset_tcb_get|by left].
      eapply inv_set_tcb; [apply R|done| |left; split; [apply list_elem_of_here|done]].
      by destruct (inv_tcb_wf _ _ _ _ (run_inv _ _ R) Htc).
    + eexists. split; [by eapply kset_tcb_get|by left].
Qed.

(** ** Inside of a critical section *)

Lemma ok_m_reads {A B} s0 s (f : kern -> option A) (k : A -> prog B) v :
  f s = Some v -> ok (Masked s0 s) (k v) -> ok (Masked s0 s) (bind (reads f) k).
Proof. intros E Hk. exists v, s. rewrite E. split; [done|].
  split; [apply across_inside, across_refl|done].
Qed.

Lemma ok_m_writes {A} s0 s f (k : unit -> prog A) s' :
  f s = Some s' -> across me s s' -> ok (Masked s0 s') (k tt) -> ok (Masked s0 s) (bind (writes f) k).
Proof. intros E Ho%across_inside Hk. exists tt, s'. by rewrite E. Qed.

(** The end of a wait: the task, which is in the queue already, is marked
    blocked, the critical section ends and the processor is given up. *)
Lemma ok_block_hop {A} s0 pl tc (f : unit -> prog A) :
  across me s0 (kblock pl me tc s0) -> parked_at me w (kblock pl me tc s0) ->
  zget (g_tcbs s0) me = Some tc -> state tc = HRT_READY -> ok Open (f tt) ->
  ok (Masked s0 (lpush (ring_of pl) me s0))
    (bind (tcb_write (hrt__tcb me) (tcb_set_state HRT_BLOCKED)) (fun _ =>
     bind (call hrt_port_crit_exit) (fun _ =>
     bind (call hrt__pend_context_switch) (fun _ =>
     bind (call hrt_port_yield_to_scheduler) f)))).
Proof.
  intros Ho Hl Htc Hst Hf. rewrite tcb_ptr by done. assert (Et := lpush_tcbs pl me s0).
  eapply ok_m_writes; [apply tcb_upd_Some; by rewrite Et|eapply across_set; [by rewrite Et|done|done]|].
  apply (ok_exit _ _ Parked); [exact Ho|exact Hl|by apply ok_hop].
Qed.

Lemma ok_prog_delete : ok Open hrt_task_delete.
Proof.
  unfold hrt_task_delete, hrt__get_current. apply ok_current. pose proof Hme as [? ?]. zbool.
  destruct (me =? HRT_IDLE_ID); [done|]. cbn [orb]. apply ok_enter. intros s Hs.
  rewrite tcb_ptr by done. cbn [is_null]. destruct (open_tcb s Hs) as (tc & Htc & Hst).
  assert (Ha : across me s (kset_tcb me (tcb_set_state HRT_UNUSED tc) s)) by by eapply across_set.
  eapply ok_m_writes; [by apply tcb_upd_Some|exact Ha|].
  apply (ok_exit _ _ Parked); [exact Ha| |by apply ok_hop_last].
  destruct Hs as [R O E]. split; [by apply kdelete_inv|apply R| |exact O|exact E].
  eexists. split; [by eapply kset_tcb_get|by left].
Qed.

(** Reads of the kernel's own variables, and settings. *)
Lemma ok_get {A} (f : kern -> A) : ok Open (gets f).
Proof. intros s Hs. exists (f s), s, Open. split_and!; [done|apply across_refl|done|done]. Qed.

Lemma ok_now_ms : ok Open hrt_now_ms.
Proof.
  unfold hrt_now_ms. apply ok_gets. intros s Hs. destruct (g_tick_hz s =? 0); [done|].
  by apply ok_gets.
Qed.

Lemma ok_setting f :
  (forall s, open_at me w s -> g_tcbs (f s) = g_tcbs s /\ g_rq (f s) = g_rq s /\
     objs (f s) = objs s /\ g_current (f s) = g_current s /\ g_tick (f s) = g_tick s /\
     g_tick_hz (f s) = g_tick_hz s /\ 0 <= g_default_slice (f s) < 2 ^ 16) ->
  ok Open (modify f).
Proof.
  intros H s Hs. exists tt, (f s), Open.
  destruct (H s Hs) as (Et & Er & Eo & Ec & H1 & H2 & H3). pose proof Eo as [= E1 E2 E3].
  destruct (open_same s (f s) Hs) as [Ho Hl]; [|done|done|by apply obj_same|done].
  pose proof (run_inv _ _ (open_run _ _ _ Hs)) as I. destruct (bwf_kern _ (inv_base _ _ I)).
  eapply inv_frame; [exact I|done| |..]; rewrite ?Er, ?H1, ?H2; try done.
  intros []; cbn; by rewrite ?Er, ?E1, ?E2, ?E3.
Qed.

(** ** Semaphores *)

(** The objects of the world exist. *)
Lemma world_sem s a : open_at me w s -> is_Some (w.1.1 !! a) -> exists m, m_sems s !! a = Some m.
Proof.
  intros [_ _ <-]. cbn. rewrite lookup_fmap. destruct (m_sems s !! a) as [m|]; [by exists m|].
  by intros [? ?].
Qed.

Lemma world_mutex s a :
  open_at me w s -> is_Some (w.1.2 !! a) -> exists m, m_mutexes s !! a = Some m.
Proof.
  intros [_ _ <-]. cbn. rewrite lookup_fmap. destruct (m_mutexes s !! a) as [m|]; [by exists m|].
  by intros [? ?].
Qed.

Lemma world_queue s a : open_at me w s -> is_Some (w.2 !! a) -> exists m, m_queues s !! a = Some m.
Proof.
  intros [_ _ <-]. cbn. rewrite lookup_fmap. destruct (m_queues s !! a) as [m|]; [by exists m|].
  by intros [? ?].
Qed.

(** Taking a unit that is there. *)
Lemma open_take s a m :
  open_at me w s -> m_sems s !! a = Some m -> sem_count m <> 0 ->
  let s' := kset_sem a (Sem.set_count (u8 (sem_count m - 1)) m) s in
  across me s s' /\ open_at me w s'.
Proof.
  intros Hs E Hc. pose proof (proj1 (open_obj _ _ _ Hs) a m E) as Hok.
  pose proof (asem_take_ok 0 _ Hok) as H. unfold asem_take in H. cbn in H.
  destruct Hok as [H1 H2 _]. cbn in H1, H2. unfold Sem.set_count. rewrite u8_id by lia. cbv zeta.
  apply open_same; [done|apply inv_set_sem; [apply Hs|done]|done|done|].
  eapply obj_sem; [exact E|by eapply sem_becomes_set|]. revert H. by zbool.
Qed.

Lemma sem_upd_Some a f s m : m_sems s !! a = Some m -> Sem.sem_upd a f s = Some (kset_sem a (f m) s).
Proof. intros E. unfold Sem.sem_upd. by rewrite E. Qed.

Lemma ok_prog_try_take a : is_Some (w.1.1 !! a) -> ok Open (Sem.hrt_sem_try_take a).
Proof.
  intros Ha. unfold Sem.hrt_sem_try_take. apply ok_enter. intros s Hs.
  destruct (world_sem s a Hs Ha) as [m E].
  eapply ok_m_reads; [by rewrite E|]. destruct (Z.eqb_spec (sem_count m) 0) as [Hc|Hc]; cbn [negb].
  - apply (ok_exit _ _ Open); [apply across_refl|exact Hs|done].
  - rewrite bind_assoc. eapply ok_m_writes; [by apply sem_upd_Some|by apply across_same|].
    destruct (open_take s a m Hs E Hc). by apply (ok_exit _ _ Open).
Qed.

Lemma open_sem_wait s a m tc :
  open_at me w s -> m_sems s !! a = Some m -> sem_count m = 0 -> zget (g_tcbs s) me = Some tc ->
  Null.core_call (Sem._waitq_push a me) s = @Done Null.null_port _ tt (lpush (sem_ring a) me s) tt /\
  across me s (kblock (PSem a) me tc s) /\ parked_at me w (kblock (PSem a) me tc s).
Proof.
  intros Hs E Hc Htc. pose proof (open_run _ _ _ Hs) as R.
  assert (Hr := sem_ring_ok _ _ _ _ (run_inv _ _ R) E).
  pose proof (running_room me s (PSem a) R) as Hroom. cbn in Hroom.
  split; [by apply (exec_sem_waitq_push (PL := Null.null_port))|].
  apply (open_block s (PSem a) tc); try done.
  pose proof (asem_take_ok me _ (proj1 (open_obj _ _ _ Hs) a m E)) as H. unfold asem_take in H.
  cbn in H. revert H. zbool. intros H. eapply obj_sem; [exact E| |exact H].
  by apply (sem_becomes_push a me s m).
Qed.

Lemma straight_bind {A B} (c : prog A) (f : A -> prog B) :
  straight c -> (forall a, straight (f a)) -> straight (bind c f).
Proof.
  revert B f. induction c; cbn; intros B' g Hc Hf; try done; eauto.
  destruct Hc. split; eauto.
Qed.

Lemma straight_reads {A} (f : kern -> option A) : straight (reads f).
Proof. destruct (keeps_reads (obs := tasks) f). by split. Qed.

Lemma straight_ring_upd L f : elsewhere tasks L -> straight (ring_upd L f).
Proof. intros HL. destruct (keeps_ring_upd (obs := tasks) L f HL). by split. Qed.

Lemma straight_error e : straight (hrt_error e).
Proof. split; [intros s b s' E; by inversion E|]. intros []. cbn. by destruct HARDRT_STALL_ON_ERROR. Qed.

Lemma straight_push L id :
  elsewhere tasks L ->
  straight (bind (ring_store L id) (fun _ => bind (ring_advance_tail L) (fun _ => ring_inc_count L))).
Proof.
  intros HL. apply straight_bind; [by apply straight_ring_upd|]. intros _.
  apply straight_bind; intros; by apply straight_ring_upd.
Qed.

Lemma straight_sem_push a id : straight (Sem._waitq_push a id).
Proof.
  unfold Sem._waitq_push. apply straight_bind; [destruct (_ && _); [apply straight_error|done]|].
  intros _. apply straight_bind; [apply straight_reads|]. intros n.
  destruct (n >=? HARDRT_MAX_TASKS); [done|]. by apply straight_push.
Qed.

Lemma straight_mutex_push a id : straight (Mutex._waitq_push a id).
Proof.
  unfold Mutex._waitq_push. apply straight_bind; [apply straight_reads|]. intros n.
  destruct (n >=? HARDRT_MAX_TASKS); [done|]. by apply straight_push.
Qed.

Lemma straight_ownership a id : straight (Mutex.take_ownership a id).
Proof.
  assert (Hw : forall f, straight (Mutex.mtx_write a f)).
  { intros f. split; [|done]. intros s b s'. unfold Mutex.mtx_upd.
    destruct (m_mutexes s !! a); cbn; [|done]. intros E. by inversion E. }
  apply straight_bind; intros; apply Hw.
Qed.

Lemma ok_prog_take a : is_Some (w.1.1 !! a) -> ok Open (Sem.hrt_sem_take a).
Proof.
  intros Ha. unfold Sem.hrt_sem_take. apply ok_bind; [by apply ok_prog_try_take|]. intros r.
  destruct (r =? 0); [done|]. apply ok_current.
  rewrite id_in_range, andb_false_r, valid_u8, tcb_ptr by done. cbn [is_null]. rewrite andb_false_r.
  apply ok_enter. intros s Hs. destruct (world_sem s a Hs Ha) as [m E].
  eapply ok_m_reads; [by rewrite E|]. destruct (Z.eqb_spec (sem_count m) 0) as [Hc|Hc]; cbn [negb].
  - destruct (open_tcb s Hs) as (tc & Htc & Hst).
    destruct (open_sem_wait s a m tc Hs E Hc Htc) as (Hp & Ho & Hl).
    eapply ok_masked; [apply straight_sem_push|exact Hp|].
    apply ok_skip. rewrite <- tcb_ptr by done. by apply (ok_block_hop s (PSem a) tc).
  - eapply ok_m_writes; [by apply sem_upd_Some|by apply across_same|].
    destruct (open_take s a m Hs E Hc). by apply (ok_exit _ _ Open).
Qed.

(** ** Mutexes *)

Hypothesis Hstall : HARDRT_STALL_ON_ERROR = false.

Lemma ok_error {A} e (k : unit -> prog A) : ok Open (k tt) -> ok Open (bind (hrt_error e) k).
Proof.
  intros Hk. unfold hrt_error. rewrite bind_assoc. apply ok_modify; [intros s; apply open_error|].
  rewrite Hstall. exact Hk.
Qed.

Lemma open_lock s a m :
  open_at me w s -> m_mutexes s !! a = Some m -> mtx_locked m = 0 ->
  let s' := kset_mutex a (mkMutex 1 me (mtx_waitq m)) s in
  Null.core_call (Mutex.take_ownership a me) s = @Done Null.null_port _ tt s' tt /\
  across me s s' /\ open_at me w s'.
Proof.
  intros Hs E Hl s'. pose proof (proj1 (proj2 (open_obj _ _ _ Hs)) a m E) as Hok.
  split; [by apply (exec_take_ownership (PL := Null.null_port))|].
  apply open_same; [done|apply inv_set_mutex; [apply Hs|done]|done|done|].
  assert (Ha : (amutex_lock me (mtx_abs m)).2 = Acquired).
  { unfold amutex_lock. cbn. by rewrite Hl. }
  destruct (mtx_acquired_ok me m Hme Hok Ha) as [Hrep Hok'].
  eapply obj_mutex; [exact E| |exact Hok'].
  split_and!; try done; [|intros b Hb; by apply lookup_insert_ne].
  eexists. split_and!; [apply kset_mutex_lookup|done|done].
Qed.

Lemma ok_prog_try_lock a : is_Some (w.1.2 !! a) -> ok Open (Mutex.hrt_mutex_try_lock a).
Proof.
  intros Ha. unfold Mutex.hrt_mutex_try_lock. apply ok_current. rewrite id_in_range by done.
  apply ok_enter. intros s Hs. destruct (world_mutex s a Hs Ha) as [m E].
  eapply ok_m_reads; [by rewrite E|]. destruct (Z.eqb_spec (mtx_locked m) 0) as [Hl|Hl].
  - destruct (open_lock s a m Hs E Hl) as (Hx & Ho & Ho').
    eapply ok_masked; [apply straight_ownership|exact Hx|]. by apply (ok_exit _ _ Open).
  - eapply ok_m_reads; [by rewrite E|]. destruct (mtx_owner m =? me).
    + apply (ok_exit _ _ Open); [apply across_refl|exact Hs|]. by apply ok_error.
    + by apply (ok_exit _ _ Open); [apply across_refl|exact Hs|].
Qed.

Lemma open_lock_wait s a m tc :
  open_at me w s -> m_mutexes s !! a = Some m -> mtx_locked m <> 0 -> mtx_owner m <> me ->
  zget (g_tcbs s) me = Some tc ->
  Null.core_call (Mutex._waitq_push a me) s
    = @Done Null.null_port _ tt (lpush (mutex_ring a) me s) tt /\
  across me s (kblock (PMutex a) me tc s) /\ parked_at me w (kblock (PMutex a) me tc s).
Proof.
  intros Hs E Hl Hown Htc. pose proof (open_run _ _ _ Hs) as R.
  pose proof (proj1 (proj2 (open_obj _ _ _ Hs)) a m E) as Hok.
  assert (Hr := mutex_ring_ok _ _ _ _ (run_inv _ _ R) E).
  pose proof (running_room me s (PMutex a) R) as Hroom. cbn in Hroom.
  split; [by apply (exec_mutex_waitq_push (PL := Null.null_port))|].
  apply (open_block s (PMutex a) tc); try done.
  assert (Ha : (amutex_lock me (mtx_abs m)).2 = Waiting).
  { unfold amutex_lock. cbn. destruct (Z.eqb_spec (mtx_locked m) 0); [done|].
    by destruct (Z.eqb_spec (mtx_owner m) me). }
  eapply obj_mutex with (m' := (amutex_lock me (mtx_abs m)).1); [exact E| |].
  - rewrite amutex_lock_waiting by done.
    exact (mutex_becomes_push a me s m E (proj1 Hok) Hr Hroom).
  - apply amutex_lock_ok; [apply Hok|]. cbn. rewrite <- (mutex_qlist a s m E).
    by apply (running_not_queued _ _ (PMutex a)).
Qed.

Lemma ok_prog_lock a : is_Some (w.1.2 !! a) -> ok Open (Mutex.hrt_mutex_lock a).
Proof.
  intros Ha. unfold Mutex.hrt_mutex_lock. apply ok_current. rewrite id_in_range by done.
  apply ok_bind; [by apply ok_prog_try_lock|]. intros r. destruct (r =? 0); [done|].
  apply ok_enter. intros s Hs. destruct (world_mutex s a Hs Ha) as [m E].
  eapply ok_m_reads; [by rewrite E|]. destruct (Z.eqb_spec (mtx_locked m) 0) as [Hl|Hl].
  - destruct (open_lock s a m Hs E Hl) as (Hx & Ho & Ho').
    eapply ok_masked; [apply straight_ownership|exact Hx|]. by apply (ok_exit _ _ Open).
  - eapply ok_m_reads; [by rewrite E|]. destruct (Z.eqb_spec (mtx_owner m) me) as [He|He].
    + apply (ok_exit _ _ Open); [apply across_refl|exact Hs|]. by apply ok_error.
    + rewrite valid_u8, tcb_ptr by done. cbn [is_null].
      destruct (open_tcb s Hs) as (tc & Htc & Hst).
      destruct (open_lock_wait s a m tc Hs E Hl He Htc) as (Hp & Ho & Hk).
      eapply ok_masked; [apply straight_mutex_push|exact Hp|].
      rewrite <- tcb_ptr by done. by apply (ok_block_hop s (PMutex a) tc).
Qed.

Lemma ok_count a : is_Some (w.2 !! a) -> ok Open (Queue.hrt_queue_count a).
Proof.
  intros Ha s Hs. destruct (world_queue s a Hs Ha) as [m E].
  exists (u16 (q_count m)), s, Open. rewrite E. split_and!; [done|apply across_refl|done|done].
Qed.

(** ** The calls as a whole *)

(** The calls that neither create a task nor wake one up: those that wake
    go through [hrt_yield]. *)
Definition wakes_nobody (c : api) : bool :=
  match c with
  | CSleep _ | CDelete | CTickNow | CNowMs | CSetPolicy _ | CSetTimeslice _ | CSemTake _
  | CSemTryTake _ | CLock _ | CTryLock _ | CCount _ => true
  | _ => false
  end.

Lemma api_ok s c :
  open_at me w s -> wakes_nobody c = true -> api_pre s c -> ok Open (api_prog c).
Proof.
  intros [R O E] Hc Hpre.
  assert (Hf : forall (A : Type) (m : gmap Z A) B (f : A -> B) a, is_Some (m !! a) -> is_Some ((f <$> m) !! a)).
  { intros A m B f a [x Ex]. rewrite lookup_fmap, Ex. by eexists. }
  destruct c; try done; cbn [api_prog]; unfold int_call, void_call; (apply ok_bind; [|done]).
  - apply ok_prog_sleep.
  - apply ok_prog_delete.
  - apply ok_get.
  - apply ok_now_ms.
  - apply ok_setting. intros s' Hs'.
    destruct (bwf_kern _ (inv_base _ _ (run_inv _ _ (open_run _ _ _ Hs')))). done.
  - by apply ok_setting.
  - apply ok_prog_take. rewrite <- E. by apply Hf.
  - apply ok_prog_try_take. rewrite <- E. by apply Hf.
  - apply ok_prog_lock. rewrite <- E. by apply Hf.
  - apply ok_prog_try_lock. rewrite <- E. by apply Hf.
  - apply ok_count. rewrite <- E. by apply Hf.
Qed.

End rules.
