(* ===== verification/SignalSafe.v ===== *)
(** * The calls on a port that switches inside of a call

    The rules of StmtSafe.v for a port, like the POSIX one, on which a task
    keeps the processor until it hops into the scheduler: every call of the
    API is safe between any two of its statements, the requeue of
    [hrt_yield] apart. *)

From stdpp Require Import base tactics numbers list option gmap.
From S2P Require Import Prelude Types Prog Ring Core Sched Sem Mutex Queue PortNull.
From S2P Require Import CoreFacts Inv SchedFacts SemFacts MutexFacts QueueFacts.
From S2P Require Import Running Api ApiSafe ApiCalls ApiTheorem Frame Stmt StmtSafe.
Open Scope Z_scope.
Open Scope prog_scope.

(** A switch happens when the task hops; the statements make nobody live. *)
#[export] Instance hop_regime : Regime.
Proof.
  refine {| at_once := false; inside _ _ _ := True; across _ := live_le |}.
  - done.
  - intros me. apply live_trans.
  - intros me s s' Et _. by apply live_same.
  - intros me s tc tc' Htc Hs _. eapply live_set; [exact Htc|congruence].
Defined.

(** Statements without a call of the port and without a loop. *)
Fixpoint portless {A} (c : prog A) : Prop :=
  match c with
  | Ret _ | Halt _ => True
  | Prim f k => forall b, portless (k b)
  | Port _ _ | Loop _ _ => False
  end.

Lemma portless_bind {A B} (c : prog A) (f : A -> prog B) :
  portless c -> (forall a, portless (f a)) -> portless (bind c f).
Proof. revert B f. induction c; cbn; intros B' g Hc Hf; try done; eauto. Qed.

Ltac portless_step :=
  match goal with
  | |- portless (bind _ _) => apply portless_bind; [|intros ?]
  | |- portless (if ?b then _ else _) => destruct b
  | |- portless (let _ := _ in _) => cbv zeta
  | |- portless _ => done
  end.
Ltac portless := cbn [fst snd]; repeat portless_step.

(** A port without a state, for the lemmas on the kernel state alone. *)
Definition plain_port : PortLayer := {|
  pstate := unit;
  crit_enter p := p;
  crit_exit p := p;
  pend_switch p := p;
  yield_to_scheduler s p := PSwap s p;
  start_systick _ _ p := p;
  init_idle_task s p := PCont s p;
  prepare_task_stack _ _ _ s p := PCont s p;
  enter_scheduler s p := PSwap s p
|}.

Definition plain_base : BasePort plain_port.
Proof. by refine {| port_ok _ := True; can_switch _ _ := True; pending _ := True |}. Defined.

Section calls.
Context `{C : Config} {Cok : ConfigOk C}.
Implicit Types (s : kern).

Definition plain_switches : SwitchPort plain_port.
Proof. by refine {| switch_base := plain_base; swap_out p := p; prep _ _ _ p := p |}. Defined.

Context {me : Z} {w : world}.
Hypothesis Hme : valid_id me.
Local Abbreviation ok := (ok me w).
Local Abbreviation client := (client_ok (BP := plain_base) me).

Lemma open_client s : open_at me w s -> client s tt.
Proof. intros [R O _]. by split. Qed.

Lemma client_open s s' :
  open_at me w s -> client s' tt /\ kstep (BP := plain_base) s tt s' tt ->
  across me s s' /\ open_at me w s'.
Proof.
  intros [R O E] [[R' O' _] (Ho & Hl & _)]. split; [exact Hl|]. split; [done|done|].
  destruct (Ho O) as [_ Hs]. congruence.
Qed.

Lemma ok_portless {A B} s0 s (c : prog A) (f : A -> prog B) a s' :
  portless c -> Null.core_call c s = @Done Null.null_port _ a s' tt -> ok (Masked s0 s') (f a) ->
  ok (Masked s0 s) (bind c f).
Proof.
  unfold Null.core_call. revert B f s a s'.
  induction c as [A a0|A h|A B0 g k IH|A pc k IH|A B0 body IHb k IHk];
    intros B f s a s'; cbn [portless exec bind StmtSafe.ok]; try done.
  - intros _ [= -> ->]. done.
  - intros Hs E Hf. destruct (g s) as [[b s1]|] eqn:Eg; [|done]. exists b, s1.
    split; [done|]. split; [done|by eapply IH].
Qed.

(** A critical section that leaves the task running. *)
Lemma ok_section {A B} (c : prog A) (f : A -> prog B) :
  portless c ->
  (forall s, open_at me w s -> exists a s', Null.core_call c s = @Done Null.null_port _ a s' tt /\
     across me s s' /\ open_at me w s' /\ ok Open (f a)) ->
  ok Open (bind (call hrt_port_crit_enter) (fun _ => bind c (fun a =>
             bind (call hrt_port_crit_exit) (fun _ => f a)))).
Proof.
  intros Hp H. apply ok_enter. intros s Hs. destruct (H s Hs) as (a & s' & E & Ha & Ho & Hk).
  eapply ok_portless; [done|exact E|]. by apply (ok_exit _ _ Open).
Qed.

(** ** Yielding *)

Lemma ok_window {A X} s (g : kern -> option (X * kern)) k (f : unit -> prog A) b s' ph :
  in_requeue (Prim g k) -> prim_keeps tasks g -> g s = Some (b, s') ->
  g_current s = me -> (g_current s' = me -> lands me w s' ph /\ ok ph (bind (k b) f)) ->
  ok (Window s) (bind (Prim g k) f).
Proof.
  intros Hr Hg E Hc Hk. split; [done|]. split; [exists (Prim g k), f; split; [exact Hr|reflexivity]|].
  pose proof (Hg _ _ _ E) as [= Et Ec]. exists b, s', ph. split; [done|]. split; [by apply live_same|].
  apply Hk. congruence.
Qed.

Lemma exec_writes3 F1 F2 F3 s s3 :
  Null.core_call (bind (writes F1) (fun _ => bind (writes F2) (fun _ => writes F3))) s
    = @Done Null.null_port _ tt s3 tt ->
  exists s1 s2, F1 s = Some s1 /\ F2 s1 = Some s2 /\ F3 s2 = Some s3.
Proof.
  unfold Null.core_call. cbn. destruct (F1 s) as [s1|]; cbn; [|done].
  destruct (F2 s1) as [s2|] eqn:E2; cbn; [|done]. destruct (F3 s2) as [s3'|] eqn:E3; cbn; [|done].
  intros [= <-]. by exists s1, s2.
Qed.

(** From the refill of the quantum to the end of the insertion. *)
Lemma ok_requeue {A} s tc (f : unit -> prog A) :
  running me s -> zget (g_tcbs s) me = Some tc -> parked_at me w (lpush (rq_ring (prio tc)) me s) ->
  ok Parked (f tt) ->
  ok (Window s) (bind (p <- tcb_read (hrt__tcb me) prio ;; cur' <- gets g_current ;;
                       rq_push p (u8 cur')) f).
Proof.
  intros R Htc Hpk Hf. destruct (running_prio _ _ _ R Htc) as [_ Hp].
  destruct (running_rq _ _ _ R Htc) as [Hr Hroom]. rewrite tcb_ptr by done.
  eapply (ok_window _ _ _ _ (prio tc) s (Window s)); [apply (iq_prio (Some me))| | |apply R|].
  { apply straight_reads. }
  { cbn. by rewrite Htc. }
  intros Hc. split; [done|].
  eapply (ok_window _ _ _ _ me s (Window s)); [apply (iq_cur (prio tc))| | |done|].
  { by intros s1 b s1' [= <- <-]. }
  { by rewrite Hc. }
  intros _. split; [done|].
  cbn [bind]. pose proof (iq_push (prio tc) (u8 me)) as Hin. revert Hin.
  unfold rq_push. zbool. rewrite !valid_u8, id_in_range, andb_false_r by done. intros Hin.
  pose proof Hr as (r & Er & Rr)%ring_ok_repr. rewrite <- (ring_repr_count _ _ Rr) in Hroom.
  eapply (ok_window _ _ _ _ (count r) s (Window s) Hin); [apply straight_reads|by rewrite Er|done|].
  intros _. split; [done|]. cbn [bind]. zbool.
  assert (Hk : forall g, straight (ring_upd (rq_ring (prio tc)) g)).
  { intros g. by apply straight_ring_upd. }
  pose proof (exec_ring_push (PL := Null.null_port) (L := rq_ring (prio tc)) 0 s tt me Hr) as Hpush.
  apply exec_writes3 in Hpush as (s1 & s2 & E1 & E2 & E3).
  eapply (ok_window _ _ _ _ tt s1 (Window s1)); [apply (iq_store (prio tc) me)|apply Hk|by rewrite E1|done|].
  intros Hc1. split; [done|].
  eapply (ok_window _ _ _ _ tt s2 (Window s2)); [apply (iq_tail (prio tc))|apply Hk|by rewrite E2|done|].
  intros Hc2. split; [done|].
  eapply (ok_window _ _ _ _ tt _ Parked); [apply (iq_count (prio tc))|apply Hk|by rewrite E3|done|].
  done.
Qed.

Lemma ok_prog_yield : ok Open hrt_yield.
Proof.
  unfold hrt_yield. apply ok_current. pose proof Hme as [? ?]. zbool.
  rewrite !andb_false_r, tcb_ptr by done. cbn [is_null]. rewrite andb_false_r.
  apply ok_reads. intros s0 Hs0. destruct (open_tcb s0 Hs0) as (t0 & Ht0 & Hst0).
  exists (state t0). split; [cbn; by rewrite Ht0|]. rewrite decide_True by done. rewrite bind_assoc.
  intros s Hs. destruct (open_tcb s Hs) as (tc & Htc & Hst).
  exists tt, (kset_tcb me (tcb_refill tc) s), (Window (kset_tcb me (tcb_refill tc) s)).
  rewrite (tcb_upd_Some me _ s tc Htc). split; [done|]. split; [by eapply across_set|].
  split; [split; [done|apply Hs]|]. destruct Hs as [R O E]. destruct (running_prio _ _ _ R Htc) as [_ Hp].
  assert (Hg : zget (g_tcbs (kset_tcb me (tcb_refill tc) s)) me = Some (tcb_refill tc)) by by eapply kset_tcb_get.
  rewrite <- (tcb_ptr me) by done. apply (ok_requeue _ (tcb_refill tc)).
  - split; [|apply R|by exists (tcb_refill tc)].
    eapply inv_set_tcb; [apply R|done| |by right]. eapply tcb_refill_wf, inv_tcb_wf; [apply R|done].
  - done.
  - change (lpush _ me _) with (kyield me tc s). destruct (obj_kyield me tc s O) as [O' E'].
    split; [by apply kyield_inv| | |done|congruence].
    + rewrite kyield_current. apply R.
    + exists (tcb_refill tc). unfold kyield. rewrite (lpush_tcbs (PReady (prio tc))). split; [done|].
      right. split; [done|]. unfold no_requeue. cbn. destruct (decide (timeslice_cfg tc = 0)); [right; left; lia|by left].
  - by apply ok_hop_last.
Qed.


(** A call that may have woken a task yields to it. *)
Lemma ok_maybe_yield {A} (b : bool) (f : unit -> prog A) :
  ok Open (f tt) -> ok Open (bind (if b then hrt_yield else skip) f).
Proof.
  intros Hf. destruct b; [|by apply ok_skip]. apply ok_bind; [apply ok_prog_yield|]. by intros [].
Qed.

Local Existing Instances plain_base plain_switches.

(** ** Semaphores *)

Lemma portless_ready id : portless (hrt__make_ready id).
Proof. unfold hrt__make_ready, rq_push, hrt_error. portless. Qed.

Lemma portless_give a : portless (give_section a).
Proof. unfold give_section, Sem._waitq_pop, hrt_error. portless; apply portless_ready. Qed.

Lemma open_give s a m :
  open_at me w s -> m_sems s !! a = Some m ->
  exists b s', Null.core_call (give_section a) s = @Done Null.null_port _ b s' tt /\
    across me s s' /\ open_at me w s'.
Proof.
  intros Hs E. pose proof (open_client s Hs) as Cl.
  pose proof (proj1 (open_obj _ _ _ Hs) a m E) as Hok. pose proof (open_run _ _ _ Hs) as R.
  assert (Hr := sem_ring_ok _ _ _ _ (run_inv _ _ R) E). unfold Null.core_call.
  destruct (ring_list (sem_waitq m)) as [|x xs] eqn:Hw.
  - eexists _, _. split; [by apply (exec_give_section_count (PL := Null.null_port) 0 [me]); [apply R|..]|].
    destruct (sem_count m <? sem_max_count m) eqn:Hc; btest; [|split; [apply across_refl|done]].
    pose proof (asem_give_ok _ Hok) as H. unfold asem_give in H. cbn in H. rewrite Hw in H. cbn in H.
    rewrite Z.min_l in H by lia.
    apply open_same; [done|apply inv_set_sem; [apply R|done]|done|done|].
    eapply obj_sem; [exact E|by eapply sem_becomes_set|]. unfold sem_abs. cbn. by rewrite Hw.
  - pose proof Hw as Hq. rewrite <- (sem_qlist a s m E) in Hq.
    destruct (running_waiter _ _ (PSem a) _ _ R Hq) as (tc & Htc & _ & _).
    eexists _, _. split; [by eapply (exec_give_section_wake (PL := Null.null_port) 0 [me]); [apply R|..]|].
    apply (client_open s); [done|]. eapply (wake_client (SP := plain_switches) me s tt tt (PSem a)); try done.
    by eapply obj_sem_wake.
Qed.

Lemma ok_prog_give a : is_Some (w.1.1 !! a) -> ok Open (Sem.hrt_sem_give a).
Proof.
  intros Ha. unfold Sem.hrt_sem_give. apply ok_bind; [|done]. rewrite give_eq.
  apply ok_section; [apply portless_give|]. intros s Hs. destruct (world_sem s a Hs Ha) as [m E].
  destruct (open_give s a m Hs E) as (b & s' & Ex & H1 & H2). exists b, s'.
  split_and!; try done. by apply ok_maybe_yield.
Qed.

(** ** Mutexes *)

Hypothesis Hstall : HARDRT_STALL_ON_ERROR = false.

(** The critical section of an unlock that hands the mutex over. *)
Lemma open_handover s a m m' x :
  open_at me w s -> m_mutexes s !! a = Some m ->
  amutex_unlock (g_current s) (mtx_abs m) = Some (m', Some x) ->
  exists s1, Null.core_call (Mutex._waitq_pop a) s = @Done Null.null_port _ x s1 tt /\ valid_id x /\
  exists s2, Null.core_call (Mutex.take_ownership a x) s1 = @Done Null.null_port _ tt s2 tt /\
  exists s3, Null.core_call (hrt__make_ready x) s2 = @Done Null.null_port _ tt s3 tt /\
    across me s s3 /\ open_at me w s3 /\ mutex_becomes a m' s s3.
Proof.
  intros Hs E Hu. pose proof (open_run _ _ _ Hs) as R. pose proof (run_inv _ _ R) as I.
  destruct (handover_client (SP := plain_switches) me s tt tt a m m' x (open_client s Hs) E Hu)
    as (tc & Htc & HK); [done|].
  pose proof (amutex_unlock_handover _ _ _ _ Hu) as (ws & Hw & Em). cbn in Hw.
  pose proof Hw as Hq. rewrite <- (mutex_qlist a s m E) in Hq.
  destruct (inv_head_tcb _ _ (PMutex a) _ _ I Hq) as (tc' & Htc' & Hv & Hno & Hst & Hp).
  rewrite Htc in Htc'. injection Htc' as <-. pose proof (lpop_mutex a s m E) as E'.
  assert (Hr := mutex_ring_ok _ _ _ _ I E). unfold Null.core_call.
  eexists. split; [by eapply (exec_mutex_waitq_pop (PL := Null.null_port))|]. split; [done|].
  eexists. split; [by apply (exec_take_ownership (PL := Null.null_port) 0 a x _ _ _ E')|].
  eexists. split.
  { eapply (exec_make_ready_inv (PL := Null.null_port) 0 [me]).
    - eapply inv_set_mutex; [by eapply (inv_dequeue _ _ (PMutex a))|exact E'].
    - unfold kset_mutex, set_mutexes. cbn [g_tcbs]. by rewrite (lpop_tcbs (PMutex a)).
    - cbn in Hst. congruence.
    - done. }
  cbn [mtx_waitq]. rewrite <- (khandover_eq s a m x tc E).
  destruct (client_open s _ Hs HK) as [H1 H2]. split_and!; [done|done|]. subst m'. by eapply khandover_becomes.
Qed.

Lemma unlock_cases id m :
  (mtx_locked m =? 0) || negb (mtx_owner m =? id) = false ->
  (exists m' x, amutex_unlock id (mtx_abs m) = Some (m', Some x)) \/
  ring_list (mtx_waitq m) = [].
Proof.
  unfold amutex_unlock. cbn [a_owner a_queue mtx_abs]. destruct (mtx_locked m =? 0); [done|].
  destruct (mtx_owner m =? id); [|done]. intros _.
  destruct (ring_list (mtx_waitq m)) as [|x xs]; [by right|left]. by eexists _, x.
Qed.

Lemma mtx_upd_Some a f s m :
  m_mutexes s !! a = Some m -> Mutex.mtx_upd a f s = Some (kset_mutex a (f m) s).
Proof. intros E. unfold Mutex.mtx_upd. by rewrite E. Qed.

Lemma ok_prog_unlock a : is_Some (w.1.2 !! a) -> ok Open (Mutex.hrt_mutex_unlock a).
Proof.
  intros Ha. unfold Mutex.hrt_mutex_unlock. apply ok_current. rewrite id_in_range by done.
  apply ok_enter. intros s Hs. destruct (world_mutex s a Hs Ha) as [m E].
  eapply ok_m_reads; [by rewrite E|]. eapply ok_m_reads; [by rewrite E|].
  destruct ((mtx_locked m =? 0) || negb (mtx_owner m =? me)) eqn:Hown.
  - apply (ok_exit _ _ Open); [apply across_refl|exact Hs|]. by apply ok_error.
  - pose proof (open_run _ _ _ Hs) as R. rewrite <- (run_cur _ _ R) in Hown.
    destruct (unlock_cases _ _ Hown) as [(m' & x & Hu)|Hq].
    + destruct (open_handover s a m m' x Hs E Hu) as (s1 & E1 & [? ?] & s2 & E2 & s3 & E3 & Hac & Ho & _).
      eapply ok_portless; [unfold Mutex._waitq_pop; portless|exact E1|]. zbool.
      eapply ok_portless; [unfold Mutex.take_ownership; portless|exact E2|].
      eapply ok_portless; [apply portless_ready|exact E3|].
      apply (ok_exit _ _ Open); [done|done|]. apply ok_bind; [apply ok_prog_yield|done].
    + pose proof (proj1 (proj2 (open_obj _ _ _ Hs)) a m E) as [Hrep Hok].
      assert (Hr := mutex_ring_ok _ _ _ _ (run_inv _ _ R) E).
      eapply ok_portless; [unfold Mutex._waitq_pop; portless| |].
      { apply (exec_mutex_waitq_pop_empty (PL := Null.null_port)); [done|]. by rewrite (mutex_qlist a s m E). }
      zbool. eapply ok_m_writes; [by apply mtx_upd_Some|by apply across_same|].
      eapply ok_m_writes; [apply mtx_upd_Some, kset_mutex_lookup|by apply across_same|].
      rewrite kset_mutex_twice. cbn [Mutex.set_owner Mutex.set_locked mtx_waitq mtx_locked].
      destruct (open_same (me := me) (w := w) s (kset_mutex a (mkMutex 0 HRT_MUTEX_NO_OWNER (mtx_waitq m)) s)) as [H1 H2];
        [done|apply inv_set_mutex; [apply R|done]|done|done| |by apply (ok_exit _ _ Open)].
      eapply obj_mutex with (m' := mkAmutex None []); [exact E| |by cbn].
      split_and!; try done; [|intros b Hb; by apply lookup_insert_ne].
      eexists. split_and!; [apply kset_mutex_lookup| |by left]. unfold mtx_abs. cbn. by rewrite Hq.
Qed.

(** ** Queues *)

Lemma portless_wake L : portless (Queue.wake_one L).
Proof. unfold Queue.wake_one, Queue._wq_pop. portless. apply portless_ready. Qed.

Lemma portless_enqueue a item : portless (Queue._enqueue_cs a item).
Proof. unfold Queue._enqueue_cs. portless. Qed.

Lemma portless_dequeue a : portless (Queue._dequeue_cs a).
Proof. unfold Queue._dequeue_cs. portless. Qed.

Lemma open_queue_wf s a m : open_at me w s -> m_queues s !! a = Some m -> queue_wf m.
Proof. intros [_ O _] E. exact (proj2 (proj2 O) a m E). Qed.

(** The critical section of a send to a queue with room. *)
Lemma open_send s a m item :
  open_at me w s -> m_queues s !! a = Some m -> q_count m < capacity m ->
  Z.of_nat (length item) = item_size m ->
  exists s1, Null.core_call (Queue._enqueue_cs a item) s = @Done Null.null_port _ 0 s1 tt /\
  exists b s2, Null.core_call (Queue.wake_one (rx_ring a)) s1 = @Done Null.null_port _ b s2 tt /\
    across me s s2 /\ open_at me w s2.
Proof.
  intros Hs E Hc Hl. pose proof (open_queue_wf _ _ _ Hs E) as W. pose proof (open_run _ _ _ Hs) as R.
  unfold Null.core_call.
  eexists. split; [by apply (exec_enqueue (PL := Null.null_port))|]. eexists _, _. split.
  { apply (exec_wake_pass (PL := Null.null_port) 0 [me] _ _ (PRx a));
      [by eapply inv_set_queue; [apply R|..]|by eapply queue_rx_some, kset_queue_lookup|done]. }
  apply (client_open s); [done|].
  apply (safe_ksend (SP := plain_switches) me s tt tt a m item (open_client s Hs) E Hc Hl). done.
Qed.

Lemma open_recv s a m :
  open_at me w s -> m_queues s !! a = Some m -> 0 < q_count m ->
  exists v s1, Null.core_call (Queue._dequeue_cs a) s = @Done Null.null_port _ (0, v) s1 tt /\
  exists b s2, Null.core_call (Queue.wake_one (tx_ring a)) s1 = @Done Null.null_port _ b s2 tt /\
    across me s s2 /\ open_at me w s2.
Proof.
  intros Hs E Hc. pose proof (open_queue_wf _ _ _ Hs E) as W. pose proof (open_run _ _ _ Hs) as R.
  unfold Null.core_call.
  eexists _, _. split; [by apply (exec_dequeue (PL := Null.null_port))|]. eexists _, _. split.
  { apply (exec_wake_pass (PL := Null.null_port) 0 [me] _ _ (PTx a));
      [by eapply inv_set_queue; [apply R|..]|by eapply queue_tx_some, kset_queue_lookup|done]. }
  apply (client_open s); [done|].
  apply (safe_krecv (SP := plain_switches) me s tt tt a m (open_client s Hs) E Hc). done.
Qed.

(** The length of an item is that of the items of the queue. *)
Definition fits (a : Z) (item : list Z) : Prop := w.2 !! a = Some (Z.of_nat (length item)).

Lemma fits_queue s a item :
  open_at me w s -> fits a item ->
  exists m, m_queues s !! a = Some m /\ Z.of_nat (length item) = item_size m.
Proof.
  unfold fits. intros [_ _ <-]. cbn. rewrite lookup_fmap. destruct (m_queues s !! a) as [m|]; [|done].
  intros [= <-]. by exists m.
Qed.

Lemma ok_prog_try_send a item : fits a item -> ok Open (Queue.hrt_queue_try_send a item).
Proof.
  intros Hf. unfold Queue.hrt_queue_try_send. apply ok_enter. intros s Hs.
  destruct (fits_queue s a item Hs Hf) as (m & E & Hl).
  destruct (Z.lt_ge_cases (q_count m) (capacity m)) as [Hc|Hc].
  - destruct (open_send s a m item Hs E Hc Hl) as (s1 & E1 & b & s2 & E2 & Ha & Ho).
    eapply ok_portless; [apply portless_enqueue|exact E1|]. cbn [Z.eqb].
    eapply ok_portless; [apply portless_wake|exact E2|].
    apply (ok_exit _ _ Open); [done|done|]. by apply ok_maybe_yield.
  - eapply ok_portless; [apply portless_enqueue|by apply (exec_enqueue_full (PL := Null.null_port) 0 s tt a m)|].
    apply (ok_exit _ _ Open); [apply across_refl|done|done].
Qed.

Lemma ok_prog_try_recv a : is_Some (w.2 !! a) -> ok Open (Queue.hrt_queue_try_recv a).
Proof.
  intros Hf. unfold Queue.hrt_queue_try_recv. apply ok_enter. intros s Hs.
  destruct (world_queue s a Hs Hf) as (m & E). pose proof (open_queue_wf _ _ _ Hs E) as W.
  destruct (decide (q_count m = 0)) as [Hc|Hc].
  - eapply ok_portless; [apply portless_dequeue|by apply (exec_dequeue_empty (PL := Null.null_port) 0 s tt a m)|].
    apply (ok_exit _ _ Open); [apply across_refl|done|done].
  - destruct (open_recv s a m Hs E) as (v & s1 & E1 & b & s2 & E2 & Ha & Ho); [destruct W; lia|].
    eapply ok_portless; [apply portless_dequeue|exact E1|]. cbn [fst Z.eqb].
    eapply ok_portless; [apply portless_wake|exact E2|].
    apply (ok_exit _ _ Open); [done|done|]. by apply ok_maybe_yield.
Qed.

(** Waiting in a queue of the queue. *)
Lemma ok_queue_wait {A} s pl (f : unit -> prog A) :
  (exists a, pl = PTx a \/ pl = PRx a) -> open_at me w s -> is_Some (rget (ring_of pl) s) ->
  ok Open (f tt) ->
  ok (Masked s s)
    (bind (Queue._wq_push (ring_of pl) (u8 me)) (fun _ =>
     bind (if is_null (hrt__tcb me) then skip
           else tcb_write (hrt__tcb me) (tcb_set_state HRT_BLOCKED)) (fun _ =>
     bind (call hrt_port_crit_exit) (fun _ =>
     bind (call hrt__pend_context_switch) (fun _ =>
     bind (call hrt_port_yield_to_scheduler) f))))).
Proof.
  intros Hpl Hs Hsome Hf. pose proof (open_run _ _ _ Hs) as R. destruct (open_tcb s Hs) as (tc & Htc & Hst).
  assert (Hb : place_state pl = HRT_BLOCKED) by (by destruct Hpl as [a [-> | ->]]).
  assert (Hr : ring_ok (ring_of pl) s) by (eapply ring_ok_exists; [apply R|done]).
  pose proof (running_room me s pl R) as Hroom. rewrite valid_u8 by done.
  destruct (open_block s pl tc Hs Htc Hb Hr) as [Ha Hp].
  { eapply obj_trans; [|by apply obj_same]. destruct Hpl as [a [-> | ->]]; [apply obj_tx_push|apply obj_rx_push]. }
  eapply ok_portless; [unfold Queue._wq_push; portless|by apply (exec_wq_push (PL := Null.null_port)); [apply _|..]|].
  rewrite (tcb_ptr me) by done. cbn [is_null]. rewrite <- (tcb_ptr me) by done.
  by apply (ok_block_hop Hme s pl tc).
Qed.

Lemma ok_prog_send a item : fits a item -> ok Open (Queue.hrt_queue_send a item).
Proof.
  intros Hf. split; [done|]. split; [|done]. unfold Queue.send_body.
  apply ok_bind; [by apply ok_prog_try_send|]. intros r. destruct (r =? 0); [done|].
  apply ok_current. apply ok_enter. intros s Hs. destruct (fits_queue s a item Hs Hf) as (m & E & Hl).
  eapply ok_m_reads; [by rewrite E|]. eapply ok_m_reads; [by rewrite E|].
  destruct (q_count m <? capacity m) eqn:Hc; btest.
  - destruct (open_send s a m item Hs E Hc Hl) as (s1 & E1 & b & s2 & E2 & Ha & Ho).
    eapply ok_portless; [apply portless_enqueue|exact E1|].
    eapply ok_portless; [apply portless_wake|exact E2|]. by apply (ok_exit _ _ Open).
  - apply (ok_queue_wait s (PTx a)); [exists a; by left|done|by eapply queue_tx_some|done].
Qed.

Lemma ok_prog_recv a : is_Some (w.2 !! a) -> ok Open (Queue.hrt_queue_recv a).
Proof.
  intros Hf. split; [done|]. split; [|done]. unfold Queue.recv_body.
  apply ok_bind; [by apply ok_prog_try_recv|]. intros r. destruct (r.1 =? 0); [done|].
  apply ok_current. apply ok_enter. intros s Hs. destruct (world_queue s a Hs Hf) as (m & E).
  pose proof (open_queue_wf _ _ _ Hs E) as W. eapply ok_m_reads; [by rewrite E|].
  destruct (Z.eqb_spec (q_count m) 0) as [Hc|Hc]; cbn [negb].
  - apply (ok_queue_wait s (PRx a)); [exists a; by right|done|by eapply queue_rx_some|done].
  - destruct (open_recv s a m Hs E) as (v & s1 & E1 & b & s2 & E2 & Ha & Ho); [destruct W; lia|].
    eapply ok_portless; [apply portless_dequeue|exact E1|].
    eapply ok_portless; [apply portless_wake|exact E2|]. by apply (ok_exit _ _ Open).
Qed.

(** ** Every call but the creation of a task *)

Lemma hop_api_ok s c :
  open_at me w s -> creates c = false -> api_pre s c -> ok Open (api_prog c).
Proof.
  intros Ho Hc Hpre. destruct (wakes_nobody c) eqn:Hw; [by eapply api_ok|].
  pose proof (open_shape _ _ _ Ho) as Hsh.
  assert (Hf : forall (A : Type) (m : gmap Z A) B (f : A -> B) a, is_Some (m !! a) -> is_Some ((f <$> m) !! a)).
  { intros A m B f a [x Ex]. rewrite lookup_fmap, Ex. by eexists. }
  assert (Hi : forall a item, (exists m, m_queues s !! a = Some m /\ Z.of_nat (length item) = item_size m) ->
    fits a item).
  { intros a item (m & E & Hl). unfold fits. rewrite <- Hsh. cbn. by rewrite lookup_fmap, E, Hl. }
  destruct c; try done; cbn [api_prog]; unfold int_call, void_call; try (apply ok_bind; [|done]).
  - apply ok_prog_yield.
  - apply ok_prog_give. rewrite <- Hsh. by apply Hf.
  - apply ok_prog_unlock. rewrite <- Hsh. by apply Hf.
  - apply ok_prog_send. by apply Hi.
  - apply ok_prog_try_send. by apply Hi.
  - apply ok_prog_recv. rewrite <- Hsh. by apply Hf.
  - apply ok_prog_try_recv. rewrite <- Hsh. by apply Hf.
Qed.


End calls.
