(* ===== verification/SignalMachine.v ===== *)
(** * The POSIX system, statement by statement

    Tasks, scheduler loop and tick signal as a transition system whose steps
    are single statements of the calls. The signal is taken between any two
    of them when it is armed and not blocked, and in the scheduler loop at
    the points at which it is not blocked. *)

From stdpp Require Import base tactics numbers list option gmap relations.
From S2P Require Import Prelude Types Prog Ring Core Sched Sem Mutex Queue PortPosix.
From S2P Require Import CoreFacts Inv SchedFacts InitFacts Running PosixFacts Api ApiSafe.
From S2P Require Import ApiCalls ApiTheorem Stmt StmtSafe SignalSafe.
Open Scope Z_scope.
Open Scope prog_scope.
Import Posix.

(** [PPick]: the scheduler loop has found the request for a switch and
    taken it back, and has not yet blocked the signal. [PTask me old]: task
    [me] runs; [old] is the signal mask the scheduler saved. [PStopped]: the
    loop was left (test builds). *)
Inductive pmode :=
  | PMain | PSched | PPick | PStopped | PTask (me : Z) (old : bool) | PDown (h : halt).

Record psys := mkPsys {
  ps_kern : kern;
  ps_port : posix;
  ps_mode : pmode;
  ps_code : gmap Z (prog api_res)      (** what is left of the call a task is in *)
}.

Section system.
Context `{C : Config}.
Implicit Types (s : kern) (p : posix) (g : psys).

(** ** The scheduler loop *)

Inductive polled := PollStop (p : posix) | PollNap (p : posix) | PollGo (p : posix).

(** An iteration up to [g_switch_pending = 0], and the rest of it. (A signal
    between the test and the assignment does what it does before the test:
    the flag is set in both cases, and cleared afterwards.) *)
Definition sched_poll p : polled :=
  if g_test_stop p then PollStop (set_itimer None p)
  else if negb (g_switch_pending p) then PollNap (hrt_port_idle_wait p)
  else PollGo (set_pending false p).

Definition sched_pick s p : sched_next * kern * posix :=
  let '(p, old) := block_sigalrm p in
  match exec 0 hrt__pick_next_ready s p with
  | Done next s p =>
      if (next <? 0) || (next =? HRT_IDLE_ID) then
        (SIdle, s, hrt_port_idle_wait (unblock_sigalrm old p))
      else
        match exec 0 (hrt__set_current next) s p with
        | Done _ s p => (SRun next old, s, p)
        | Halted h s p => (SHalt h, s, p)
        | Swapped _ s p | Spinning s p => (SHalt HUndef, s, p)
        end
  | Halted h s p => (SHalt h, s, p)
  | Swapped _ s p | Spinning s p => (SHalt HUndef, s, p)
  end.

(** Together they are the iteration of the port. *)
Lemma iteration_split s p :
  sched_iteration s p =
  match sched_poll p with
  | PollStop p' => (SStopped, s, p')
  | PollNap p' => (SIdle, s, p')
  | PollGo p' => sched_pick s p'
  end.
Proof.
  unfold sched_iteration, sched_poll, sched_pick. destruct (g_test_stop p); [done|].
  by destruct (negb (g_switch_pending p)).
Qed.

(** ** Outcomes *)

Definition after_pmain g (r : result Z) : psys :=
  match r with
  | Done _ s p => mkPsys s p PMain (ps_code g)
  | Halted h s p => mkPsys s p (PDown h) (ps_code g)
  | Swapped _ s p | Spinning s p => mkPsys s p (PDown HUndef) (ps_code g)
  end.

Definition after_plaunch g (r : result unit) : psys :=
  match r with
  | Swapped _ s p => mkPsys s p PSched (ps_code g)
  | Halted h s p => mkPsys s p (PDown h) (ps_code g)
  | Done _ s p | Spinning s p => mkPsys s p (PDown HUndef) (ps_code g)
  end.

Definition after_poll g : psys :=
  match sched_poll (ps_port g) with
  | PollStop p => mkPsys (ps_kern g) p PStopped (ps_code g)
  | PollNap p => mkPsys (ps_kern g) p PSched (ps_code g)
  | PollGo p => mkPsys (ps_kern g) p PPick (ps_code g)
  end.

(** The signal mask of a task that is switched to is its own. *)
Definition after_pick (b : bool) g : psys :=
  match sched_pick (ps_kern g) (ps_port g) with
  | (SRun id old, s, p) => mkPsys s (set_blocked b p) (PTask id old) (ps_code g)
  | (SHalt h, s, p) => mkPsys s p (PDown h) (ps_code g)
  | (SIdle, s, p) | (SStopped, s, p) => mkPsys s p PSched (ps_code g)
  end.

(** A statement of a call; a hop ends in the scheduler loop, past the rest
    of its iteration. *)
Definition after_statement (me : Z) (old : bool) g (c : prog api_res) : psys :=
  match stmt (PL := posix_port) c (ps_kern g) (ps_port g) with
  | SRet _ => mkPsys (ps_kern g) (ps_port g) (PTask me old) (delete me (ps_code g))
  | SNext c' s p => mkPsys s p (PTask me old) (<[me := c']> (ps_code g))
  | SStop h => mkPsys (ps_kern g) (ps_port g) (PDown h) (ps_code g)
  | SHop c' s p =>
      match sched_return old s p with
      | Done _ s' p' => mkPsys s' p' PSched (<[me := c']> (ps_code g))
      | Halted h s' p' => mkPsys s' p' (PDown h) (ps_code g)
      | Swapped _ s' p' | Spinning s' p' => mkPsys s' p' (PDown HUndef) (ps_code g)
      end
  end.

Definition after_signal g (r : result unit) : psys :=
  match r with
  | Done _ s p => mkPsys s p (ps_mode g) (ps_code g)
  | Halted h s p => mkPsys s p (PDown h) (ps_code g)
  | Swapped _ s p | Spinning s p => mkPsys s p (PDown HUndef) (ps_code g)
  end.

Definition pdown g : bool := match ps_mode g with PDown _ => true | _ => false end.

Definition run_signal g : result unit := _tick_sighandler (ps_kern g) (ps_port g).

(** ** The signal *)

Definition armed p : bool := match itimer_usec p with Some _ => true | None => false end.

(** The signal does not come into the middle of the requeue of [hrt_yield],
    and a tick does not use up the quantum of a task that is in its ready
    queue again and is about to hop into the scheduler. *)
Definition signal_fits g : Prop :=
  match ps_mode g with
  | PTask me _ =>
      (forall c, ps_code g !! me = Some c -> ~ requeuing c) /\
      match run_signal g with
      | Done _ s' _ => forall tc, zget (g_tcbs s') me = Some tc ->
          me ∈ qlist (rq_ring (prio tc)) s' -> no_requeue s' tc
      | _ => True
      end
  | _ => True
  end.

(** ** Steps *)

Inductive pinitial : psys -> Prop :=
  | pinit cfg s0 s p :
      objects_idle s0 -> objects_ok s0 -> cfg_wf cfg ->
      exec 0 (hrt_init cfg) s0 posix_boot = Done 0 s p -> pinitial (mkPsys s p PMain ∅).

Inductive pstep : psys -> psys -> Prop :=
  (** [main] creates a task, and starts the scheduler *)
  | pstep_create g fn argp stack n_words attr :
      ps_mode g = PMain -> api_pre (ps_kern g) (CCreate fn argp stack n_words attr) ->
      pstep g (after_pmain g
        (exec 0 (hrt_create_task fn argp stack n_words attr) (ps_kern g) (ps_port g)))
  | pstep_start g :
      ps_mode g = PMain ->
      pstep g (after_plaunch g (exec 0 hrt_start (ps_kern g) (ps_port g)))
  (** the scheduler loop *)
  | pstep_poll g : ps_mode g = PSched -> pstep g (after_poll g)
  | pstep_pick g b : ps_mode g = PPick -> pstep g (after_pick b g)
  (** the running task calls the kernel, and a statement of the call runs *)
  | pstep_call g me old c :
      ps_mode g = PTask me old -> ps_code g !! me = None -> creates c = false ->
      api_pre (ps_kern g) c ->
      pstep g (mkPsys (ps_kern g) (ps_port g) (PTask me old) (<[me := api_prog c]> (ps_code g)))
  | pstep_stmt g me old c :
      ps_mode g = PTask me old -> ps_code g !! me = Some c -> pstep g (after_statement me old g c)
  (** the tick signal *)
  | pstep_signal g :
      pdown g = false -> armed (ps_port g) = true -> sigalrm_blocked (ps_port g) = false ->
      signal_fits g -> pstep g (after_signal g (run_signal g)).

End system.
