(* ===== verification/SignalInv.v ===== *)
(** * The invariant of the POSIX system, statement by statement

    In which phase the running task is, that the calls of the switched-out
    tasks are safe, and that no request for a switch is lost; every step keeps it. *)

From stdpp Require Import base tactics numbers list option gmap relations.
From S2P Require Import Prelude Types Prog Ring Core Sched Sem Mutex Queue PortPosix.
From S2P Require Import CoreFacts Inv SchedFacts InitFacts Running PosixFacts Api ApiSafe.
From S2P Require Import ApiCalls ApiTheorem IsrSafe PickFacts System Stmt StmtSafe SignalSafe.
From S2P Require Import SignalMachine.
Open Scope Z_scope.
Open Scope prog_scope.
Import Posix.

Section inv.
Context `{C : Config}.
Implicit Types (s : kern) (p : posix) (g : psys) (me : Z) (w : world).

(** No task runs. *)
Definition idle_mode (m : pmode) : bool :=
  match m with PMain | PSched | PPick | PStopped => true | PTask _ _ | PDown _ => false end.

(** The last argument is the kernel state as the other tasks see it. *)
Inductive pphase w g : kern -> Prop :=
  | pp_idle :
      idle_mode (ps_mode g) = true -> sched_inv [] (ps_kern g) -> objects_ok (ps_kern g) ->
      shape (ps_kern g) = w -> g_crit_depth (ps_port g) = 0 -> pphase w g (ps_kern g)
  | pp_open me old :
      ps_mode g = PTask me old -> open_at me w (ps_kern g) -> g_crit_depth (ps_port g) = 0 ->
      (forall c, ps_code g !! me = Some c -> ok me w Open c) -> pphase w g (ps_kern g)
  | pp_masked me old s0 c :
      ps_mode g = PTask me old -> open_at me w s0 -> g_crit_depth (ps_port g) = 1 ->
      (armed (ps_port g) = true -> sigalrm_blocked (ps_port g) = true) ->
      ps_code g !! me = Some c -> ok me w (Masked s0 (ps_kern g)) c -> pphase w g s0
  | pp_window me old c :
      ps_mode g = PTask me old -> g_crit_depth (ps_port g) = 0 -> valid_id me ->
      g_current (ps_kern g) = me -> ps_code g !! me = Some c -> ok me w (Window (ps_kern g)) c -> pphase w g (ps_kern g)
  | pp_parked me old c :
      ps_mode g = PTask me old -> parked_at me w (ps_kern g) -> g_crit_depth (ps_port g) = 0 ->
      ps_code g !! me = Some c ->
      ok me w Parked c \/ g_switch_pending (ps_port g) = true /\ ok me w Asked c ->
      pphase w g (ps_kern g).

Record pinv_at w g s0 : Prop := {
  pv_phase : pphase w g s0;
  pv_port : switch_ok (PL := posix_port) s0 (ps_port g);
  pv_ctx : forall me old, ps_mode g = PTask me old -> has_context me (ps_port g);
  pv_code : forall i c, (forall old, ps_mode g <> PTask i old) -> ps_code g !! i = Some c ->
    ok i w Open c;
  pv_armed : armed (ps_port g) = true -> g_sigalrm_set (ps_port g) = true;
  pv_work : ps_mode g = PSched -> forall i, is_ready s0 i -> g_switch_pending (ps_port g) = true
}.

Definition pinv w g : Prop := exists s0, pinv_at w g s0.

(** The phases of a task [me] that runs, with [c] left of its call. *)
Inductive task_phase w g me (c : prog api_res) : kern -> Prop :=
  | tp_open :
      open_at me w (ps_kern g) -> g_crit_depth (ps_port g) = 0 -> ok me w Open c ->
      task_phase w g me c (ps_kern g)
  | tp_masked s0 :
      open_at me w s0 -> g_crit_depth (ps_port g) = 1 ->
      (armed (ps_port g) = true -> sigalrm_blocked (ps_port g) = true) ->
      ok me w (Masked s0 (ps_kern g)) c -> task_phase w g me c s0
  | tp_window :
      g_crit_depth (ps_port g) = 0 -> valid_id me -> g_current (ps_kern g) = me ->
      ok me w (Window (ps_kern g)) c -> task_phase w g me c (ps_kern g)
  | tp_parked :
      parked_at me w (ps_kern g) -> g_crit_depth (ps_port g) = 0 ->
      ok me w Parked c \/ g_switch_pending (ps_port g) = true /\ ok me w Asked c ->
      task_phase w g me c (ps_kern g).

Lemma pphase_task w g me old c s0 :
  pphase w g s0 -> ps_mode g = PTask me old -> ps_code g !! me = Some c -> task_phase w g me c s0.
Proof.
  intros Ph Em Hc. destruct Ph as [Hm|me' old' Em'|me' old' s0 c' Em' ? ? ? Hc'|me' old' c' Em' ? ? ? Hc'
    |me' old' c' Em' ? ? Hc']; [by rewrite Em in Hm|..]; rewrite Em in Em'; injection Em' as <- <-;
    try (rewrite Hc in Hc'; injection Hc' as <-).
  - apply tp_open; auto.
  - by apply tp_masked.
  - by apply tp_window.
  - by apply tp_parked.
Qed.

(** Between two calls. *)
Lemma pphase_free w g me old s0 :
  pphase w g s0 -> ps_mode g = PTask me old -> ps_code g !! me = None ->
  s0 = ps_kern g /\ open_at me w (ps_kern g) /\ g_crit_depth (ps_port g) = 0.
Proof.
  intros Ph Em Hn. destruct Ph as [Hm|me' old' Em'|me' old' s0 c' Em' ? ? ? Hc'|me' old' c' Em' ? ? ? Hc'
    |me' old' c' Em' ? ? Hc']; [by rewrite Em in Hm|..]; rewrite Em in Em'; injection Em' as <- <-; congruence || done.
Qed.

End inv.

Section steps.
Context `{C : Config} {Cok : ConfigOk C}.
Implicit Types (s : kern) (p : posix) (g : psys) (me : Z) (w : world).

Lemma pinv_up w g : pinv w g -> pdown g = false.
Proof.
  intros [s0 [Ph _ _ _ _ _]]. unfold pdown. destruct Ph as [Hm| | | | ]; [by destruct (ps_mode g)|..];
    by destruct (ps_mode g).
Qed.

(** What a change of the port has to keep. *)
Definition same_side p p' : Prop :=
  g_ctxs p' = g_ctxs p /\ itimer_usec p' = itimer_usec p /\ g_sigalrm_set p' = g_sigalrm_set p /\
  (g_switch_pending p = true -> g_switch_pending p' = true).

(** The calls of the other tasks, after a change of the call of [me]. *)
Lemma code_others w g me old (code' : gmap Z (prog api_res)) :
  (forall i c, (forall old, ps_mode g <> PTask i old) -> ps_code g !! i = Some c -> ok i w Open c) ->
  ps_mode g = PTask me old -> (forall i, i <> me -> code' !! i = ps_code g !! i) ->
  forall i c, (forall old', PTask me old <> PTask i old') -> code' !! i = Some c -> ok i w Open c.
Proof.
  intros Hcode Em Hc' i c Hi. assert (Hne : i <> me) by (intros ->; by apply (Hi old)).
  rewrite Hc' by done. apply Hcode. intros old'. rewrite Em. apply Hi.
Qed.

(** A statement that leaves the task outside of a critical section. *)
Lemma plands w g me old s0 ph c s' p' :
  pinv_at w g s0 -> ps_mode g = PTask me old -> valid_id me -> across me s0 s' ->
  lands me w s' ph -> ok me w ph c -> g_crit_depth p' = 0 -> same_side (ps_port g) p' ->
  pinv w (mkPsys s' p' (PTask me old) (<[me := c]> (ps_code g))).
Proof.
  intros [_ Hsw Hctx Hcode Har _] Em Hv Hac Hl Hok Hd (Ec & Ei & Es & _). exists s'.
  assert (Hx : (<[me := c]> (ps_code g)) !! me = Some c) by apply lookup_insert_eq.
  split; cbn [ps_kern ps_port ps_mode ps_code].
  - destruct ph; try done.
    + eapply pp_open; cbn; try done. intros c'. rewrite Hx. by intros [= <-].
    + destruct Hl as [-> Hcur]. by eapply (pp_window w (mkPsys _ _ _ _)).
    + eapply (pp_parked w (mkPsys _ _ _ _)); cbn; try done. by left.
  - by eapply (switch_ok_ctxs s0 s' (ps_port g)).
  - intros me' old' [= <- <-]. eapply has_context_ext; [exact Ec|]. by eapply Hctx.
  - eapply code_others; [done|done|]. intros i Hi. by apply lookup_insert_ne.
  - unfold armed in *. rewrite Ei, Es. exact Har.
  - done.
Qed.

Lemma crit_enter_side p :
  g_crit_depth p = 0 ->
  g_crit_depth (posix_crit_enter p) = 1 /\ same_side p (posix_crit_enter p) /\
  sigalrm_blocked (posix_crit_enter p) = sigalrm_blocked p || g_sigalrm_set p.
Proof. intros Hd. unfold posix_crit_enter. rewrite Hd. done. Qed.

Lemma crit_exit_side p :
  g_crit_depth p = 1 ->
  g_crit_depth (posix_crit_exit p) = 0 /\ same_side p (posix_crit_exit p).
Proof. intros Hd. unfold posix_crit_exit. rewrite Hd. done. Qed.

Lemma same_side_refl p : same_side p p.
Proof. done. Qed.

Lemma statement_open w g me old c :
  pinv_at w g (ps_kern g) -> ps_mode g = PTask me old -> open_at me w (ps_kern g) ->
  g_crit_depth (ps_port g) = 0 -> ps_code g !! me = Some c -> ok me w Open c ->
  pinv w (after_statement me old g c).
Proof.
  intros I Em Ho Hd Hc Hok. pose proof (open_valid _ Ho) as Hv. unfold after_statement.
  destruct c as [a|h|B f k|pc k|B body k]; cbn [ok] in Hok; cbn [stmt]; try done.
  - exists (ps_kern g). destruct I as [_ Hsw Hctx Hcode Har _].
    split; cbn [ps_kern ps_port ps_mode ps_code]; try done.
    + eapply (pp_open w (mkPsys _ _ _ _)); cbn; try done. intros c. by rewrite lookup_delete_eq.
    + intros me' old' [= <- <-]. by eapply Hctx.
    + eapply code_others; [done|done|]. intros i Hi. by apply lookup_delete_ne.
  - destruct (Hok _ Ho) as (b & s' & ph' & E & Hac & Hl & Hk). rewrite E.
    by eapply (plands w g me old).
  - destruct pc; try done; cbn [port_do]; try (by destruct Hok).
    + destruct Hok as [_ Hk]. destruct (crit_enter_side _ Hd) as (Hd' & (Ec & Ei & Es & Ep) & Hb).
      exists (ps_kern g). destruct I as [_ Hsw Hctx Hcode Har _].
      split; cbn [ps_kern ps_port ps_mode ps_code crit_enter posix_port]; try done.
      * eapply (pp_masked w (mkPsys _ _ _ _)); cbn; try done; [|apply lookup_insert_eq|by apply Hk].
        unfold armed. rewrite Hb, Ei. intros Ha. rewrite Har by done. by rewrite orb_true_r.
      * eapply (switch_ok_ctxs (ps_kern g) _ (ps_port g)); [done|by apply live_same|done].
      * intros me' old' [= <- <-]. eapply has_context_ext; [exact Ec|]. by eapply Hctx.
      * eapply code_others; [done|done|]. intros i Hi. by apply lookup_insert_ne.
      * unfold armed in *. rewrite Ei, Es. exact Har.
    + eapply (plands w g me old _ Open); try done. apply across_refl.
  - eapply (plands w g me old _ Open); try done; [apply across_refl|by apply ok_loop].
Qed.

Lemma statement_masked w g me old s0 c :
  pinv_at w g s0 -> ps_mode g = PTask me old -> open_at me w s0 -> g_crit_depth (ps_port g) = 1 ->
  (armed (ps_port g) = true -> sigalrm_blocked (ps_port g) = true) ->
  ps_code g !! me = Some c -> ok me w (Masked s0 (ps_kern g)) c ->
  pinv w (after_statement me old g c).
Proof.
  intros I Em Ho Hd Hb Hc Hok. pose proof (open_valid _ Ho) as Hv. unfold after_statement.
  destruct c as [a|h|B f k|pc k|B body k]; cbn [ok] in Hok; cbn [stmt]; try done; [| |by destruct Hok].
  - destruct Hok as (b & s' & E & _ & Hk). rewrite E. exists s0.
    destruct I as [_ Hsw Hctx Hcode Har _]. split; cbn [ps_kern ps_port ps_mode ps_code]; try done.
    + eapply (pp_masked w (mkPsys _ _ _ _)); cbn; try done. apply lookup_insert_eq.
    + intros me' old' [= <- <-]. by eapply Hctx.
    + eapply code_others; [done|done|]. intros i Hi. by apply lookup_insert_ne.
  - destruct pc; try done; [by destruct Hok|]. destruct Hok as (Hac & ph & Hl & Hk). cbn [port_do].
    destruct (crit_exit_side _ Hd) as [Hd' Hs']. by eapply (plands w g me old s0).
Qed.

Lemma window_requeuing {A} me w s (c : prog A) : ok me w (Window s) c -> requeuing c.
Proof.
  destruct c as [a|h|B f k|pc k|B body k]; cbn; try done; try (by intros []).
  - by intros (_ & H & _).
  - by destruct pc; try done; intros [].
Qed.

Lemma statement_window w g me old c :
  pinv_at w g (ps_kern g) -> ps_mode g = PTask me old -> g_crit_depth (ps_port g) = 0 ->
  valid_id me -> ps_code g !! me = Some c -> ok me w (Window (ps_kern g)) c ->
  pinv w (after_statement me old g c).
Proof.
  intros I Em Hd Hv Hc Hok. unfold after_statement.
  destruct c as [a|h|B f k|pc k|B body k]; cbn [ok] in Hok; cbn [stmt]; try done; try (by destruct Hok).
  - destruct Hok as (_ & _ & b & s' & ph & E & Hac & Hl & Hk). rewrite E. by eapply (plands w g me old).
  - by destruct pc; try done; destruct Hok.
Qed.

Lemma parked_skip me w s p :
  parked_at me w s -> exec 0 hrt__on_scheduler_entry s p = Done tt s p.
Proof.
  intros [I Hc (tc & Htc & Hs) _ _]. eapply exec_scheduler_entry_skip.
  - rewrite Hc. by eapply inv_tcb_valid.
  - by rewrite Hc.
  - destruct Hs as [Hs|[_ Hs]]; [by left|by right].
Qed.

Lemma statement_parked w g me old c :
  pinv_at w g (ps_kern g) -> ps_mode g = PTask me old -> parked_at me w (ps_kern g) ->
  g_crit_depth (ps_port g) = 0 -> ps_code g !! me = Some c ->
  ok me w Parked c \/ g_switch_pending (ps_port g) = true /\ ok me w Asked c ->
  pinv w (after_statement me old g c).
Proof.
  intros [_ Hsw Hctx Hcode Har _] Em Hpk Hd Hc Hok. unfold after_statement.
  destruct Hok as [Hok|[Hpd Hok]].
  - destruct c as [a|h|B f k|pc k|B body k]; cbn [ok] in Hok; try done; [|by destruct Hok].
    destruct pc; try done; try (by destruct Hok). cbn [stmt port_do]. exists (ps_kern g).
    split; cbn [ps_kern ps_port ps_mode ps_code]; try done.
    + eapply (pp_parked w (mkPsys _ _ _ _)); cbn; try done; [apply lookup_insert_eq|by right].
    + intros me' old' [= <- <-]. by eapply Hctx.
    + eapply code_others; [done|done|]. intros i Hi. by apply lookup_insert_ne.
  - destruct c as [a|h|B f k|pc k|B body k]; cbn [ok] in Hok; try done; [|by destruct Hok].
    destruct pc; try done; try (by destruct Hok). destruct Hok as [_ Hok].
    cbn [stmt port_do]. rewrite switch_yields.
    2: { cbn. rewrite (pk_cur _ _ _ Hpk). by eapply Hctx. }
    unfold sched_return. rewrite (parked_skip me w) by done. exists (ps_kern g).
    split; cbn [ps_kern ps_port ps_mode ps_code]; try done.
    + apply (pp_idle w (mkPsys _ _ _ _)); cbn; try done; apply Hpk.
    + intros i c' _. destruct (decide (i = me)) as [->|Hne].
      * rewrite lookup_insert_eq. by intros [= <-].
      * rewrite lookup_insert_ne by done. apply Hcode. rewrite Em. intros old'. congruence.
Qed.

Lemma statement_inv w g me old c :
  pinv w g -> ps_mode g = PTask me old -> ps_code g !! me = Some c ->
  pinv w (after_statement me old g c).
Proof.
  intros [s0 I] Em Hc. destruct (pphase_task _ _ _ _ _ _ (pv_phase _ _ _ I) Em Hc).
  - by apply statement_open.
  - by eapply statement_masked.
  - by apply statement_window.
  - by apply statement_parked.
Qed.

End steps.

Section steps.
Context `{C : Config} {Cok : ConfigOk C}.
Implicit Types (s : kern) (p : posix) (g : psys) (me : Z) (w : world).

Hypothesis Hstall : HARDRT_STALL_ON_ERROR = false.

(** ** The signal *)

(** What a tick does to a settled state. *)
Record ticks_to (held : list Z) s p s' p' : Prop := {
  tk_run : _tick_sighandler s p = Done tt s' p';
  tk_inv : sched_inv held s';
  tk_held : held_same held s s';
  tk_obj : obj_step s s';
  tk_live : live_le s s';
  tk_side : same_side p p';
  tk_depth : g_crit_depth p' = g_crit_depth p;
  tk_blocked : sigalrm_blocked p' = sigalrm_blocked p;
  tk_pending : g_switch_pending p' = true
}.

Lemma tick_to held s p :
  sched_inv held s -> awake held s -> exists s' p', ticks_to held s p s' p'.
Proof.
  intros I Ha. pose proof (safe_tick (PL := posix_port) 0 held s p (or_introl Hstall) I Ha) as H.
  rewrite (exec_tick_isr (PL := posix_port) 0 held s p) in H by auto. destruct H as (I' & Hh & (O & L & _) & _).
  exists (tick_spec s).1, (set_pending true (if (tick_spec s).2 then posix_pend p else p)).
  split; try done; try (by destruct (tick_spec s).2).
  unfold _tick_sighandler. by rewrite (exec_tick_isr (PL := posix_port) 0 held s p) by auto.
Qed.

Lemma signal_inv w g :
  pinv w g -> armed (ps_port g) = true -> sigalrm_blocked (ps_port g) = false -> signal_fits g ->
  pinv w (after_signal g (run_signal g)).
Proof.
  intros [s0 I] Har Hb Hfit. pose proof I as [Ph Hsw Hctx Hcode Hars _]. unfold run_signal in *.
  assert (Hgo : forall held, ps_kern g = s0 -> sched_inv held (ps_kern g) -> awake held (ps_kern g) ->
    (forall s' p', ticks_to held (ps_kern g) (ps_port g) s' p' ->
       pphase w (mkPsys s' p' (ps_mode g) (ps_code g)) s') ->
    pinv w (after_signal g (_tick_sighandler (ps_kern g) (ps_port g)))).
  { intros held <- I0 Ha Hph. destruct (tick_to held _ (ps_port g) I0 Ha) as (s' & p' & T).
    rewrite (tk_run _ _ _ _ _ T). destruct (tk_side _ _ _ _ _ T) as (Ec & Ei & Es & _). exists s'.
    split; cbn [after_signal ps_kern ps_port ps_mode ps_code].
    - by apply Hph.
    - by eapply (switch_ok_ctxs (ps_kern g) s' (ps_port g)); [|apply T|].
    - intros me old Em. eapply has_context_ext; [exact Ec|]. by eapply Hctx.
    - exact Hcode.
    - unfold armed in *. rewrite Ei, Es. exact Hars.
    - intros _ i _. apply (tk_pending _ _ _ _ _ T). }
  destruct Ph as [Hm Hi Ho Hsh Hd|me old Em Ho Hd Hk|me old s0 c Em Ho Hd Hbl Hc Hk|me old c Em Hd Hv Hcu Hc Hk
    |me old c Em Hpk Hd Hc Hk].
  - apply (Hgo []); [done|done|apply awake_nil|]. intros s' p' T. destruct (tk_obj _ _ _ _ _ T Ho) as [Ho' Hsh'].
    apply (pp_idle w (mkPsys _ _ _ _)); cbn; try done; [apply T|congruence|by rewrite (tk_depth _ _ _ _ _ T)].
  - pose proof (open_run _ _ _ Ho) as R. apply (Hgo [me]); [done|apply R|by apply running_awake|].
    intros s' p' T. destruct (tk_obj _ _ _ _ _ T (open_obj _ _ _ Ho)) as [Ho' Hsh'].
    eapply (pp_open w (mkPsys _ _ _ _)); cbn; try done; [|by rewrite (tk_depth _ _ _ _ _ T)].
    split; [eapply isr_running; [exact R|apply T|apply T]|done|]. rewrite Hsh'. apply Ho.
  - rewrite Hbl in Hb by done. done.
  - exfalso. unfold signal_fits in Hfit. rewrite Em in Hfit. destruct Hfit as [Hf _].
    by eapply Hf, window_requeuing.
  - apply (Hgo []); [done|apply Hpk|apply awake_nil|]. intros s' p' T.
    destruct (tk_obj _ _ _ _ _ T (pk_obj _ _ _ Hpk)) as [Ho' Hsh'].
    eapply (pp_parked w (mkPsys _ _ _ _)); cbn; try done; [|by rewrite (tk_depth _ _ _ _ _ T)|].
    2: { destruct Hk as [Hk|[_ Hk]]; [by left|right]. split; [apply (tk_pending _ _ _ _ _ T)|done]. }
    split; [apply T| | |done|rewrite Hsh'; apply Hpk].
    + pose proof (proj1 (tk_held _ _ _ _ _ T)) as Hc'. rewrite Hc'. apply Hpk.
    + destruct (pk_tcb _ _ _ Hpk) as (tc & Htc & _). pose proof (tk_inv _ _ _ _ _ T) as I'.
      assert (Hv : valid_id me) by (eapply inv_tcb_valid; [apply Hpk|done]).
      destruct (zget_is_Some (g_tcbs s') me) as [tc' Htc'].
      { destruct (bwf_kern _ (inv_base _ _ I')). destruct Hv. lia. }
      exists tc'. split; [done|]. destruct (decide (state tc' = HRT_READY)) as [Hr|Hr]; [right|by left].
      split; [done|]. unfold signal_fits in Hfit. rewrite Em in Hfit. destruct Hfit as [_ Hf].
      unfold run_signal in Hf. rewrite (tk_run _ _ _ _ _ T) in Hf. apply Hf; [done|].
      by apply (ready_queued s' me tc').
Qed.

(** ** The running task calls the kernel *)

Lemma call_pinv w g me old c :
  pinv w g -> ps_mode g = PTask me old -> ps_code g !! me = None -> creates c = false ->
  api_pre (ps_kern g) c ->
  pinv w (mkPsys (ps_kern g) (ps_port g) (PTask me old) (<[me := api_prog c]> (ps_code g))).
Proof.
  intros [s0 I] Em Hn Hc Hpre. destruct (pphase_free _ _ _ _ _ (pv_phase _ _ _ I) Em Hn) as (-> & Ho & Hd).
  eapply (plands w g me old _ Open); try done; [by eapply open_valid|apply across_refl|].
  eapply hop_api_ok; try done. by eapply open_valid.
Qed.

(** ** The scheduler loop *)

(** A step of code that runs no task. *)
Lemma idle_inv w g s' p' m :
  pinv_at w g (ps_kern g) -> idle_mode (ps_mode g) = true -> idle_mode m = true ->
  sched_inv [] s' -> objects_ok s' -> shape s' = w -> switch_ok (PL := posix_port) s' p' ->
  g_crit_depth p' = 0 -> (armed p' = true -> g_sigalrm_set p' = true) ->
  (m = PSched -> forall i, is_ready s' i -> g_switch_pending p' = true) ->
  pinv w (mkPsys s' p' m (ps_code g)).
Proof.
  intros I Hm Hm' Hi Ho Hsh Hsw Hd Ha Hw. exists s'. split; cbn; try done.
  - by apply (pp_idle w (mkPsys _ _ _ _)).
  - by intros me old ->.
  - intros i c _. apply (pv_code _ _ _ I). intros old E. by rewrite E in Hm.
Qed.

Lemma idle_facts w g s0 :
  pinv_at w g s0 -> idle_mode (ps_mode g) = true ->
  s0 = ps_kern g /\ sched_inv [] s0 /\ objects_ok s0 /\ shape s0 = w /\ g_crit_depth (ps_port g) = 0.
Proof.
  intros [Ph _ _ _ _ _] Hm. destruct Ph as [| | | |]; [done|..];
    match goal with H : ps_mode g = PTask _ _ |- _ => by rewrite H in Hm end.
Qed.

Lemma poll_inv w g : pinv w g -> ps_mode g = PSched -> pinv w (after_poll g).
Proof.
  intros [s0 I] Em. destruct (idle_facts w g s0 I) as (-> & Hi & Ho & Hsh & Hd); [by rewrite Em|].
  pose proof I as [_ Hsw _ _ Har Hw]. unfold after_poll, sched_poll.
  assert (Hgo : forall p' m, idle_mode m = true -> g_ctxs p' = g_ctxs (ps_port g) ->
    g_crit_depth p' = 0 -> (armed p' = true -> g_sigalrm_set p' = true) ->
    (m = PSched -> g_switch_pending p' = g_switch_pending (ps_port g)) ->
    pinv w (mkPsys (ps_kern g) p' m (ps_code g))).
  { intros p' m Hm Ec Hd' Ha' Hp. apply idle_inv; try done; [by rewrite Em| |].
    - eapply (switch_ok_ctxs (ps_kern g) _ (ps_port g)); [done|by apply live_same|done].
    - intros Hm' i Hi'. rewrite Hp by done. by eapply Hw. }
  destruct (g_test_stop (ps_port g)); [by apply Hgo|].
  destruct (negb (g_switch_pending (ps_port g))); by apply Hgo.
Qed.

Lemma pick_spec_posix s p :
  sched_inv [] s -> switch_ok (PL := posix_port) s p ->
  match sched_pick s p with
  | (SRun x old, s', p') =>
      exists pr, first_ready s (seqZ 0 HARDRT_MAX_PRIO) = Some (pr, x) /\
        s' = set_current x (lpop (rq_ring pr) s) /\ running x s' /\ live s x /\ live_le s s' /\
        p' = (block_sigalrm p).1
  | (SIdle, s', p') => s' = s /\ first_ready s (seqZ 0 HARDRT_MAX_PRIO) = None /\
      p' = hrt_port_idle_wait p
  | _ => False
  end.
Proof.
  intros I [Hok Hsw]. unfold sched_pick. cbn [block_sigalrm].
  rewrite (exec_pick (PL := posix_port) 0 [] s) by done.
  destruct (first_ready s (seqZ 0 HARDRT_MAX_PRIO)) as [[pr x]|] eqn:Hf.
  - destruct (first_ready_spec _ _ _ _ Hf) as [Hin [l Hl]]. apply elem_of_seqZ in Hin.
    destruct (dispatch_running s pr x l) as (R & Hlx & Hle); [done|lia|done|].
    destruct (Hsw x Hlx) as (Hx & Hne & _). zbool.
    unfold hrt__set_current. rewrite id_in_range, andb_false_r by by eapply running_valid.
    exists pr. split_and!; try done; lia.
  - rewrite Z.eqb_refl, orb_true_r. done.
Qed.

Lemma pick_inv w g b : pinv w g -> ps_mode g = PPick -> pinv w (after_pick b g).
Proof.
  intros [s0 I] Em. destruct (idle_facts w g s0 I) as (-> & Hi & Ho & Hsh & Hd); [by rewrite Em|].
  pose proof I as [_ Hsw _ Hcode Har _]. unfold after_pick.
  pose proof (pick_spec_posix (ps_kern g) (ps_port g) Hi Hsw) as Hs.
  destruct (sched_pick (ps_kern g) (ps_port g)) as [[r s'] p']. destruct r as [| |x old|h]; try done.
  - destruct Hs as (-> & Hn & ->). apply idle_inv; try done; [by rewrite Em|].
    intros _ i Hr. by destruct (ready_found _ i Hi Hr).
  - destruct Hs as (pr & _ & Es & R & Hlx & L & ->).
    assert (Hob : objs s' = objs (ps_kern g)) by (rewrite Es; unfold lpop; by destruct (rget _ _)).
    destruct (obj_same _ _ Hob Ho) as [Ho' Hsh']. exists s'.
    assert (Hop : open_at x w s') by (split; [done|done|congruence]).
    assert (Hc : forall i c, ps_code g !! i = Some c -> ok i w Open c).
    { intros i c. apply Hcode. rewrite Em. done. }
    split; cbn [ps_kern ps_port ps_mode ps_code]; try done.
    + eapply (pp_open w (mkPsys _ _ _ _)); cbn; try done. intros c. apply Hc.
    + by eapply (switch_ok_ctxs (ps_kern g) s' (ps_port g)).
    + intros me old' [= <- <-]. eapply has_context_ext; [|by apply Hsw]. done.
    + intros i c _. apply Hc.
Qed.

(** ** [main] *)

Lemma create_side s p fn argp stack n_words attr v s' p' :
  sched_inv [] s -> switch_ok (PL := posix_port) s p ->
  api_pre s (CCreate fn argp stack n_words attr) ->
  exec 0 (hrt_create_task fn argp stack n_words attr) s p = Done v s' p' ->
  objs s' = objs s /\ g_crit_depth p' = g_crit_depth p /\ itimer_usec p' = itimer_usec p /\
  g_sigalrm_set p' = g_sigalrm_set p.
Proof.
  intros Hi Hsw [Hp Hidle]. destruct (bwf_kern _ (inv_base _ _ Hi)).
  destruct (decide (fn = 0 \/ stack = 0 \/ n_words < 64)) as [Hb|Hb].
  { rewrite exec_create_bad by done. by intros [= <- <- <-]. }
  destruct (free_slot_cases s) as [[Hf _]|(Hv & _ & _)].
  { rewrite exec_create_full by (done || lia). by intros [= <- <- <-]. }
  erewrite (exec_create_ok (PL := posix_port) 0 s p); [|exact Hi|apply Hsw|reflexivity|done|done|lia..].
  intros [= <- <- <-]. split; [|done]. unfold kcreate, kready, lpush. by destruct (rget _ _).
Qed.

Lemma create_pinv w g fn argp stack n_words attr :
  pinv w g -> ps_mode g = PMain -> api_pre (ps_kern g) (CCreate fn argp stack n_words attr) ->
  pinv w (after_pmain g
    (exec 0 (hrt_create_task fn argp stack n_words attr) (ps_kern g) (ps_port g))).
Proof.
  intros [s0 I] Em Hpre. destruct (idle_facts w g s0 I) as (-> & Hi & Ho & Hsh & Hd); [by rewrite Em|].
  pose proof I as [_ Hsw _ _ Har _].
  pose proof (create_inv Hstall (mkSys (ps_kern g) (ps_port g) InMain ∅) fn argp stack n_words attr) as H.
  specialize (H ltac:(split; [exact Hi|exact Ho|exact Hsw|apply map_Forall_empty|done]) eq_refl Hpre).
  cbn [s_kern s_port] in H.
  destruct (exec (H := posix_port) 0 (hrt_create_task fn argp stack n_words attr) (ps_kern g) (ps_port g))
    as [v s' p'|? s' p'|? s' p'|s' p'] eqn:E; try by destruct (si_mode _ H).
  destruct (create_side _ _ _ _ _ _ _ _ _ _ Hi Hsw Hpre E) as (Eo & E1 & E2 & E3).
  destruct (obj_same _ _ Eo Ho) as [Ho' Hsh']. destruct H as [Hm _ Hsw' _ _].
  apply idle_inv; try done; [by rewrite Em|congruence|congruence|].
  unfold armed in *. by rewrite E2, E3.
Qed.

Lemma start_pinv w g :
  pinv w g -> ps_mode g = PMain ->
  pinv w (after_plaunch g (exec 0 hrt_start (ps_kern g) (ps_port g))).
Proof.
  intros [s0 I] Em. destruct (idle_facts w g s0 I) as (-> & Hi & Ho & Hsh & Hd); [by rewrite Em|].
  pose proof I as [_ Hsw _ _ Har _]. cbn. apply idle_inv; try done. by rewrite Em.
Qed.

Lemma initial_pinv g : pinitial g -> pinv (shape (ps_kern g)) g.
Proof.
  intros [cfg s0 s p Ho Hok Hc E].
  assert (Hp : posix_ok posix_boot).
  { unfold posix_ok, posix_boot. cbn. rewrite length_replicate. pose proof max_tasks_bounds. lia. }
  pose proof (initial_inv _ (init_sys cfg s0 posix_boot s p Ho Hok Hc Hp E)) as [Hm Ho' Hsw _ _].
  cbn [s_mode mode_ok s_kern s_port] in Hm, Ho', Hsw.
  rewrite exec_init in E. cbn in E. injection E as _ <-.
  assert (Hside : g_crit_depth (posix_start_systick (g_tick_hz (init_state cfg s0)) (init_state cfg s0) posix_boot) = 0 /\
    (armed (posix_start_systick (g_tick_hz (init_state cfg s0)) (init_state cfg s0) posix_boot) = true ->
     g_sigalrm_set (posix_start_systick (g_tick_hz (init_state cfg s0)) (init_state cfg s0) posix_boot) = true)).
  { unfold posix_start_systick. by case_decide. }
  destruct Hside as [Hd Har]. exists s. split; cbn [ps_kern ps_port ps_mode ps_code]; try done.
  by apply (pp_idle _ (mkPsys _ _ _ _)).
Qed.

(** ** Every reachable state *)

Lemma step_pinv w g g' : pinv w g -> pstep g g' -> pinv w g'.
Proof.
  intros I Hs. destruct Hs as [g fn argp stack n_words attr Em Hpre|g Em|g Em|g b Em
    |g me old c Em Hn Hc Hpre|g me old c Em Hc|g Hd Har Hb Hfit].
  - by apply create_pinv.
  - by apply start_pinv.
  - by apply poll_inv.
  - by apply pick_inv.
  - by apply call_pinv.
  - by apply statement_inv.
  - by apply signal_inv.
Qed.

Lemma reach_pinv g0 g : pinitial g0 -> rtc pstep g0 g -> pinv (shape (ps_kern g0)) g.
Proof.
  intros H0 Hr. apply initial_pinv in H0. revert H0. generalize (shape (ps_kern g0)). intros w.
  induction Hr as [x|x y z Hxy _ IH]; intros H0; [done|]. apply IH. by eapply step_pinv.
Qed.

End steps.
