(* ===== verification/CortexMachine.v ===== *)
(** * The whole system on the Cortex-M port

    Tasks, interrupts and context switches as a transition system whose
    steps are single statements. A task runs its own code or is in the
    middle of a call, of which the statements that are left are recorded;
    between any two of them an interrupt can be taken, when [BASEPRI] lets
    it through, and the PendSV handler can take the processor away. The
    handlers of the application and the tick run to their end. PendSV has
    the lowest priority: as soon as it is pending and not masked, it is
    taken before the next statement of a task. *)

From stdpp Require Import base tactics numbers list option gmap relations.
From S2P Require Import Prelude Types Prog Ring Core Sched Sem Mutex Queue PortCortexM.
From S2P Require Import CoreFacts Inv SchedFacts InitFacts Running Api ApiSafe ApiCalls.
From S2P Require Import ApiTheorem IsrSafe Stmt CritBal StmtSafe.
Open Scope Z_scope.
Open Scope prog_scope.
Import CortexM.

(** What the linker and the build have to provide: a level of [BASEPRI]
    that masks SysTick and PendSV, and a stack for the idle context. *)
Class CortexEnvOk `{Env : CortexEnv} : Prop := {
  syscall_level_range : 0 < syscall_level <= 224;
  idle_stack_pos : 0 < addr_idle_stack
}.

(** [Boot]: [main] runs, on the main stack. *)
Inductive cmode := Boot | Live | Down (h : halt).

Record machine := mkMachine {
  mc_kern : kern;
  mc_port : cortex;
  mc_cpu : cpu;                        (** of the running context *)
  mc_mode : cmode;
  mc_code : gmap Z (prog api_res)      (** what is left of the call a task is in *)
}.

Section machine.
Context `{C : Config} `{Env : CortexEnv}.
Implicit Types (s : kern) (p : cortex) (g : machine).

(** ** Interrupts *)

(** [BASEPRI] masks the priorities from its value on, unless it is 0. *)
Definition unmasked (prio : Z) p : bool :=
  irq_enabled p && ((BASEPRI p =? 0) || (prio <? BASEPRI p)).

Definition switch_due p : bool := pendsv p && unmasked (SHPR10 p) p.

Definition systick_on p : bool :=
  Z.testbit (SysTick_CTRL p) 0 && Z.testbit (SysTick_CTRL p) 1.

(** The handlers of the application: any of the calls for handlers. *)
Definition app_isr (h : isr) : bool := match h with ITick => false | _ => true end.

(** ** Stacks *)

Definition stack_lo s (i : Z) : Z :=
  if decide (i = HRT_IDLE_ID) then addr_idle_stack
  else from_option stack_base 0 (zget (g_tcbs s) i).

Definition stack_hi s (i : Z) : Z :=
  if decide (i = HRT_IDLE_ID) then addr_idle_stack + 4 * HARDRT_IDLE_STACK_WORDS
  else from_option (fun tc => stack_base tc + 4 * stack_words tc) 0 (zget (g_tcbs s) i).

(** The contexts that own a stack while nobody has the processor. *)
Definition owner s (i : Z) : Prop := i = HRT_IDLE_ID \/ live s i.

Definition fresh_stack s (stack n_words : Z) : Prop :=
  0 < stack /\
  forall i, owner s i -> stack + 4 * n_words <= stack_lo s i \/ stack_hi s i <= stack.

(** ** Outcomes *)

Definition current g : Z := g_current (mc_kern g).

Definition after_main g (r : result (H := cortex_port) Z) : machine :=
  match r with
  | Done _ s p => mkMachine s p (mc_cpu g) Boot (mc_code g)
  | Halted h s p => mkMachine s p (mc_cpu g) (Down h) (mc_code g)
  | Swapped _ s p | Spinning s p => mkMachine s p (mc_cpu g) (Down HUndef) (mc_code g)
  end.

Definition after_launch g (r : result (H := cortex_port) unit) : machine :=
  match r with
  | Swapped _ s p => mkMachine s p (mc_cpu g) Live (mc_code g)
  | Halted h s p => mkMachine s p (mc_cpu g) (Down h) (mc_code g)
  | Done _ s p | Spinning s p => mkMachine s p (mc_cpu g) (Down HUndef) (mc_code g)
  end.

Definition after_handler g (r : result (H := cortex_port) unit) : machine :=
  match r with
  | Done _ s p => mkMachine s p (mc_cpu g) (mc_mode g) (mc_code g)
  | Halted h s p => mkMachine s p (mc_cpu g) (Down h) (mc_code g)
  | Swapped _ s p | Spinning s p => mkMachine s p (mc_cpu g) (Down HUndef) (mc_code g)
  end.

Definition after_pendsv g : machine :=
  match PendSV_Handler (mc_cpu g) (mc_kern g) (mc_port g) with
  | (ExcReturn c, s, p) => mkMachine s p c Live (mc_code g)
  | (BxReturnAddress, s, p) => mkMachine s p (mc_cpu g) (Down HUndef) (mc_code g)
  | (PendsvHalt h, s, p) => mkMachine s p (mc_cpu g) (Down h) (mc_code g)
  end.

Definition after_stmt g (c : prog api_res) : machine :=
  match stmt (PL := cortex_port) c (mc_kern g) (mc_port g) with
  | SRet _ => mkMachine (mc_kern g) (mc_port g) (mc_cpu g) Live (delete (current g) (mc_code g))
  | SNext c' s p => mkMachine s p (mc_cpu g) Live (<[current g := c']> (mc_code g))
  | SStop h => mkMachine (mc_kern g) (mc_port g) (mc_cpu g) (Down h) (mc_code g)
  | SHop _ s p => mkMachine s p (mc_cpu g) (Down HUndef) (mc_code g)
  end.

Definition down g : bool := match mc_mode g with Down _ => true | _ => false end.

(** A handler does not wake the task that is about to be switched out: it
    has parked itself, and PendSV is still to come. *)
Definition still_parked g (r : result (H := cortex_port) unit) : Prop :=
  match r with
  | Done _ s' _ => forall tc tc',
      zget (g_tcbs (mc_kern g)) (current g) = Some tc -> state tc <> HRT_READY ->
      zget (g_tcbs s') (current g) = Some tc' -> state tc' <> HRT_READY
  | _ => True
  end.

Definition run_handler g (c : prog unit) : result (H := cortex_port) unit :=
  exec (H := cortex_port) 0 c (mc_kern g) (mc_port g).

(** ** Steps *)

Inductive cinitial : machine -> Prop :=
  | cinit_machine cfg s0 regs s p :
      objects_idle s0 -> objects_ok s0 -> cfg_wf cfg ->
      exec (H := cortex_port) 0 (hrt_init cfg) s0 cortex_reset = Done 0 s p ->
      cinitial (mkMachine s p (mkCpu 0 regs) Boot ∅).

Inductive cstep : machine -> machine -> Prop :=
  (** [main] creates a task, and starts the scheduler *)
  | cstep_create g fn argp stack n_words attr :
      mc_mode g = Boot -> api_pre (mc_kern g) (CCreate fn argp stack n_words attr) ->
      fresh_stack (mc_kern g) stack n_words ->
      cstep g (after_main g (exec (H := cortex_port) 0
        (hrt_create_task fn argp stack n_words attr) (mc_kern g) (mc_port g)))
  | cstep_start g :
      mc_mode g = Boot ->
      cstep g (after_launch g (exec (H := cortex_port) 0 hrt_start (mc_kern g) (mc_port g)))
  (** interrupts *)
  | cstep_systick g :
      down g = false -> systick_on (mc_port g) = true ->
      unmasked (SHPR11 (mc_port g)) (mc_port g) = true ->
      still_parked g (run_handler g SysTick_Handler) ->
      cstep g (after_handler g (run_handler g SysTick_Handler))
  | cstep_irq g prio h :
      down g = false -> app_isr h = true -> isr_pre (mc_kern g) h ->
      syscall_level <= prio -> unmasked prio (mc_port g) = true ->
      still_parked g (run_handler g (isr_prog h)) ->
      cstep g (after_handler g (run_handler g (isr_prog h)))
  | cstep_pendsv g :
      down g = false -> switch_due (mc_port g) = true -> cstep g (after_pendsv g)
  (** the running context computes, on its registers and on its stack *)
  | cstep_compute g c m :
      mc_mode g = Live -> switch_due (mc_port g) = false -> 0 <= current g ->
      stack_lo (mc_kern g) (current g) + 32 <= psp c <= stack_hi (mc_kern g) (current g) ->
      length (r4_r11 c) = 8%nat ->
      (forall a, a < stack_lo (mc_kern g) (current g) \/ stack_hi (mc_kern g) (current g) <= a ->
         m !! a = ram (mc_port g) !! a) ->
      cstep g (mkMachine (mc_kern g) (set_ram m (mc_port g)) c Live (mc_code g))
  (** the running task calls the kernel, and a statement of the call runs *)
  | cstep_call g c :
      mc_mode g = Live -> switch_due (mc_port g) = false -> 0 <= current g ->
      current g <> HRT_IDLE_ID -> mc_code g !! current g = None ->
      wakes_nobody c = true -> api_pre (mc_kern g) c ->
      cstep g (mkMachine (mc_kern g) (mc_port g) (mc_cpu g) Live
                 (<[current g := api_prog c]> (mc_code g)))
  | cstep_stmt g c :
      mc_mode g = Live -> switch_due (mc_port g) = false ->
      mc_code g !! current g = Some c -> cstep g (after_stmt g c).

End machine.
