(* ===== verification/CortexInv.v ===== *)
(** * The invariant of the Cortex-M system

    In which phase the running context is, what the suspended tasks rely
    on, where the stacks are, and that the running task is the most urgent
    one unless a switch is pending. *)

From stdpp Require Import base tactics numbers list option gmap relations.
From S2P Require Import Prelude Types Prog Ring Core Sched Sem Mutex Queue PortNull PortCortexM.
From S2P Require Import CoreFacts Inv SchedFacts InitFacts Running Api ApiSafe ApiCalls.
From S2P Require Import ApiTheorem IsrSafe PickFacts System CortexFacts.
From S2P Require Import Frame Stmt CritBal StmtSafe CortexMachine.
Open Scope Z_scope.
Open Scope prog_scope.
Import CortexM.

(** ** Statements and switches

    PendSV is taken as soon as it is asked for. Every statement, also inside
    of a critical section, leaves the other tasks alone. *)

Lemma own_refl me s : own me s s.
Proof. done. Qed.

Lemma own_trans me s1 s2 s3 : own me s1 s2 -> own me s2 s3 -> own me s1 s3.
Proof.
  intros (E1 & E2 & E3) (F1 & F2 & F3). split_and!; [congruence|congruence|].
  intros i Hi. rewrite F3, E3; done.
Qed.

(** A change of the objects, of the queues or of the settings only. *)
Lemma own_same me s s' : g_tcbs s' = g_tcbs s -> g_current s' = g_current s -> own me s s'.
Proof. intros Et Ec. unfold own, statics. rewrite Et. done. Qed.

Lemma own_set me s tc tc' :
  zget (g_tcbs s) me = Some tc -> tcb_static tc' = tcb_static tc -> own me s (kset_tcb me tc' s).
Proof.
  intros Htc Hs. split; [done|]. split.
  - assert (Hr := zget_Some _ _ _ Htc). exact (frame_tcb me tc tc' _ s Htc (zset_Some _ _ _ Hr) Hs).
  - intros i Hi. erewrite kset_tcb_lookup by done. by rewrite decide_False.
Qed.

#[export] Instance pendsv_regime : Regime.
Proof.
  refine {| at_once := true; inside := own; across := own |}.
  - done.
  - apply own_trans.
  - apply own_same.
  - intros me s tc tc' Htc _. by apply own_set.
Defined.

Lemma pk_not_ready `{C : Config} me w s :
  parked_at me w s -> exists tc, zget (g_tcbs s) me = Some tc /\ state tc <> HRT_READY.
Proof. intros [_ _ (tc & Htc & [Hs|[? _]]) _ _]; [by exists tc|done]. Qed.

Section inv.
Context `{C : Config} `{Env : CortexEnv}.
Implicit Types (s : kern) (p : cortex) (g : machine) (me : Z) (w : world).

(** Interrupts are enabled, PendSV has the lowest priority and SysTick the
    one above it. *)
Definition hw_ok p : Prop :=
  irq_enabled p = true /\ SHPR10 p = 240 /\ (systick_on p = true -> SHPR11 p = 224).

(** The stack pointer, as PendSV finds it, has room for [r4] to [r11]. *)
Definition cpu_ok s me (c : cpu) : Prop :=
  stack_lo s me + 32 <= psp c <= stack_hi s me /\ length (r4_r11 c) = 8%nat.

(** The contexts that own a stack while [me] runs. *)
Definition uses me s (i : Z) : Prop := (i = me /\ 0 <= me) \/ owner s i.

(** The contexts that do not run: what is left of their calls is safe, and
    their stack pointers and stacks are in order. *)
Record others_ok w me (code : gmap Z (prog api_res)) s : Prop := {
  oo_idle : exists tc, zget (g_tcbs s) HRT_IDLE_ID = Some tc /\ state tc = HRT_UNUSED;
  oo_code_idle : code !! HRT_IDLE_ID = None;
  oo_code : forall i c, i <> me -> code !! i = Some c -> ok i w Open c;
  oo_sp : forall i, owner s i -> i <> me ->
    exists tc, zget (g_tcbs s) i = Some tc /\ stack_lo s i <= sp tc /\ sp tc + 32 <= stack_hi s i;
  oo_lo : forall i, uses me s i -> 0 < stack_lo s i;
  oo_disj : forall i j, uses me s i -> uses me s j -> i <> j ->
    stack_hi s i <= stack_lo s j \/ stack_hi s j <= stack_lo s i
}.

(** No task is more urgent than the running one, and the idle context runs
    only when no task is ready. *)
Definition urgent me s : Prop :=
  forall i ti, i <> me -> zget (g_tcbs s) i = Some ti -> state ti = HRT_READY ->
    me <> HRT_IDLE_ID /\ exists tm, zget (g_tcbs s) me = Some tm /\ prio tm <= prio ti.

(** What the running context is doing; the last argument is the kernel
    state as the other contexts see it. *)
Inductive at_phase w g : kern -> Prop :=
  | ph_start :
      down g = false -> current g = -1 -> sched_inv [] (mc_kern g) ->
      mask_ok false (mc_port g) -> psp (mc_cpu g) = 0 -> mc_code g = ∅ ->
      at_phase w g (mc_kern g)
  | ph_idle :
      mc_mode g = Live -> current g = HRT_IDLE_ID -> sched_inv [] (mc_kern g) ->
      mask_ok false (mc_port g) -> cpu_ok (mc_kern g) (current g) (mc_cpu g) ->
      at_phase w g (mc_kern g)
  | ph_open :
      mc_mode g = Live -> open_at (current g) w (mc_kern g) -> mask_ok false (mc_port g) ->
      cpu_ok (mc_kern g) (current g) (mc_cpu g) ->
      (forall c, mc_code g !! current g = Some c -> ok (current g) w Open c) ->
      at_phase w g (mc_kern g)
  | ph_masked s0 c :
      mc_mode g = Live -> open_at (current g) w s0 -> own (current g) s0 (mc_kern g) ->
      mask_ok true (mc_port g) -> cpu_ok s0 (current g) (mc_cpu g) ->
      mc_code g !! current g = Some c -> ok (current g) w (Masked s0 (mc_kern g)) c ->
      at_phase w g s0
  | ph_parked c :
      mc_mode g = Live -> parked_at (current g) w (mc_kern g) -> mask_ok false (mc_port g) ->
      cpu_ok (mc_kern g) (current g) (mc_cpu g) -> mc_code g !! current g = Some c ->
      ok (current g) w Parked c \/ pendsv (mc_port g) = true /\ ok (current g) w Open c ->
      at_phase w g (mc_kern g).

Record cinv_at w g s0 : Prop := {
  ci_phase : at_phase w g s0;
  ci_others : others_ok w (current g) (mc_code g) s0;
  ci_obj : objects_ok s0;
  ci_shape : shape s0 = w;
  ci_hw : hw_ok (mc_port g);
  ci_urgent : pendsv (mc_port g) = false -> 0 <= current g -> urgent (current g) s0
}.

Definition cinv w g : Prop := exists s0, cinv_at w g s0.

End inv.

Section facts.
Context `{C : Config} {Cok : ConfigOk C} `{Env : CortexEnv} {EnvOk : CortexEnvOk}.
Implicit Types (s : kern) (p : cortex) (g : machine) (me : Z) (w : world).

(** ** Stacks *)

Lemma stack_statics s s' i :
  statics s' = statics s -> stack_lo s' i = stack_lo s i /\ stack_hi s' i = stack_hi s i.
Proof.
  intros E. pose proof (statics_lookup s s' i E) as H. unfold stack_lo, stack_hi.
  destruct (decide (i = HRT_IDLE_ID)); [done|].
  destruct (zget (g_tcbs s') i) as [t'|], (zget (g_tcbs s) i) as [t|]; try done; cbn in H |- *.
  injection H as _ E1 E2 _ _ _ _. by rewrite E1, E2.
Qed.

Lemma cpu_ok_statics s s' me c : statics s' = statics s -> cpu_ok s me c -> cpu_ok s' me c.
Proof. intros E. destruct (stack_statics s s' me E) as [E1 E2]. unfold cpu_ok. by rewrite E1, E2. Qed.

Lemma static_sp s s' i tc :
  statics s' = statics s -> zget (g_tcbs s) i = Some tc ->
  exists tc', zget (g_tcbs s') i = Some tc' /\ sp tc' = sp tc /\ prio tc' = prio tc.
Proof.
  intros E Htc. pose proof (statics_lookup s s' i E) as H. rewrite Htc in H.
  destruct (zget (g_tcbs s') i) as [t|]; [|done]. injection H as E1 _ _ _ _ _ E2. by exists t.
Qed.

(** A step that keeps what is fixed about the tasks and makes none live. *)
Lemma others_step w me code s s' :
  statics s' = statics s -> (forall i, live s' i -> uses me s i) ->
  (forall i, i <> me -> live s' i -> live s i) -> me <> HRT_IDLE_ID \/ live_le s s' ->
  others_ok w me code s -> others_ok w me code s'.
Proof.
  intros E Hu Hl Hi [O1 O2 O3 O4 O5 O6].
  assert (Hlo := fun i => proj1 (stack_statics s s' i E)).
  assert (Hhi := fun i => proj2 (stack_statics s s' i E)).
  assert (Huse : forall i, uses me s' i -> uses me s i).
  { intros i [?|[->|?]]; [by left|by right; left|by apply Hu]. }
  split; try done.
  - destruct O1 as (tc & Htc & Hs). destruct (static_sp s s' _ tc E Htc) as (tc' & Htc' & _).
    exists tc'. split; [done|]. destruct (decide (state tc' = HRT_UNUSED)) as [|Hne]; [done|].
    destruct (decide (HRT_IDLE_ID = me)) as [Em|Hne'].
    + destruct Hi as [?|Hi]; [congruence|]. destruct (Hi HRT_IDLE_ID) as (t & Ht & ?); [by exists tc'|congruence].
    + destruct (Hl HRT_IDLE_ID Hne') as (t & Ht & ?); [by exists tc'|congruence].
  - intros i Hown Hne. destruct (O4 i) as (tc & Htc & H1 & H2); [|done|].
    { destruct Hown as [->|Hown]; [by left|]. right. by apply Hl. }
    destruct (static_sp s s' i tc E Htc) as (tc' & Htc' & Esp & _).
    exists tc'. rewrite Hlo, Hhi, Esp. done.
  - intros i Hi'. rewrite Hlo. by apply O5, Huse.
  - intros i j H1 H2. rewrite !Hlo, !Hhi. apply O6; by apply Huse.
Qed.

Lemma others_own w me code s s' :
  0 <= me -> me <> HRT_IDLE_ID -> own me s s' -> others_ok w me code s -> others_ok w me code s'.
Proof.
  intros Hme Hidle (Ec & Es & Et). apply others_step; [done| | |by left].
  - intros i (tc & Htc & Hu). destruct (decide (i = me)) as [->|Hne]; [by left|].
    right. right. exists tc. by rewrite <- Et.
  - intros i Hne (tc & Htc & Hu). exists tc. by rewrite <- Et.
Qed.

Lemma others_code w me code code' s :
  (forall i, i <> me -> code' !! i = code !! i) -> me <> HRT_IDLE_ID ->
  others_ok w me code s -> others_ok w me code' s.
Proof.
  intros Hc Hne [O1 O2 O3 O4 O5 O6]. split; try done.
  - by rewrite Hc.
  - intros i c Hi. rewrite Hc by done. by apply O3.
Qed.

Lemma urgent_own me s s' : own me s s' -> urgent me s -> urgent me s'.
Proof.
  intros (Ec & Es & Et) Hu i ti Hne. rewrite Et by done. intros Hti Hr.
  destruct (Hu i ti Hne Hti Hr) as (Hi & tm & Htm & Hp). split; [done|].
  destruct (static_sp s s' me tm Es Htm) as (tm' & Htm' & _ & Ep). exists tm'. split; [done|lia].
Qed.

Lemma urgent_ready me s s' :
  statics s' = statics s -> ready_le s s' -> urgent me s -> urgent me s'.
Proof.
  intros Es Hr Hu i ti Hne Hti Hrd. destruct (Hr i) as (t & Ht & Htr); [by exists ti|].
  destruct (Hu i t Hne Ht Htr) as (Hi & tm & Htm & Hp). split; [done|].
  destruct (static_sp s s' me tm Es Htm) as (tm' & Htm' & _ & Ep).
  destruct (static_sp s s' i t Es Ht) as (ti' & Hti' & _ & Ei). rewrite Hti in Hti'.
  injection Hti' as <-. exists tm'. split; [done|lia].
Qed.

(** ** Phases *)

Lemma ok_parked_open {A} me w (c : prog A) : ok me w Parked c -> ok me w Open c.
Proof.
  destruct c as [a|h|B f k|pc k|B body k]; cbn; try done; [|by intros []].
  destruct pc; try done; by intros [].
Qed.

Lemma mask_open p : hw_ok p -> mask_ok false p -> switch_due p = pendsv p.
Proof.
  intros (Hi & H10 & _) [_ Hb]. unfold switch_due, unmasked. rewrite Hi, Hb. cbn. apply andb_true_r.
Qed.

Lemma mask_closed p prio : mask_ok true p -> syscall_level <= prio -> unmasked prio p = false.
Proof.
  intros (_ & Hb & _) Hp. unfold unmasked. rewrite Hb. destruct syscall_level_range.
  zbool. apply andb_false_r.
Qed.

(** SysTick does not come inside of a critical section. *)
Lemma systick_unmasked w g :
  cinv w g -> systick_on (mc_port g) = true ->
  unmasked (SHPR11 (mc_port g)) (mc_port g) = true -> ~ mask_ok true (mc_port g).
Proof.
  intros [s0 I] Hon Hu Hm. destruct (ci_hw _ _ _ I) as (_ & _ & H11). rewrite H11 in Hu by done.
  rewrite (mask_closed _ _ Hm) in Hu; [done|]. pose proof syscall_level_range. lia.
Qed.

Lemma hw_rest p p' : port_rest p' = port_rest p -> hw_ok p -> hw_ok p'.
Proof.
  intros [= E1 E2 E3 E4 E5 E6 _ _]. unfold hw_ok, systick_on. by rewrite E1, E4, E5, E6.
Qed.


End facts.
