(* ===== verification/CortexSteps.v ===== *)
(** * Every step of the Cortex-M system keeps its invariant *)

From stdpp Require Import base tactics numbers list option gmap relations.
From S2P Require Import Prelude Types Prog Ring Core Sched Sem Mutex Queue PortNull PortCortexM.
From S2P Require Import CoreFacts Inv SchedFacts InitFacts Running Api ApiSafe ApiCalls.
From S2P Require Import ApiTheorem IsrSafe PickFacts System CortexFacts.
From S2P Require Import Frame Stmt CritBal StmtSafe CortexMachine CortexInv.
Open Scope Z_scope.
Open Scope prog_scope.
Import CortexM.

Section steps.
Context `{C : Config} {Cok : ConfigOk C} `{Env : CortexEnv} {EnvOk : CortexEnvOk}.
Implicit Types (s : kern) (p : cortex) (g : machine) (me : Z) (w : world).

(** What the handlers rely on. *)
Program Definition cortex_base : BasePort cortex_port := {|
  port_ok _ := True;
  can_switch _ _ := True;
  pending p := pendsv p = true
|}.
Next Obligation. done. Qed.
Next Obligation. done. Qed.
Next Obligation. done. Qed.
Next Obligation. done. Qed.
Next Obligation. done. Qed.
Next Obligation. done. Qed.
Next Obligation. intros p. cbn. unfold cm_crit_enter. by destruct (g_cs_nest p =? 0). Qed.
Next Obligation.
  intros p. cbn. unfold cm_crit_exit. destruct (g_cs_nest p =? 0); [done|].
  by destruct (g_cs_nest (set_nest _ _) =? 0).
Qed.
Next Obligation. done. Qed.

(** ** A statement of a call *)

Lemma call_not_idle w me code s c : others_ok w me code s -> code !! me = Some c -> me <> HRT_IDLE_ID.
Proof. intros O Hc ->. by rewrite (oo_code_idle _ _ _ _ O) in Hc. Qed.

(** The rest of a call is recorded. *)
Lemma others_rest w me code s c :
  me <> HRT_IDLE_ID -> others_ok w me code s -> others_ok w me (<[me := c]> code) s.
Proof. intros Hne. apply others_code; [|done]. intros i Hi. by apply lookup_insert_ne. Qed.

(** A statement that leaves the task outside of a critical section. *)
Lemma landed w g ph c s' p' s0 :
  0 <= current g -> current g <> HRT_IDLE_ID -> cinv_at w g s0 -> own (current g) s0 s' ->
  lands (current g) w s' ph -> ok (current g) w ph c -> mask_ok false p' ->
  port_rest p' = port_rest (mc_port g) -> (pendsv (mc_port g) = true -> pendsv p' = true) ->
  cpu_ok s0 (current g) (mc_cpu g) ->
  cinv w (mkMachine s' p' (mc_cpu g) Live (<[current g := c]> (mc_code g))).
Proof.
  intros Hv Hne [_ O _ _ H U] Hown Hl Hok Hm Hr Hpd Hcpu.
  assert (Hw : ph = Open \/ ph = Parked).
  { destruct ph; try done; [by left| |by right]. by apply ok_no_window in Hok. }
  assert (Ec : g_current s' = current g) by (destruct Hw as [-> | ->]; apply Hl).
  pose proof Hown as (_ & Es & _). assert (Hc' := cpu_ok_statics _ _ _ _ Es Hcpu).
  set (me := current g) in *.
  exists s'. assert (Hph : at_phase w (mkMachine s' p' (mc_cpu g) Live (<[me := c]> (mc_code g))) s').
  { destruct Hw as [-> | ->].
    - apply (ph_open w (mkMachine s' p' (mc_cpu g) Live (<[me := c]> (mc_code g))));
        unfold current; cbn [mc_kern mc_port mc_cpu mc_mode mc_code]; rewrite ?Ec; try done.
      intros c'. rewrite lookup_insert_eq. by intros [= <-].
    - apply (ph_parked w (mkMachine s' p' (mc_cpu g) Live (<[me := c]> (mc_code g))) c);
        unfold current; cbn [mc_kern mc_port mc_cpu mc_mode mc_code]; rewrite ?Ec; try done.
      + apply lookup_insert_eq.
      + by left. }
  assert (Hobj : objects_ok s' /\ shape s' = w) by (destruct Hw as [-> | ->]; destruct Hl; done).
  split; unfold current; cbn [mc_kern mc_port mc_cpu mc_mode mc_code]; rewrite ?Ec; try apply Hobj; [done| | |].
  - apply others_rest; [done|]. by eapply others_own.
  - by eapply hw_rest.
  - intros Hp _. eapply urgent_own; [exact Hown|]. apply U; [|done].
    destruct (pendsv (mc_port g)) eqn:E; [|done]. by rewrite Hpd in Hp.
Qed.

Lemma port_call_stmt {A} pc (k : prog A) s p m m1 :
  bal_call false m pc = Some m1 -> mask_ok m p ->
  exists p', stmt (PL := cortex_port) (Port pc k) s p = SNext k s p' /\ mask_ok m1 p' /\
             port_rest p' = port_rest p /\ (pendsv p = true -> pendsv p' = true).
Proof.
  intros Hc Hm. destruct (bal_call_port _ _ _ s _ Hc Hm) as (p' & E & Hm' & Hr & Hp).
  exists p'. cbn [stmt]. by rewrite E.
Qed.

Lemma stmt_open w g c :
  mc_mode g = Live -> open_at (current g) w (mc_kern g) -> mask_ok false (mc_port g) ->
  cpu_ok (mc_kern g) (current g) (mc_cpu g) -> mc_code g !! current g = Some c ->
  ok (current g) w Open c -> cinv_at w g (mc_kern g) -> cinv w (after_stmt g c).
Proof.
  intros Hmode Ho Hm Hcpu Hcode Hok I. pose proof (ci_others _ _ _ I) as O.
  assert (Hne := call_not_idle _ _ _ _ _ O Hcode).
  assert (Hv : 0 <= current g) by (destruct (open_valid _ Ho); lia).
  unfold after_stmt. destruct c as [a|h|B f k|pc k|B body k]; cbn [ok] in Hok; try done.
  - cbn [stmt]. exists (mc_kern g). destruct I as [_ _ O1 O2 O3 O4]. split; cbn; try done.
    + apply (ph_open w (mkMachine (mc_kern g) (mc_port g) (mc_cpu g) Live _)); cbn; try done.
      intros c. by rewrite lookup_delete_eq.
    + eapply others_code; [|done|exact O]. intros i Hi. by apply lookup_delete_ne.
  - cbn [stmt]. destruct (Hok _ Ho) as (b & s' & ph' & E & Hown & Hl & Hk). rewrite E.
    by eapply landed.
  - assert (Hhop : forall pc', bal_call false false pc' = Some false -> ok (current g) w Open k ->
      cinv w match stmt (PL := cortex_port) (Port pc' k) (mc_kern g) (mc_port g) with
             | SRet _ => mkMachine (mc_kern g) (mc_port g) (mc_cpu g) Live (delete (current g) (mc_code g))
             | SNext c' s p => mkMachine s p (mc_cpu g) Live (<[current g := c']> (mc_code g))
             | SStop h => mkMachine (mc_kern g) (mc_port g) (mc_cpu g) (Down h) (mc_code g)
             | SHop _ s p => mkMachine s p (mc_cpu g) (Down HUndef) (mc_code g)
             end).
    { intros pc' Hb Hk. destruct (port_call_stmt pc' k (mc_kern g) _ _ _ Hb Hm) as (p' & -> & Hm' & Hr & Hp).
      by eapply (landed w g Open). }
    destruct pc; try done; try (by apply Hhop); try (destruct Hok as [_ Hok]; by apply Hhop).
    destruct Hok as [_ Hk].
    destruct (port_call_stmt hrt_port_crit_enter k (mc_kern g) (mc_port g) false true)
      as (p' & -> & Hm' & Hr & Hp); [done|done|].
    exists (mc_kern g). destruct I as [_ _ O1 O2 O3 O4]. split; cbn; try done.
    + eapply (ph_masked w (mkMachine (mc_kern g) p' (mc_cpu g) Live _)); cbn; try done.
      * apply lookup_insert_eq.
      * by apply Hk.
    + by apply others_rest.
    + by eapply hw_rest.
    + intros Hp'. apply O4. destruct (pendsv (mc_port g)) eqn:E'; [|done]. by rewrite Hp in Hp'.
  - cbn [stmt]. eapply (landed w g Open); try done; by apply ok_loop.
Qed.

Lemma stmt_masked w g s0 c :
  mc_mode g = Live -> open_at (current g) w s0 -> own (current g) s0 (mc_kern g) ->
  mask_ok true (mc_port g) -> cpu_ok s0 (current g) (mc_cpu g) -> mc_code g !! current g = Some c ->
  ok (current g) w (Masked s0 (mc_kern g)) c -> cinv_at w g s0 -> cinv w (after_stmt g c).
Proof.
  intros Hmode Ho Hown Hm Hcpu Hcode Hok I. pose proof (ci_others _ _ _ I) as O.
  assert (Hne := call_not_idle _ _ _ _ _ O Hcode).
  assert (Hv : 0 <= current g) by (destruct (open_valid _ Ho); lia).
  unfold after_stmt. destruct c as [a|h|B f k|pc k|B body k]; cbn [ok] in Hok; try done.
  - cbn [stmt]. destruct Hok as (b & s' & E & Hown' & Hk). rewrite E. exists s0.
    assert (Ec : g_current s' = current g) by apply Hown'.
    destruct I as [_ _ O1 O2 O3 O4]. split; unfold current; cbn [mc_kern mc_port mc_cpu mc_mode mc_code];
      rewrite ?Ec; try done.
    + eapply (ph_masked w (mkMachine s' (mc_port g) (mc_cpu g) Live _)); unfold current;
        cbn [mc_kern mc_port mc_cpu mc_mode mc_code]; rewrite ?Ec; try done.
      * by eapply own_trans.
      * apply lookup_insert_eq.
    + by apply others_rest.
  - destruct pc; try done; [by destruct Hok|]. destruct Hok as (_ & ph & Hl & Hk).
    destruct (port_call_stmt hrt_port_crit_exit k (mc_kern g) (mc_port g) true false)
      as (p' & -> & Hm' & Hr & Hp); [done|done|].
    by eapply landed.
  - by destruct Hok.
Qed.

Lemma stmt_parked w g c :
  mc_mode g = Live -> parked_at (current g) w (mc_kern g) -> mask_ok false (mc_port g) ->
  cpu_ok (mc_kern g) (current g) (mc_cpu g) -> mc_code g !! current g = Some c ->
  ok (current g) w Parked c -> cinv_at w g (mc_kern g) -> cinv w (after_stmt g c).
Proof.
  intros Hmode Hpk Hm Hcpu Hcode Hok I. pose proof (ci_others _ _ _ I) as O.
  assert (Hne := call_not_idle _ _ _ _ _ O Hcode).
  assert (Hpend : exists k, stmt (PL := cortex_port) c (mc_kern g) (mc_port g)
    = SNext k (mc_kern g) (_pend_pendsv (mc_port g)) /\ ok (current g) w Open k).
  { destruct c as [a|h|B f k|pc k|B body k]; cbn [ok] in Hok; try done; [|by destruct Hok].
    destruct pc; try done; try (by exists k); destruct Hok; by try exists k. }
  destruct Hpend as (k & E & Hk). unfold after_stmt. rewrite E. exists (mc_kern g).
  destruct I as [_ _ O1 O2 O3 O4]. split; cbn -[_pend_pendsv]; try done.
  - eapply (ph_parked w (mkMachine (mc_kern g) (_pend_pendsv (mc_port g)) (mc_cpu g) Live _)); cbn; try done.
    + apply lookup_insert_eq.
    + by right.
  - by apply others_rest.
Qed.

Lemma stmt_inv w g c :
  cinv w g -> switch_due (mc_port g) = false -> mc_code g !! current g = Some c ->
  cinv w (after_stmt g c).
Proof.
  intros [s0 I] Hsd Hc. pose proof I as [Ph O Ho Hs Hhw Hu]. destruct Ph as [_ _ _ _ _ He|_ Hi|Hl Hop Hm Hcpu Hk|s0 c' Hl Hop Hown Hm Hcpu Hc' Hk|c' Hl Hpk Hm Hcpu Hc' Hk].
  - by rewrite He, lookup_empty in Hc.
  - exfalso. by eapply call_not_idle.
  - eapply stmt_open; eauto.
  - rewrite Hc in Hc'. injection Hc' as <-. by eapply stmt_masked.
  - rewrite Hc in Hc'. injection Hc' as <-.
    rewrite mask_open in Hsd by done. destruct Hk as [Hp|[Hp _]]; [|congruence].
    by eapply stmt_parked.
Qed.

(** ** Handlers *)

Definition is_handler s (c : prog unit) : Prop :=
  c = SysTick_Handler \/ exists h, c = isr_prog h /\ isr_pre s h.

Record handled held s p s' p' : Prop := {
  hd_inv : sched_inv held s';
  hd_held : held_same held s s';
  hd_obj : objects_ok s';
  hd_shape : shape s' = shape s;
  hd_live : live_le s s';
  hd_static : statics s' = statics s;
  hd_mask : mask_ok false p';
  hd_rest : port_rest p' = port_rest p;
  hd_pend : pendsv p = true -> pendsv p' = true;
  hd_ready : pendsv p' = true \/ ready_le s s'
}.

Lemma handler_bal s c : is_handler s c -> bal false false false c.
Proof. intros [->|(h & -> & _)]; [apply bal_systick|apply bal_isr]. Qed.

Lemma handler_keeps s c : is_handler s c -> keeps_of statics c.
Proof.
  intros [->|(h & -> & _)].
  - unfold SysTick_Handler, hrt__cfg_tick_src. keep.
  - destruct h; cbn [isr_prog]; unfold Sem.hrt_sem_give_from_isr; keep.
Qed.

Hypothesis Hstall : HARDRT_STALL_ON_ERROR = false.

Lemma handler_post held s p c :
  is_handler s c -> sched_inv held s -> awake held s -> objects_ok s ->
  isr_post (BP := cortex_base) held s p (exec (H := cortex_port) 0 c s p).
Proof.
  intros [->|(h & -> & Hpre)] I Ha Ho; [|by apply isr_all_safe].
  unfold SysTick_Handler, hrt__cfg_tick_src. xrun.
  case_decide; [apply safe_tick; auto|by apply isr_skip].
Qed.

Lemma handler_safe held s p c :
  is_handler s c -> sched_inv held s -> awake held s -> objects_ok s -> mask_ok false p ->
  exists s' p', exec (H := cortex_port) 0 c s p = Done tt s' p' /\ handled held s p s' p'.
Proof.
  intros Hc I Ha Ho Hm. pose proof (handler_post held s p c Hc I Ha Ho) as H.
  pose proof (exec_keeps_on (PL := cortex_port) (obs := statics) 0 c s p
    (bal_quiet _ _ _ (handler_bal _ _ Hc)) (handler_keeps _ _ Hc)) as Hk.
  destruct (exec (H := cortex_port) 0 c s p) as [[] s' p'|k s' p'|h s' p'|s' p'] eqn:E; try done.
  destruct (bal_exec 0 _ _ _ _ _ _ _ _ (handler_bal _ _ Hc) Hm E) as [Hm' Hr].
  destruct H as (I' & Hh & (Hobj & Hl & (_ & Hpd & _)) & Hrd). destruct (Hobj Ho) as [Ho' Hs'].
  exists s', p'. split; [done|]. by split.
Qed.

(** What a handler leaves for the invariant to be rebuilt from. *)
Lemma handled_inv w g held s' p' :
  cinv_at w g (mc_kern g) -> handled held (mc_kern g) (mc_port g) s' p' ->
  (cpu_ok s' (current g) (mc_cpu g) \/ current g = -1 -> mask_ok false p' ->
   at_phase w (mkMachine s' p' (mc_cpu g) (mc_mode g) (mc_code g)) s') ->
  (cpu_ok (mc_kern g) (current g) (mc_cpu g) \/ current g = -1) ->
  cinv w (mkMachine s' p' (mc_cpu g) (mc_mode g) (mc_code g)).
Proof.
  intros [_ O Ho Hs Hhw Hu] H Hph Hcpu. exists s'.
  assert (Ec : g_current s' = current g) by apply (hd_held _ _ _ _ _ H).
  assert (Es := hd_static _ _ _ _ _ H).
  split; unfold current; cbn [mc_kern mc_port mc_cpu mc_mode mc_code]; rewrite ?Ec.
  - apply Hph; [|apply H]. destruct Hcpu as [Hcpu|Hcpu]; [left|by right]. by eapply cpu_ok_statics.
  - eapply others_step; [exact Es| | |right; apply H|exact O].
    + intros i Hi. right. right. by apply H.
    + intros i _ Hi. by apply H.
  - apply H.
  - rewrite (hd_shape _ _ _ _ _ H). done.
  - eapply hw_rest; [apply H|done].
  - intros Hp Hc. destruct (hd_ready _ _ _ _ _ H) as [Hr|Hr]; [congruence|].
    eapply urgent_ready; [exact Es|exact Hr|]. apply Hu; [|done].
    destruct (pendsv (mc_port g)) eqn:E; [|done]. by rewrite (hd_pend _ _ _ _ _ H) in Hp.
Qed.

Lemma handler_inv w g c :
  cinv w g -> is_handler (mc_kern g) c -> ~ mask_ok true (mc_port g) ->
  still_parked g (run_handler g c) -> cinv w (after_handler g (run_handler g c)).
Proof.
  intros [s0 I] Hc Hnm Hsp. pose proof I as [Ph O Ho Hs Hhw Hu]. unfold run_handler in *.
  assert (Hgo : forall held, mc_kern g = s0 -> sched_inv held (mc_kern g) -> awake held (mc_kern g) ->
    mask_ok false (mc_port g) -> cpu_ok (mc_kern g) (current g) (mc_cpu g) \/ current g = -1 ->
    (forall s' p', handled held (mc_kern g) (mc_port g) s' p' -> g_current s' = current g ->
       exec (H := cortex_port) 0 c (mc_kern g) (mc_port g) = Done tt s' p' ->
       cpu_ok s' (current g) (mc_cpu g) \/ current g = -1 -> mask_ok false p' ->
       at_phase w (mkMachine s' p' (mc_cpu g) (mc_mode g) (mc_code g)) s') ->
    cinv w (after_handler g (exec (H := cortex_port) 0 c (mc_kern g) (mc_port g)))).
  { intros held <- I1 Ha Hm Hcpu Hph.
    destruct (handler_safe held _ _ c Hc I1 Ha Ho Hm) as (s' & p' & E & H). rewrite E.
    eapply handled_inv; [exact I|exact H| |done]. intros Hcpu' Hm'.
    apply Hph; try done. apply (hd_held _ _ _ _ _ H). }
  destruct Ph as [Hd Hcur Hi Hm Hsp0 He|Hl Hcur Hi Hm Hcpu|Hl Hop Hm Hcpu Hk
    |s0 c' Hl Hop Hown Hm Hcpu Hc' Hk|c' Hl Hpk Hm Hcpu Hc' Hk].
  - apply (Hgo []); [done|done|apply awake_nil|done|by right|].
    intros s' p' H Ec _ _ Hm'.
    apply (ph_start w (mkMachine s' p' (mc_cpu g) (mc_mode g) (mc_code g))); try done; [by rewrite <- Hcur|apply H].
  - apply (Hgo []); [done|done|apply awake_nil|done|by left|].
    intros s' p' H Ec _ [Hcpu'|Hcpu'] Hm'; [|pose proof idle_valid as [? ?]; lia].
    apply (ph_idle w (mkMachine s' p' (mc_cpu g) (mc_mode g) (mc_code g))); try done; [by rewrite <- Hcur|apply H|].
    unfold current. cbn [mc_kern]. by rewrite Ec.
  - apply (Hgo [current g]); [done|apply Hop|by apply running_awake, Hop|done|by left|].
    intros s' p' H Ec _ [Hcpu'|Hcpu'] Hm'; [|destruct (open_valid _ Hop); lia].
    apply (ph_open w (mkMachine s' p' (mc_cpu g) (mc_mode g) (mc_code g))); unfold current;
      cbn [mc_kern mc_port mc_cpu mc_mode mc_code]; rewrite ?Ec; try done.
    split; [eapply isr_running; [apply Hop|apply H..]|apply H|].
    rewrite (hd_shape _ _ _ _ _ H). apply Hop.
  - done.
  - apply (Hgo []); [done|apply Hpk|apply awake_nil|done|by left|].
    intros s' p' H Ec E [Hcpu'|Hcpu'] Hm'.
    2: { destruct (pk_not_ready _ _ _ Hpk) as (tc & Htc & _). apply zget_Some in Htc. lia. }
    eapply (ph_parked w (mkMachine s' p' (mc_cpu g) (mc_mode g) (mc_code g)) c'); unfold current;
      cbn [mc_kern mc_port mc_cpu mc_mode mc_code]; rewrite ?Ec; try done.
    + split; [apply H|done| |apply H|rewrite (hd_shape _ _ _ _ _ H); apply Hpk].
      destruct (pk_not_ready _ _ _ Hpk) as (tc & Htc & Hne).
      destruct (static_sp _ s' _ tc (hd_static _ _ _ _ _ H) Htc) as (tc' & Htc' & _).
      exists tc'. split; [done|]. left. rewrite E in Hsp. by eapply Hsp.
    + destruct Hk as [Hk|[Hp Hk]]; [by left|right]. split; [|done]. by apply H.
Qed.

(** ** PendSV *)

Lemma kdispatch_objs s : objs (kdispatch s) = objs s.
Proof.
  unfold kdispatch. destruct (first_ready s _) as [[pr x]|]; [|done].
  unfold lpop. by destruct (rget (rq_ring pr) s).
Qed.

Lemma ksave_objs me old s : objs (ksave me old s) = objs s.
Proof.
  unfold ksave. destruct (zget (g_tcbs s) me) as [tc|]; [|done]. case_decide; [|done].
  unfold lpush. by destruct (rget _ _).
Qed.

Lemma owner_valid s i : owner s i -> 0 <= i.
Proof.
  intros [->|(tc & Htc & _)]; [pose proof idle_valid as [? ?]; lia|]. apply zget_Some in Htc. lia.
Qed.

(** One of the suspended contexts gets the processor. *)
Lemma others_pick w code s s' x :
  g_tcbs s' = g_tcbs s -> owner s x -> code !! (-1) = None ->
  others_ok w (-1) code s -> others_ok w x code s'.
Proof.
  intros Ht Hown Hneg O. eapply (others_step w x code s s').
  - unfold statics. by rewrite Ht.
  - intros i Hi. right. right. revert Hi. by apply live_same.
  - intros i _ Hi. revert Hi. by apply live_same.
  - right. by apply live_same.
  - assert (Hu : forall i, uses x s i -> uses (-1) s i) by (intros i [[-> _]|Hi]; by right).
    destruct O as [O1 O2 O3 O4 O5 O6]. split; auto.
    + intros i c _ Hc. apply O3; [|done]. intros ->. congruence.
    + intros i Hi _. apply O4; [done|]. pose proof (owner_valid s i Hi). lia.
Qed.

Lemma dispatch_urgent s :
  sched_inv [] s -> (exists tc, zget (g_tcbs s) HRT_IDLE_ID = Some tc /\ state tc = HRT_UNUSED) ->
  urgent (g_current (kdispatch s)) (kdispatch s).
Proof.
  intros I (t0 & Ht0 & Hs0) i ti Hne. destruct (kdispatch_spec s I) as [Hd ->]. intros Hti Hr.
  unfold kdispatch in *. destruct (first_ready s (seqZ 0 HARDRT_MAX_PRIO)) as [[pr x]|] eqn:Hf.
  - destruct (first_ready_highest s pr x i ti I Hf Hti Hr) as (tx & Htx & Hsx & Hp).
    split; [|by exists tx]. cbn. intros ->. congruence.
  - exfalso. apply (ready_found s i I); [by exists ti|done].
Qed.

(** The context that runs next is fit to run. *)
Lemma dispatch_phase w code s p c :
  sched_inv [] s -> others_ok w (-1) code s -> objects_ok s -> shape s = w -> mask_ok false p ->
  cpu_ok (kdispatch s) (g_current (kdispatch s)) c ->
  at_phase w (mkMachine (kdispatch s) p c Live code) (kdispatch s).
Proof.
  intros I O Ho Hsh Hm Hcpu. destruct (kdispatch_spec s I) as [Hd Ht].
  destruct (obj_same s _ (kdispatch_objs s) Ho) as [Ho' Hsh'].
  destruct (first_ready s (seqZ 0 HARDRT_MAX_PRIO)) as [[pr x]|].
  - pose proof (run_cur _ _ Hd) as Ec. rewrite Ec in *.
    apply (ph_open w (mkMachine (kdispatch s) p c Live code)); unfold current;
      cbn [mc_kern mc_port mc_cpu mc_mode mc_code]; rewrite ?Ec; try done.
    + split; [done|done|congruence].
    + intros c' Hc'. apply (oo_code _ _ _ _ O); [|done]. destruct (running_valid _ _ Hd). lia.
  - destruct Hd as [I' Ec]. rewrite Ec in *.
    apply (ph_idle w (mkMachine (kdispatch s) p c Live code)); unfold current;
      cbn [mc_kern mc_port mc_cpu mc_mode mc_code]; rewrite ?Ec; done.
Qed.

Lemma kdispatch_owner s : sched_inv [] s -> owner s (g_current (kdispatch s)).
Proof.
  intros I. destruct (kdispatch_spec s I) as [Hd Ht].
  destruct (first_ready s (seqZ 0 HARDRT_MAX_PRIO)) as [[pr x]|]; [|left; apply Hd].
  right. rewrite (run_cur _ _ Hd). destruct (run_tcb _ _ Hd) as (tc & Htc & Hs). exists tc.
  rewrite <- Ht. split; [done|congruence].
Qed.

(** With nobody running, every context is suspended: the next one is chosen
    and its registers are loaded. *)
Lemma dispatch_inv w code s p :
  sched_inv [] s -> others_ok w (-1) code s -> objects_ok s -> shape s = w -> mask_ok false p ->
  hw_ok p -> code !! (-1) = None ->
  let s' := kdispatch s in
  let new_sp := from_option sp 0 (zget (g_tcbs s') (g_current s')) in
  new_sp <> 0 /\
  cinv w (mkMachine s' p (mkCpu (new_sp + 32) (load_words new_sp 8 (ram p))) Live code).
Proof.
  intros I O Ho Hsh Hm Hhw Hneg s' new_sp.
  destruct (kdispatch_spec s I) as [_ Ht]. fold s' in Ht.
  assert (Hown : owner s (g_current s')) by by apply kdispatch_owner.
  pose proof (owner_valid _ _ Hown) as Hx.
  destruct (oo_sp _ _ _ _ O _ Hown ltac:(lia)) as (tx & Htx & Hlo & Hhi).
  assert (Hpos := oo_lo _ _ _ _ O _ (or_intror Hown)).
  assert (Hnew : new_sp = sp tx) by (unfold new_sp; by rewrite Ht, Htx).
  split; [lia|]. rewrite Hnew. exists s'.
  assert (Hcpu : cpu_ok s' (g_current s') (mkCpu (sp tx + 32) (load_words (sp tx) 8 (ram p)))).
  { apply (cpu_ok_statics s); [unfold statics; by rewrite Ht|]. split; [cbn; lia|done]. }
  destruct (obj_same s _ (kdispatch_objs s) Ho) as [Ho' Hsh'].
  split; unfold current; cbn [mc_kern mc_port mc_cpu mc_mode mc_code].
  - by apply dispatch_phase.
  - by eapply others_pick.
  - done.
  - unfold s'. congruence.
  - done.
  - intros _ _. apply dispatch_urgent; [done|apply O].
Qed.

(** Saving a context only changes its stack pointer. *)
Lemma ksave_stack me old s i :
  (exists tc, zget (g_tcbs s) me = Some tc) ->
  stack_lo (ksave me old s) i = stack_lo s i /\ stack_hi (ksave me old s) i = stack_hi s i.
Proof.
  intros [tc Htc]. unfold stack_lo, stack_hi. rewrite (ksave_tcbs me old s i tc Htc).
  destruct (decide (i = HRT_IDLE_ID)); [done|]. case_decide as E; [|done]. subst. by rewrite Htc.
Qed.

Lemma ksave_live me old s i :
  (exists tc, zget (g_tcbs s) me = Some tc) -> live (ksave me old s) i -> live s i.
Proof.
  intros [tc Htc] (t & Ht & Hu). rewrite (ksave_tcbs me old s i tc Htc) in Ht.
  case_decide; [subst; injection Ht as <-; by exists tc|by exists t].
Qed.

Lemma suspend_others w me code s c :
  switching me s -> others_ok w me code s -> cpu_ok s me c ->
  (forall k, code !! me = Some k -> ok me w Open k) ->
  others_ok w (-1) code (ksave me (psp c - 32) s).
Proof.
  intros Sw O Hcpu Hok. destruct (switching_tcb _ _ Sw) as [tc Htc].
  assert (Hme : 0 <= me) by (apply zget_Some in Htc; lia).
  assert (Hst := fun i => ksave_stack me (psp c - 32) s i (ex_intro _ tc Htc)).
  assert (Hlo := fun i => proj1 (Hst i)). assert (Hhi := fun i => proj2 (Hst i)).
  assert (Hu : forall i, uses (-1) (ksave me (psp c - 32) s) i -> uses me s i).
  { intros i [[_ ?]|[->|Hi]]; [lia|by right; left|right; right].
    by eapply ksave_live; [exists tc|]. }
  assert (Ht := fun i => ksave_tcbs me (psp c - 32) s i tc Htc).
  destruct O as [O1 O2 O3 O4 O5 O6]. split.
  - destruct O1 as (t & Ht1 & Hs1). rewrite Ht. case_decide as E.
    + exists (tcb_set_sp (psp c - 32) tc). split; [done|]. cbn. congruence.
    + by exists t.
  - done.
  - intros i k _ Hk. destruct (decide (i = me)) as [->|Hne]; [by apply Hok|by apply (O3 i)].
  - intros i Hi _. rewrite Ht, Hlo, Hhi. case_decide as E.
    + exists (tcb_set_sp (psp c - 32) tc). split; [done|]. subst. cbn. destruct Hcpu. lia.
    + apply O4; [|congruence]. destruct Hi as [->|Hi]; [by left|right]. by eapply ksave_live; [exists tc|].
  - intros i Hi. rewrite Hlo. by apply O5, Hu.
  - intros i j Hi Hj. rewrite !Hlo, !Hhi. apply O6; by apply Hu.
Qed.

(** The handler, entered from a context that has a stack to save on. *)
Lemma pendsv_switch w g :
  switching (current g) (mc_kern g) -> others_ok w (current g) (mc_code g) (mc_kern g) ->
  cpu_ok (mc_kern g) (current g) (mc_cpu g) -> objects_ok (mc_kern g) -> shape (mc_kern g) = w ->
  (forall k, mc_code g !! current g = Some k -> ok (current g) w Open k) ->
  mask_ok false (mc_port g) -> hw_ok (mc_port g) -> mc_code g !! (-1) = None ->
  cinv w (after_pendsv g).
Proof.
  intros Sw O Hcpu Ho Hsh Hok Hm Hhw Hneg. destruct (switching_tcb _ _ Sw) as [tc Htc].
  assert (Hme : 0 <= current g) by (apply zget_Some in Htc; lia).
  assert (Hpos := oo_lo _ _ _ _ O (current g) (or_introl (conj eq_refl Hme))).
  unfold after_pendsv. rewrite (pendsv_eq (current g)); [|done|destruct Hcpu; lia]. cbv zeta.
  set (s1 := ksave (current g) (psp (mc_cpu g) - 32) (mc_kern g)).
  set (p1 := set_ram _ _).
  assert (I1 : sched_inv [] s1) by by apply ksave_inv.
  destruct (obj_same (mc_kern g) s1 (ksave_objs _ _ _) Ho) as [Ho1 Hsh1].
  destruct (dispatch_inv w (mc_code g) s1 p1) as [Hnz Hi]; try done.
  - by apply suspend_others.
  - congruence.
  - rewrite (proj2 (Z.eqb_neq _ _) Hnz). exact Hi.
Qed.

(** The first switch has nothing to save. *)
Lemma pendsv_first w g :
  sched_inv [] (mc_kern g) -> psp (mc_cpu g) = 0 -> others_ok w (-1) (mc_code g) (mc_kern g) ->
  objects_ok (mc_kern g) -> shape (mc_kern g) = w -> mask_ok false (mc_port g) ->
  hw_ok (mc_port g) -> mc_code g !! (-1) = None -> cinv w (after_pendsv g).
Proof.
  intros I Hp O Ho Hsh Hm Hhw Hneg. unfold after_pendsv, PendSV_Handler, Null.core_call. rewrite Hp.
  cbn [Z.eqb].
  destruct (dispatch_inv w (mc_code g) (mc_kern g) (set_pendsv false (mc_port g))) as [Hnz Hi]; try done.
  destruct (kdispatch_spec _ I) as [_ Ht]. rewrite Ht in Hnz, Hi.
  rewrite (exec_schedule_first (PL := Null.null_port)) by done.
  rewrite (proj2 (Z.eqb_neq _ _) Hnz). exact Hi.
Qed.

Lemma pendsv_inv w g :
  cinv w g -> mc_code g !! (-1) = None -> switch_due (mc_port g) = true -> cinv w (after_pendsv g).
Proof.
  intros [s0 I] Hneg Hsd. pose proof I as [Ph O Ho Hs Hhw Hu].
  destruct Ph as [Hd Hcur Hi Hm Hsp0 He|Hl Hcur Hi Hm Hcpu|Hl Hop Hm Hcpu Hk
    |s0 c' Hl Hop Hown Hm Hcpu Hc' Hk|c' Hl Hpk Hm Hcpu Hc' Hk].
  - rewrite Hcur in O. by apply pendsv_first.
  - apply pendsv_switch; try done.
    + right. split; [done|]. split; [done|]. rewrite Hcur.
      destruct (oo_idle _ _ _ _ O) as (tc & Htc & Hst). exists tc. split; [done|congruence].
    + rewrite Hcur. intros k. by rewrite (oo_code_idle _ _ _ _ O).
  - apply pendsv_switch; try done. left. apply Hop.
  - unfold switch_due in Hsd. rewrite (mask_closed _ _ Hm), andb_false_r in Hsd; [done|].
    destruct Hhw as (_ & -> & _). pose proof syscall_level_range. lia.
  - apply pendsv_switch; try done.
    + right. split; [apply Hpk|]. split; [done|]. by eapply pk_not_ready.
    + intros k Hk'. rewrite Hc' in Hk'. injection Hk' as <-.
      destruct Hk as [Hk|[_ Hk]]; [by apply ok_parked_open|done].
Qed.

(** ** The running context *)

Lemma compute_inv w g c m :
  cinv w g -> 0 <= current g ->
  stack_lo (mc_kern g) (current g) + 32 <= psp c <= stack_hi (mc_kern g) (current g) ->
  length (r4_r11 c) = 8%nat ->
  cinv w (mkMachine (mc_kern g) (set_ram m (mc_port g)) c Live (mc_code g)).
Proof.
  intros [s0 [Ph O Ho Hs Hhw Hu]] Hc Hsp Hlen. exists s0. split; try done.
  assert (Hcpu : cpu_ok (mc_kern g) (current g) c) by by split.
  destruct Ph as [Hd Hcur Hi Hm Hsp0 He|Hl Hcur Hi Hm _|Hl Hop Hm _ Hk
    |s0 c' Hl Hop Hown Hm _ Hc' Hk|c' Hl Hpk Hm _ Hc' Hk].
  - lia.
  - by apply (ph_idle w (mkMachine (mc_kern g) (set_ram m (mc_port g)) c Live (mc_code g))).
  - by apply (ph_open w (mkMachine (mc_kern g) (set_ram m (mc_port g)) c Live (mc_code g))).
  - apply (ph_masked w (mkMachine (mc_kern g) (set_ram m (mc_port g)) c Live (mc_code g)) s0 c'); try done.
    eapply cpu_ok_statics; [|exact Hcpu]. symmetry. apply Hown.
  - by apply (ph_parked w (mkMachine (mc_kern g) (set_ram m (mc_port g)) c Live (mc_code g)) c').
Qed.

Lemma call_inv w g c :
  cinv w g -> 0 <= current g -> current g <> HRT_IDLE_ID -> mc_code g !! current g = None ->
  wakes_nobody c = true -> api_pre (mc_kern g) c ->
  cinv w (mkMachine (mc_kern g) (mc_port g) (mc_cpu g) Live (<[current g := api_prog c]> (mc_code g))).
Proof.
  intros [s0 [Ph O Ho Hs Hhw Hu]] Hc Hni Hno Hw Hpre. exists s0. split; try done.
  - destruct Ph as [Hd Hcur Hi Hm Hsp0 He|Hl Hcur Hi Hm Hcpu|Hl Hop Hm Hcpu Hk
      |s0 c' Hl Hop Hown Hm Hcpu Hc' Hk|c' Hl Hpk Hm Hcpu Hc' Hk]; try congruence; [lia|].
    apply (ph_open w (mkMachine (mc_kern g) (mc_port g) (mc_cpu g) Live _)); try done.
    cbn. unfold current. cbn. intros k. rewrite lookup_insert_eq. intros [= <-].
    eapply (api_ok (open_valid _ Hop) Hstall); [exact Hop|done|done].
  - by apply others_rest.
Qed.

(** ** Start-up *)

Lemma launch_inv w g :
  cinv w g -> mc_mode g = Boot ->
  cinv w (after_launch g (exec (H := cortex_port) 0 hrt_start (mc_kern g) (mc_port g))).
Proof.
  intros [s0 [Ph O Ho Hs Hhw Hu]] Hb.
  destruct Ph as [Hd Hcur Hi Hm Hsp0 He|Hl|Hl|s0 c' Hl|c' Hl]; try congruence.
  exists (mc_kern g).
  set (g' := mkMachine (mc_kern g) (_pend_pendsv (set_irq true (_pend_pendsv (mc_port g)))) (mc_cpu g)
               Live (mc_code g)).
  change (after_launch g _) with g'. split; try done; [by apply (ph_start w g')|].
  destruct Hhw as (_ & H1 & H2). by split.
Qed.

End steps.
