(* ===== verification/CortexBoot.v ===== *)
(** * Start-up of the Cortex-M system

    [hrt_init] establishes the invariant, and the creation of a task on a
    stack of its own keeps it. *)

From stdpp Require Import base tactics numbers list option gmap relations.
From S2P Require Import Prelude Types Prog Ring Core Sched Sem Mutex Queue PortNull PortCortexM.
From S2P Require Import CoreFacts Inv SchedFacts InitFacts Running Api ApiSafe ApiCalls.
From S2P Require Import ApiTheorem IsrSafe PickFacts System CortexFacts.
From S2P Require Import Frame Stmt CritBal StmtSafe CortexMachine CortexInv CortexSteps.
Open Scope Z_scope.
Open Scope prog_scope.
Import CortexM.

Section boot.
Context `{C : Config} {Cok : ConfigOk C} `{Env : CortexEnv} {EnvOk : CortexEnvOk}.
Implicit Types (s : kern) (p : cortex) (g : machine).

Lemma exec_port_call `{PL : PortLayer} {A} n c (f : unit -> prog A) s (q : pstate) :
  exec n (bind (call c) f) s q =
  match port_do c s q with
  | PCont s' p' => exec n (f tt) s' p'
  | PSwap s' p' => Swapped (f tt) s' p'
  | PStop h s' p' => Halted h s' p'
  end.
Proof. done. Qed.

(** ** [hrt_init] *)

Definition idle_sp : Z := addr_idle_stack + 4 * HARDRT_IDLE_STACK_WORDS - 64.

Lemma init_idle_spec s p tc :
  zget (g_tcbs s) HRT_IDLE_ID = Some tc ->
  exists p', port_do (H := cortex_port) hrt__init_idle_task s p = PCont (kset_tcb HRT_IDLE_ID (tcb_set_sp idle_sp tc) s) p' /\
    BASEPRI p' = BASEPRI p /\ g_cs_nest p' = g_cs_nest p /\ irq_enabled p' = irq_enabled p /\
    SysTick_CTRL p' = SysTick_CTRL p /\ SHPR10 p' = SHPR10 p /\ SHPR11 p' = SHPR11 p.
Proof.
  intros Htc. cbn [port_do init_idle_task cortex_port]. unfold cm_init_idle_task.
  pose proof idle_stack_pos.
  set (top := addr_idle_stack + 4 * HARDRT_IDLE_STACK_WORDS).
  pose proof (push_words_sp (exception_frame addr_idle_task addr_task_trampoline) top (ram p)) as Hsp.
  destruct (push_words _ top (ram p)) as [stk m]. cbn [fst] in Hsp.
  assert (stk = idle_sp) as -> by exact Hsp.
  unfold call_core, Null.core_call.
  rewrite (exec_set_sp 0 (PL := Null.null_port) s tt HRT_IDLE_ID idle_sp tc);
    [|apply idle_valid|done|unfold idle_sp, HARDRT_IDLE_STACK_WORDS; lia].
  eexists. split; [reflexivity|]. done.
Qed.

Lemma init_hz cfg s : g_tick_hz (init_state cfg s) <> 0.
Proof.
  destruct cfg as [c|]; cbn; [|done]. destruct (Z.eqb_spec (cfg_tick_hz c) 0); [done|lia].
Qed.

Lemma systick_hw cfg s :
  let p := start_systick (PortLayer := cortex_port) (g_tick_hz (init_state cfg s)) (init_state cfg s)
             cortex_reset in
  hw_ok p /\ mask_ok false p.
Proof.
  cbv zeta. cbn [start_systick cortex_port]. unfold cm_start_systick. rewrite (proj2 (Z.eqb_neq _ _) (init_hz cfg s)).
  case_decide; [by repeat split|].
  assert (Hhz : hrt_port_get_core_hz <> 0).
  { unfold hrt_port_get_core_hz. by destruct (Z.eqb_spec SystemCoreClock 0). }
  rewrite (proj2 (Z.eqb_neq _ _) Hhz). by repeat split.
Qed.

(** Saving the idle stack pointer leaves the tasks alone. *)
Lemma idle_set_inv s tc v :
  sched_inv [] s -> zget (g_tcbs s) HRT_IDLE_ID = Some tc ->
  sched_inv [] (kset_tcb HRT_IDLE_ID (tcb_set_sp v tc) s).
Proof.
  intros I Htc. eapply inv_set_tcb; [done|done| |by right]. by eapply set_sp_wf, inv_tcb_wf.
Qed.

Lemma initial_cinv g : cinitial g -> mc_mode g = Boot /\ mc_code g = ∅ /\ cinv (shape (mc_kern g)) g.
Proof.
  intros [cfg s0 regs s p Ho Hok Hc E]. split; [done|]. split; [done|].
  pose proof (init_inv cfg s0 Ho Hc) as I. set (s1 := init_state cfg s0) in *.
  destruct (zget_is_Some (g_tcbs s1) HRT_IDLE_ID) as [tc Htc].
  { destruct (bwf_kern _ (inv_base _ _ I)). pose proof idle_valid as [? ?]. lia. }
  pose proof (init_tcb cfg s0 _ tc Htc) as Etc.
  destruct (systick_hw cfg s0) as [Hhw Hm]. rewrite (exec_init (PL := cortex_port)) in E.
  fold s1 in E, Hhw, Hm. set (p1 := start_systick (PortLayer := cortex_port) (g_tick_hz s1) s1 cortex_reset) in *.
  destruct (init_idle_spec s1 p1 tc Htc) as (p' & Ei & E1 & E2 & E3 & E4 & E5 & E6).
  rewrite (exec_port_call (PL := cortex_port) 0 hrt__init_idle_task), Ei in E. rewrite exec_ret in E.
  injection E as <- <-. set (s := kset_tcb HRT_IDLE_ID (tcb_set_sp idle_sp tc) s1).
  assert (Ht := fun j => kset_tcb_lookup s1 HRT_IDLE_ID (tcb_set_sp idle_sp tc) tc j Htc).
  assert (Hlive : forall i, ~ live s i).
  { intros i (t & Hti & Hu). unfold s in Hti. rewrite Ht in Hti. case_decide.
    - injection Hti as <-. rewrite Etc in Hu. by apply Hu.
    - apply init_tcb in Hti. by rewrite Hti in Hu. }
  assert (Hobj : objects_ok s).
  { assert (objs s = objs s0) as Hob by by destruct cfg. exact (proj1 (obj_same _ _ Hob Hok)). }
  assert (Hcur : g_current s = -1) by by destruct cfg.
  exists s. split; cbn [mc_kern mc_port mc_cpu mc_mode mc_code]; try done.
  - apply (ph_start _ (mkMachine s p' (mkCpu 0 regs) Boot ∅)); try done.
    + by apply idle_set_inv.
    + unfold mask_ok. cbn. by rewrite E1, E2.
  - unfold current. cbn [mc_kern]. rewrite Hcur.
    assert (Hu : forall i, uses (-1) s i -> i = HRT_IDLE_ID).
    { intros i [[_ ?]|[?|[]%Hlive]]; [lia|done]. }
    pose proof idle_stack_pos. split.
    + exists (tcb_set_sp idle_sp tc). split; [unfold s; by rewrite Ht, decide_True|]. by rewrite Etc.
    + apply lookup_empty.
    + intros i c _. by rewrite lookup_empty.
    + intros i [->|[]%Hlive] _. exists (tcb_set_sp idle_sp tc).
      split; [unfold s; by rewrite Ht, decide_True|]. unfold stack_lo, stack_hi.
      rewrite !decide_True by done. cbn. unfold idle_sp, HARDRT_IDLE_STACK_WORDS. lia.
    + intros i ->%Hu. unfold stack_lo. by rewrite decide_True.
    + intros i j ->%Hu ->%Hu. done.
  - destruct Hhw as (H1 & H2 & H3). unfold hw_ok, systick_on in *. by rewrite E3, E4, E5, E6.
  - intros _. unfold current. cbn [mc_kern]. rewrite Hcur. lia.
Qed.

(** ** [hrt_create_task] *)

(** The TCB of a task whose stack the port has prepared. *)
Definition fresh_tcb s (fn argp stack n_words : Z) (attr : option hrt_task_attr_t) : _hrt_tcb_t :=
  tcb_set_sp (frame_sp stack n_words) (new_tcb s fn argp stack n_words attr).

Lemma exec_create_cortex s p fn argp stack n_words attr i :
  sched_inv [] s -> free_slot s = i -> valid_id i -> 0 <= attr_prio attr < HARDRT_MAX_PRIO ->
  fn <> 0 -> 0 < stack -> 64 <= n_words ->
  exists p', exec (H := cortex_port) 0 (hrt_create_task fn argp stack n_words attr) s p
    = Done i (kready i (fresh_tcb s fn argp stack n_words attr) s) p' /\
    BASEPRI p' = BASEPRI p /\ g_cs_nest p' = g_cs_nest p /\ irq_enabled p' = irq_enabled p /\
    SysTick_CTRL p' = SysTick_CTRL p /\ SHPR10 p' = SHPR10 p /\ SHPR11 p' = SHPR11 p.
Proof.
  intros I Hf Hv Hpr H1 H2 H3. destruct (bwf_kern _ (inv_base _ _ I)).
  destruct (free_slot_tcb _ _ _ I Hf Hv) as (tc & Htc & _).
  rewrite (exec_create (PL := cortex_port) 0 s p fn argp stack n_words attr i) by (done || lia).
  eexists. split.
  - set (nt := new_tcb s fn argp stack n_words attr).
    rewrite (exec_port_call (PL := cortex_port) 0 (hrt_port_prepare_task_stack i stack n_words)).
    cbn [port_do prepare_task_stack cortex_port].
    rewrite (prepare_spec i stack n_words _ p nt); [|done|by eapply kset_tcb_get|done|done].
    rewrite kset_tcb_twice. by apply (exec_create_rest (PL := cortex_port) 0 []).
  - done.
Qed.

Lemma error_inv w g e : cinv w g -> current g = -1 ->
  mc_mode g = Boot ->
  cinv w (mkMachine (set_error e (mc_kern g)) (mc_port g) (mc_cpu g) Boot (mc_code g)).
Proof.
  intros [s0 [Ph O Ho Hs Hhw Hu]] Hcur Hb. exists (set_error e (mc_kern g)).
  destruct Ph as [Hd _ Hi Hm Hsp0 He|Hl|Hl|s0 c' Hl|c' Hl]; try congruence.
  split; try done.
  - apply (ph_start w (mkMachine (set_error e (mc_kern g)) (mc_port g) (mc_cpu g) Boot (mc_code g)));
      try done. by apply inv_set_error.
  - by destruct O.
Qed.

(** A task on a stack of its own joins the suspended contexts. *)
Lemma others_create w s fn argp stack n_words attr i :
  sched_inv [] s -> free_slot s = i -> valid_id i -> i <> HRT_IDLE_ID -> 64 <= n_words ->
  fresh_stack s stack n_words -> others_ok w (-1) ∅ s ->
  others_ok w (-1) ∅ (kready i (fresh_tcb s fn argp stack n_words attr) s).
Proof.
  intros I Hf Hv Hne Hn [Hpos Hfresh] O. destruct (free_slot_tcb _ _ _ I Hf Hv) as (tc & Htc & Hu).
  set (nt := fresh_tcb s fn argp stack n_words attr). set (s' := kready i nt s).
  assert (Ht := fun j => kready_tcbs i nt s j tc Htc : zget (g_tcbs s') j = _).
  assert (Hst : forall j, stack_lo s' j = (if decide (i = j) then stack else stack_lo s j) /\
                          stack_hi s' j = (if decide (i = j) then stack + 4 * n_words else stack_hi s j)).
  { intros j. unfold stack_lo, stack_hi. rewrite Ht.
    destruct (decide (j = HRT_IDLE_ID)) as [->|]; [by rewrite !decide_False|]. by case_decide. }
  assert (Hlo := fun j => proj1 (Hst j)). assert (Hhi := fun j => proj2 (Hst j)).
  assert (Hown : forall j, uses (-1) s' j -> i = j \/ (i <> j /\ owner s j)).
  { intros j [[_ ?]|Hj]; [lia|]. destruct (decide (i = j)); [by left|right]. split; [done|].
    destruct Hj as [->|(t & Htj & Hj)]; [by left|right]. exists t. rewrite Ht in Htj.
    by rewrite decide_False in Htj. }
  destruct O as [O1 O2 O3 O4 O5 O6]. split; try done.
  - destruct O1 as (t & Ht1 & Hs1). exists t. rewrite Ht. by rewrite decide_False.
  - intros j Hj _. destruct (Hown j (or_intror Hj)) as [<-|[Hij Hj']].
    + exists (tcb_ready nt). rewrite Ht, Hlo, Hhi, !decide_True by done. split; [done|].
      destruct (frame_sp_bounds stack n_words Hpos Hn) as (_ & H1 & H2). cbn. lia.
    + rewrite Ht, Hlo, Hhi, !decide_False by done. apply O4; [done|].
      pose proof (owner_valid _ _ Hj'). lia.
  - intros j Hj. rewrite Hlo. destruct (Hown j Hj) as [<-|[Hij Hj']]; [by rewrite decide_True|].
    rewrite decide_False by done. apply O5. by right.
  - intros j k Hj Hk Hjk. rewrite !Hlo, !Hhi.
    destruct (Hown j Hj) as [Ej|[Nj Oj]], (Hown k Hk) as [Ek|[Nk Ok]];
      destruct (decide (i = j)), (decide (i = k)); try congruence.
    + by apply Hfresh.
    + destruct (Hfresh j Oj); auto.
    + apply O6; [by right..|done].
Qed.

Hypothesis Hstall : HARDRT_STALL_ON_ERROR = false.

Lemma create_cinv w g fn argp stack n_words attr :
  cinv w g -> mc_mode g = Boot -> api_pre (mc_kern g) (CCreate fn argp stack n_words attr) ->
  fresh_stack (mc_kern g) stack n_words ->
  cinv w (after_main g (exec (H := cortex_port) 0 (hrt_create_task fn argp stack n_words attr)
    (mc_kern g) (mc_port g))).
Proof.
  intros I Hb [Hp Hidle] Hfr. pose proof I as [s0 [Ph O Ho Hs Hhw Hu]].
  destruct Ph as [Hd Hcur Hi Hm Hsp0 He|Hl|Hl|s0 c' Hl|c' Hl]; try congruence.
  destruct (bwf_kern _ (inv_base _ _ Hi)).
  destruct (decide (fn = 0 \/ stack = 0 \/ n_words < 64)) as [Hbad|Hbad].
  { rewrite (exec_create_bad (PL := cortex_port)) by done. by apply error_inv. }
  destruct (free_slot_cases (mc_kern g)) as [[Hf _]|(Hv & _ & _)].
  { rewrite (exec_create_full (PL := cortex_port)) by (done || lia). by apply error_inv. }
  set (i := free_slot (mc_kern g)) in *.
  destruct (exec_create_cortex (mc_kern g) (mc_port g) fn argp stack n_words attr i)
    as (p' & E & E1 & E2 & E3 & E4 & E5 & E6); try (done || lia); [apply Hfr|]. rewrite E. cbn [after_main].
  set (nt := fresh_tcb (mc_kern g) fn argp stack n_words attr).
  set (s' := kready i nt (mc_kern g)). set (g' := mkMachine s' p' (mc_cpu g) Boot (mc_code g)).
  assert (Hcur' : current g' = -1).
  { rewrite <- Hcur. apply (kready_scalars i nt (mc_kern g)). }
  destruct (obj_kready i nt (mc_kern g) Ho) as [Ho' Hsh']. exists s'. split.
  - apply (ph_start w g'); try done.
    + apply knew_inv; try done; [by apply not_elem_of_nil|apply set_sp_wf, new_tcb_wf].
    + unfold mask_ok in *. cbn. by rewrite E1, E2.
  - rewrite Hcur'. rewrite Hcur, He in O. unfold g'. cbn [mc_code]. rewrite He.
    by apply others_create; [..|lia|done|done].
  - done.
  - unfold s'. congruence.
  - destruct Hhw as (H1 & H2 & H3). unfold hw_ok, systick_on in *. cbn. by rewrite E3, E4, E5, E6.
  - intros _. rewrite Hcur'. lia.
Qed.

(** ** The system *)

Lemma step_code g g' : cstep g g' -> mc_code g !! (-1) = None -> mc_code g' !! (-1) = None.
Proof.
  intros H Hn. destruct H.
  - unfold after_main. by destruct (exec _ _ _ _).
  - done.
  - unfold after_handler. by destruct (run_handler _ _).
  - unfold after_handler. by destruct (run_handler _ _).
  - unfold after_pendsv. by destruct (PendSV_Handler _ _ _) as [[[] ?] ?].
  - done.
  - cbn [mc_code]. by rewrite lookup_insert_ne by lia.
  - assert (Hne : current g <> -1) by congruence. unfold after_stmt.
    destruct (stmt _ _ _); cbn [mc_code]; try done; [by rewrite lookup_delete_ne|by rewrite lookup_insert_ne].
Qed.

Lemma step_cinv w g g' :
  cinv w g -> mc_code g !! (-1) = None -> cstep g g' -> cinv w g'.
Proof.
  intros I Hn H. destruct H.
  - by apply create_cinv.
  - by apply launch_inv.
  - apply handler_inv; try done; [by left|by eapply systick_unmasked].
  - apply handler_inv; try done; [right; by exists h|]. intros Hm.
    by rewrite (mask_closed _ _ Hm) in *.
  - by apply pendsv_inv.
  - by apply compute_inv.
  - by apply call_inv.
  - by apply stmt_inv.
Qed.

Lemma reach_cinv g0 g :
  cinitial g0 -> rtc cstep g0 g ->
  cinv (shape (mc_kern g0)) g /\ mc_code g !! (-1) = None.
Proof.
  intros Hi Hr. destruct (initial_cinv g0 Hi) as (_ & Hc & I).
  assert (Hn : mc_code g0 !! (-1) = None) by (rewrite Hc; apply lookup_empty).
  revert I Hn. generalize (shape (mc_kern g0)). clear Hi Hc. intros w. induction Hr as [|g1 g2 g3 H _ IH].
  - done.
  - intros I Hn. apply IH; [by eapply step_cinv|by eapply step_code].
Qed.

End boot.
