(* ===== verification/CortexCtx.v ===== *)
(** * Contexts on the Cortex-M system

    What one step does to a context that does not run, and what a context
    finds when it runs again. *)

From stdpp Require Import base tactics numbers list option gmap relations.
From S2P Require Import Prelude Types Prog Ring Core Sched Sem Mutex Queue PortNull PortCortexM.
From S2P Require Import CoreFacts Inv SchedFacts InitFacts Running Api ApiSafe ApiCalls.
From S2P Require Import ApiTheorem IsrSafe PickFacts System CortexFacts.
From S2P Require Import Frame Stmt CritBal StmtSafe CortexMachine CortexInv CortexSteps CortexBoot.
Open Scope Z_scope.
Open Scope prog_scope.
Import CortexM.

Section ctx.
Context `{C : Config} {Cok : ConfigOk C} `{Env : CortexEnv} {EnvOk : CortexEnvOk}.
Implicit Types (s : kern) (p : cortex) (g : machine) (me : Z) (w : world).

(** ** What a step leaves alone *)

(** A statement of the running task changes nothing of the others, and no
    word of the memory. *)
Lemma stmt_effect w g c c' s' p' :
  cinv w g -> switch_due (mc_port g) = false -> mc_code g !! current g = Some c ->
  stmt (PL := cortex_port) c (mc_kern g) (mc_port g) = SNext c' s' p' ->
  own (current g) (mc_kern g) s' /\ port_rest p' = port_rest (mc_port g).
Proof.
  intros [s0 I] Hsd Hc E. pose proof I as [Ph O Ho Hs Hhw Hu].
  assert (Hport : forall pc m m1, bal_call false m pc = Some m1 -> mask_ok m (mc_port g) ->
    forall k : prog api_res, stmt (PL := cortex_port) (Port pc k) (mc_kern g) (mc_port g) = SNext c' s' p' ->
    own (current g) (mc_kern g) s' /\ port_rest p' = port_rest (mc_port g)).
  { intros pc m m1 Hb Hm k E'. destruct (port_call_stmt pc k (mc_kern g) _ _ _ Hb Hm) as (p1 & E1 & _ & Hr & _).
    rewrite E1 in E'. injection E' as <- <- <-. split; [apply own_refl|done]. }
  destruct Ph as [Hd Hcur Hi Hm Hsp0 He|Hl Hcur Hi Hm Hcpu|Hl Hop Hm Hcpu Hk
    |s0 c1 Hl Hop Hown Hm Hcpu Hc1 Hk|c1 Hl Hpk Hm Hcpu Hc1 Hk].
  - by rewrite He, lookup_empty in Hc.
  - exfalso. by eapply call_not_idle.
  - specialize (Hk c Hc). destruct c as [a|h|B f k|pc k|B body k]; try done.
    + destruct (Hk _ Hop) as (b & s1 & ph & E1 & Hown & _). cbn [stmt] in E. rewrite E1 in E.
      by injection E as <- <- <-.
    + destruct pc; try done; (eapply (Hport _ false); [|done|exact E]; done).
    + cbn [stmt] in E. by injection E as <- <- <-.
  - rewrite Hc in Hc1. injection Hc1 as <-. destruct c as [a|h|B f k|pc k|B body k]; try done.
    + destruct Hk as (b & s1 & E1 & Hown1 & _). cbn [stmt] in E. rewrite E1 in E.
      by injection E as <- <- <-.
    + destruct pc; try done; [by destruct Hk|]. eapply (Hport _ true); [|done|exact E]. done.
    + by destruct Hk.
  - rewrite Hc in Hc1. injection Hc1 as <-. rewrite mask_open in Hsd by done.
    destruct Hk as [Hk|[Hp _]]; [|congruence].
    destruct c as [a|h|B f k|pc k|B body k]; cbn [ok] in Hk; try done; [|by destruct Hk].
    destruct pc; try done; try (by destruct Hk); (eapply (Hport _ false); [|done|exact E]; done).
Qed.

(** The handler of PendSV, entered from a context with a stack: what it
    leaves, and who runs next. *)
Record switched w g (g' : machine) (m : gmap Z Z) (x : Z) (tx : _hrt_tcb_t) : Prop := {
  sw_cpu_ok : cpu_ok (mc_kern g) (current g) (mc_cpu g);
  sw_others : others_ok w (current g) (mc_code g) (mc_kern g);
  sw_ram : m = store_words (psp (mc_cpu g) - 32) (r4_r11 (mc_cpu g)) (ram (mc_port g));
  sw_next : current g' = x;
  sw_owner : owner (mc_kern g) x;
  sw_tcbs : forall i, zget (g_tcbs (mc_kern g')) i =
    zget (g_tcbs (ksave (current g) (psp (mc_cpu g) - 32) (mc_kern g))) i;
  sw_tcb : zget (g_tcbs (mc_kern g')) x = Some tx;
  sw_mode : mc_mode g' = Live;
  sw_code : mc_code g' = mc_code g;
  sw_port : ram (mc_port g') = m;
  sw_cpu : mc_cpu g' = mkCpu (sp tx + 32) (load_words (sp tx) 8 m)
}.

Lemma pendsv_effect w g :
  cinv w g -> 0 <= current g -> switch_due (mc_port g) = true -> mc_code g !! (-1) = None ->
  (exists tc, zget (g_tcbs (mc_kern g)) (current g) = Some tc) /\
  exists m x tx, switched w g (after_pendsv g) m x tx.
Proof.
  intros [s0 [Ph O Ho Hs Hhw Hu]] Hcur Hsd Hneg.
  assert (Hsw : switching (current g) (mc_kern g) /\ cpu_ok (mc_kern g) (current g) (mc_cpu g) /\
    others_ok w (current g) (mc_code g) (mc_kern g) /\ objects_ok (mc_kern g) /\
    shape (mc_kern g) = w /\ mask_ok false (mc_port g) /\
    (forall k, mc_code g !! current g = Some k -> ok (current g) w Open k)).
  { destruct Ph as [Hd Hc Hi Hm Hsp0 He|Hl Hc Hi Hm Hcpu|Hl Hop Hm Hcpu Hk
      |s0 c1 Hl Hop Hown Hm Hcpu Hc1 Hk|c1 Hl Hpk Hm Hcpu Hc1 Hk].
    - lia.
    - split_and!; try done; [|rewrite Hc; intros k; by rewrite (oo_code_idle _ _ _ _ O)].
      right. split; [done|]. split; [done|]. rewrite Hc.
      destruct (oo_idle _ _ _ _ O) as (tc & Htc & Hst). exists tc. split; [done|congruence].
    - split_and!; try done. left. apply Hop.
    - unfold switch_due in Hsd. rewrite (mask_closed _ _ Hm), andb_false_r in Hsd; [done|].
      destruct Hhw as (_ & -> & _). pose proof syscall_level_range. lia.
    - split_and!; try done.
      + right. split; [apply Hpk|]. split; [done|]. by eapply pk_not_ready.
      + intros k Hk'. rewrite Hc1 in Hk'. injection Hk' as <-.
        destruct Hk as [Hk|[_ Hk]]; [by apply ok_parked_open|done]. }
  destruct Hsw as (Sw & Hcpu & O' & Ho' & Hsh & Hm & Hok). destruct (switching_tcb _ _ Sw) as [tc Htc].
  split; [by exists tc|].
  assert (Hpos := oo_lo _ _ _ _ O' (current g) (or_introl (conj eq_refl Hcur))).
  set (s1 := ksave (current g) (psp (mc_cpu g) - 32) (mc_kern g)).
  assert (I1 : sched_inv [] s1) by by apply ksave_inv.
  destruct (obj_same (mc_kern g) s1 (ksave_objs _ _ _) Ho') as [Ho1 Hsh1].
  pose proof (suspend_others w _ _ _ _ Sw O' Hcpu Hok) as O1. fold s1 in O1.
  destruct (kdispatch_spec s1 I1) as [_ Ht]. pose proof (kdispatch_owner s1 I1) as Hown.
  pose proof (owner_valid _ _ Hown) as Hx.
  destruct (oo_sp _ _ _ _ O1 _ Hown ltac:(lia)) as (tx & Htx & Hlo & _).
  assert (Hlx := oo_lo _ _ _ _ O1 _ (or_intror Hown)).
  set (m := store_words (psp (mc_cpu g) - 32) (r4_r11 (mc_cpu g)) (ram (mc_port g))).
  assert (E : after_pendsv g = mkMachine (kdispatch s1) (set_ram m (set_pendsv false (mc_port g)))
    (mkCpu (sp tx + 32) (load_words (sp tx) 8 m)) Live (mc_code g)).
  { unfold after_pendsv. rewrite (pendsv_eq (current g)); [|done|destruct Hcpu; lia]. cbv zeta.
    fold s1. rewrite Ht, Htx. cbn [from_option]. by rewrite (proj2 (Z.eqb_neq _ _)) by lia. }
  exists m, (g_current (kdispatch s1)), tx. rewrite E. split; try done.
  - destruct Hown as [->|Hl]; [by left|right]. eapply ksave_live; [by exists tc|exact Hl].
  - intros i. cbn [mc_kern]. by rewrite Ht.
  - cbn [mc_kern]. by rewrite Ht.
Qed.

(** ** Suspension *)

(** Task [me] as it was in [g1], seen from [g]: its call, the used part of
    its stack, and its registers, in the processor while it runs and on
    the stack while it does not. *)
Definition ctx_kept me g1 g : Prop :=
  mc_mode g = Live /\ 0 <= current g /\ mc_code g !! me = mc_code g1 !! me /\
  (current g = me \/ owner (mc_kern g) me ->
   stack_lo (mc_kern g) me = stack_lo (mc_kern g1) me /\
   stack_hi (mc_kern g) me = stack_hi (mc_kern g1) me /\
   (forall a, psp (mc_cpu g1) <= a < stack_hi (mc_kern g1) me ->
      ram (mc_port g) !! a = ram (mc_port g1) !! a) /\
   if decide (current g = me) then mc_cpu g = mc_cpu g1
   else sp <$> zget (g_tcbs (mc_kern g)) me = Some (psp (mc_cpu g1) - 32) /\
        load_words (psp (mc_cpu g1) - 32) 8 (ram (mc_port g)) = r4_r11 (mc_cpu g1)).

(** A step that does not touch the context. *)
Lemma ctx_step me g1 g g' :
  ctx_kept me g1 g -> current g <> me -> current g' = current g -> mc_mode g' = Live ->
  mc_code g' !! me = mc_code g !! me -> statics (mc_kern g') = statics (mc_kern g) ->
  (owner (mc_kern g') me -> owner (mc_kern g) me /\
    forall a, stack_lo (mc_kern g) me <= a < stack_hi (mc_kern g) me ->
      ram (mc_port g') !! a = ram (mc_port g) !! a) ->
  cpu_ok (mc_kern g1) me (mc_cpu g1) -> ctx_kept me g1 g'.
Proof.
  intros (Hmode & Hc0 & Hcode & H) Hne Hc Hm Hcd Hst Hown Hcpu.
  split; [done|]. split; [congruence|]. split; [congruence|]. intros [?|Ho]; [congruence|].
  destruct (Hown Ho) as [Ho1 Hram]. destruct (H (or_intror Ho1)) as (H1 & H2 & H3 & H4).
  destruct (stack_statics _ _ me Hst) as [E1 E2]. rewrite decide_False in H4 by done.
  destruct H4 as [H4 H5]. destruct Hcpu as [[Hlo Hhi] _]. rewrite decide_False by congruence.
  split; [congruence|]. split; [congruence|]. split; [|split].
  - intros a Ha. rewrite Hram by lia. by apply H3.
  - pose proof (statics_lookup _ _ me Hst) as E. destruct (zget (g_tcbs (mc_kern g)) me) as [t|]; [|done].
    destruct (zget (g_tcbs (mc_kern g')) me) as [t'|]; [|done]. injection E as E _ _ _ _ _ _.
    cbn in H4 |- *. congruence.
  - rewrite <- H5. apply load_words_ext. intros a Ha. apply Hram. lia.
Qed.

(** After a switch, the stacks are where they were. *)
Lemma switched_stack w g g' m x tx me :
  switched w g g' m x tx -> (exists tc, zget (g_tcbs (mc_kern g)) (current g) = Some tc) ->
  stack_lo (mc_kern g') me = stack_lo (mc_kern g) me /\
  stack_hi (mc_kern g') me = stack_hi (mc_kern g) me /\
  (owner (mc_kern g') me -> owner (mc_kern g) me).
Proof.
  intros Sw Htc. destruct (ksave_stack (current g) (psp (mc_cpu g) - 32) (mc_kern g) me Htc) as [E1 E2].
  pose proof (sw_tcbs _ _ _ _ _ _ Sw me) as Et. unfold stack_lo, stack_hi in *. rewrite Et.
  split; [done|]. split; [done|]. intros [->|(t & Ht & Hu)]; [by left|right].
  eapply ksave_live; [exact Htc|]. exists t. by rewrite <- Et.
Qed.

(** The switch that takes the processor away from [me]. *)
Lemma switched_out w g g' m x tx :
  switched w g g' m x tx -> (exists tc, zget (g_tcbs (mc_kern g)) (current g) = Some tc) ->
  ctx_kept (current g) g g'.
Proof.
  intros Sw Htc. destruct (switched_stack _ _ _ _ _ _ (current g) Sw Htc) as (E1 & E2 & _).
  pose proof (owner_valid _ _ (sw_owner _ _ _ _ _ _ Sw)) as Hx. destruct Htc as [tc Htc].
  destruct (sw_cpu_ok _ _ _ _ _ _ Sw) as [_ Hlen].
  pose proof (sw_tcbs _ _ _ _ _ _ Sw (current g)) as Et.
  rewrite (ksave_tcbs _ _ _ (current g) tc Htc), decide_True in Et by done.
  assert (Hload : load_words (psp (mc_cpu g) - 32) 8 m = r4_r11 (mc_cpu g)).
  { rewrite (sw_ram _ _ _ _ _ _ Sw), <- Hlen. apply load_store_words. }
  split; [apply Sw|]. split; [rewrite (sw_next _ _ _ _ _ _ Sw); lia|].
  split; [by rewrite (sw_code _ _ _ _ _ _ Sw)|]. intros _. split; [done|]. split; [done|]. split.
  - intros a Ha. rewrite (sw_port _ _ _ _ _ _ Sw), (sw_ram _ _ _ _ _ _ Sw).
    apply store_words_other. rewrite Hlen. lia.
  - case_decide as Hme.
    + rewrite (sw_cpu _ _ _ _ _ _ Sw). pose proof (sw_tcb _ _ _ _ _ _ Sw) as Htx.
      rewrite <- (sw_next _ _ _ _ _ _ Sw), Hme, Et in Htx. injection Htx as <-. cbn [sp tcb_set_sp].
      rewrite Hload. destruct (mc_cpu g) as [q rs]. cbn. f_equal. lia.
    + rewrite Et, (sw_port _ _ _ _ _ _ Sw). by split.
Qed.

(** A switch between other contexts, or back to [me]. *)
Lemma switched_over w g1 g g' m x tx me :
  switched w g g' m x tx -> (exists tc, zget (g_tcbs (mc_kern g)) (current g) = Some tc) ->
  ctx_kept me g1 g -> current g <> me -> cpu_ok (mc_kern g1) me (mc_cpu g1) -> ctx_kept me g1 g'.
Proof.
  intros Sw Htc (_ & Hc0 & Hcode & H) Hne [[Hlo Hhi] _].
  destruct (switched_stack _ _ _ _ _ _ me Sw Htc) as (E1 & E2 & E3). destruct Htc as [tc Htc].
  pose proof (sw_tcbs _ _ _ _ _ _ Sw me) as Et.
  rewrite (ksave_tcbs _ _ _ me tc Htc), decide_False in Et by done.
  split; [apply Sw|]. split.
  { rewrite (sw_next _ _ _ _ _ _ Sw). by eapply owner_valid, (sw_owner _ _ _ _ _ _ Sw). }
  split; [by rewrite (sw_code _ _ _ _ _ _ Sw)|]. intros Hown.
  assert (Ho : owner (mc_kern g) me).
  { destruct Hown as [<-|Ho]; [|by apply E3]. rewrite (sw_next _ _ _ _ _ _ Sw). apply Sw. }
  destruct (H (or_intror Ho)) as (H1 & H2 & H3 & H4). rewrite decide_False in H4 by done.
  destruct H4 as [H4 H5].
  assert (Hram : forall a, stack_lo (mc_kern g1) me <= a < stack_hi (mc_kern g1) me ->
    m !! a = ram (mc_port g) !! a).
  { intros a Ha. rewrite (sw_ram _ _ _ _ _ _ Sw). apply store_words_other.
    destruct (sw_cpu_ok _ _ _ _ _ _ Sw) as [Hsp Hlen]. rewrite Hlen.
    destruct (oo_disj _ _ _ _ (sw_others _ _ _ _ _ _ Sw) (current g) me) as [Hd|Hd];
      [by left|by right|done|lia..]. }
  assert (Hload : load_words (psp (mc_cpu g1) - 32) 8 m = r4_r11 (mc_cpu g1)).
  { rewrite <- H5. apply load_words_ext. intros a Ha. apply Hram. lia. }
  split; [congruence|]. split; [congruence|]. rewrite (sw_port _ _ _ _ _ _ Sw). split.
  - intros a Ha. rewrite Hram by lia. by apply H3.
  - destruct (decide (current g' = me)) as [Hme|Hme]; [|by rewrite Et].
    rewrite (sw_cpu _ _ _ _ _ _ Sw). pose proof (sw_tcb _ _ _ _ _ _ Sw) as Htx.
    rewrite <- (sw_next _ _ _ _ _ _ Sw), Hme, Et in Htx. rewrite Htx in H4. cbn in H4. injection H4 as ->.
    rewrite Hload. destruct (mc_cpu g1) as [q rs]. cbn. f_equal. lia.
Qed.

Hypothesis Hstall : HARDRT_STALL_ON_ERROR = false.

Lemma handler_effect w g c :
  cinv w g -> is_handler (mc_kern g) c -> ~ mask_ok true (mc_port g) ->
  exists s' p', run_handler g c = Done tt s' p' /\ g_current s' = current g /\
    statics s' = statics (mc_kern g) /\ live_le (mc_kern g) s' /\ ram p' = ram (mc_port g).
Proof.
  intros [s0 [Ph O Ho Hs Hhw Hu]] Hc Hnm.
  assert (Hgo : exists held, sched_inv held (mc_kern g) /\ awake held (mc_kern g) /\
    objects_ok (mc_kern g) /\ mask_ok false (mc_port g)).
  { destruct Ph as [Hd Hcur Hi Hm|Hl Hcur Hi Hm|Hl Hop Hm|s0 c1 Hl Hop Hown Hm|c1 Hl Hpk Hm]; [..|done|];
      try (exists []; split_and!; try done; [..|apply awake_nil]; by apply awake_nil).
    - exists [current g]. split_and!; try done; [apply Hop|apply running_awake, Hop].
    - exists []. split_and!; try done; [apply Hpk|apply awake_nil]. }
  destruct Hgo as (held & I & Ha & Hobj & Hm).
  destruct (handler_safe Hstall held _ _ c Hc I Ha Hobj Hm) as (s' & p' & E & H).
  exists s', p'. split; [exact E|]. split; [apply (hd_held _ _ _ _ _ H)|]. split; [apply H|].
  split; [apply H|]. pose proof (hd_rest _ _ _ _ _ H) as [= _ _ _ _ _ _ Er _]. done.
Qed.

Lemma cinv_up w g : cinv w g -> down g = false.
Proof.
  intros [s0 [Ph _ _ _ _ _]]. unfold down.
  by destruct Ph as [|Hl|Hl|s0 c1 Hl|c1 Hl]; rewrite ?Hl.
Qed.

(** The stack of the running context and those of the others are disjoint. *)
Lemma cinv_disj w g me :
  cinv w g -> 0 <= current g -> owner (mc_kern g) me -> current g <> me ->
  stack_hi (mc_kern g) (current g) <= stack_lo (mc_kern g) me \/
  stack_hi (mc_kern g) me <= stack_lo (mc_kern g) (current g).
Proof.
  intros [s0 [Ph O _ _ _ _]] Hc Ho Hne.
  assert (Hk : own (current g) s0 (mc_kern g))
    by (destruct Ph; try apply own_refl; done).
  destruct Hk as (_ & Es & Et).
  destruct (stack_statics _ _ (current g) Es) as [-> ->]. destruct (stack_statics _ _ me Es) as [-> ->].
  apply (oo_disj _ _ _ _ O); [by left| |done]. right.
  destruct Ho as [->|(t & Ht & Hu)]; [by left|right]. exists t. by rewrite <- Et.
Qed.

Lemma ctx_cstep w me g1 g g' :
  cinv w g -> mc_code g !! (-1) = None -> cpu_ok (mc_kern g1) me (mc_cpu g1) ->
  ctx_kept me g1 g -> current g <> me -> cstep g g' -> ctx_kept me g1 g'.
Proof.
  intros I Hneg Hcpu K Hne H. pose proof K as (Hmode & Hc0 & _).
  assert (Hh : forall c, is_handler (mc_kern g) c -> ~ mask_ok true (mc_port g) ->
    ctx_kept me g1 (after_handler g (run_handler g c))).
  { intros c Hc Hnm. destruct (handler_effect w g c I Hc Hnm) as (s' & p' & -> & Ec & Es & Hl & Er).
    eapply ctx_step; [exact K|done|done|done|done|done| |done]. cbn [mc_kern mc_port after_handler].
    intros Ho. split; [|by rewrite Er]. destruct Ho as [->|Ho]; [by left|right; by apply Hl]. }
  pose proof (step_cinv Hstall w g g' I Hneg H) as I'. apply cinv_up in I'. destruct H.
  - congruence.
  - congruence.
  - apply Hh; [by left|by eapply systick_unmasked].
  - apply Hh; [right; by exists h|]. intros Hm. by rewrite (mask_closed _ _ Hm) in *.
  - destruct (pendsv_effect w g I Hc0 ltac:(done) Hneg) as (Htc & m & x & tx & Sw).
    by eapply switched_over.
  - eapply ctx_step; [exact K|done|done|done|done|done| |done]. cbn [mc_kern mc_port ram set_ram].
    intros Ho. split; [done|]. intros a Ha.
    match goal with Hram : forall a, _ -> m !! a = _ |- _ => apply Hram end.
    destruct (cinv_disj w g me I Hc0 Ho Hne); lia.
  - eapply ctx_step; [exact K|done|done|done| |done|done|done]. cbn [mc_code].
    by rewrite lookup_insert_ne.
  - unfold after_stmt in *. destruct (stmt (PL := cortex_port) c (mc_kern g) (mc_port g)) as [a|h|c' s' p'|c' s' p'] eqn:E;
      try done.
    + eapply ctx_step; [exact K|done|done|done| |done|done|done]. cbn [mc_code].
      by rewrite lookup_delete_ne.
    + destruct (stmt_effect w g c c' s' p') as [(Ec & Es & Et) Hr]; try done.
      eapply ctx_step; [exact K|done|done|done| |done| |done]; cbn [mc_code mc_kern mc_port].
      * by rewrite lookup_insert_ne.
      * injection Hr as _ _ _ _ _ _ Hr _. intros Ho. split; [|by rewrite Hr].
        destruct Ho as [->|(t & Ht & Hu)]; [by left|right]. exists t. by rewrite <- Et.
Qed.

End ctx.
