(* ===== verification/Firmware.v ===== *)
(** * Programs on the Cortex-M system

    A program of a board, in the language of App.v, on the system of
    CortexMachine.v: its [main] runs on the Cortex-M port up to
    [hrt_start]; then its tasks run their code and the statements of their
    calls, SysTick and the interrupt handlers of the program come in
    between, PendSV switches, and the hardware changes its registers.

    Every step of such a program is made of steps of the system
    ([fstep_csteps]), and its threads are threads of Preempt.v
    ([sim_step]). *)

From stdpp Require Import base tactics numbers list option gmap relations.
From S2P Require Import Prelude Types Prog Ring Core Sched Sem Mutex Queue PortNull PortCortexM.
From S2P Require Import CoreFacts Inv SchedFacts InitFacts Running Api ApiSafe ApiCalls.
From S2P Require Import ApiTheorem IsrSafe PickFacts System CortexFacts App Preempt.
From S2P Require Import Frame Stmt CritBal StmtSafe CortexMachine CortexInv CortexSteps CortexBoot CortexCtx.
Open Scope Z_scope.
Open Scope prog_scope.
Import CortexM.

(** The variables of the program at reset, its objects in zeroed memory,
    the functions of its tasks, [main], its interrupt handlers with their
    priorities as the NVIC holds them, and what the hardware does to the
    variables, of which its registers are a part. *)
Record firmware := mkFirmware {
  fw_glob : Type;
  fw_reset : fw_glob -> Prop;
  fw_kern : kern;
  fw_code : Z -> Z -> app fw_glob unit;
  fw_main : app fw_glob Z;
  fw_irqs : list (Z * app fw_glob unit);
  fw_hw : fw_glob -> fw_glob -> Prop
}.

(** What each task is doing: its own code, or a call of which the machine
    holds the rest. *)
Record fsys (G : Type) := mkF { f_mach : machine; f_code : gmap Z (tstate G); f_glob : G }.
Arguments mkF {G} f_mach f_code f_glob.
Arguments f_mach {G} _.
Arguments f_code {G} _.
Arguments f_glob {G} _.

Section machine.
Context `{C : Config} `{Env : CortexEnv}.

Definition goes_down (h : halt) (m : machine) : machine :=
  mkMachine (mc_kern m) (mc_port m) (mc_cpu m) (Down h) (mc_code m).

(** An interrupt handler, from entry to return. *)
Fixpoint run_irq {G A} (c : app G A) (m : machine) (g : G) : machine * G :=
  match c with
  | ARet _ => (m, g)
  | AOut _ k => run_irq k m g
  | AGlob f k => run_irq (k (f g).1) m (f g).2
  | ACall pc k =>
      match exec (H := cortex_port) 0 pc (mc_kern m) (mc_port m) with
      | Done v s p => run_irq (k v) (mkMachine s p (mc_cpu m) (mc_mode m) (mc_code m)) g
      | Halted h _ _ => (goes_down h m, g)
      | Swapped _ _ _ | Spinning _ _ => (goes_down HUndef m, g)
      end
  | AForever _ _ => (goes_down HStall m, g)
  end.

(** A handler does not wake the task that has parked itself and is about to
    be switched out. *)
Definition leaves_parked (m m' : machine) : Prop :=
  forall tc tc', zget (g_tcbs (mc_kern m)) (current m) = Some tc -> state tc <> HRT_READY ->
    zget (g_tcbs (mc_kern m')) (current m) = Some tc' -> state tc' <> HRT_READY.

(** The processor is with task [i]. *)
Definition executes (m : machine) (i : Z) : Prop :=
  mc_mode m = Live /\ switch_due (mc_port m) = false /\ current m = i /\ 0 <= i /\ i <> HRT_IDLE_ID.

(** SysTick, PendSV, and computation on registers and stack. *)
Inductive background : machine -> machine -> Prop :=
  | bg_systick m :
      down m = false -> systick_on (mc_port m) = true ->
      unmasked (SHPR11 (mc_port m)) (mc_port m) = true ->
      still_parked m (run_handler m SysTick_Handler) ->
      background m (after_handler m (run_handler m SysTick_Handler))
  | bg_pendsv m :
      down m = false -> switch_due (mc_port m) = true -> background m (after_pendsv m)
  | bg_compute m c r :
      mc_mode m = Live -> switch_due (mc_port m) = false -> 0 <= current m ->
      stack_lo (mc_kern m) (current m) + 32 <= psp c <= stack_hi (mc_kern m) (current m) ->
      length (r4_r11 c) = 8%nat ->
      (forall a, a < stack_lo (mc_kern m) (current m) \/ stack_hi (mc_kern m) (current m) <= a ->
         r !! a = ram (mc_port m) !! a) ->
      background m (mkMachine (mc_kern m) (set_ram r (mc_port m)) c Live (mc_code m)).

(** The task after a statement of its call. *)
Definition after_call_stmt {G} (k : api_res -> app G unit) (r : stmt_result (PL := cortex_port) api_res)
    : tstate G :=
  match r with SRet v => Running (k v) | _ => Calling k end.

Inductive fstep (F : firmware) : fsys (fw_glob F) -> fsys (fw_glob F) -> Prop :=
  | f_background x m' :
      background (f_mach x) m' -> fstep F x (mkF m' (f_code x) (f_glob x))
  | f_hardware x g' :
      fw_hw F (f_glob x) g' -> fstep F x (mkF (f_mach x) (f_code x) g')
  | f_irq x prio h m' g' :
      down (f_mach x) = false -> (prio, h) ∈ fw_irqs F -> unmasked prio (mc_port (f_mach x)) = true ->
      run_irq h (f_mach x) (f_glob x) = (m', g') -> leaves_parked (f_mach x) m' ->
      fstep F x (mkF m' (f_code x) g')
  | f_enter x i tc :
      executes (f_mach x) i -> f_code x !! i = None ->
      zget (g_tcbs (mc_kern (f_mach x))) i = Some tc ->
      fstep F x (mkF (f_mach x) (<[i := Running (entry_code (fw_code F) tc)]> (f_code x)) (f_glob x))
  | f_local x i c c' g' o :
      executes (f_mach x) i -> f_code x !! i = Some (Running c) ->
      local_step c (f_glob x) = Some (c', g', o) ->
      fstep F x (mkF (f_mach x) (<[i := Running c']> (f_code x)) g')
  | f_call x i c k :
      executes (f_mach x) i -> f_code x !! i = Some (Running (ACall c k)) ->
      fstep F x (mkF (mkMachine (mc_kern (f_mach x)) (mc_port (f_mach x)) (mc_cpu (f_mach x)) Live
                        (<[i := c]> (mc_code (f_mach x))))
                     (<[i := Calling k]> (f_code x)) (f_glob x))
  | f_stmt x i c k :
      executes (f_mach x) i -> f_code x !! i = Some (Calling k) ->
      mc_code (f_mach x) !! i = Some c ->
      fstep F x (mkF (after_stmt (f_mach x) c)
                     (<[i := after_call_stmt k (stmt (PL := cortex_port) c (mc_kern (f_mach x))
                                                  (mc_port (f_mach x)))]> (f_code x)) (f_glob x)).

(** [main] from reset, with the processor's registers [regs]: the state in
    which it has started the scheduler. *)
Definition fw_boot (F : firmware) (regs : list Z) (g : fw_glob F) : fsys (fw_glob F) :=
  match run_main (H := cortex_port) (fw_main F) (fw_kern F) cortex_reset g [] with
  | MStarted s p g' _ => mkF (mkMachine s p (mkCpu 0 regs) Live ∅) ∅ g'
  | MReturned s p g' _ => mkF (mkMachine s p (mkCpu 0 regs) Boot ∅) ∅ g'
  | MHalted h s p g' _ => mkF (mkMachine s p (mkCpu 0 regs) (Down h) ∅) ∅ g'
  end.

Definition fw_reachable (F : firmware) (x : fsys (fw_glob F)) : Prop :=
  exists regs g, fw_reset F g /\ rtc (fstep F) (fw_boot F regs g) x.

(** ** One schedule *)

Inductive event := EPendsv | ETick | EIrq (n : nat) | ERun.

Definition ready_at (m : machine) (i : Z) : bool :=
  match zget (g_tcbs (mc_kern m)) i with Some tc => bool_decide (state tc = HRT_READY) | None => false end.

Definition parked_check (m m' : machine) : bool := ready_at m (current m) || negb (ready_at m' (current m)).

Definition executes_check (m : machine) : bool :=
  match mc_mode m with Live => true | _ => false end && negb (switch_due (mc_port m)) &&
  (0 <=? current m) && negb (bool_decide (current m = HRT_IDLE_ID)).

(** The next step of the running task. *)
Definition run_task (F : firmware) (x : fsys (fw_glob F)) : option (fsys (fw_glob F)) :=
  let m := f_mach x in
  let i := current m in
  match f_code x !! i with
  | None =>
      tc ← zget (g_tcbs (mc_kern m)) i;
      Some (mkF m (<[i := Running (entry_code (fw_code F) tc)]> (f_code x)) (f_glob x))
  | Some (Running (ACall c k)) =>
      Some (mkF (mkMachine (mc_kern m) (mc_port m) (mc_cpu m) Live (<[i := c]> (mc_code m)))
                (<[i := Calling k]> (f_code x)) (f_glob x))
  | Some (Running c) =>
      r ← local_step c (f_glob x);
      Some (mkF m (<[i := Running r.1.1]> (f_code x)) r.1.2)
  | Some (Calling k) =>
      c ← mc_code m !! i;
      Some (mkF (after_stmt m c)
                (<[i := after_call_stmt k (stmt (PL := cortex_port) c (mc_kern m) (mc_port m))]> (f_code x))
                (f_glob x))
  end.

Definition fnext (F : firmware) (e : event) (x : fsys (fw_glob F)) : option (fsys (fw_glob F)) :=
  let m := f_mach x in
  match e with
  | EPendsv =>
      if negb (down m) && switch_due (mc_port m)
      then Some (mkF (after_pendsv m) (f_code x) (f_glob x)) else None
  | ETick =>
      let m' := after_handler m (run_handler m SysTick_Handler) in
      if negb (down m) && systick_on (mc_port m) && unmasked (SHPR11 (mc_port m)) (mc_port m) && parked_check m m'
      then Some (mkF m' (f_code x) (f_glob x)) else None
  | EIrq n =>
      h ← fw_irqs F !! n;
      let r := run_irq h.2 m (f_glob x) in
      if negb (down m) && unmasked h.1 (mc_port m) && parked_check m r.1
      then Some (mkF r.1 (f_code x) r.2) else None
  | ERun => if executes_check m then run_task F x else None
  end.

Fixpoint frun (F : firmware) (es : list event) (x : fsys (fw_glob F)) : option (fsys (fw_glob F)) :=
  match es with
  | [] => Some x
  | e :: es => y ← fnext F e x; frun F es y
  end.

Lemma parked_check_sound m m' : parked_check m m' = true -> leaves_parked m m'.
Proof.
  unfold parked_check, ready_at. intros H tc tc' Htc Hs Htc' Hr. rewrite Htc, Htc', bool_decide_false in H by done.
  by rewrite bool_decide_true in H.
Qed.

Lemma executes_check_sound m : executes_check m = true -> executes m (current m).
Proof.
  unfold executes_check, executes. intros H. btest. destruct (mc_mode m); try done.
  split_and!; [done|done|done|done|]. by apply (bool_decide_eq_false_1 _).
Qed.

Lemma run_task_step F x y : executes (f_mach x) (current (f_mach x)) -> run_task F x = Some y -> fstep F x y.
Proof.
  intros He. unfold run_task. destruct (f_code x !! current (f_mach x)) as [[c|k]|] eqn:Ec.
  - destruct c as [a|c k|o k|B f k|L body l]; cbn [local_step mbind option_bind]; [done|..].
    + intros [= <-]. by apply f_call.
    + intros [= <-]. by eapply f_local.
    + destruct (f (f_glob x)) as [b g'] eqn:Ef. intros [= <-]. eapply f_local; [done|done|].
      cbn [local_step]. by rewrite Ef.
    + intros [= <-]. by eapply f_local.
  - destruct (mc_code (f_mach x) !! current (f_mach x)) as [c|] eqn:Em; [|done]. intros [= <-]. by apply f_stmt.
  - destruct (zget _ _) as [tc|] eqn:Et; [|done]. intros [= <-]. by apply f_enter.
Qed.

Lemma fnext_step F e x y : fnext F e x = Some y -> fstep F x y.
Proof.
  destruct e as [| |n|]; unfold fnext; cbv zeta.
  - destruct (_ && _) eqn:H; [|done]. btest. intros [= <-]. by apply f_background, bg_pendsv.
  - destruct (_ && _) eqn:H; [|done]. btest. intros [= <-]. apply f_background, bg_systick; try done.
    unfold still_parked. destruct (run_handler (f_mach x) SysTick_Handler) eqn:E; try done.
    match goal with H : parked_check _ _ = true |- _ => exact (parked_check_sound _ _ H) end.
  - destruct (fw_irqs F !! n) as [[prio h]|] eqn:En; [cbn [mbind option_bind fst snd]|done].
    destruct (_ && _) eqn:H; [|done]. btest. intros [= <-].
    eapply f_irq; [done|by eapply list_elem_of_lookup_2|done|apply surjective_pairing|by apply parked_check_sound].
  - destruct (executes_check (f_mach x)) eqn:H; [|done]. by apply run_task_step, executes_check_sound.
Qed.

Lemma frun_steps F es x y : frun F es x = Some y -> rtc (fstep F) x y.
Proof.
  revert x. induction es as [|e es IH]; cbn; intros x Hr; [by simplify_eq|].
  destruct (fnext F e x) as [z|] eqn:E; [|done]. eapply rtc_l; [by eapply fnext_step|by apply IH].
Qed.

(** ** Code that respects the system *)

(** A call of a task: one that wakes nobody, whose precondition holds for
    the objects [w]. *)
Definition quiet_call (w : world) (c : prog api_res) : Prop :=
  exists a, c = api_prog a /\ wakes_nobody a = true /\ forall s, shape s = w -> api_pre s a.

(** The rest of a handler: no call, no loop. *)
Fixpoint straight_code {G A} (c : app G A) : Prop :=
  match c with
  | ARet _ => True
  | ACall _ _ | AForever _ _ => False
  | AOut _ k => straight_code k
  | AGlob _ k => forall b, straight_code (k b)
  end.

(** [c] runs as the call [h] for handlers, but for the result. *)
Definition runs_as (h : isr) (c : prog api_res) : Prop :=
  forall s p s' p', exec (H := cortex_port) 0 (isr_prog h) s p = @Done cortex_port _ tt s' p' ->
    exists v, exec (H := cortex_port) 0 c s p = @Done cortex_port _ v s' p'.

Definition isr_call (w : world) (h : isr) (c : prog api_res) : Prop :=
  app_isr h = true /\ (forall s, shape s = w -> isr_pre s h) /\ runs_as h c.

(** A handler: at most one call. *)
Fixpoint irq_code {G A} (w : world) (c : app G A) : Prop :=
  match c with
  | ARet _ => True
  | ACall c k => (exists h, isr_call w h c) /\ forall r, straight_code (k r)
  | AOut _ k => irq_code w k
  | AGlob _ k => forall b, irq_code w (k b)
  | AForever _ _ => False
  end.

End machine.

Abbreviation quiet_code w := (calls_only (quiet_call w)).
Abbreviation quiet_task w := (tstate_calls (quiet_call w)).

Section facts.
Context `{C : Config} {Cok : ConfigOk C} `{Env : CortexEnv} {EnvOk : CortexEnvOk}.
Hypothesis Hstall : HARDRT_STALL_ON_ERROR = false.
Implicit Types (w : world) (m : machine).

(** ** Handlers *)

Lemma run_irq_straight {G A} (c : app G A) m g : straight_code c -> exists g', run_irq c m g = (m, g').
Proof.
  revert g. induction c; intros g0; cbn; try done; eauto.
Qed.

(** The objects, while the kernel state is the one others see. *)
Lemma cinv_shape w m :
  cinv w m -> mc_code m !! current m = None \/ ~ mask_ok true (mc_port m) -> shape (mc_kern m) = w.
Proof.
  intros [s0 [Ph _ _ Hs _ _]] H. destruct Ph; try done. destruct H; congruence.
Qed.

(** What a handler does to the machine: nothing, or one call. *)
Lemma run_irq_spec {G A} w (c : app G A) m g m' g' :
  cinv w m -> ~ mask_ok true (mc_port m) -> irq_code w c -> run_irq c m g = (m', g') ->
  m' = m \/ exists h, app_isr h = true /\ isr_pre (mc_kern m) h /\
    m' = after_handler m (run_handler m (isr_prog h)) /\
    exists s p, run_handler m (isr_prog h) = @Done cortex_port _ tt s p.
Proof.
  intros I Hm. revert g. induction c as [A a|A pc k _|A o k IH|A B f k IH|A L body _ l]; intros g; cbn [irq_code run_irq].
  - intros _ [= <- _]. by left.
  - intros [(h & Ha & Hpre & Hrun) Hk] E. right. exists h.
    assert (Hp : isr_pre (mc_kern m) h) by (apply Hpre; apply cinv_shape; auto).
    destruct (handler_effect Hstall w m (isr_prog h) I) as (s & p & Er & _); [right; by exists h|done|].
    destruct (Hrun _ _ _ _ Er) as [v Ev]. rewrite Ev in E.
    destruct (run_irq_straight (k v) (mkMachine s p (mc_cpu m) (mc_mode m) (mc_code m)) g (Hk v)) as [g1 E1].
    rewrite E1 in E. injection E as <- _. split_and!; [done|done|by rewrite Er|by exists s, p].
  - apply IH.
  - intros Hk. apply IH, Hk.
  - done.
Qed.

(** ... and to the variables: a run of Preempt.v. *)
Lemma run_irq_runs {G A} (c : app G A) m g m' g' :
  run_irq c m g = (m', g') -> down m' = false -> runs c g g'.
Proof.
  intros E Hd. revert m g E. induction c as [A a|A pc k IH|A o k IH|A B f k IH|A L body _ l]; intros m g; cbn.
  - by intros [= -> ->].
  - destruct (exec (H := cortex_port) 0 pc (mc_kern m) (mc_port m)) as [v s p|k1 s p|h s p|s p].
    + intros E. exists v. by eapply IH.
    + intros [= <- <-]. done.
    + intros [= <- <-]. done.
    + intros [= <- <-]. done.
  - apply IH.
  - apply IH.
  - intros [= <- <-]. done.
Qed.

(** A call of [exec] and what follows it. *)
Lemma exec_bind_done {A B} (c : prog A) (f : A -> prog B) s p b s' p' :
  exec (H := cortex_port) 0 (bind c f) s p = @Done cortex_port _ b s' p' ->
  exists a s1 p1, exec (H := cortex_port) 0 c s p = @Done cortex_port _ a s1 p1 /\
    exec (H := cortex_port) 0 (f a) s1 p1 = @Done cortex_port _ b s' p'.
Proof.
  destruct (exec (H := cortex_port) 0 c s p) as [a s1 p1|k s1 p1|h s1 p1|s1 p1] eqn:E; intros Eb.
  - exists a, s1, p1. split; [done|]. by rewrite (exec_bind _ _ _ _ _ _ _ _ E) in Eb.
  - by rewrite (exec_swap_bind _ _ _ _ _ _ _ _ E) in Eb.
  - by rewrite (exec_halt_bind _ _ _ _ _ _ _ _ E) in Eb.
  - by rewrite (exec_spin_bind _ _ _ _ _ _ _ E) in Eb.
Qed.

Lemma give_runs_as a :
  runs_as (IGive a true) (int_call (r <- Sem.hrt_sem_give_from_isr a true ;; Ret r.1)).
Proof.
  intros s p s' p' (r & s1 & p1 & E & [= <- <-])%exec_bind_done. exists (r.1, None).
  unfold int_call. by erewrite exec_bind; [|by erewrite exec_bind].
Qed.

(** ** The invariant of a program *)

Section program.
Variables (F : firmware) (w : world).
Implicit Types (x y : fsys (fw_glob F)).

(** The code of the program makes no other calls, and its handlers are
    masked by critical sections. *)
Record fw_ok : Prop := {
  fo_code : forall fn argp, quiet_code w (fw_code F fn argp);
  fo_irqs : forall prio h, (prio, h) ∈ fw_irqs F -> syscall_level <= prio /\ irq_code w h
}.

Record finv x : Prop := {
  fi_inv : cinv w (f_mach x);
  fi_neg : mc_code (f_mach x) !! (-1) = None;
  fi_live : mc_mode (f_mach x) = Live;
  fi_calls : in_calls (mc_code (f_mach x)) (f_code x);
  fi_tasks : map_Forall (fun _ t => quiet_task w t) (f_code x)
}.

Hypothesis Hok : fw_ok.

Lemma background_cstep m m' : background m m' -> cstep m m'.
Proof. intros []; by constructor. Qed.

Lemma irq_unmasked prio h m :
  (prio, h) ∈ fw_irqs F -> unmasked prio (mc_port m) = true -> ~ mask_ok true (mc_port m).
Proof. intros [Hp _]%(fo_irqs Hok) Hu Hm. by rewrite (mask_closed _ _ Hm Hp) in Hu. Qed.

(** A task that runs its own code is in no call. *)
Lemma running_no_call x i c : finv x -> f_code x !! i = Some (Running c) -> mc_code (f_mach x) !! i = None.
Proof.
  intros Hi Ec. destruct (mc_code (f_mach x) !! i) as [d|] eqn:E; [|done].
  destruct (proj1 (fi_calls _ Hi i)) as [k Hk]; [by eexists|congruence].
Qed.

(** Every step of the program is made of steps of the system. *)
Lemma fstep_csteps x y : finv x -> fstep F x y -> rtc cstep (f_mach x) (f_mach y).
Proof.
  intros Hi Hs. destruct Hs as [x m' Hb|x g' _|x prio h m' g' Hd Hin Hu E Hp|x i tc _ _ _|x i c c' g' o _ _ _
    |x i c k (Hl & Hsd & <- & H0 & Hid) Ec|x i c k (Hl & Hsd & <- & H0 & Hid) Ec Em]; cbn [f_mach]; try done.
  - by apply rtc_once, background_cstep.
  - pose proof (irq_unmasked _ _ _ Hin Hu) as Hnm. destruct (fo_irqs Hok _ _ Hin) as [Hpr Hc].
    destruct (run_irq_spec _ _ _ _ _ _ (fi_inv _ Hi) Hnm Hc E) as [->|(a & Ha & Hpre & -> & s & p & Er)]; [done|].
    apply rtc_once, (cstep_irq _ prio a); try done. rewrite Er in Hp |- *. exact Hp.
  - destruct (fi_tasks _ Hi _ _ Ec) as [(a & -> & Hw & Hpre) _].
    pose proof (running_no_call _ _ _ Hi Ec) as Hno. apply rtc_once, cstep_call; try done.
    apply Hpre, cinv_shape; [apply Hi|by left].
  - by apply rtc_once, cstep_stmt.
Qed.

Lemma csteps_inv m m' :
  cinv w m -> mc_code m !! (-1) = None -> rtc cstep m m' -> cinv w m' /\ mc_code m' !! (-1) = None.
Proof.
  intros I Hn Hr. induction Hr as [|m1 m2 m3 H _ IH]; [done|].
  apply IH; [by eapply step_cinv|by eapply step_code].
Qed.

(** Once the scheduler runs it keeps running. *)
Lemma cstep_live m m' : cstep m m' -> mc_mode m = Live -> down m' = false -> mc_mode m' = Live.
Proof.
  intros Hs Hl. destruct Hs; try congruence; try done.
  - unfold after_handler, down. by destruct (run_handler _ _).
  - unfold after_handler, down. by destruct (run_handler _ _).
  - unfold after_pendsv, down. by destruct (PendSV_Handler _ _ _) as [[[] ?] ?].
  - unfold after_stmt, down. by destruct (stmt _ _ _).
Qed.

Lemma csteps_live m m' :
  cinv w m -> mc_code m !! (-1) = None -> mc_mode m = Live -> rtc cstep m m' -> mc_mode m' = Live.
Proof.
  intros I Hn Hl Hr. induction Hr as [|m1 m2 m3 H _ IH]; [done|].
  pose proof (step_cinv Hstall w _ _ I Hn H) as I2.
  apply IH; [done|by eapply step_code|]. eapply cstep_live; [done|done|]. by eapply cinv_up.
Qed.

(** Interrupts leave the calls of the tasks alone. *)
Lemma background_code m m' : background m m' -> mc_code m' = mc_code m.
Proof.
  intros []; [| |done].
  - unfold after_handler. by destruct (run_handler _ _).
  - unfold after_pendsv. by destruct (PendSV_Handler _ _ _) as [[[] ?] ?].
Qed.

Lemma irq_calls {G A} (c : app G A) m g : mc_code (run_irq c m g).1 = mc_code m.
Proof.
  revert m g. induction c as [A a|A pc k IH|A o k IH|A B f k IH|A L body _ l]; intros m g; cbn; try done.
  destruct (exec (H := cortex_port) 0 pc (mc_kern m) (mc_port m)); try done. by rewrite IH.
Qed.

Lemma finv_step x y : finv x -> fstep F x y -> finv y.
Proof.
  intros Hi Hs. pose proof (fstep_csteps x y Hi Hs) as Hr. pose proof Hi as [I Hn Hl Hc Ht].
  destruct (csteps_inv _ _ I Hn Hr) as [I' Hn']. pose proof (csteps_live _ _ I Hn Hl Hr) as Hl'.
  split; [done..| |].
  - destruct Hs as [x m' Hb|x g' _|x prio h m' g' Hd Hin Hu E Hp|x i tc _ Ec _|x i c c' g' o _ Ec _
      |x i c k _ Ec|x i c k (_ & _ & <- & _) Ec Em]; cbn [f_mach f_code mc_code] in *; try done.
    + by rewrite (background_code _ _ Hb).
    + pose proof (irq_calls h (f_mach x) (f_glob x)) as Ei. rewrite E in Ei. cbn in Ei. by rewrite Ei.
    + eapply in_calls_insert; [done|done|]. split; [|by intros []].
      intros [k Hk]%Hc. congruence.
    + eapply in_calls_insert; [done|done|]. split; [|by intros []].
      rewrite (running_no_call _ _ _ Hi Ec). by intros [].
    + eapply in_calls_insert; [done|intros j Hj; by apply lookup_insert_ne|].
      rewrite lookup_insert_eq. split; [by exists k|by eexists].
    + unfold after_stmt, after_call_stmt in *. set (i := current (f_mach x)) in *.
      destruct (stmt (PL := cortex_port) c _ _) as [v|h|c' s' p'|c' s' p']; cbn [mc_code mc_mode] in *; try done.
      * eapply in_calls_insert; [done|intros j Hj; by apply lookup_delete_ne|].
        rewrite lookup_delete_eq. split; [by intros []|by intros []].
      * eapply in_calls_insert; [done|intros j Hj; by apply lookup_insert_ne|].
        rewrite lookup_insert_eq. split; [by exists k|by eexists].
  - destruct Hs as [x m' Hb|x g' _|x prio h m' g' Hd Hin Hu E Hp|x i tc _ Ec _|x i c c' g' o _ Ec Hlo
      |x i c k _ Ec|x i c k _ Ec Em]; cbn [f_code]; try done; (apply map_Forall_insert_2; [|done]).
    + apply calls_only_entry; [apply Hok|]. by exists CDelete.
    + eapply calls_only_local; [|exact Hlo]. exact (Ht _ _ Ec).
    + destruct (Ht _ _ Ec) as [_ Hk]. exact Hk.
    + pose proof (Ht _ _ Ec) as Hk. unfold after_call_stmt. destruct (stmt _ _ _); try done. apply Hk.
Qed.

Lemma finv_reach x y : finv x -> rtc (fstep F) x y -> finv y.
Proof. intros Hi Hr. induction Hr; eauto using finv_step. Qed.

(** ** The tasks as threads of Preempt.v *)

(** The tasks that exist are [tasks], by their ids. *)
Variable tasks : list (app (fw_glob F) unit).

Definition named m : Prop :=
  forall i tc, zget (g_tcbs (mc_kern m)) i = Some tc -> i <> HRT_IDLE_ID ->
    state tc <> HRT_UNUSED \/ i = current m -> tasks !! Z.to_nat i = Some (entry_code (fw_code F) tc).

Lemma named_same m m' :
  (forall i tc', zget (g_tcbs (mc_kern m')) i = Some tc' -> i <> HRT_IDLE_ID ->
     state tc' <> HRT_UNUSED \/ i = current m' ->
     exists tc, zget (g_tcbs (mc_kern m)) i = Some tc /\ entry tc = entry tc' /\ arg tc = arg tc' /\
       (state tc <> HRT_UNUSED \/ i = current m)) ->
  named m -> named m'.
Proof.
  intros H Hn i tc' Htc Hid Hl. destruct (H i tc' Htc Hid Hl) as (tc & E & E1 & E2 & Hl').
  specialize (Hn i tc E Hid Hl'). unfold entry_code in *. by rewrite <- E1, <- E2.
Qed.

Lemma static_entry s s' i tc' :
  statics s' = statics s -> zget (g_tcbs s') i = Some tc' ->
  exists tc, zget (g_tcbs s) i = Some tc /\ entry tc = entry tc' /\ arg tc = arg tc'.
Proof.
  intros E Ht. pose proof (statics_lookup s s' i E) as H. rewrite Ht in H.
  destruct (zget (g_tcbs s) i) as [tc|]; [|done]. injection H as _ _ _ E1 E2 _ _. by exists tc.
Qed.

Lemma named_handler m c :
  cinv w m -> is_handler (mc_kern m) c -> ~ mask_ok true (mc_port m) -> named m ->
  named (after_handler m (run_handler m c)).
Proof.
  intros I Hc Hnm. destruct (handler_effect Hstall w m c I Hc Hnm) as (s' & p' & -> & Ec & Es & Hl & _).
  apply named_same. cbn [after_handler mc_kern]. intros i tc' Htc Hid Hlive.
  destruct (static_entry _ _ i tc' Es Htc) as (tc & E & E1 & E2). exists tc. split_and!; [done..|].
  destruct Hlive as [Hu|Hcur]; [left|right; by rewrite Hcur; unfold current; cbn].
  destruct (Hl i) as (t & Ht & ?); [by exists tc'|congruence].
Qed.

(** Before the first switch nobody runs. *)
Lemma cinv_current m :
  cinv w m -> (current m = -1 /\ sched_inv [] (mc_kern m) /\ psp (mc_cpu m) = 0) \/ 0 <= current m.
Proof.
  intros [s0 [Ph _ _ _ _ _]]. pose proof idle_valid as [? ?].
  destruct Ph as [Hd Hc Hi Hm Hsp0 He|Hl Hc|Hl Hop|s0 c1 Hl Hop|c1 Hl Hpk]; [by left|right; lia|right..].
  1,2: destruct (open_tcb _ Hop) as (t & Ht & _); apply zget_Some in Ht; lia.
  destruct (pk_not_ready _ _ _ Hpk) as (t & Ht & _). apply zget_Some in Ht. lia.
Qed.

Lemma cinv_tcb m : cinv w m -> 0 <= current m -> exists tc, zget (g_tcbs (mc_kern m)) (current m) = Some tc.
Proof.
  intros [s0 [Ph O _ _ _ _]] H0.
  destruct Ph as [Hd Hc Hi Hm Hsp0 He|Hl Hc|Hl Hop|s0 c1 Hl Hop Hown|c1 Hl Hpk]; [lia|..].
  - rewrite Hc. destruct (oo_idle _ _ _ _ O) as (t & Ht & _). by exists t.
  - destruct (open_tcb _ Hop) as (t & Ht & _). by exists t.
  - destruct (open_tcb _ Hop) as (t & Ht & _). destruct Hown as (_ & Es & _).
    destruct (static_sp _ _ _ t Es Ht) as (t' & Ht' & _). by exists t'.
  - destruct (pk_not_ready _ _ _ Hpk) as (t & Ht & _). by exists t.
Qed.

Lemma pendsv_first_kern m :
  sched_inv [] (mc_kern m) -> psp (mc_cpu m) = 0 -> mc_kern (after_pendsv m) = kdispatch (mc_kern m).
Proof.
  intros Hi Hp. unfold after_pendsv, PendSV_Handler, Null.core_call. rewrite Hp.
  cbn [Z.eqb]. destruct (kdispatch_spec _ Hi) as [_ Ht].
  rewrite (exec_schedule_first (PL := Null.null_port)) by done. by destruct (_ =? 0).
Qed.

Lemma named_pendsv m :
  cinv w m -> mc_code m !! (-1) = None -> switch_due (mc_port m) = true -> mc_mode m = Live ->
  named m -> named (after_pendsv m).
Proof.
  intros I Hneg Hsd Hl. apply named_same. intros i tc' Htc Hid Hlive.
  destruct (cinv_current m I) as [(Hcur & Hi & Hp)|H0].
  - pose proof (pendsv_first_kern m Hi Hp) as Ek. destruct (kdispatch_spec _ Hi) as [_ Ht].
    pose proof (kdispatch_owner _ Hi) as Ho. unfold current in Hlive. rewrite Ek in *. rewrite Ht in Htc.
    exists tc'. split_and!; [done..|]. left. destruct Hlive as [Hu| ->]; [done|].
    destruct Ho as [Ho|(t & Htt & ?)]; [done|congruence].
  - destruct (pendsv_effect w m I H0 Hsd Hneg) as ([tm Htm] & r & x & tx & Sw).
    rewrite (sw_tcbs _ _ _ _ _ _ Sw), (ksave_tcbs _ _ _ i tm Htm) in Htc.
    case_decide as Hi.
    + subst i. injection Htc as <-. exists tm. split_and!; [done..|by right].
    + exists tc'. split_and!; [done..|]. left. destruct Hlive as [Hu| ->]; [done|].
      rewrite (sw_next _ _ _ _ _ _ Sw) in *.
      destruct (sw_owner _ _ _ _ _ _ Sw) as [Ho|(t & Htt & ?)]; [done|congruence].
Qed.

Lemma named_cstep m m' :
  cinv w m -> mc_code m !! (-1) = None -> mc_mode m = Live -> cstep m m' -> named m -> named m'.
Proof.
  intros I Hneg Hl Hs. pose proof (step_cinv Hstall w m m' I Hneg Hs) as I'. apply cinv_up in I'.
  destruct Hs; try congruence; try done.
  - apply named_handler; [done|by left|by eapply systick_unmasked].
  - apply named_handler; [done|right; by exists h|]. intros Hm. by rewrite (mask_closed _ _ Hm) in *.
  - by apply named_pendsv.
  - unfold after_stmt in *.
    destruct (stmt (PL := cortex_port) c (mc_kern g) (mc_port g)) as [a|h|c' s' p'|c' s' p'] eqn:E; try done.
    destruct (stmt_effect w g c c' s' p') as [(Ec & Es & Et) _]; try done.
    apply named_same. intros i tc' Htc Hid Hlive. cbn [mc_kern] in *.
    destruct (static_entry _ _ i tc' Es Htc) as (tc & Etc & E1 & E2). exists tc. split_and!; [done..|].
    destruct (decide (i = current g)) as [->|Hne]; [by right|left].
    rewrite Et in Htc by done. destruct Hlive as [Hu|Hcur]; [congruence|]. by rewrite Hcur in Hne.
Qed.

Lemma named_csteps m m' :
  cinv w m -> mc_code m !! (-1) = None -> mc_mode m = Live -> named m -> rtc cstep m m' -> named m'.
Proof.
  intros I Hn Hl Hm Hr. induction Hr as [|m1 m2 m3 H _ IH]; [done|].
  pose proof (step_cinv Hstall w _ _ I Hn H) as I2.
  apply IH; [done|by eapply step_code| |by apply (named_cstep m1)].
  eapply cstep_live; [done|done|by eapply cinv_up].
Qed.

(** Thread [c] of Preempt.v is task [t]: a call is one step there. *)
Definition thread_of (t : tstate (fw_glob F)) (c : app (fw_glob F) unit) : Prop :=
  match t with Running c' => c = c' | Calling k => exists pc, c = ACall pc k end.

(** A task that has not run yet is at the start of its thread. *)
Definition sim x (cs : list (app (fw_glob F) unit)) : Prop :=
  forall i, 0 <= i ->
    match f_code x !! i with
    | Some t => exists c, cs !! Z.to_nat i = Some c /\ thread_of t c
    | None => cs !! Z.to_nat i = tasks !! Z.to_nat i
    end.

(** A board of Preempt.v with the same handlers and the same hardware. *)
Variable b : board (fw_glob F).
Hypothesis b_irqs : forall prio h, (prio, h) ∈ fw_irqs F -> h ∈ b_handlers b.
Hypothesis b_same_hw : b_hw b = fw_hw F.

Lemma local_tstep {G} (c : app G unit) g c' g' o : local_step c g = Some (c', g', o) -> tstep c g c' g'.
Proof.
  destruct c as [a|pc k|e k|B f k|L body l]; cbn; try done.
  - by intros [= <- <- <-].
  - destruct (f g) as [v g1]. by intros [= <- <- <-].
  - by intros [= <- <- <-].
Qed.

Lemma sim_keep x m' fc' g' i t cs c :
  fc' = <[i := t]> (f_code x) -> sim x cs -> 0 <= i -> cs !! Z.to_nat i = Some c -> thread_of t c ->
  sim (mkF m' fc' g') cs.
Proof.
  intros -> Hs Hi Hc Ht j Hj. cbn [f_code]. destruct (decide (j = i)) as [->|Hne].
  - rewrite lookup_insert_eq. by exists c.
  - rewrite lookup_insert_ne by done. by apply Hs.
Qed.

Lemma sim_move x m' fc' g' i t cs c :
  fc' = <[i := t]> (f_code x) -> sim x cs -> 0 <= i -> is_Some (cs !! Z.to_nat i) -> thread_of t c ->
  sim (mkF m' fc' g') (<[Z.to_nat i := c]> cs).
Proof.
  intros -> Hs Hi [c0 Hc] Ht j Hj. apply lookup_lt_Some in Hc. cbn [f_code].
  destruct (decide (j = i)) as [->|Hne].
  - rewrite lookup_insert_eq. exists c. split; [|done]. by apply list_lookup_insert_eq.
  - rewrite lookup_insert_ne, list_lookup_insert_ne by (done || lia). by apply Hs.
Qed.

(** Every step of the program is matched by steps of the threads on the
    same variables. *)
Lemma sim_step x y cs :
  finv x -> named (f_mach x) -> sim x cs -> fstep F x y ->
  exists cs', rtc (Preempt.pstep b) (PTasks cs, f_glob x) (PTasks cs', f_glob y) /\ sim y cs'.
Proof.
  intros Hi Hn Hsim Hs. pose proof (finv_step x y Hi Hs) as Hy.
  destruct Hs as [x m' Hb|x g' Hh|x prio h m' g' Hd Hin Hu E Hp|x i tc (Hl & Hsd & <- & H0 & Hid) Ec Htc
    |x i c c' g' o (Hl & Hsd & <- & H0 & Hid) Ec Hlo|x i c k (Hl & Hsd & <- & H0 & Hid) Ec
    |x i c k (Hl & Hsd & <- & H0 & Hid) Ec Em]; cbn [f_glob].
  - by exists cs.
  - exists cs. split; [|exact Hsim]. apply rtc_once, p_interrupt. left. by rewrite b_same_hw.
  - exists cs. split; [|exact Hsim]. apply rtc_once, p_interrupt. right. exists h.
    split; [by eapply b_irqs|]. eapply run_irq_runs; [exact E|]. eapply cinv_up, (fi_inv _ Hy).
  - exists cs. split; [done|]. pose proof (Hsim _ H0) as Hc. rewrite Ec in Hc.
    eapply sim_keep; [reflexivity|done|exact H0|rewrite Hc; apply (Hn _ tc); auto|done].
  - pose proof (Hsim _ H0) as Hc. rewrite Ec in Hc. destruct Hc as (c0 & Hc & ->).
    exists (<[Z.to_nat (current (f_mach x)) := c']> cs). split.
    + eapply rtc_once, p_task; [exact Hc|]. by eapply local_tstep.
    + eapply sim_move; [reflexivity|done|exact H0|by eexists|done].
  - pose proof (Hsim _ H0) as Hc. rewrite Ec in Hc. destruct Hc as (c0 & Hc & ->).
    exists cs. split; [done|]. eapply sim_keep; [reflexivity|done|exact H0|exact Hc|by exists c].
  - pose proof (Hsim _ H0) as Hc. rewrite Ec in Hc. destruct Hc as (c0 & Hc & pc & ->).
    unfold after_call_stmt. destruct (stmt _ _ _) as [v|h|c' s' p'|c' s' p'].
    2-4: exists cs; split; [done|]; eapply sim_keep; [reflexivity|done|exact H0|exact Hc|by exists pc].
    exists (<[Z.to_nat (current (f_mach x)) := k v]> cs). split.
    + eapply rtc_once, p_task; [exact Hc|]. by exists v.
    + eapply sim_move; [reflexivity|done|exact H0|by eexists|done].
Qed.

Lemma sim_reach x y cs :
  finv x -> named (f_mach x) -> sim x cs -> rtc (fstep F) x y ->
  exists cs', rtc (Preempt.pstep b) (PTasks cs, f_glob x) (PTasks cs', f_glob y) /\ sim y cs'.
Proof.
  intros Hi Hn Hsim Hr. revert cs Hi Hn Hsim. induction Hr as [x|x y z Hs _ IH]; intros cs Hi Hn Hsim.
  { by exists cs. }
  destruct (sim_step x y cs Hi Hn Hsim Hs) as (cs1 & Hr1 & Hsim1).
  assert (Hn1 : named (f_mach y)).
  { eapply named_csteps; [apply Hi..|exact Hn|by apply fstep_csteps]. }
  destruct (IH cs1 (finv_step _ _ Hi Hs) Hn1 Hsim1) as (cs2 & Hr2 & Hsim2). exists cs2. split; [by etrans|done].
Qed.

End program.

End facts.
