(* ===== verification/Demo.v ===== *)
(** * A concrete system

    A small application on the default build: a counting semaphore, a
    mutex, a queue of two four-byte items and three tasks. The theorems
    are applied to its states. *)

From stdpp Require Import base tactics numbers list option gmap relations.
From S2P Require Import Prelude Types Prog Ring Core Sched Sem Mutex Queue PortPosix.
From S2P Require Import CoreFacts Inv SchedFacts InitFacts InvCheck SemFacts MutexFacts.
From S2P Require Import QueueFacts Running PosixFacts Api ApiSafe ApiCalls ApiTheorem.
From S2P Require Import IsrSafe System.
Open Scope Z_scope.
Open Scope prog_scope.
Import Posix.

(** Execution on the POSIX port. *)
Abbreviation pexec := (exec (H := posix_port)).
Abbreviation presult := (result (H := posix_port)).

(** ** Checking states by evaluation *)

Section checks.
Context `{C : Config} {Cok : ConfigOk C}.

Definition ready_check (me : Z) (s : kern) : bool :=
  match zget (g_tcbs s) me with Some tc => bool_decide (state tc = HRT_READY) | None => false end.

Definition running_check (me : Z) (s : kern) : bool :=
  inv_check [me] s && (g_current s =? me) && ready_check me s.

Lemma running_check_sound me s : running_check me s = true -> running me s.
Proof.
  unfold running_check, ready_check. intros [[Hi Hc]%andb_true_iff Hr]%andb_true_iff.
  split; [by apply inv_check_sound|by apply Z.eqb_eq|].
  destruct (zget (g_tcbs s) me) as [tc|]; [|done]. apply bool_decide_eq_true in Hr. by exists tc.
Qed.

Definition context_check (p : posix) (i : Z) : bool :=
  (0 <=? i) && negb (i =? HRT_IDLE_ID) &&
  match zget (g_ctxs p) i with Some c => valid c | None => false end.

Definition switch_check (s : kern) (p : posix) : bool :=
  (Z.of_nat (length (g_ctxs p)) =? HARDRT_MAX_TASKS) &&
  (Z.of_nat (length (g_tcbs s)) =? HARDRT_MAX_TASKS) &&
  forallb (fun i => match zget (g_tcbs s) i with
                    | Some tc => bool_decide (state tc = HRT_UNUSED) || context_check p i
                    | None => true end) (seqZ 0 HARDRT_MAX_TASKS).

Lemma switch_check_sound s (p : posix) :
  switch_check s p = true -> switch_ok (PL := posix_port) s p.
Proof.
  unfold switch_check. intros [[Hl Ht]%andb_true_iff Hf]%andb_true_iff. btest.
  split; [exact Hl|]. intros i (tc & Htc & Hu).
  pose proof (zget_Some _ _ _ Htc) as Hr.
  pose proof (forallb_elem _ _ i Hf) as Hi. cbv beta in Hi. rewrite Htc in Hi.
  rewrite bool_decide_false in Hi by done. cbn [orb] in Hi.
  unfold context_check in Hi.
  destruct (zget (g_ctxs p) i) as [c|] eqn:Hc; [|rewrite andb_false_r in Hi].
  - assert (Hx := Hi ltac:(apply elem_of_seqZ; lia)). btest. split_and!; [lia|done|by exists c].
  - assert (Hx := Hi ltac:(apply elem_of_seqZ; lia)). done.
Qed.

#[export] Instance objects_ok_dec s : Decision (objects_ok s).
Proof. unfold objects_ok, sems_ok, mutexes_ok, queues_ok. apply _. Defined.

Definition client_check (me : Z) (s : kern) (p : posix) : bool :=
  running_check me s && bool_decide (objects_ok s) && switch_check s p.

Lemma client_check_sound me s (p : posix) :
  client_check me s p = true -> client_ok (PL := posix_port) me s p.
Proof.
  unfold client_check. intros [[H1 H2]%andb_true_iff H3]%andb_true_iff.
  split; [by apply running_check_sound|by apply bool_decide_eq_true in H2|by apply switch_check_sound].
Qed.

End checks.

(** ** The application *)

Definition SEM : Z := 4096.
Definition MTX : Z := 4352.
Definition QUE : Z := 4608.

(** The objects as their initialisers leave them. *)
Definition demo_objects : kern :=
  set_queues {[QUE := mkQueue (replicate 8 0) 4 2 0 0 0 ring_empty ring_empty]}
    (set_mutexes {[MTX := mkMutex 0 (-1) ring_empty]}
      (set_sems {[SEM := mkSem 1 3 ring_empty]} kern_boot)).

Definition attr0 : hrt_task_attr_t := {| priority := 0; timeslice := 0 |}.
Definition attr1 : hrt_task_attr_t := {| priority := 1; timeslice := 2 |}.

(** [main]: initialise the kernel, create three tasks. *)
Definition demo_main : prog Z :=
  _ <- hrt_init None ;;
  _ <- hrt_create_task 16 0 32768 64 (Some attr1) ;;
  _ <- hrt_create_task 32 0 36864 64 (Some attr0) ;;
  hrt_create_task 48 0 40960 64 (Some attr1).

Definition final {A} (r : presult A) : kern * posix :=
  match r with
  | Done _ s p | Swapped _ s p | Halted _ s p | Spinning s p => (s, p)
  end.

(** After [main]; after [hrt_init] only. *)
Definition demo_started : kern * posix := final (exec 0 demo_main demo_objects posix_boot).
Definition demo_inited : kern * posix := final (exec 0 (hrt_init None) demo_objects posix_boot).

(** The scheduler dispatches task 1, of the highest priority. *)
Definition demo_run : kern * posix :=
  let '(_, s, p) := sched_iteration demo_started.1 (posix_pend demo_started.2) in (s, p).

(** ... and, when it sleeps, task 0. *)
Definition next_task (c : api) (sp : kern * posix) : kern * posix :=
  let '(s, p) := final (exec 1 (api_prog c) sp.1 sp.2) in
  let '(_, s, p) := sched_iteration s p in (s, p).

Definition demo_task0 : kern * posix := next_task (CSleep 3) demo_run.
Definition demo_task2 : kern * posix := next_task CYield demo_task0.

(** A call that returns, and ticks. *)
Definition do_call (c : api) (sp : kern * posix) : kern * posix :=
  final (exec 1 (api_prog c) sp.1 sp.2).
Definition do_ticks (k : nat) (sp : kern * posix) : kern * posix := final (ticks k sp.1 sp.2).

(** Task 1 waits for the semaphore, task 0 runs. *)
Definition demo_busy : kern * posix := next_task (CSemTake SEM) (do_call (CSemTake SEM) demo_run).

(** Task 1 owns the mutex and sleeps, task 0 runs. *)
Definition demo_locked : kern * posix := next_task (CSleep 3) (do_call (CLock MTX) demo_run).

(** Task 0 waits for the mutex as well, task 2 runs. *)
Definition demo_contended : kern * posix := next_task (CLock MTX) demo_locked.

(** The owner, task 1, runs again, and task 0 waits for the mutex. *)
Definition demo_owner : kern * posix := next_task CYield (do_ticks 3 demo_contended).

(** The queue holds one item; it is full. *)
Definition demo_item : kern * posix := do_call (CTrySend QUE [1; 2; 3; 4]) demo_run.
Definition demo_full : kern * posix := do_call (CTrySend QUE [5; 6; 7; 8]) demo_item.

(** Task 1 waits for an item, task 0 runs. *)
Definition demo_reader : kern * posix := next_task (CRecv QUE) demo_run.

(** The TCB of a task. *)
Definition tcb_of (i : Z) (s : kern) : _hrt_tcb_t := default tcb_zero (zget (g_tcbs s) i).

Lemma demo_run_ok : client_ok (PL := posix_port) 1 demo_run.1 demo_run.2.
Proof. apply client_check_sound. vm_compute. reflexivity. Qed.

Lemma demo_task0_ok : client_ok (PL := posix_port) 0 demo_task0.1 demo_task0.2.
Proof. apply client_check_sound. vm_compute. reflexivity. Qed.

Lemma demo_task2_ok : client_ok (PL := posix_port) 2 demo_task2.1 demo_task2.2.
Proof. apply client_check_sound. vm_compute. reflexivity. Qed.

Lemma demo_busy_ok : client_ok (PL := posix_port) 0 demo_busy.1 demo_busy.2.
Proof. apply client_check_sound. vm_compute. reflexivity. Qed.

Lemma demo_locked_ok : client_ok (PL := posix_port) 0 demo_locked.1 demo_locked.2.
Proof. apply client_check_sound. vm_compute. reflexivity. Qed.

Lemma demo_contended_ok : client_ok (PL := posix_port) 2 demo_contended.1 demo_contended.2.
Proof. apply client_check_sound. vm_compute. reflexivity. Qed.

Lemma demo_owner_ok : client_ok (PL := posix_port) 1 demo_owner.1 demo_owner.2.
Proof. apply client_check_sound. vm_compute. reflexivity. Qed.

Lemma demo_item_ok : client_ok (PL := posix_port) 1 demo_item.1 demo_item.2.
Proof. apply client_check_sound. vm_compute. reflexivity. Qed.

Lemma demo_full_ok : client_ok (PL := posix_port) 1 demo_full.1 demo_full.2.
Proof. apply client_check_sound. vm_compute. reflexivity. Qed.

Lemma demo_reader_ok : client_ok (PL := posix_port) 0 demo_reader.1 demo_reader.2.
Proof. apply client_check_sound. vm_compute. reflexivity. Qed.

Lemma demo_started_inv : sched_inv [] demo_started.1.
Proof. apply inv_check_sound. vm_compute. reflexivity. Qed.

Lemma demo_objects_ok : objects_ok demo_objects.
Proof. apply (bool_decide_unpack _). vm_compute. exact I. Qed.

Lemma demo_objects_idle : objects_idle demo_objects.
Proof.
  intros pl r E. destruct pl as [pr|a|a|a|a]; [done|..]; cbn in E.
  all: apply fmap_Some in E as (m & Hm & ->); apply lookup_singleton_Some in Hm as [_ <-].
  all: apply ring_empty_repr.
Qed.
