(* ===== verification/ExampleProps.v ===== *)
(** * Properties of the example applications *)

From stdpp Require Import base tactics numbers list option gmap relations strings.
From S2P Require Import Prelude Types Prog Ring Core Sched Sem Mutex Queue PortPosix Info Cpp.
From S2P Require Import CoreFacts Inv SchedFacts InitFacts InvCheck SemFacts MutexFacts.
From S2P Require Import QueueFacts Running PosixFacts Api ApiSafe ApiCalls ApiTheorem.
From S2P Require Import IsrSafe System App AppFacts Examples ExamplesCpp Demo.
Open Scope Z_scope.
Import Posix.

(** ** The state [main] leaves *)

Definition boot_check (x : sys) : bool :=
  match s_mode x with
  | InSched =>
      inv_check [] (s_kern x) && bool_decide (objects_ok (s_kern x)) &&
      switch_check (s_kern x) (s_port x) && g_switch_pending (s_port x) &&
      bool_decide (s_conts x = ∅)
  | _ => false
  end.

Lemma boot_check_sound x : boot_check x = true -> sys_inv x.
Proof.
  unfold boot_check. destruct x as [s p m conts]. cbn. destruct m; try done.
  intros [[[[H1 H2]%andb_true_iff H3]%andb_true_iff H4]%andb_true_iff H5]%andb_true_iff.
  apply bool_decide_eq_true in H2, H5. subst conts. split; cbn.
  - by apply inv_check_sound.
  - done.
  - by apply switch_check_sound.
  - apply map_Forall_empty.
  - intros _ i _. exact H4.
Qed.

Lemma boot_ainv P :
  boot_check (a_sys (boot P)) = true -> a_code (boot P) = ∅ ->
  ainv P (s_kern (a_sys (boot P))) (boot P).
Proof.
  intros Hb Hc. split; [by apply boot_check_sound|done|]. rewrite Hc. apply map_Forall_empty.
Qed.

(** ** The calls of the tasks *)

Section calls.
Context `{C : Config} {Cok : ConfigOk C}.

Lemma ok_sleep s ms : call_ok s (void_call (hrt_sleep ms)).
Proof. by exists (CSleep ms). Qed.
Lemma ok_delete s : call_ok s (void_call hrt_task_delete).
Proof. by exists CDelete. Qed.
Lemma ok_take s a : is_Some (m_sems s !! a) -> call_ok s (int_call (Sem.hrt_sem_take a)).
Proof. intros H. by exists (CSemTake a). Qed.
Lemma ok_try_take s a : is_Some (m_sems s !! a) -> call_ok s (int_call (Sem.hrt_sem_try_take a)).
Proof. intros H. by exists (CSemTryTake a). Qed.
Lemma ok_give s a : is_Some (m_sems s !! a) -> call_ok s (int_call (Sem.hrt_sem_give a)).
Proof. intros H. by exists (CSemGive a). Qed.
Lemma ok_lock s a : is_Some (m_mutexes s !! a) -> call_ok s (int_call (Mutex.hrt_mutex_lock a)).
Proof. intros H. by exists (CLock a). Qed.
Lemma ok_try_lock s a :
  is_Some (m_mutexes s !! a) -> call_ok s (int_call (Mutex.hrt_mutex_try_lock a)).
Proof. intros H. by exists (CTryLock a). Qed.
Lemma ok_unlock s a : is_Some (m_mutexes s !! a) -> call_ok s (int_call (Mutex.hrt_mutex_unlock a)).
Proof. intros H. by exists (CUnlock a). Qed.
Lemma ok_send s a item :
  (exists m, m_queues s !! a = Some m /\ Z.of_nat (length item) = item_size m) ->
  call_ok s (int_call (Queue.hrt_queue_send a item)).
Proof. intros H. by exists (CSend a item). Qed.
Lemma ok_recv s a : is_Some (m_queues s !! a) -> call_ok s (Queue.hrt_queue_recv a).
Proof. intros H. by exists (CRecv a). Qed.

End calls.

(** The objects an application has. *)
Record objects_at (s : kern) (sems mutexes : bool) (items : option Z) : Prop := {
  oa_sem : sems = true -> is_Some (m_sems s !! OBJ);
  oa_mutex : mutexes = true -> is_Some (m_mutexes s !! OBJ);
  oa_queue n : items = Some n -> exists m, m_queues s !! OBJ = Some m /\ n = item_size m
}.

(** Walk through the code of a task, call by call. *)
Ltac app_call :=
  unfold Task.sleep, Task.yield, Task.delete_current, Semaphore.take, Semaphore.try_take,
    Semaphore.give, CppMutex.lock, CppMutex.try_lock, CppMutex.unlock, StaticQueue.send;
  lazymatch goal with
  | |- call_ok _ (void_call (hrt_sleep _)) => apply ok_sleep
  | |- call_ok _ (void_call hrt_task_delete) => apply ok_delete
  | |- call_ok _ (int_call (Sem.hrt_sem_take _)) => apply ok_take
  | |- call_ok _ (int_call (Sem.hrt_sem_try_take _)) => apply ok_try_take
  | |- call_ok _ (int_call (Sem.hrt_sem_give _)) => apply ok_give
  | |- call_ok _ (int_call (Mutex.hrt_mutex_lock _)) => apply ok_lock
  | |- call_ok _ (int_call (Mutex.hrt_mutex_try_lock _)) => apply ok_try_lock
  | |- call_ok _ (int_call (Mutex.hrt_mutex_unlock _)) => apply ok_unlock
  | |- call_ok _ (int_call (Queue.hrt_queue_send _ _)) => apply ok_send
  | |- call_ok _ (Queue.hrt_queue_recv _) => apply ok_recv
  end.

Ltac code_safe :=
  repeat first
    [ exact Logic.I
    | match goal with
      | |- forall _, _ => intros
      | |- _ /\ _ => split
      | |- call_ok _ _ => app_call; try done
      | |- code_ok _ (if ?b then _ else _) => destruct b
      | |- context [abind (if ?b then _ else _) _] => destruct b
      | |- code_ok _ _ => progress hnf
      | |- code_ok _ _ => progress cbn [abind]
      end ].

Definition posix_examples `{Info.BuildInfo} : list program :=
  [TwoTasks.prog; TwoTasksExternal.prog; SemBasic.prog; SemCounting.prog; MutexBasic.prog;
   QueuePosix.prog; TwoTasksCpp.prog; SemBasicCpp.prog; SemCountingCpp.prog; MutexBasicCpp.prog;
   QueuePosixCpp.prog].

Section examples.
Context `{B : Info.BuildInfo}.

Lemma examples_boot P : P ∈ posix_examples -> boot_check (a_sys (boot P)) = true /\ a_code (boot P) = ∅.
Proof.
  intros HP. repeat (apply elem_of_cons in HP as [->|HP]; [split; vm_compute; reflexivity|]).
  by apply not_elem_of_nil in HP.
Qed.

Section code.
Context (s : kern).

Lemma table_code {G} (f1 f2 : app G unit) fn argp :
  code_ok s f1 -> code_ok s f2 -> code_ok s (code_table f1 f2 fn argp).
Proof. intros. unfold code_table. by repeat case_match. Qed.

Lemma two_tasks_code fn argp : code_ok s (p_code TwoTasks.prog fn argp).
Proof. apply table_code; code_safe. Qed.

Lemma two_tasks_external_code fn argp : code_ok s (p_code TwoTasksExternal.prog fn argp).
Proof. apply table_code; code_safe. Qed.

Lemma two_tasks_cpp_code fn argp : code_ok s (p_code TwoTasksCpp.prog fn argp).
Proof. apply table_code; code_safe. Qed.

Lemma sem_basic_code (Hs : is_Some (m_sems s !! OBJ)) fn argp : code_ok s (p_code SemBasic.prog fn argp).
Proof. apply table_code; code_safe. Qed.

Lemma sem_counting_code (Hs : is_Some (m_sems s !! OBJ)) fn argp : code_ok s (p_code SemCounting.prog fn argp).
Proof. apply table_code; code_safe. Qed.

Lemma sem_basic_cpp_code (Hs : is_Some (m_sems s !! OBJ)) fn argp : code_ok s (p_code SemBasicCpp.prog fn argp).
Proof. apply table_code; code_safe. Qed.

Lemma sem_counting_cpp_code (Hs : is_Some (m_sems s !! OBJ)) fn argp : code_ok s (p_code SemCountingCpp.prog fn argp).
Proof. apply table_code; code_safe. Qed.

Lemma mutex_basic_code (Hs : is_Some (m_mutexes s !! OBJ)) fn argp : code_ok s (p_code MutexBasic.prog fn argp).
Proof. apply table_code; code_safe. Qed.

Lemma mutex_basic_cpp_code (Hs : is_Some (m_mutexes s !! OBJ)) fn argp : code_ok s (p_code MutexBasicCpp.prog fn argp).
Proof. apply table_code; code_safe. Qed.

Lemma queue_posix_code m (Hm : m_queues s !! OBJ = Some m) (Hi : item_size m = 4) fn argp : code_ok s (p_code QueuePosix.prog fn argp).
Proof. apply table_code; code_safe; by exists m. Qed.

Lemma queue_posix_cpp_code m (Hm : m_queues s !! OBJ = Some m) (Hi : item_size m = 4) fn argp : code_ok s (p_code QueuePosixCpp.prog fn argp).
Proof. apply table_code; code_safe; by exists m. Qed.

End code.

Lemma examples_code P fn argp :
  P ∈ posix_examples -> code_ok (s_kern (a_sys (boot P))) (p_code P fn argp).
Proof.
  intros HP.
  apply elem_of_cons in HP as [->|HP]; [apply two_tasks_code|].
  apply elem_of_cons in HP as [->|HP]; [apply two_tasks_external_code|].
  apply elem_of_cons in HP as [->|HP]; [apply sem_basic_code; vm_compute; by eexists|].
  apply elem_of_cons in HP as [->|HP]; [apply sem_counting_code; vm_compute; by eexists|].
  apply elem_of_cons in HP as [->|HP]; [apply mutex_basic_code; vm_compute; by eexists|].
  apply elem_of_cons in HP as [->|HP]; [eapply queue_posix_code; vm_compute; reflexivity|].
  apply elem_of_cons in HP as [->|HP]; [apply two_tasks_cpp_code|].
  apply elem_of_cons in HP as [->|HP]; [apply sem_basic_cpp_code; vm_compute; by eexists|].
  apply elem_of_cons in HP as [->|HP]; [apply sem_counting_cpp_code; vm_compute; by eexists|].
  apply elem_of_cons in HP as [->|HP]; [apply mutex_basic_cpp_code; vm_compute; by eexists|].
  apply elem_of_cons in HP as [->|HP]; [eapply queue_posix_cpp_code; vm_compute; reflexivity|].
  by apply not_elem_of_nil in HP.
Qed.

(** The POSIX example programs, in C and in C++, with ticks between the calls
    of the tasks. From the state in which [main] starts the scheduler, in
    whatever order the scheduler, the ticks and the tasks go on: no failed
    assertion, no stall, no access out of range, and the invariants of the
    scheduler, of the objects and of the port hold. The tick thread of
    two_tasks_external is taken as a handler between the calls: what it does
    at the same time as the main thread, a data race of the program, is
    outside of this model. *)
Theorem examples_never_crash P x :
  P ∈ posix_examples -> rtc (astep P) (boot P) x ->
  crashed (a_sys x) = false /\ sys_inv (a_sys x).
Proof.
  intros HP Hr. destruct (examples_boot P HP) as [Hb Hc].
  assert (Hi : ainv P (s_kern (a_sys (boot P))) x).
  { eapply (ainv_reach (C := default_config) eq_refl); [|by apply boot_ainv|exact Hr].
    intros. by apply examples_code. }
  split; [by eapply ainv_running|apply Hi].
Qed.

End examples.

(** ** Runs *)

Definition demo_info : Info.BuildInfo := Info.Build_BuildInfo 0 4 0 "0.4.0" "posix" 1.

(** The queue example after a number of steps. *)
Definition pipe_run (n : nat) : asys unit := arun (QueuePosix.prog (B := demo_info)) n (boot QueuePosix.prog).

Lemma pipe_listed : QueuePosix.prog (B := demo_info) ∈ posix_examples (H := demo_info).
Proof. unfold posix_examples. rewrite !elem_of_cons. tauto. Qed.

Lemma pipe_reachable n : rtc (astep (QueuePosix.prog (B := demo_info))) (boot QueuePosix.prog) (pipe_run n).
Proof. apply arun_steps. Qed.

Lemma examples_never_crash_witness : crashed (a_sys (pipe_run 1000)) = false.
Proof.
  pose proof (examples_never_crash (B := demo_info) _ _ pipe_listed (pipe_reachable 1000)) as H.
  destruct H as [H _]. exact H.
Defined.
