(* ===== verification/TickFacts.v ===== *)
(** * More on the tick: the running task *)

From stdpp Require Import base tactics numbers list option gmap.
From S2P Require Import Prelude Types Prog Ring Core Sched CoreFacts Inv SchedFacts.
From S2P Require Import Running TimeFacts Api ApiSafe IsrSafe.
Open Scope Z_scope.
Open Scope prog_scope.

Section tick_facts.
Context `{C : Config} {Cok : ConfigOk C}.
Implicit Types (s : kern).

Lemma charge_scalars s :
  g_current (charge s).1 = g_current s /\ g_tick (charge s).1 = g_tick s /\
  g_policy (charge s).1 = g_policy s.
Proof.
  unfold charge. destruct (zget (g_tcbs s) (g_current s)) as [tc|]; [|done].
  by destruct (_ && (slice_left tc >? 0)).
Qed.

Lemma charge_tcbs_ne s i :
  i <> g_current s -> zget (g_tcbs (charge s).1) i = zget (g_tcbs s) i.
Proof.
  intros Hne. unfold charge. destruct (zget (g_tcbs s) (g_current s)) as [tc|] eqn:Htc; [|done].
  destruct (_ && (slice_left tc >? 0)); [|done]. cbn [fst].
  erewrite kset_tcb_lookup by done. by rewrite decide_False.
Qed.

Lemma charge_qlist s pl : qlist (ring_of pl) (charge s).1 = qlist (ring_of pl) s.
Proof.
  unfold charge. destruct (zget (g_tcbs s) (g_current s)) as [tc|]; [|done].
  destruct (_ && (slice_left tc >? 0)); [|done]. apply kset_qlist.
Qed.

Lemma running_tick me s : running me s -> running me (tick_spec s).1.
Proof.
  intros R. pose proof (running_awake me s R) as Ha. pose proof (run_inv _ _ R) as I.
  split.
  - by apply tick_spec_inv.
  - destruct (tick_spec_scalars s) as (_ & -> & _). apply R.
  - destruct (run_tcb _ _ R) as (tc & Htc & Hs).
    assert (Hst : state <$> zget (g_tcbs (tick_spec s).1) me = state <$> zget (g_tcbs s) me).
    { unfold tick_spec. set (s1 := set_tick (u32 (g_tick s + 1)) s).
      assert (Hw : zget (g_tcbs (wake_all all_ids s1)) me = zget (g_tcbs s) me).
      { rewrite wake_all_tcbs by apply all_ids_nodup.
        rewrite (awake_due [me] s1 me Ha) by apply list_elem_of_here. by rewrite andb_false_r. }
      destruct (id_out_of_range (g_current s)); cbn [fst]; [cbn; by rewrite Hw|].
      rewrite charge_tcbs. by rewrite Hw. }
    rewrite Htc in Hst. destruct (zget (g_tcbs (tick_spec s).1) me) as [t|]; [|done].
    injection Hst as Hst. exists t. split; [done|congruence].
Qed.

(** ** Ticks while nobody sleeps *)

Definition no_sleepers s : Prop := forall i t, zget (g_tcbs s) i = Some t -> state t <> HRT_SLEEP.

Lemma no_sleepers_check s :
  forallb (fun t => negb (bool_decide (state t = HRT_SLEEP))) (g_tcbs s) = true -> no_sleepers s.
Proof.
  intros H i t Ht. rewrite List.forallb_forall in H. unfold zget in Ht.
  destruct (i <? 0); [done|]. apply list_elem_of_lookup_2, list_elem_of_In, H in Ht.
  by apply negb_true_iff, bool_decide_eq_false in Ht.
Qed.

Lemma no_sleepers_due s i : no_sleepers s -> due s i = false.
Proof.
  intros H. destruct (due s i) eqn:Hd; [|done].
  apply due_inv in Hd as (tc & Htc & Hs & _). by destruct (H i tc Htc).
Qed.

Lemma wake_all_quiet ids s : no_sleepers s -> wake_all ids s = s.
Proof.
  intros H. unfold wake_all. induction ids as [|i ids IH]; [done|]. cbn.
  assert (wake_step s i = s) as ->; [|done]. unfold wake_step.
  rewrite no_sleepers_due by done. by destruct (zget (g_tcbs s) i).
Qed.

Lemma no_sleepers_none ids s : no_sleepers s -> existsb (due s) ids = false.
Proof.
  intros H. apply not_true_iff_false. intros (i & _ & Hi)%existsb_exists.
  by rewrite no_sleepers_due in Hi.
Qed.

Lemma tick_spec_quiet me s :
  running me s -> no_sleepers s ->
  tick_spec s = charge (set_tick (u32 (g_tick s + 1)) s).
Proof.
  intros R Hns. unfold tick_spec. set (s1 := set_tick (u32 (g_tick s + 1)) s).
  assert (Hns1 : no_sleepers s1) by exact Hns. rewrite wake_all_quiet by done.
  rewrite id_in_range by (rewrite (run_cur _ _ R); by eapply running_valid).
  rewrite no_sleepers_none by done. by destruct (charge s1).
Qed.

Lemma tick_quiet_request me s tc :
  running me s -> zget (g_tcbs s) me = Some tc -> no_sleepers s ->
  (tick_spec s).2 = rr_policy (g_policy s) && (timeslice_cfg tc >? 0) && (slice_left tc =? 1).
Proof.
  intros R Htc Hns. rewrite (tick_spec_quiet me s R Hns).
  destruct (running_prio _ _ _ R Htc) as [Hs _].
  unfold charge. cbn [g_current g_tcbs g_policy set_tick]. rewrite (run_cur _ _ R), Htc.
  rewrite bool_decide_true by done. cbn [andb].
  destruct (rr_policy (g_policy s) && (timeslice_cfg tc >? 0)); cbn [andb]; [|done].
  rewrite Z.gtb_ltb. destruct (0 <? slice_left tc) eqn:Hl; btest; [done|].
  symmetry. apply Z.eqb_neq. lia.
Qed.

(** The quantum counts down, one tick at a time. *)
Lemma ticked_quiet me s tc j :
  running me s -> zget (g_tcbs s) me = Some tc -> rr_policy (g_policy s) = true ->
  0 < timeslice_cfg tc -> Z.of_nat j <= slice_left tc -> no_sleepers s ->
  running me (ticked j s) /\
  zget (g_tcbs (ticked j s)) me = Some (tcb_set_slice_left (slice_left tc - Z.of_nat j) tc) /\
  g_policy (ticked j s) = g_policy s /\ no_sleepers (ticked j s).
Proof.
  intros R Htc Hpol Hcfg Hj Hns. induction j as [|j IH].
  { split_and!; try done. cbn. rewrite Z.sub_0_r, Htc. by destruct tc. }
  destruct IH as (Rj & Htcj & Hpj & Hnsj); [lia|].
  change (ticked (S j) s) with (tick_spec (ticked j s)).1.
  assert (E : (tick_spec (ticked j s)).1 = kset_tcb me
    (tcb_set_slice_left (slice_left tc - Z.of_nat (S j)) tc)
    (set_tick (u32 (g_tick (ticked j s) + 1)) (ticked j s))).
  { rewrite (tick_spec_quiet me _ Rj Hnsj). unfold charge. cbn [g_current g_tcbs g_policy set_tick].
    rewrite (run_cur _ _ Rj), Htcj. destruct (running_prio _ _ _ Rj Htcj) as [Hs _].
    rewrite bool_decide_true by done. rewrite Hpj, Hpol. cbn [andb timeslice_cfg slice_left tcb_set_slice_left].
    rewrite !Z.gtb_ltb. zbool. cbn [fst]. f_equal. unfold tcb_set_slice_left. cbn. f_equal. lia. }
  split_and!.
  - by apply running_tick.
  - rewrite E. eapply kset_tcb_get. exact Htcj.
  - rewrite E. done.
  - rewrite E. intros i t. erewrite kset_tcb_lookup by exact Htcj. case_decide; [|apply Hnsj].
    intros [= <-]. cbn. destruct (running_prio _ _ _ R Htc) as [-> _]. done.
Qed.

End tick_facts.
