(* ===== verification/KernelProps.v ===== *)
(** * Properties of the kernel core

    Selection, the tick, time and start-up, each with an application to a
    concrete state. *)

From stdpp Require Import base tactics numbers list option gmap.
From S2P Require Import Prelude Types Prog Ring Core Sched Sem PortPosix CoreFacts Inv.
From S2P Require Import SchedFacts InitFacts InvCheck SemFacts Running TimeFacts.
From S2P Require Import PosixFacts Api ApiSafe ApiCalls IsrSafe System Demo PickFacts.
From S2P Require Import TickFacts.
Open Scope Z_scope.
Open Scope prog_scope.
Import Posix.

Section select.
Context `{C : Config} {Cok : ConfigOk C} `{PL : PortLayer}.
Implicit Types (s : kern) (p : pstate).

(** C15: Task selection refines the abstract scheduler. On every state that
    satisfies the invariant, [hrt__pick_next_ready] returns what
    [pick_spec] returns on the abstract ready queues (the oldest task of
    the first non-empty priority), leaves the queues [pick_spec] leaves and
    nothing else changed; when all queues are empty it returns the idle id
    and changes nothing. *)
Theorem pick_next_refines n out s p :
  sched_inv out s ->
  match pick_spec (ready s) with
  | Some (x, rd) =>
      exists s', exec n hrt__pick_next_ready s p = Done x s' p /\ ready s' = rd /\
                 g_tcbs s' = g_tcbs s /\ objs s' = objs s /\ same_scalars s s'
  | None => exec n hrt__pick_next_ready s p = Done HRT_IDLE_ID s p
  end.
Proof.
  intros I. assert (W := bwf_kern _ (inv_base _ _ I)). rewrite (exec_pick n out s p I).
  destruct (first_ready s (seqZ 0 HARDRT_MAX_PRIO)) as [[pr x]|] eqn:Hf.
  - apply first_ready_least in Hf as (Hp & [l Hl] & Hlow).
    rewrite (pick_spec_intro (ready s) (Z.to_nat pr) x l).
    + eexists. split_and!; [reflexivity|..].
      * apply (ready_lpop s pr x l W); [lia|eapply inv_rq; [done|lia]|done].
      * apply (lpop_tcbs (PReady pr)).
      * unfold lpop. by destruct (rget _ s).
      * apply (lpop_scalars (PReady pr) s).
    + rewrite ready_lookup by (done || lia). by rewrite Hl.
    + intros j Hj. replace j with (Z.to_nat (Z.of_nat j)) by lia.
      rewrite ready_lookup by (done || lia). rewrite Hlow by lia. done.
  - rewrite pick_spec_none; [done|]. intros j l Hj.
    assert (Hlt : (j < length (ready s))%nat) by (apply lookup_lt_is_Some_1; eauto).
    pose proof (ready_length s W). replace j with (Z.to_nat (Z.of_nat j)) in Hj by lia.
    rewrite ready_lookup in Hj by (done || lia). injection Hj as <-.
    eapply first_ready_none; [exact Hf|]. apply elem_of_seqZ. lia.
Qed.

(** Priority scheduling. Whenever some task is ready, the task
    [hrt__pick_next_ready] returns is a ready one, and no ready task has a
    more urgent priority. *)
Theorem pick_is_highest n s p x s' p' y ty :
  sched_inv [] s -> exec n hrt__pick_next_ready s p = Done x s' p' ->
  zget (g_tcbs s) y = Some ty -> state ty = HRT_READY ->
  exists tx, zget (g_tcbs s) x = Some tx /\ state tx = HRT_READY /\ prio tx <= prio ty.
Proof.
  intros I Hx Hty Hsy. rewrite (exec_pick n [] s p I) in Hx.
  destruct (first_ready s (seqZ 0 HARDRT_MAX_PRIO)) as [[pr z]|] eqn:Hf.
  - injection Hx as -> _ _. by eapply first_ready_highest.
  - destruct (ready_found s y); [done|by exists ty|done].
Qed.

End select.

(** Three tasks are ready, of priorities 1, 0 and 1: task 1 is selected. *)
Lemma pick_next_refines_witness :
  pick_spec (ready demo_started.1) = Some (1, [[]; [0; 2]; []; []]) /\
  exists s', pexec 0 hrt__pick_next_ready demo_started.1 demo_started.2 = Done 1 s' demo_started.2.
Proof.
  assert (E : pick_spec (ready demo_started.1) = Some (1, [[]; [0; 2]; []; []]))
    by (vm_compute; reflexivity).
  split; [exact E|].
  pose proof (pick_next_refines (PL := posix_port) 0 [] demo_started.1 demo_started.2 demo_started_inv) as H.
  rewrite E in H. destruct H as (s' & H & _). exists s'. exact H.
Defined.

Lemma pick_is_highest_witness :
  exists tx, zget (g_tcbs demo_started.1) 1 = Some tx /\ state tx = HRT_READY /\
             prio tx <= prio (tcb_of 2 demo_started.1).
Proof.
  refine (pick_is_highest (PL := posix_port) 0 demo_started.1 demo_started.2 1
    (final (pexec 0 hrt__pick_next_ready demo_started.1 demo_started.2)).1
    (final (pexec 0 hrt__pick_next_ready demo_started.1 demo_started.2)).2 2
    (tcb_of 2 demo_started.1) demo_started_inv _ _ _); vm_compute; reflexivity.
Defined.

(** ** The tick *)

Section tick.
Context `{C : Config} {Cok : ConfigOk C} `{PL : PortLayer}.
Implicit Types (s : kern) (p : pstate).

(** The quantum of the current task ends with this tick. *)
Definition quantum_ends s : bool :=
  match zget (g_tcbs s) (g_current s) with
  | Some tc => bool_decide (state tc = HRT_READY) && rr_policy (g_policy s) &&
               (timeslice_cfg tc >? 0) && (slice_left tc =? 1)
  | None => false
  end.

(** What the tick charges a running task: one tick of its quantum, if the
    policy has quanta and the task has some of its quantum left. *)
Definition charged (s : kern) (tc : _hrt_tcb_t) : _hrt_tcb_t :=
  if rr_policy (g_policy s) && (0 <? timeslice_cfg tc) && (0 <? slice_left tc)
  then tcb_set_slice_left (slice_left tc - 1) tc else tc.

Lemma tick_charges_running me s tc :
  running me s -> zget (g_tcbs s) me = Some tc ->
  zget (g_tcbs (tick_spec s).1) me = Some (charged s tc).
Proof.
  intros R Htc. set (now := set_tick (u32 (g_tick s + 1)) s).
  assert (Hd : due now me = false) by (apply (awake_due [me]); [exact (running_awake me s R)|apply list_elem_of_here]).
  destruct (running_prio _ _ _ R Htc) as [Hst _]. unfold tick_spec.
  rewrite id_in_range by (rewrite (run_cur _ _ R); by eapply running_valid). cbn [fst]. fold now.
  assert (Hw : zget (g_tcbs (wake_all all_ids now)) me = Some tc).
  { rewrite wake_all_tcbs, Hd, andb_false_r by apply all_ids_nodup. exact Htc. }
  destruct (wake_all_scalars all_ids now) as (Hc & _ & _ & Hp & _). unfold charge, charged.
  rewrite Hc, Hp. cbn [g_current g_policy set_tick now]. rewrite (run_cur _ _ R), Hw.
  rewrite bool_decide_true, !Z.gtb_ltb by done. cbn [andb].
  destruct (_ && (0 <? slice_left tc)); [|done]. by eapply kset_tcb_get.
Qed.

(** C23: The tick handler, in a state where the invariant holds and task
    [me] runs. Time advances by one (modulo [2^32]); exactly the sleepers
    whose wake-up time has come become ready, with a fresh quantum, at the
    tail of the ready queue of their priority, in the order of their ids;
    the running task is charged one tick of its quantum, when the policy
    has quanta and some of it is left, and is otherwise unchanged; no
    other task changes, and no waiter queue does; a
    switch is requested when a task woke up or the quantum of the current
    task ended, and otherwise not; the invariant is kept. *)
Theorem tick_isr_spec n me s p :
  running me s ->
  let now := set_tick (u32 (g_tick s + 1)) s in
  exists s',
    exec n hrt__tick_isr s p
    = Done tt s' (if existsb (due now) all_ids || quantum_ends s then pend_switch p else p) /\
    g_tick s' = u32 (g_tick s + 1) /\ running me s' /\
    (forall i, i <> me -> zget (g_tcbs s') i =
       if due now i then tcb_ready <$> zget (g_tcbs s) i else zget (g_tcbs s) i) /\
    zget (g_tcbs s') me = charged s <$> zget (g_tcbs s) me /\
    (forall pr, qlist (rq_ring pr) s' =
       qlist (rq_ring pr) s ++ List.filter (fun i => due now i && has_prio s pr i) all_ids) /\
    (forall pl, place_state pl = HRT_BLOCKED -> qlist (ring_of pl) s' = qlist (ring_of pl) s).
Proof.
  intros R now. assert (Ha := running_awake me s R). pose proof (run_inv _ _ R) as I.
  assert (Hv : valid_id (g_current s)) by (rewrite (run_cur _ _ R); by eapply running_valid).
  rewrite (exec_tick_isr n [me] s p I Ha (or_intror Hv)).
  assert (I1 : sched_inv [me] now) by (apply inv_set_tick; [done|apply u32_range]).
  assert (Hd : forall i, i ∈ [me] -> due now i = false) by (intros i; apply awake_due; exact Ha).
  assert (Htk : (tick_spec s).1 = (charge (wake_all all_ids now)).1
    /\ (tick_spec s).2 = existsb (due now) all_ids || (charge (wake_all all_ids now)).2).
  { unfold tick_spec. rewrite id_in_range by done. done. }
  destruct Htk as [E1 E2]. exists (tick_spec s).1. split_and!.
  - rewrite E2. assert ((charge (wake_all all_ids now)).2 = quantum_ends s) as ->; [|done].
    unfold charge, quantum_ends. destruct (wake_all_scalars all_ids now) as (-> & _ & _ & -> & _).
    rewrite wake_all_tcbs by apply all_ids_nodup. cbn [g_current set_tick now].
    rewrite (run_cur _ _ R), (Hd me) by apply list_elem_of_here. rewrite andb_false_r.
    change (g_tcbs now) with (g_tcbs s). change (g_policy now) with (g_policy s).
    destruct (run_tcb _ _ R) as (tc & -> & ->). rewrite bool_decide_true by done. cbn [andb].
    destruct (rr_policy (g_policy s) && (timeslice_cfg tc >? 0)); cbn [andb]; [|done].
    rewrite Z.gtb_ltb. destruct (0 <? slice_left tc) eqn:Hl; btest; [done|].
    symmetry. apply Z.eqb_neq. lia.
  - apply tick_spec_scalars.
  - by apply running_tick.
  - intros i Hi. rewrite E1. rewrite charge_tcbs_ne.
    2: { destruct (wake_all_scalars all_ids now) as (-> & _). cbn. rewrite (run_cur _ _ R). done. }
    rewrite wake_all_tcbs by apply all_ids_nodup. destruct (due now i) eqn:Hdi; [|by rewrite andb_false_r].
    rewrite bool_decide_true; [done|]. apply elem_of_all_ids. apply due_inv in Hdi as (tc & Htc & _).
    by eapply (inv_tcb_valid _ now).
  - destruct (run_tcb _ _ R) as (tc & Htc & _). rewrite Htc. by apply tick_charges_running.
  - intros pr. rewrite E1. change (rq_ring pr) with (ring_of (PReady pr)). rewrite charge_qlist.
    rewrite (wake_all_qlist [me]) by (done || apply all_ids_nodup). done.
  - intros pl Hpl. rewrite E1, charge_qlist.
    rewrite (wake_all_qlist [me]) by (done || apply all_ids_nodup).
    destruct pl; [done|by rewrite app_nil_r..].
Qed.

(** Round-robin accounting. While no task sleeps, a running task with a
    quantum, [k] ticks of which are left, runs undisturbed for [k - 1]
    ticks, and the [k]-th tick requests a switch. *)
Theorem quantum_ends_on_time n me s p tc j :
  running me s -> zget (g_tcbs s) me = Some tc -> rr_policy (g_policy s) = true ->
  0 < timeslice_cfg tc -> Z.of_nat j < slice_left tc ->
  no_sleepers s ->
  exec n hrt__tick_isr (ticked j s) p
  = Done tt (ticked (S j) s) (if Z.of_nat (S j) =? slice_left tc then pend_switch p else p).
Proof.
  intros R Htc Hpol Hcfg Hj Hns.
  destruct (ticked_quiet me s tc j R Htc Hpol Hcfg ltac:(lia) Hns) as (Rj & Htcj & Hpj & Hnsj).
  assert (Hv : valid_id (g_current (ticked j s)))
    by (rewrite (run_cur _ _ Rj); by eapply running_valid).
  rewrite (exec_tick_isr n [me] (ticked j s) p (run_inv _ _ Rj) (running_awake _ _ Rj) (or_intror Hv)).
  change (ticked (S j) s) with (tick_spec (ticked j s)).1. f_equal.
  rewrite (tick_quiet_request me (ticked j s) _ Rj Htcj Hnsj). cbn [slice_left timeslice_cfg tcb_set_slice_left].
  rewrite Hpj, Hpol. cbn [andb]. rewrite Z.gtb_ltb. zbool.
  destruct (Z.eqb_spec (slice_left tc - Z.of_nat j) 1), (Z.eqb_spec (Z.of_nat (S j)) (slice_left tc));
    (done || lia).
Qed.

End tick.

(** Task 1 sleeps for three ticks: the third one wakes it up. *)
Lemma tick_isr_spec_witness :
  let s := (do_ticks 2 demo_task0).1 in
  running 0 s /\ existsb (due (set_tick 3 s)) all_ids = true /\
  exists s', pexec 0 hrt__tick_isr s demo_task0.2 = Done tt s' (posix_pend demo_task0.2) /\
             qlist (rq_ring 0) s' = [1].
Proof.
  intros s. assert (R : running 0 s) by (apply running_check_sound; vm_compute; reflexivity).
  split; [exact R|]. split; [vm_compute; reflexivity|].
  destruct (tick_isr_spec (PL := posix_port) 0 0 s demo_task0.2 R) as (s' & Hx & _ & _ & _ & _ & Hq & _).
  exists s'. split; [rewrite Hx; vm_compute; reflexivity|].
  rewrite Hq. vm_compute. reflexivity.
Defined.

(** Task 0 has a quantum of two ticks. *)
Lemma quantum_ends_on_time_witness :
  slice_left (tcb_of 0 demo_busy.1) = 2 /\
  pexec 0 hrt__tick_isr (ticked 1 demo_busy.1) demo_busy.2
  = Done tt (ticked 2 demo_busy.1) (posix_pend demo_busy.2).
Proof.
  split; [vm_compute; reflexivity|].
  rewrite (quantum_ends_on_time (PL := posix_port) 0 0 demo_busy.1 demo_busy.2
    (tcb_of 0 demo_busy.1) 1 (cl_run _ _ _ demo_busy_ok)); try (vm_compute; reflexivity).
  apply no_sleepers_check. vm_compute. reflexivity.
Defined.
