(* ===== verification/TimeProps.v ===== *)
(** * Properties of time and of start-up *)

From stdpp Require Import base tactics numbers list option gmap.
From S2P Require Import Prelude Types Prog Ring Core Sched PortPosix CoreFacts Inv.
From S2P Require Import SchedFacts InitFacts InvCheck Running TimeFacts PosixFacts Api.
From S2P Require Import ApiSafe ApiCalls System Demo.
Open Scope Z_scope.
Open Scope prog_scope.
Import Posix.

(** C25: [hrt__ms_to_ticks] is exact and never overflows: for non-zero 32-bit
    arguments its 64-bit arithmetic gives the least number of ticks that
    covers the delay, saturated at [UINT32_MAX]; it is at least 1. *)
Theorem ms_to_ticks_exact ms hz :
  0 < ms < 2 ^ 32 -> 0 < hz < 2 ^ 32 ->
  exists c, 1000 * (c - 1) < ms * hz <= 1000 * c /\
            hrt__ms_to_ticks ms hz = Z.min c UINT32_MAX /\ 1 <= hrt__ms_to_ticks ms hz.
Proof.
  intros Hm Hh. exists (ceil_ticks ms hz). split; [|split].
  - unfold ceil_ticks. pose proof (Z.div_mod (ms * hz + 999) 1000).
    pose proof (Z.mod_pos_bound (ms * hz + 999) 1000). lia.
  - by apply ms_to_ticks_eq.
  - apply ms_to_ticks_range; lia.
Qed.

Lemma ms_to_ticks_exact_witness :
  exists c, 1000 * (c - 1) < 15 * 100 <= 1000 * c /\ hrt__ms_to_ticks 15 100 = Z.min c UINT32_MAX.
Proof.
  destruct (ms_to_ticks_exact 15 100 ltac:(lia) ltac:(lia)) as (c & Hc & E & _).
  exists c. split; [exact Hc|exact E].
Defined.

(** The time [hrt_now_ms] reports at tick [t]. *)
Definition ms_at (t hz : Z) : Z := u32 (u64 (t * 1000) / hz).

Section time.
Context `{C : Config} {Cok : ConfigOk C} `{PL : PortLayer}.
Implicit Types (s : kern) (p : pstate).

Lemma exec_now_ms n s p :
  g_tick_hz s <> 0 -> exec n hrt_now_ms s p = Done (ms_at (g_tick s) (g_tick_hz s)) s p.
Proof. intros H. unfold hrt_now_ms. xrun. zbool. by xrun. Qed.

(** A sleep lasts at least as long as it was asked for, measured by
    [hrt_now_ms] itself: between the call of [hrt_sleep(ms)] at tick [t0]
    and the tick [t0 + hrt__ms_to_ticks(ms)] that wakes the task up, the
    reported time advances by [ms] or more, as long as neither the tick
    counter nor the reported time wraps and the conversion did not
    saturate. *)
Theorem sleep_not_short n s s' p p' ms :
  0 < ms < 2 ^ 32 -> 0 < g_tick_hz s < 2 ^ 32 -> g_tick_hz s' = g_tick_hz s ->
  hrt__ms_to_ticks ms (g_tick_hz s) < UINT32_MAX ->
  0 <= g_tick s -> g_tick s' = g_tick s + hrt__ms_to_ticks ms (g_tick_hz s) ->
  g_tick s' < 2 ^ 32 -> g_tick s' * 1000 / g_tick_hz s < 2 ^ 32 ->
  exists t t', exec n hrt_now_ms s p = Done t s p /\ exec n hrt_now_ms s' p' = Done t' s' p' /\
               ms <= t' - t.
Proof.
  intros Hm Hh Hhz Hsat H0 Ht Hw Hw2.
  exists (ms_at (g_tick s) (g_tick_hz s)), (ms_at (g_tick s') (g_tick_hz s')).
  split; [apply exec_now_ms; lia|]. split; [apply exec_now_ms; lia|]. rewrite Hhz.
  pose proof (ms_to_ticks_eq ms (g_tick_hz s) Hm Hh) as E.
  set (T := hrt__ms_to_ticks ms (g_tick_hz s)) in *. set (hz := g_tick_hz s) in *.
  assert (HT : ms * hz <= 1000 * T).
  { unfold ceil_ticks in E. pose proof (Z.div_mod (ms * hz + 999) 1000).
    pose proof (Z.mod_pos_bound (ms * hz + 999) 1000). lia. }
  unfold ms_at. rewrite !u64_id by lia.
  assert (Hge : ms + g_tick s * 1000 / hz <= g_tick s' * 1000 / hz).
  { rewrite <- Z.div_add_l by lia. apply Z.div_le_mono; lia. }
  assert (0 <= g_tick s * 1000 / hz) by (apply Z.div_pos; lia).
  rewrite !u32_id by lia. lia.
Qed.

(** C24: A sleep ends exactly on time. A running task that calls
    [hrt_sleep(ms)] with a conversion of [T <= 2^31] ticks is asleep when it
    gives up the processor; from there, whatever the tick counter wraps
    over, it is still asleep after any [k < T] ticks and it is ready, in
    the ready queue of its priority, after [T] ticks. ([T] is at least one:
    [hrt_sleep(0)] sleeps until the next tick.) *)
Theorem sleep_wakes_exactly n me s p tc ms k (p1 : posix) :
  HARDRT_STALL_ON_ERROR = false -> running me s -> zget (g_tcbs s) me = Some tc ->
  0 <= ms < 2 ^ 32 ->
  let T := hrt__ms_to_ticks ms (g_tick_hz s) in
  T <= 2 ^ 31 -> Z.of_nat k <= T ->
  exists s1 (p2 : posix) tk,
    exec n (hrt_sleep ms) s p = exec n (call hrt_port_yield_to_scheduler) s1 (pend_switch p) /\
    ticks k s1 p1 = @Done posix_port unit tt (ticked k s1) p2 /\
    zget (g_tcbs (ticked k s1)) me = Some tk /\
    if Z.of_nat k <? T then state tk = HRT_SLEEP
    else state tk = HRT_READY /\ me ∈ qlist (rq_ring (prio tc)) (ticked k s1).
Proof.
  intros Hst R Htc Hms T HT Hk. pose proof (ksleep_inv me ms s tc R Htc) as I1.
  set (s1 := ksleep me ms tc s) in *.
  pose proof (running_valid _ _ R) as Hv. pose proof (run_cur _ _ R) as Hc.
  assert (Hrng := kwf_hz s (bwf_kern s (inv_base _ _ (run_inv _ _ R)))).
  assert (HT1 : 1 <= T) by (apply ms_to_ticks_range; lia).
  destruct (posix_ticks k s1 p1 I1 Hst) as [p2 Hp2].
  set (ts := tcb_set_state HRT_SLEEP (tcb_set_wake_tick (u32 (g_tick s + T)) tc)).
  assert (Hts : zget (g_tcbs s1) me = Some ts) by by eapply kset_tcb_get.
  assert (Hx : exec n (hrt_sleep ms) s p
               = exec n (call hrt_port_yield_to_scheduler) s1 (pend_switch p)).
  { unfold s1, ksleep. rewrite <- Hc in *. by apply exec_sleep. }
  destruct (Z.of_nat k <? T) eqn:Hlt; btest.
  - exists s1, p2, ts. split_and!; try done. eapply ticked_asleep; [done|done|done|reflexivity|lia].
  - destruct k as [|k]; [lia|].
    destruct (ticked_wakes k s1 me ts I1 Hts eq_refl) as (tk & H1 & H2 & H3 & H4).
    { cbn -[Z.of_nat u32]. do 2 f_equal. lia. }
    { lia. }
    exists s1, p2, tk. split_and!; try done.
Qed.

End time.

Lemma sleep_not_short_witness :
  exists t t', pexec 0 hrt_now_ms demo_run.1 demo_run.2 = Done t demo_run.1 demo_run.2 /\
    pexec 0 hrt_now_ms (do_ticks 3 demo_task0).1 demo_run.2
    = Done t' (do_ticks 3 demo_task0).1 demo_run.2 /\ 3 <= t' - t.
Proof.
  refine (sleep_not_short (PL := posix_port) 0 demo_run.1 (do_ticks 3 demo_task0).1
    demo_run.2 demo_run.2 3 _ _ _ _ _ _ _ _).
  - lia.
  - assert (E : g_tick_hz demo_run.1 = 1000) by (vm_compute; reflexivity). rewrite E. lia.
  - vm_compute. reflexivity.
  - vm_compute. reflexivity.
  - vm_compute. discriminate.
  - vm_compute. reflexivity.
  - vm_compute. reflexivity.
  - vm_compute. reflexivity.
Defined.

Lemma sleep_wakes_exactly_witness :
  exists s1 (p2 : posix) tk,
    pexec 0 (hrt_sleep 3) demo_run.1 demo_run.2
    = pexec 0 (call hrt_port_yield_to_scheduler) s1 (posix_pend demo_run.2) /\
    ticks 3 s1 demo_run.2 = Done tt (ticked 3 s1) p2 /\
    zget (g_tcbs (ticked 3 s1)) 1 = Some tk /\
    state tk = HRT_READY /\ 1 ∈ qlist (rq_ring 0) (ticked 3 s1).
Proof.
  refine (sleep_wakes_exactly (PL := posix_port) 0 1 demo_run.1 demo_run.2
    (tcb_of 1 demo_run.1) 3 3 demo_run.2 _ _ _ _ _ _).
  - reflexivity.
  - exact (cl_run _ _ _ demo_run_ok).
  - vm_compute. reflexivity.
  - lia.
  - vm_compute. discriminate.
  - vm_compute. discriminate.
Defined.
