(* ===== verification/StartProps.v ===== *)
(** * Properties of start-up, of the ready queues and of round-robin *)

From stdpp Require Import base tactics numbers list option gmap.
From S2P Require Import Prelude Types Prog Ring Core Sched PortPosix CoreFacts Inv.
From S2P Require Import SchedFacts InitFacts InvCheck Running TimeFacts PosixFacts Api.
From S2P Require Import ApiSafe ApiCalls IsrSafe System Demo PickFacts.
Open Scope Z_scope.
Open Scope prog_scope.
Import Posix.

Section start.
Context `{C : Config} {Cok : ConfigOk C}.
Implicit Types (s : kern) (p : posix).

(** [hrt_init] establishes the scheduling invariant. On the POSIX port
    it returns 0 from any state whose synchronisation objects have empty
    waiter queues; no task exists, no task is current, time is 0, every
    ready queue is empty, the objects are untouched, and the tick rate and
    the default quantum are non-zero whatever the configuration says. *)
Theorem init_establishes n cfg s p :
  objects_idle s -> cfg_wf cfg ->
  exists s' p', exec n (hrt_init cfg) s p = Done 0 s' p' /\ sched_inv [] s' /\
    (forall i, ~ live s' i) /\ g_current s' = -1 /\ g_tick s' = 0 /\
    (forall pr, qlist (rq_ring pr) s' = []) /\ objs s' = objs s /\
    g_tick_hz s' <> 0 /\ g_default_slice s' <> 0.
Proof.
  intros Ho Hc. rewrite exec_init. do 2 eexists. split; [reflexivity|]. split_and!.
  - by apply init_inv.
  - intros i. apply init_live.
  - by destruct cfg.
  - by destruct cfg.
  - intros pr. unfold qlist. destruct (rget (rq_ring pr) (init_state cfg s)) as [r|] eqn:E; [|done].
    by apply (init_ring_empty cfg s (PReady pr) r Ho).
  - by destruct cfg.
  - destruct cfg as [c|]; cbn; [|done]. destruct (cfg_tick_hz c =? 0) eqn:E; btest; done.
  - destruct cfg as [c|]; cbn; [|done]. destruct (cfg_default_slice c =? 0) eqn:E; btest; done.
Qed.

(** C27: A successful [hrt_create_task]. With valid arguments, a priority of
    the build and a free slot, the call returns the first unused slot; the
    new task is ready with the requested entry, argument, stack, priority
    and quantum (the default one without attributes), it is the last of the
    ready queue of its priority, every other task and queue is unchanged,
    and the invariant is kept. *)
Theorem create_task_spec n s p fn argp stack n_words attr i :
  sched_inv [] s -> posix_ok p -> free_slot s = i -> 0 <= i ->
  0 <= attr_prio attr < HARDRT_MAX_PRIO -> fn <> 0 -> stack <> 0 -> 64 <= n_words ->
  exists s' p' tc,
    exec n (hrt_create_task fn argp stack n_words attr) s p = Done i s' p' /\
    sched_inv [] s' /\ is_unused s i = true /\
    (forall j, 0 <= j < i -> is_unused s j = false) /\
    zget (g_tcbs s') i = Some tc /\ state tc = HRT_READY /\ entry tc = fn /\ arg tc = argp /\
    stack_base tc = stack /\ stack_words tc = n_words /\ prio tc = attr_prio attr /\
    slice_left tc = timeslice_cfg tc /\
    timeslice_cfg tc = u16 (match attr with Some a => timeslice a | None => g_default_slice s end) /\
    (forall j, j <> i -> zget (g_tcbs s') j = zget (g_tcbs s) j) /\
    (forall pl, qlist (ring_of pl) s' =
       qlist (ring_of pl) s ++ (if decide (PReady (attr_prio attr) = pl) then [i] else [])).
Proof.
  intros I Hp Hf Hi Hpr H1 H2 H3.
  destruct (free_slot_cases s) as [[Hn _]|(Hv & Hu & Hlow)]; [lia|]. rewrite Hf in Hv, Hu, Hlow.
  destruct (free_slot_tcb _ _ _ I Hf Hv) as (t0 & Ht0 & Hs0).
  exists (kcreate i fn argp stack n_words attr s), (posix_prep i stack n_words p),
    (tcb_ready (new_tcb s fn argp stack n_words attr)).
  assert (Hl := fun j => kcreate_tcbs [] s i fn argp stack n_words attr j I Hv).
  split_and!; try done.
  - by apply (exec_create_ok (SP := posix_switches) n s p fn argp stack n_words attr i []).
  - apply kcreate_inv; try done. apply not_elem_of_nil.
  - rewrite Hl. by rewrite decide_True.
  - intros j Hj. rewrite Hl. by rewrite decide_False.
  - intros pl. unfold kcreate, kready.
    change (prio (new_tcb s fn argp stack n_words attr)) with (attr_prio attr).
    change (rq_ring (attr_prio attr)) with (ring_of (PReady (attr_prio attr))).
    assert (I' : sched_inv [i] s) by (eapply inv_hold; [done|done|by right]).
    rewrite qlist_lpush, kset_qlist; [done|exact (inv_rq _ _ _ I' Hpr)|].
    rewrite kset_qlist. eapply inv_room; [exact I'|done|]. apply (inv_out _ _ I'), list_elem_of_here.
Qed.

(** C28: A refused [hrt_create_task]. A null entry or stack, or a stack of
    fewer than 64 words, gives -1 and [ERR_INVALID_TASK]; when every slot
    is in use the call gives -1 and [ERR_INVALID_ID]; nothing but the error
    code changes. *)
Theorem create_task_refused n s p fn argp stack n_words attr :
  HARDRT_STALL_ON_ERROR = false -> sched_inv [] s ->
  fn = 0 \/ stack = 0 \/ n_words < 64 \/ (forall i, valid_id i -> is_unused s i = false) ->
  exec n (hrt_create_task fn argp stack n_words attr) s p
  = Done (-1) (set_error (if decide (fn = 0 \/ stack = 0 \/ n_words < 64)
                          then ERR_INVALID_TASK else ERR_INVALID_ID) s) p.
Proof.
  intros Hst I Hbad. destruct (bwf_kern _ (inv_base _ _ I)).
  case_decide as Hb; [by apply exec_create_bad|].
  apply exec_create_full; try (done || lia).
  destruct (free_slot_cases s) as [[Hn _]|(Hv & Hu & _)]; [done|].
  destruct Hbad as [?|[?|[?|Hall]]]; [tauto..|]. by rewrite Hall in Hu.
Qed.

End start.

Lemma init_establishes_witness :
  objects_idle demo_objects /\
  exists s' p', pexec 0 (hrt_init None) demo_objects posix_boot = Done 0 s' p' /\ sched_inv [] s'.
Proof.
  split; [exact demo_objects_idle|].
  destruct (init_establishes 0 None demo_objects posix_boot demo_objects_idle I)
    as (s' & p' & E & Hi & _).
  exists s', p'. split; [exact E|exact Hi].
Defined.

Lemma create_task_spec_witness :
  exists s' p' tc,
    pexec 0 (hrt_create_task 64 7 45056 128 None) demo_started.1 demo_started.2 = Done 3 s' p' /\
    zget (g_tcbs s') 3 = Some tc /\ prio tc = 1 /\ qlist (rq_ring 1) s' = [0; 2; 3].
Proof.
  destruct (create_task_spec 0 demo_started.1 demo_started.2 64 7 45056 128 None 3)
    as (s' & p' & tc & E & _ & _ & _ & Htc & _ & _ & _ & _ & _ & Hp & _ & _ & _ & Hq).
  - exact demo_started_inv.
  - vm_compute. reflexivity.
  - vm_compute. reflexivity.
  - lia.
  - vm_compute. split; [discriminate|reflexivity].
  - lia.
  - lia.
  - lia.
  - exists s', p', tc. split; [exact E|]. split; [exact Htc|]. split; [exact Hp|].
    specialize (Hq (PReady 1)). etrans; [exact Hq|]. vm_compute. reflexivity.
Defined.

Lemma create_task_refused_witness :
  pexec 0 (hrt_create_task 64 7 45056 63 None) demo_started.1 demo_started.2
  = Done (-1) (set_error ERR_INVALID_TASK demo_started.1) demo_started.2.
Proof.
  rewrite (create_task_refused 0 demo_started.1 demo_started.2 64 7 45056 63 None);
    [reflexivity|reflexivity|exact demo_started_inv|right; right; left; lia].
Defined.

(** ** Round-robin by yielding *)

Section rr.
Context `{C : Config} {Cok : ConfigOk C}.
Implicit Types (s : kern) (p : posix).

(** The scheduler dispatches a task, which yields at once. *)
Definition yield_round s p : option (Z * kern * posix) :=
  match sched_iteration s p with
  | (SRun x old, s1, p1) =>
      match pexec 0 hrt_yield s1 p1 with
      | Swapped _ s2 p2 =>
          match sched_return old s2 p2 with
          | Done _ s3 p3 => Some (x, s3, p3)
          | _ => None
          end
      | _ => None
      end
  | _ => None
  end.

(** The tasks dispatched by [k] rounds. *)
Fixpoint yield_rounds (k : nat) s p : option (list Z * kern * posix) :=
  match k with
  | O => Some ([], s, p)
  | S k' => '(x, s1, p1) ← yield_round s p; '(xs, s2, p2) ← yield_rounds k' s1 p1;
            Some (x :: xs, s2, p2)
  end.

(** The scheduler is about to run; [l] is the first non-empty ready queue. *)
Record top_queue (pr : Z) (l : list Z) s p : Prop := {
  tq_inv : sched_inv [] s;
  tq_port : switch_ok (PL := posix_port) s p;
  tq_stop : g_test_stop p = false;
  tq_pend : g_switch_pending p = true;
  tq_prio : 0 <= pr < HARDRT_MAX_PRIO;
  tq_list : qlist (rq_ring pr) s = l;
  tq_low : forall j, 0 <= j < pr -> qlist (rq_ring j) s = []
}.

Lemma top_first s p pr x l :
  top_queue pr (x :: l) s p -> first_ready s (seqZ 0 HARDRT_MAX_PRIO) = Some (pr, x).
Proof.
  intros T. destruct (first_ready s (seqZ 0 HARDRT_MAX_PRIO)) as [[q y]|] eqn:Hf.
  - apply first_ready_least in Hf as (Hq & [m Hm] & Hlow).
    assert (q = pr) as ->.
    { destruct (Z.lt_total q pr) as [Hlt|[|Hlt]]; [|done|].
      - rewrite (tq_low _ _ _ _ T) in Hm by lia. done.
      - specialize (Hlow pr). rewrite (tq_list _ _ _ _ T) in Hlow. destruct (tq_prio _ _ _ _ T).
        discriminate Hlow. lia. }
    rewrite (tq_list _ _ _ _ T) in Hm. by injection Hm as -> _.
  - pose proof (first_ready_none s _ pr Hf) as Hn. rewrite (tq_list _ _ _ _ T) in Hn.
    destruct (tq_prio _ _ _ _ T). discriminate Hn. apply elem_of_seqZ. lia.
Qed.

Lemma yield_round_spec s p pr x l :
  top_queue pr (x :: l) s p ->
  exists s' p', yield_round s p = Some (x, s', p') /\ top_queue pr (l ++ [x]) s' p'.
Proof.
  intros T. pose proof (top_first s p pr x l T) as Hf. pose proof T as [I Hsw Hst Hpd Hpr Hl Hlow].
  unfold yield_round. pose proof (iteration_spec s p I Hsw) as Hit.
  destruct (sched_iteration s p) as [[[| |y old|h] s1] p1].
  { destruct Hit as (_ & _ & E & _). congruence. }
  { destruct Hit as (_ & _ & E). rewrite E in Hf by done. done. }
  2: { done. }
  destruct Hit as (pr' & Hf' & Es1 & R & L & Ec & Et). rewrite Hf in Hf'. injection Hf' as <- <-.
  destruct (run_tcb _ _ R) as (tc & Htc & Hs).
  assert (Hr : ring_ok (ring_of (PReady pr)) s) by by eapply inv_rq.
  assert (Hq1 : forall j, qlist (rq_ring j) s1 = if decide (j = pr) then l else qlist (rq_ring j) s).
  { intros j. rewrite Es1. change (qlist (rq_ring j) (set_current x ?s0)) with (qlist (ring_of (PReady j)) s0).
    change (lpop (rq_ring pr) s) with (lpop (ring_of (PReady pr)) s).
    erewrite qlist_lpop by done. destruct (decide (j = pr)) as [->|Hj]; [by rewrite decide_True|].
    by rewrite decide_False by congruence. }
  assert (Hprio : prio tc = pr).
  { destruct (inv_in _ _ I (PReady pr) x) as (t & Ht & _ & Hp).
    { cbn [ring_of]. rewrite Hl. apply list_elem_of_here. }
    rewrite <- (Hp pr eq_refl). rewrite Es1 in Htc.
    change (g_tcbs (set_current x (lpop (rq_ring pr) s))) with (g_tcbs (lpop (ring_of (PReady pr)) s)) in Htc.
    rewrite lpop_tcbs, Ht in Htc. by injection Htc as ->. }
  assert (Hcx : has_context x p1).
  { apply (has_context_ext x p p1 Ec). destruct Hsw as [_ Hsw]. apply Hsw, L. exists tc.
    split; [done|congruence]. }
  rewrite (running_exec_yield (PL := posix_port) 0 x s1 p1 tc R Htc). cbn [exec port_do].
  rewrite switch_yields.
  2: { rewrite kyield_current, (run_cur _ _ R). exact Hcx. }
  assert (I2 := kyield_inv x s1 tc R Htc).
  assert (Hpk : parked x (kyield x tc s1)).
  { split; [rewrite kyield_current; apply R|]. exists (tcb_refill tc). split; [|by right].
    unfold kyield. rewrite (lpush_tcbs (PReady (prio tc))). by eapply kset_tcb_get. }
  unfold sched_return. erewrite (parked_entry x) by done.
  do 2 eexists. split; [reflexivity|].
  assert (Hq2 : forall j, qlist (rq_ring j) (kyield x tc s1)
    = if decide (j = pr) then l ++ [x] else qlist (rq_ring j) s).
  { intros j. change (rq_ring j) with (ring_of (PReady j)). rewrite kyield_qlist by done.
    cbn [ring_of]. rewrite Hq1, Hprio. destruct (decide (j = pr)) as [->|Hj].
    - by rewrite decide_True.
    - rewrite decide_False by congruence. by rewrite app_nil_r. }
  split; try done.
  - eapply switch_ok_ctxs; [exact Hsw| |exact Ec]. eapply live_trans; [exact L|by apply live_kyield].
  - cbn. congruence.
  - rewrite Hq2. by rewrite decide_True.
  - intros j Hj. rewrite Hq2, decide_False by lia. by apply Hlow.
Qed.

(** C26: Tasks of one priority take turns. When the first non-empty ready
    queue holds the tasks [l] and every task that is dispatched yields, the
    first [k] dispatches serve the first [k] tasks of [l] in order, and
    leave the queue rotated by [k]: after [length l] rounds every task of
    the priority ran once, and the queue is as it was. *)
Theorem yield_round_robin pr l k s p :
  top_queue pr l s p -> (k <= length l)%nat ->
  exists s' p', yield_rounds k s p = Some (take k l, s', p') /\
                top_queue pr (drop k l ++ take k l) s' p'.
Proof.
  intros T Hk.
  assert (H : forall k l1 l2 s p, (k <= length l1)%nat -> top_queue pr (l1 ++ l2) s p ->
    exists s' p', yield_rounds k s p = Some (take k l1, s', p') /\
                  top_queue pr (drop k l1 ++ l2 ++ take k l1) s' p').
  { clear - Cok. induction k as [|k IH]; intros l1 l2 s p Hk T.
    - exists s, p. rewrite app_nil_r. done.
    - destruct l1 as [|x l1]; [cbn in Hk; lia|]. cbn in T.
      destruct (yield_round_spec s p pr x (l1 ++ l2) T) as (s1 & p1 & E1 & T1).
      rewrite <- app_assoc in T1.
      destruct (IH l1 (l2 ++ [x]) s1 p1) as (s2 & p2 & E2 & T2); [cbn in Hk; lia|done|].
      exists s2, p2. cbn. rewrite E1. cbn. rewrite E2. cbn. split; [done|].
      by rewrite <- app_assoc in T2. }
  destruct (H k l [] s p Hk) as (s' & p' & E & T'); [by rewrite app_nil_r|]. by exists s', p'.
Qed.

End rr.

(** Task 1 waits for the semaphore; tasks 0 and 2 of priority 1 take turns. *)
Lemma yield_round_robin_witness :
  let s := final (exec 0 hrt_yield demo_busy.1 demo_busy.2) in
  top_queue 1 [2; 0] s.1 s.2 /\
  exists s' p', yield_rounds 2 s.1 s.2 = Some ([2; 0], s', p') /\ top_queue 1 [2; 0] s' p'.
Proof.
  intros s.
  assert (T : top_queue 1 [2; 0] s.1 s.2).
  { split; [apply inv_check_sound; vm_compute; reflexivity|apply switch_check_sound; vm_compute; reflexivity
      |vm_compute; reflexivity|vm_compute; reflexivity|vm_compute; split; [discriminate|reflexivity]
      |vm_compute; reflexivity|].
    intros j Hj. assert (j = 0) as -> by lia. vm_compute. reflexivity. }
  split; [exact T|]. exact (yield_round_robin 1 [2; 0] 2 s.1 s.2 T (le_n 2)).
Defined.
