(* ===== verification/SyncProps.v ===== *)
(** * Properties of semaphores and mutexes *)

From stdpp Require Import base tactics numbers list option gmap.
From S2P Require Import Prelude Types Prog Ring Core Sched Sem Mutex Queue PortPosix.
From S2P Require Import CoreFacts Inv SchedFacts InitFacts InvCheck SemFacts MutexFacts.
From S2P Require Import QueueFacts Running PosixFacts Api ApiSafe ApiCalls System Demo.
Open Scope Z_scope.
Open Scope prog_scope.
Import Posix.

Section sem.
Context `{C : Config} {Cok : ConfigOk C} `{PL : PortLayer}.
Implicit Types (s : kern) (p : pstate).

(** C18: [hrt_sem_take] and [hrt_sem_try_take] implement the abstract [P].
    With a unit available either takes it and returns 0 at once. Otherwise
    the caller of [hrt_sem_take] becomes the last waiter of the semaphore,
    is blocked, is stored in no other queue, and reaches the hop to the
    scheduler, after which the call returns 0; [hrt_sem_try_take] returns
    -1 and changes nothing. No other object changes. *)
Theorem sem_take_refines n me s p a m :
  running me s -> m_sems s !! a = Some m -> asem_ok (sem_abs m) ->
  exists s', sem_becomes a (asem_take me (sem_abs m)).1 s s' /\ asem_ok (asem_take me (sem_abs m)).1 /\
    if (asem_take me (sem_abs m)).2
    then exec n (Sem.hrt_sem_take a) s p = Done 0 s' (crit_exit (crit_enter p)) /\ running me s' /\
         exec n (Sem.hrt_sem_try_take a) s p = Done 0 s' (crit_exit (crit_enter p))
    else exec n (Sem.hrt_sem_take a) s p
         = exec n (call hrt_port_yield_to_scheduler ;; Ret 0) s'
             (pend_switch (crit_exit (crit_enter (crit_exit (crit_enter p))))) /\
         sched_inv [] s' /\ me ∈ qlist (sem_ring a) s' /\
         (exists tc, zget (g_tcbs s') me = Some tc /\ state tc = HRT_BLOCKED) /\
         exec n (Sem.hrt_sem_try_take a) s p = Done (-1) s (crit_exit (crit_enter p)).
Proof.
  intros R E Hok. destruct (run_tcb _ _ R) as (tc & Htc & Hs). pose proof (run_cur _ _ R) as Hcur.
  pose proof (exec_sem_try_take n s p a m E Hok) as Htry.
  pose proof (asem_take_ok me _ Hok) as Hok'. unfold asem_take in *. cbn [a_count a_max a_waiters sem_abs] in *.
  destruct (0 <? sem_count m) eqn:Hc; btest; cbn [fst snd] in *.
  - exists (kset_sem a (mkSem (sem_count m - 1) (sem_max_count m) (sem_waitq m)) s).
    split_and!; [by apply sem_becomes_count|done|by apply exec_sem_take|..].
    + eapply running_step; [exact R|by apply inv_set_sem, E; apply R|done|done].
    + done.
  - assert (Hr := sem_ring_ok _ _ _ _ (run_inv _ _ R) E).
    pose proof (running_room me s (PSem a) R) as Hroom. cbn [ring_of] in Hroom.
    destruct (Hok) as [Hc0 _ _]. cbn in Hc0.
    exists (kblock (PSem a) me tc s). split_and!.
    + by apply (sem_becomes_push a me s m).
    + done.
    + rewrite (exec_sem_take_block n s p a m tc); rewrite ?Hcur; try (done || lia).
      by eapply running_valid.
    + by apply kblock_inv.
    + change (sem_ring a) with (ring_of (PSem a)). rewrite kblock_qlist by done.
      rewrite decide_True by done. apply elem_of_app. right. by apply list_elem_of_singleton.
    + exists (tcb_set_state HRT_BLOCKED tc). split; [|done]. unfold kblock.
      eapply kset_tcb_get. by rewrite lpush_tcbs.
    + done.
Qed.

(** C19: [hrt_sem_give] and [hrt_sem_give_from_isr] implement the abstract
    [V]. With waiters, the oldest one gets the unit directly: the count
    stays, the waiter leaves the semaphore and becomes ready, last in the
    ready queue of its priority; the ISR variant requests a switch and
    reports it, the task variant yields. Without waiters the count grows by
    one, up to the maximum, and nobody is disturbed. *)
Theorem sem_give_refines n me s p a m out :
  running me s -> m_sems s !! a = Some m -> asem_ok (sem_abs m) ->
  exists s', sem_becomes a (asem_give (sem_abs m)).1 s s' /\ running me s' /\
    asem_ok (asem_give (sem_abs m)).1 /\
    match (asem_give (sem_abs m)).2 with
    | Some w =>
        exists tw, zget (g_tcbs s) w = Some tw /\ zget (g_tcbs s') w = Some (tcb_ready tw) /\
        qlist (rq_ring (prio tw)) s' = qlist (rq_ring (prio tw)) s ++ [w] /\
        exec n (Sem.hrt_sem_give_from_isr a out) s p
        = Done (0, if out then Some 1 else None) s' (pend_switch (crit_exit (crit_enter p))) /\
        exec n (Sem.hrt_sem_give a) s p = exec n (hrt_yield ;; Ret 0) s' (crit_exit (crit_enter p))
    | None =>
        exec n (Sem.hrt_sem_give_from_isr a out) s p
        = Done (0, if out then Some 0 else None) s' (crit_exit (crit_enter p)) /\
        exec n (Sem.hrt_sem_give a) s p = Done 0 s' (crit_exit (crit_enter p)) /\
        g_tcbs s' = g_tcbs s /\ g_rq s' = g_rq s
    end.
Proof.
  intros R E Hok. pose proof (run_inv _ _ R) as I. assert (Hr := sem_ring_ok _ _ _ _ I E).
  pose proof (asem_give_ok _ Hok) as Hok'. unfold asem_give in *.
  cbn [a_count a_max a_waiters sem_abs] in *. unfold Sem.hrt_sem_give_from_isr, Sem.hrt_sem_give.
  destruct (ring_list (sem_waitq m)) as [|w ws] eqn:Hw; cbn [fst snd] in *.
  - exists (if sem_count m <? sem_max_count m
            then kset_sem a (mkSem (sem_count m + 1) (sem_max_count m) (sem_waitq m)) s else s).
    destruct (Hok) as [Hc Hm _]. cbn in Hc, Hm. split_and!.
    + destruct (sem_count m <? sem_max_count m) eqn:Hlt; btest.
      * rewrite Z.min_l, <- Hw by lia. by apply sem_becomes_count.
      * rewrite Z.min_r by lia. split_and!; try done. unfold sem_at. rewrite E. cbn.
        unfold sem_abs. rewrite Hw. do 2 f_equal. lia.
    + destruct (sem_count m <? sem_max_count m); [|done].
      eapply running_step; [exact R|by apply inv_set_sem|done|done].
    + done.
    + erewrite exec_bind by by apply (exec_give_count n [me]). by xrun.
    + erewrite exec_bind by by apply (exec_give_count n [me]). by xrun.
    + by destruct (sem_count m <? sem_max_count m).
    + by destruct (sem_count m <? sem_max_count m).
  - assert (Hq := sem_qlist a s m E). rewrite Hw in Hq.
    destruct (running_waiter _ _ (PSem a) _ _ R Hq) as (tw & Htw & Hne & Hsw).
    exists (kwake (PSem a) w tw s). split_and!.
    + pose proof (sem_becomes_pop a s m w ws E Hr Hw) as (H1 & H2 & H3 & H4).
      pose proof (kready_objs w tw (lpop (sem_ring a) s)) as [= E1 E2 E3].
      unfold kwake, sem_becomes, sem_at. cbn [ring_of]. rewrite E1, E2, E3. done.
    + by eapply running_wake.
    + done.
    + exists tw. split_and!; [done| | | |].
      * rewrite kwake_tcbs by done. by rewrite decide_True.
      * change (rq_ring (prio tw)) with (ring_of (PReady (prio tw))).
        rewrite (kwake_qlist [me] s (PSem a) w ws tw) by done.
        rewrite decide_False, decide_True by done. done.
      * erewrite exec_bind by by apply (exec_give_wake n [me] s p a m true out w ws tw). by xrun.
      * erewrite exec_bind_cong by by apply (exec_give_wake n [me] s p a m false false w ws tw).
        by rewrite bind_assoc.
Qed.

End sem.

(** The objects of the demonstration, as they are in a state. *)
Definition sem_of (s : kern) : hrt_sem_t := default (mkSem 0 0 ring_empty) (m_sems s !! SEM).
Definition mtx_of (s : kern) : hrt_mutex_t := default (mkMutex 0 0 ring_empty) (m_mutexes s !! MTX).

Lemma sem_of_run : sem_abs (sem_of demo_run.1) = mkAsem 1 3 [].
Proof. vm_compute. reflexivity. Qed.

Lemma sem_of_busy : sem_abs (sem_of demo_busy.1) = mkAsem 0 3 [1].
Proof. vm_compute. reflexivity. Qed.

Lemma asem_checked c mx l : bool_decide (asem_ok (mkAsem c mx l)) = true -> asem_ok (mkAsem c mx l).
Proof. apply bool_decide_eq_true_1. Qed.

(** Task 1 takes the only unit; task 0 waits behind task 1 for the next. *)
Lemma sem_take_refines_witness :
  (exists s', sem_becomes SEM (mkAsem 0 3 []) demo_run.1 s' /\ running 1 s') /\
  (exists s', sem_becomes SEM (mkAsem 0 3 [1; 0]) demo_busy.1 s' /\ sched_inv [] s').
Proof.
  split.
  - pose proof (sem_take_refines (PL := posix_port) 0 1 demo_run.1 demo_run.2 SEM
      (sem_of demo_run.1) (cl_run _ _ _ demo_run_ok) ltac:(vm_compute; reflexivity)) as H.
    rewrite sem_of_run in H. destruct (H ltac:(by apply asem_checked)) as (s' & H1 & _ & _ & H2 & _).
    exists s'. split; [exact H1|exact H2].
  - pose proof (sem_take_refines (PL := posix_port) 0 0 demo_busy.1 demo_busy.2 SEM
      (sem_of demo_busy.1) (cl_run _ _ _ demo_busy_ok) ltac:(vm_compute; reflexivity)) as H.
    rewrite sem_of_busy in H.
    destruct (H ltac:(by apply asem_checked)) as (s' & H1 & _ & _ & H2 & _).
    exists s'. split; [exact H1|exact H2].
Defined.

(** Task 0 gives to task 1, which waits; without a waiter the count grows. *)
Lemma sem_give_refines_witness :
  (exists s' tw, sem_becomes SEM (mkAsem 0 3 []) demo_busy.1 s' /\
     zget (g_tcbs s') 1 = Some (tcb_ready tw)) /\
  (exists s', sem_becomes SEM (mkAsem 2 3 []) demo_run.1 s' /\ running 1 s').
Proof.
  split.
  - pose proof (sem_give_refines (PL := posix_port) 0 0 demo_busy.1 demo_busy.2 SEM
      (sem_of demo_busy.1) true (cl_run _ _ _ demo_busy_ok) ltac:(vm_compute; reflexivity)) as H.
    rewrite sem_of_busy in H.
    destruct (H ltac:(by apply asem_checked)) as (s' & H1 & _ & _ & tw & _ & H2 & _).
    exists s', tw. split; [exact H1|exact H2].
  - pose proof (sem_give_refines (PL := posix_port) 0 1 demo_run.1 demo_run.2 SEM
      (sem_of demo_run.1) true (cl_run _ _ _ demo_run_ok) ltac:(vm_compute; reflexivity)) as H.
    rewrite sem_of_run in H. destruct (H ltac:(by apply asem_checked)) as (s' & H1 & H2 & _).
    exists s'. split; [exact H1|exact H2].
Defined.

(** ** Mutexes *)

Section mutex.
Context `{C : Config} {Cok : ConfigOk C} `{PL : PortLayer}.
Implicit Types (s : kern) (p : pstate).

(** C16: [hrt_mutex_lock] and [hrt_mutex_try_lock] implement the abstract
    lock. A free mutex is acquired at once by either: the caller is its
    owner and 0 is returned. A caller that owns it already gets -1 and
    [ERR_MUTEX_RECURSIVE] from either, and the mutex is unchanged. When
    another task owns it, the caller of [hrt_mutex_lock] becomes the last
    waiter, blocked, and reaches the hop to the scheduler, and
    [hrt_mutex_try_lock] returns -1 and changes nothing. No other object
    changes. *)
Theorem mutex_lock_refines n me s p a m :
  HARDRT_STALL_ON_ERROR = false -> running me s -> m_mutexes s !! a = Some m -> mtx_ok m ->
  exists s', mutex_becomes a (amutex_lock me (mtx_abs m)).1 s s' /\
    amutex_ok (amutex_lock me (mtx_abs m)).1 /\
    match (amutex_lock me (mtx_abs m)).2 with
    | Acquired =>
        exec n (Mutex.hrt_mutex_lock a) s p = Done 0 s' (crit_exit (crit_enter p)) /\ running me s' /\
        exec n (Mutex.hrt_mutex_try_lock a) s p = Done 0 s' (crit_exit (crit_enter p))
    | Recursive =>
        exec n (Mutex.hrt_mutex_lock a) s p
        = Done (-1) s' (crit_exit (crit_enter (crit_exit (crit_enter p)))) /\
        s' = set_error ERR_MUTEX_RECURSIVE s /\
        exec n (Mutex.hrt_mutex_try_lock a) s p = Done (-1) s' (crit_exit (crit_enter p))
    | Waiting =>
        exec n (Mutex.hrt_mutex_lock a) s p
        = exec n (call hrt_port_yield_to_scheduler ;; Ret 0) s'
            (pend_switch (crit_exit (crit_enter (crit_exit (crit_enter p))))) /\
        sched_inv [] s' /\ (exists tc, zget (g_tcbs s') me = Some tc /\ state tc = HRT_BLOCKED) /\
        exec n (Mutex.hrt_mutex_try_lock a) s p = Done (-1) s (crit_exit (crit_enter p))
    end.
Proof.
  intros Hst R E [Hrep Hok]. destruct (run_tcb _ _ R) as (tc & Htc & Hs).
  pose proof (run_cur _ _ R) as Hcur. pose proof (running_valid _ _ R) as Hv.
  assert (Hok' : amutex_ok (amutex_lock me (mtx_abs m)).1).
  { apply amutex_lock_ok; [done|]. cbn. rewrite <- (mutex_qlist a s m E).
    by apply (running_not_queued _ _ (PMutex a)). }
  rewrite <- Hcur in *. pose proof (exec_mutex_try_lock n s p a m E Hrep Hv Hst) as Htry. cbv zeta in Htry.
  destruct (amutex_lock (g_current s) (mtx_abs m)).2 eqn:Ho.
  - exists (kset_mutex a (mkMutex 1 (g_current s) (mtx_waitq m)) s). split_and!.
    + apply mutex_becomes_set; [by rewrite (amutex_lock_acquired _ _ Ho)|by right].
    + done.
    + by apply exec_mutex_lock.
    + eapply running_step; [exact R|by apply inv_set_mutex, E; apply R|done|done].
    + done.
  - exists (set_error ERR_MUTEX_RECURSIVE s). split_and!; try done.
    + rewrite (amutex_lock_recursive _ _ Ho). split_and!; try done. by exists m.
    + by apply (exec_mutex_lock_recursive n s p a m).
  - assert (Hr := mutex_ring_ok _ _ _ _ (run_inv _ _ R) E).
    pose proof (running_room _ s (PMutex a) R) as Hroom. cbn [ring_of] in Hroom.
    exists (kblock (PMutex a) (g_current s) tc s). split_and!; try done.
    + rewrite amutex_lock_waiting by done. exact (mutex_becomes_push a _ s m E Hrep Hr Hroom).
    + by apply (exec_mutex_lock_block n s p a m tc).
    + by apply kblock_inv.
    + exists (tcb_set_state HRT_BLOCKED tc). split; [|done]. unfold kblock.
      eapply kset_tcb_get. by rewrite lpush_tcbs.
Qed.

(** C17: [hrt_mutex_unlock] implements the abstract unlock. A caller that is
    not the owner gets -1 and [ERR_MUTEX_OWNER], and the mutex is unchanged.
    The owner's call frees a mutex nobody waits for; otherwise the mutex is
    handed over: the oldest waiter is the owner before it is made ready,
    the mutex is never free in between, and the caller yields. *)
Theorem mutex_unlock_refines n me s p a m :
  HARDRT_STALL_ON_ERROR = false -> running me s -> m_mutexes s !! a = Some m -> mtx_ok m ->
  match amutex_unlock me (mtx_abs m) with
  | None =>
      exec n (Mutex.hrt_mutex_unlock a) s p
      = Done (-1) (set_error ERR_MUTEX_OWNER s) (crit_exit (crit_enter p))
  | Some (m', None) =>
      exists s', exec n (Mutex.hrt_mutex_unlock a) s p = Done 0 s' (crit_exit (crit_enter p)) /\
        mutex_becomes a m' s s' /\ a_owner m' = None /\ running me s'
  | Some (m', Some w) =>
      exists s' tw,
        exec n (Mutex.hrt_mutex_unlock a) s p
        = exec n (hrt_yield ;; Ret 0) s' (crit_exit (crit_enter p)) /\
        mutex_becomes a m' s s' /\ a_owner m' = Some w /\ amutex_ok m' /\
        zget (g_tcbs s) w = Some tw /\ zget (g_tcbs s') w = Some (tcb_ready tw) /\
        running me s'
  end.
Proof.
  intros Hst R E [Hrep Hok]. pose proof (run_cur _ _ R) as Hcur.
  pose proof (running_valid _ _ R) as Hv. pose proof (run_inv _ _ R) as I. rewrite <- Hcur in Hv.
  assert (amutex_unlock me (mtx_abs m) = amutex_unlock (g_current s) (mtx_abs m)) as ->
    by by rewrite Hcur.
  destruct (amutex_unlock (g_current s) (mtx_abs m)) as [[m' [w|]]|] eqn:Hu.
  - pose proof (amutex_unlock_handover _ _ _ _ Hu) as (ws & Hw & Em'). cbn in Hw.
    assert (Hq := mutex_qlist a s m E). rewrite Hw in Hq.
    destruct (running_waiter _ _ (PMutex a) _ _ R Hq) as (tw & Htw & Hne & Hs).
    exists (khandover a w tw s), tw. rewrite Em'. split_and!; try done.
    + by apply (exec_mutex_unlock_handover n [me] s p a m m').
    + by eapply (khandover_becomes [me]).
    + rewrite <- Em'. eapply amutex_unlock_ok; [exact Hok| |exact Hu]. cbn.
      rewrite <- (mutex_qlist a s m E). apply (inv_nodup _ _ I (PMutex a)).
    + rewrite (khandover_tcbs s a m w tw E Htw). by rewrite decide_True.
    + eapply running_step; [exact R|by eapply khandover_inv|..].
      * apply (khandover_scalars s a m w tw E).
      * rewrite (khandover_tcbs s a m w tw E Htw). by rewrite decide_False.
  - exists (kset_mutex a (mkMutex 0 HRT_MUTEX_NO_OWNER (mtx_waitq m)) s). split_and!.
    + by apply (exec_mutex_unlock_free n [me] s p a m m').
    + apply mutex_becomes_set; [|by left]. by rewrite (amutex_unlock_freed _ _ _ Hu).
    + by rewrite (amutex_unlock_freed _ _ _ Hu).
    + eapply running_step; [exact R|by apply inv_set_mutex, E|done|done].
  - by apply (exec_mutex_unlock_refused n s p a m).
Qed.

End mutex.

Lemma mtx_of_locked : mtx_abs (mtx_of demo_locked.1) = mkAmutex (Some 1) [].
Proof. vm_compute. reflexivity. Qed.

Lemma mtx_of_owner : mtx_abs (mtx_of demo_owner.1) = mkAmutex (Some 1) [0].
Proof. vm_compute. reflexivity. Qed.

Lemma mtx_locked_checked : mtx_ok (mtx_of demo_locked.1) /\ mtx_ok (mtx_of demo_owner.1).
Proof. split; apply (bool_decide_unpack _); vm_compute; exact Logic.I. Qed.

(** Task 0 locks the mutex task 1 owns, and waits for it; the owner hands
    it over to task 0. *)
Lemma mutex_lock_refines_witness :
  exists s', mutex_becomes MTX (mkAmutex (Some 1) [0]) demo_locked.1 s' /\ sched_inv [] s'.
Proof.
  pose proof (mutex_lock_refines (PL := posix_port) 0 0 demo_locked.1 demo_locked.2 MTX
    (mtx_of demo_locked.1) eq_refl (cl_run _ _ _ demo_locked_ok) ltac:(vm_compute; reflexivity)
    (proj1 mtx_locked_checked)) as H.
  rewrite mtx_of_locked in H. destruct H as (s' & H1 & _ & _ & H2 & _).
  exists s'. split; [exact H1|exact H2].
Defined.

Lemma mutex_unlock_refines_witness :
  exists s', mutex_becomes MTX (mkAmutex (Some 0) []) demo_owner.1 s' /\ running 1 s'.
Proof.
  pose proof (mutex_unlock_refines (PL := posix_port) 0 1 demo_owner.1 demo_owner.2 MTX
    (mtx_of demo_owner.1) eq_refl (cl_run _ _ _ demo_owner_ok) ltac:(vm_compute; reflexivity)
    (proj2 mtx_locked_checked)) as H.
  rewrite mtx_of_owner in H. destruct H as (s' & tw & _ & H1 & _ & _ & _ & _ & H2).
  exists s'. split; [exact H1|exact H2].
Defined.
