(* ===== verification/QueueProps.v ===== *)
(** * Properties of the message queues *)

From stdpp Require Import base tactics numbers list option gmap.
From S2P Require Import Prelude Types Prog Ring Core Sched Sem Mutex Queue PortPosix.
From S2P Require Import CoreFacts Inv SchedFacts InitFacts InvCheck SemFacts MutexFacts.
From S2P Require Import QueueFacts Running PosixFacts Api ApiSafe ApiCalls System Demo.
Open Scope Z_scope.
Open Scope prog_scope.
Import Posix.

(** ** The data part of a queue, and the wake-ups around it *)

Definition same_data (m m' : hrt_queue_t) : Prop :=
  buf m' = buf m /\ item_size m' = item_size m /\ capacity m' = capacity m /\
  q_head m' = q_head m /\ q_tail m' = q_tail m /\ q_count m' = q_count m.

Lemma same_data_items m m' : same_data m m' -> q_items m' = q_items m.
Proof.
  intros (E1 & E2 & E3 & E4 & E5 & E6). unfold q_items, q_slot. by rewrite E1, E2, E3, E4, E6.
Qed.

Lemma same_data_wf m m' : same_data m m' -> queue_wf m -> queue_wf m'.
Proof.
  intros (E1 & E2 & E3 & E4 & E5 & E6) []. split; rewrite ?E1, ?E2, ?E3, ?E4, ?E5, ?E6; done.
Qed.

Section facts.
Context `{C : Config} {Cok : ConfigOk C}.
Implicit Types (s : kern).

Lemma kpass_queue a pl s m :
  pl = PRx a \/ pl = PTx a -> m_queues s !! a = Some m ->
  exists m', m_queues (kpass pl s) !! a = Some m' /\ same_data m m'.
Proof.
  intros Hpl E. unfold kpass.
  destruct (qlist (ring_of pl) s) as [|w ws]; [by exists m|].
  destruct (zget (g_tcbs s) w) as [tc|]; [|by exists m]. cbn [from_option]. unfold kwake.
  pose proof (kready_objs w tc (lpop (ring_of pl) s)) as [= _ _ E3]. rewrite E3. unfold lpop.
  destruct Hpl as [-> | ->]; cbn; rewrite E; cbn; rewrite lookup_alter_eq, E; by eexists.
Qed.

(** A wake-up takes the oldest waiter out of one queue, and puts it into
    the ready queue of its priority. *)
Lemma kpass_qlist out s pl :
  sched_inv out s -> place_state pl = HRT_BLOCKED ->
  qlist (ring_of pl) (kpass pl s) = List.tl (qlist (ring_of pl) s) /\
  forall w ws, qlist (ring_of pl) s = w :: ws ->
    exists tw, zget (g_tcbs s) w = Some tw /\ zget (g_tcbs (kpass pl s)) w = Some (tcb_ready tw) /\
               w ∈ qlist (rq_ring (prio tw)) (kpass pl s).
Proof.
  intros I Hpl. unfold kpass. destruct (qlist (ring_of pl) s) as [|w ws] eqn:Hw; [by rewrite Hw|].
  destruct (inv_head_tcb _ _ _ _ _ I Hw) as (tw & Htw & _). rewrite Htw. cbn [from_option]. split.
  - rewrite (kwake_qlist out s pl w ws tw) by done. rewrite decide_True by done.
    rewrite decide_False; [by rewrite app_nil_r|]. intros <-. done.
  - intros w' ws' [= <- <-]. exists tw. split_and!; [done| |].
    + rewrite kwake_tcbs by done. by rewrite decide_True.
    + change (rq_ring (prio tw)) with (ring_of (PReady (prio tw))).
      rewrite (kwake_qlist out s pl w ws tw) by done. rewrite (decide_True (P := PReady _ = _)) by done.
      apply elem_of_app. right. by apply list_elem_of_singleton.
Qed.

Lemma running_pass me s pl :
  running me s -> running me (kpass pl s).
Proof.
  intros R. unfold kpass. destruct (qlist (ring_of pl) s) as [|w ws] eqn:Hw; [done|].
  destruct (zget (g_tcbs s) w) as [tc|] eqn:Htc; [|done]. by eapply running_wake.
Qed.

Lemma running_set_queue me s a m m' :
  running me s -> m_queues s !! a = Some m -> rx m' = rx m -> tx m' = tx m ->
  running me (kset_queue a m' s).
Proof.
  intros R E H1 H2. eapply running_step; [exact R|by eapply inv_set_queue; [apply R|..]|done|done].
Qed.

End facts.

Section queue.
Context `{C : Config} {Cok : ConfigOk C} `{PL : PortLayer}.
Implicit Types (s : kern) (p : pstate).

(** C20: Sending, from a task and from an ISR. If the queue has room, the
    item is appended to the items it holds, byte for byte; the oldest
    waiting receiver, if there is one, leaves its wait queue and becomes
    ready; 0 is returned, and the task variant yields (the ISR variant
    requests a switch and reports it) exactly when a receiver was woken. A
    full queue gives -1 and is unchanged. *)
Theorem queue_send_spec n me s p a m item out :
  running me s -> m_queues s !! a = Some m -> queue_wf m ->
  Z.of_nat (length item) = item_size m ->
  if q_count m <? capacity m
  then exists s' m', m_queues s' !! a = Some m' /\ queue_wf m' /\ running me s' /\
    q_items m' = q_items m ++ [item] /\
    qlist (rx_ring a) s' = List.tl (qlist (rx_ring a) s) /\
    (forall w ws, qlist (rx_ring a) s = w :: ws ->
       exists tw, zget (g_tcbs s') w = Some tw /\ state tw = HRT_READY /\
                  w ∈ qlist (rq_ring (prio tw)) s') /\
    exec n (Queue.hrt_queue_try_send a item) s p
    = exec n ((if has_waiter (PRx a) s then hrt_yield else skip) ;; Ret 0) s'
        (crit_exit (crit_enter p)) /\
    exec n (Queue.hrt_queue_try_send_from_isr a item out) s p
    = Done (0, if out then Some (if has_waiter (PRx a) s then 1 else 0) else None) s'
        ((if has_waiter (PRx a) s then pend_switch else id) (crit_exit (crit_enter p)))
  else exec n (Queue.hrt_queue_try_send a item) s p = Done (-1) s (crit_exit (crit_enter p)) /\
       exec n (Queue.hrt_queue_try_send_from_isr a item out) s p
       = Done (-1, if out then Some 0 else None) s (crit_exit (crit_enter p)).
Proof.
  intros R E W Hlen. pose proof (run_inv _ _ R) as I.
  destruct (q_count m <? capacity m) eqn:Hc; btest.
  - destruct (q_enq_spec m item W Hc Hlen) as [W' Hit].
    assert (R1 : running me (kset_queue a (q_enq item m) s)) by by eapply running_set_queue.
    destruct (kpass_queue a (PRx a) _ _ (or_introl eq_refl) (kset_queue_lookup a (q_enq item m) s))
      as (m' & Em' & Hd).
    destruct (kpass_qlist [me] _ (PRx a) (run_inv _ _ R1) eq_refl) as [Hq Hw].
    rewrite (kset_queue_qlist a m (q_enq item m) s (PRx a)) in Hq, Hw by done.
    exists (ksend a item m s), m'. split_and!.
    + done.
    + by eapply same_data_wf.
    + by apply running_pass.
    + rewrite (same_data_items _ _ Hd). done.
    + exact Hq.
    + intros w ws Hws. destruct (Hw w ws Hws) as (tw & _ & H1 & H2). by exists (tcb_ready tw).
    + by apply (exec_try_send n [me]).
    + by apply (exec_try_send_isr n [me]).
  - split; [by eapply exec_try_send_full|].
    unfold Queue.hrt_queue_try_send_from_isr. xrun. erewrite exec_send_cs_full by done. by xrun.
Qed.

(** C21: Receiving, from a task and from an ISR. If the queue holds items,
    the oldest one is copied out and removed; the oldest waiting sender, if
    there is one, becomes ready; 0 is returned, and the task variant yields
    (the ISR variant requests a switch and reports it) exactly when a sender
    was woken. An empty queue gives -1 and is unchanged. *)
Theorem queue_recv_spec n me s p a m out :
  running me s -> m_queues s !! a = Some m -> queue_wf m ->
  match q_items m with
  | item :: rest => exists s' m', m_queues s' !! a = Some m' /\ queue_wf m' /\ running me s' /\
    q_items m' = rest /\ Z.of_nat (length item) = item_size m /\
    qlist (tx_ring a) s' = List.tl (qlist (tx_ring a) s) /\
    (forall w ws, qlist (tx_ring a) s = w :: ws ->
       exists tw, zget (g_tcbs s') w = Some tw /\ state tw = HRT_READY /\
                  w ∈ qlist (rq_ring (prio tw)) s') /\
    exec n (Queue.hrt_queue_try_recv a) s p
    = exec n ((if has_waiter (PTx a) s then hrt_yield else skip) ;; Ret (0, Some item)) s'
        (crit_exit (crit_enter p)) /\
    exec n (Queue.hrt_queue_try_recv_from_isr a out) s p
    = Done (0, Some item, if out then Some (if has_waiter (PTx a) s then 1 else 0) else None) s'
        ((if has_waiter (PTx a) s then pend_switch else id) (crit_exit (crit_enter p)))
  | [] => exec n (Queue.hrt_queue_try_recv a) s p = Done (-1, None) s (crit_exit (crit_enter p)) /\
          exec n (Queue.hrt_queue_try_recv_from_isr a out) s p
          = Done (-1, None, if out then Some 0 else None) s (crit_exit (crit_enter p))
  end.
Proof.
  intros R E W. pose proof (run_inv _ _ R) as I. destruct (0 <? q_count m) eqn:Hc; btest.
  - pose proof (q_items_size m W) as Hsz. rewrite (q_items_cons m W Hc) in Hsz |- *.
    apply Forall_cons in Hsz as [Hsz _]. pose proof (q_deq_wf m W Hc) as W'.
    assert (R1 : running me (kset_queue a (q_deq m) s)) by by eapply running_set_queue.
    destruct (kpass_queue a (PTx a) _ _ (or_intror eq_refl) (kset_queue_lookup a (q_deq m) s))
      as (m' & Em' & Hd).
    destruct (kpass_qlist [me] _ (PTx a) (run_inv _ _ R1) eq_refl) as [Hq Hw].
    rewrite (kset_queue_qlist a m (q_deq m) s (PTx a)) in Hq, Hw by done.
    exists (krecv a m s), m'. split_and!.
    + done.
    + by eapply same_data_wf.
    + by apply running_pass.
    + by rewrite (same_data_items _ _ Hd).
    + done.
    + exact Hq.
    + intros w ws Hws. destruct (Hw w ws Hws) as (tw & _ & H1 & H2). by exists (tcb_ready tw).
    + by apply (exec_try_recv n [me]).
    + by apply (exec_try_recv_isr n [me]).
  - assert (Hz : q_count m = 0) by (destruct W; lia). rewrite (proj2 (q_items_nil m W) Hz).
    split; [by eapply exec_try_recv_empty|].
    unfold Queue.hrt_queue_try_recv_from_isr. xrun. erewrite exec_recv_cs_empty by done. by xrun.
Qed.

End queue.

(** ** Blocking *)

Section blocking.
Context `{C : Config} {Cok : ConfigOk C} {PL : PortLayer} {SP : SwitchPort PL}.
Implicit Types (s : kern) (p : pstate).

Lemma send_blocking n me s p a m item :
  client_ok me s p -> m_queues s !! a = Some m -> Z.of_nat (length item) = item_size m ->
  if q_count m <? capacity m
  then exists s' p' m',
    (exec (S n) (Queue.hrt_queue_send a item) s p = Done 0 s' p' \/
     exec (S n) (Queue.hrt_queue_send a item) s p = Swapped (Ret 0) s' p' /\
     has_waiter (PRx a) s = true) /\
    m_queues s' !! a = Some m' /\ q_items m' = q_items m ++ [item]
  else exists s' p' m',
    exec (S n) (Queue.hrt_queue_send a item) s p
    = Swapped (Queue.hrt_queue_send a item) s' p' /\
    m_queues s' !! a = Some m' /\ q_items m' = q_items m /\
    qlist (tx_ring a) s' = qlist (tx_ring a) s ++ [me] /\ sched_inv [] s'.
Proof.
  intros Cl E Hlen. pose proof (proj2 (proj2 (cl_obj _ _ _ Cl)) a m E) as W.
  pose proof (cl_run _ _ _ Cl) as R. pose proof (run_inv _ _ R) as I.
  destruct (run_tcb _ _ R) as (tc & Htc & Hs). destruct (q_count m <? capacity m) eqn:Hc; btest.
  - destruct (q_enq_spec m item W Hc Hlen) as [W' Hit].
    destruct (kpass_queue a (PRx a) _ _ (or_introl eq_refl) (kset_queue_lookup a (q_enq item m) s))
      as (m' & Em' & Hd).
    assert (Hit' : q_items m' = q_items m ++ [item]) by (by rewrite (same_data_items _ _ Hd)).
    destruct (has_waiter (PRx a) s) eqn:Hw.
    + destruct (safe_ksend me s p (crit_exit (crit_enter p)) a m item) as [Cl' K];
        try done; [port_steps|]. destruct (run_tcb _ _ (cl_run _ _ _ Cl')) as (t' & Ht' & _).
      exists (kyield me t' (ksend a item m s)), (swap_out (pend_switch (crit_exit (crit_enter p)))), m'.
      split_and!; [right; split; [|done]| |done].
      * apply (exec_loop_swapped n (Queue.send_body a item) s p (Ret (Some 0))).
        unfold Queue.send_body. refine (exec_swap_bind _ _ _ _ _ (Ret 0) _ _ _).
        rewrite (exec_try_send (S n) [me] s p a m item) by done. rewrite Hw.
        apply running_yield; [apply Cl'|done|by eapply client_switch].
      * unfold kyield, lpush. by destruct (rget _ _).
    + exists (ksend a item m s), (crit_exit (crit_enter p)), m'. split_and!; [left|done|done].
      apply exec_loop_done. by apply (exec_send_body_ok (S n) [me] s p a m item).
  - assert (Hr : ring_ok (ring_of (PTx a)) s) by (eapply ring_ok_exists; [done|by eapply queue_tx_some]).
    assert (Hm : exists m', m_queues (kblock (PTx a) me tc s) !! a = Some m' /\ same_data m m').
    { unfold kblock, lpush. cbn. rewrite E. cbn. rewrite lookup_alter_eq, E. by eexists. }
    destruct Hm as (m' & Em' & Hd). do 2 eexists. exists m'. split_and!.
    + apply (exec_loop_swapped n (Queue.send_body a item) s p (Ret None)).
      rewrite (exec_send_body_full (S n) me s p a m item tc) by done. apply exec_hop.
      rewrite kblock_current, (run_cur _ _ R). pose proof (client_switch _ _ _ Cl). by auto 10 with hrt.
    + exact Em'.
    + by rewrite (same_data_items _ _ Hd).
    + change (tx_ring a) with (ring_of (PTx a)). rewrite kblock_qlist by done. by rewrite decide_True.
    + by apply kblock_inv.
Qed.

Lemma recv_blocking n me s p a m :
  client_ok me s p -> m_queues s !! a = Some m ->
  match q_items m with
  | item :: rest => exists s' p' m',
    (exec (S n) (Queue.hrt_queue_recv a) s p = Done (0, Some item) s' p' \/
     exec (S n) (Queue.hrt_queue_recv a) s p = Swapped (Ret (0, Some item)) s' p' /\
     has_waiter (PTx a) s = true) /\
    m_queues s' !! a = Some m' /\ q_items m' = rest
  | [] => exists s' p' m',
    exec (S n) (Queue.hrt_queue_recv a) s p = Swapped (Queue.hrt_queue_recv a) s' p' /\
    m_queues s' !! a = Some m' /\ q_items m' = [] /\
    qlist (rx_ring a) s' = qlist (rx_ring a) s ++ [me] /\ sched_inv [] s'
  end.
Proof.
  intros Cl E. pose proof (proj2 (proj2 (cl_obj _ _ _ Cl)) a m E) as W.
  pose proof (cl_run _ _ _ Cl) as R. pose proof (run_inv _ _ R) as I.
  destruct (run_tcb _ _ R) as (tc & Htc & Hs). destruct (0 <? q_count m) eqn:Hc; btest.
  - rewrite (q_items_cons m W Hc).
    destruct (kpass_queue a (PTx a) _ _ (or_intror eq_refl) (kset_queue_lookup a (q_deq m) s))
      as (m' & Em' & Hd).
    assert (Hit' : q_items m' = q_items (q_deq m)) by exact (same_data_items _ _ Hd).
    destruct (has_waiter (PTx a) s) eqn:Hw.
    + destruct (safe_krecv me s p (crit_exit (crit_enter p)) a m) as [Cl' K];
        try done; [port_steps|]. destruct (run_tcb _ _ (cl_run _ _ _ Cl')) as (t' & Ht' & _).
      exists (kyield me t' (krecv a m s)), (swap_out (pend_switch (crit_exit (crit_enter p)))), m'.
      split_and!; [right; split; [|done]| |done].
      * apply (exec_loop_swapped n (Queue.recv_body a) s p (Ret (Some (0, Some (q_slot m (q_head m)))))).
        unfold Queue.recv_body. refine (exec_swap_bind _ _ _ _ _ (Ret (0, Some _)) _ _ _).
        rewrite (exec_try_recv (S n) [me] s p a m) by done. rewrite Hw.
        apply running_yield; [apply Cl'|done|by eapply client_switch].
      * unfold kyield, lpush. by destruct (rget _ _).
    + exists (krecv a m s), (crit_exit (crit_enter p)), m'. split_and!; [left|done|done].
      apply exec_loop_done. by apply (exec_recv_body_ok (S n) [me] s p a m).
  - assert (Hz : q_count m = 0) by (destruct W; lia). rewrite (proj2 (q_items_nil m W) Hz).
    assert (Hr : ring_ok (ring_of (PRx a)) s) by (eapply ring_ok_exists; [done|by eapply queue_rx_some]).
    assert (Hm : exists m', m_queues (kblock (PRx a) me tc s) !! a = Some m' /\ same_data m m').
    { unfold kblock, lpush. cbn. rewrite E. cbn. rewrite lookup_alter_eq, E. by eexists. }
    destruct Hm as (m' & Em' & Hd). do 2 eexists. exists m'. split_and!.
    + apply (exec_loop_swapped n (Queue.recv_body a) s p (Ret None)).
      rewrite (exec_recv_body_empty (S n) me s p a m tc) by done. apply exec_hop.
      rewrite kblock_current, (run_cur _ _ R). pose proof (client_switch _ _ _ Cl). by auto 10 with hrt.
    + exact Em'.
    + rewrite (same_data_items _ _ Hd). by apply q_items_nil.
    + change (rx_ring a) with (ring_of (PRx a)). rewrite kblock_qlist by done. by rewrite decide_True.
    + by apply kblock_inv.
Qed.

(** The blocking send ends or waits, and never spins. With room in the
    queue it appends the item and returns 0, or gives up the processor to a
    receiver it woke with only its return left to do. On a full queue the
    caller becomes the last waiting sender and gives up the processor; the
    queue is unchanged, and what is left of the call is the call itself,
    which therefore tries again when the task is resumed. *)
Theorem queue_send_blocking n me s p a m item :
  client_ok me s p -> m_queues s !! a = Some m -> Z.of_nat (length item) = item_size m ->
  if q_count m <? capacity m
  then exists s' p' m',
    (exec (S n) (Queue.hrt_queue_send a item) s p = Done 0 s' p' \/
     exec (S n) (Queue.hrt_queue_send a item) s p = Swapped (Ret 0) s' p' /\
     has_waiter (PRx a) s = true) /\
    m_queues s' !! a = Some m' /\ q_items m' = q_items m ++ [item]
  else exists s' p' m',
    exec (S n) (Queue.hrt_queue_send a item) s p
    = Swapped (Queue.hrt_queue_send a item) s' p' /\
    m_queues s' !! a = Some m' /\ q_items m' = q_items m /\
    qlist (tx_ring a) s' = qlist (tx_ring a) s ++ [me] /\ sched_inv [] s'.
Proof. apply send_blocking. Qed.

End blocking.

(** ** Round trip *)

Section roundtrip.
Context `{C : Config} {Cok : ConfigOk C} `{PL : PortLayer}.
Implicit Types (s : kern) (p : pstate).

(** Send the items one after the other; receive [k] items. *)
Fixpoint send_all (a : Z) (items : list (list Z)) : prog unit :=
  match items with
  | [] => skip
  | it :: its => _ <- Queue.hrt_queue_try_send a it ;; send_all a its
  end.

Fixpoint recv_all (a : Z) (k : nat) : prog (list (list Z)) :=
  match k with
  | O => Ret []
  | S k' => r <- Queue.hrt_queue_try_recv a ;; rest <- recv_all a k' ;;
            Ret (match r.2 with Some it => it :: rest | None => rest end)
  end.

(** Nobody waits on the queue. *)
Definition quiet (a : Z) s : Prop := qlist (rx_ring a) s = [] /\ qlist (tx_ring a) s = [].

Lemma quiet_no_waiter a s :
  quiet a s -> has_waiter (PRx a) s = false /\ has_waiter (PTx a) s = false.
Proof. intros [H1 H2]. unfold has_waiter. cbn [ring_of]. by rewrite H1, H2. Qed.

Lemma quiet_set a s m m' :
  m_queues s !! a = Some m -> rx m' = rx m -> tx m' = tx m -> quiet a s ->
  quiet a (kset_queue a m' s) /\
  kpass (PRx a) (kset_queue a m' s) = kset_queue a m' s /\
  kpass (PTx a) (kset_queue a m' s) = kset_queue a m' s.
Proof.
  intros E H1 H2 [Q1 Q2]. pose proof (kset_queue_qlist a m m' s (PRx a) E H1 H2) as E1.
  pose proof (kset_queue_qlist a m m' s (PTx a) E H1 H2) as E2. cbn [ring_of] in E1, E2.
  unfold quiet, kpass. cbn [ring_of]. by rewrite E1, E2, Q1, Q2.
Qed.

Lemma exec_send_all n out a items s p m :
  sched_inv out s -> m_queues s !! a = Some m -> queue_wf m -> quiet a s ->
  q_count m + Z.of_nat (length items) <= capacity m ->
  Forall (fun it => Z.of_nat (length it) = item_size m) items ->
  exists s' p' m', exec n (send_all a items) s p = Done tt s' p' /\ sched_inv out s' /\
    m_queues s' !! a = Some m' /\ queue_wf m' /\ quiet a s' /\ q_items m' = q_items m ++ items.
Proof.
  revert s p m. induction items as [|it items IH]; intros s p m I E W Q Hc Hf.
  { exists s, p, m. rewrite app_nil_r. done. }
  apply Forall_cons in Hf as [Hit Hf]. cbn [length] in Hc.
  destruct (quiet_no_waiter a s Q) as [Hw _]. destruct (q_enq_spec m it W) as [W' Hi]; [lia|done|].
  destruct (quiet_set a s m (q_enq it m) E eq_refl eq_refl Q) as (Q' & Hp & _).
  assert (I' : sched_inv out (kset_queue a (q_enq it m) s)) by by eapply inv_set_queue.
  destruct (IH (kset_queue a (q_enq it m) s) (crit_exit (crit_enter p)) (q_enq it m) I')
    as (s' & p' & m' & Hx & Hr); [apply kset_queue_lookup|done|done|cbn; lia|exact Hf|].
  exists s', p', m'. split.
  - cbn [send_all]. erewrite exec_bind; [exact Hx|].
    rewrite (exec_try_send n out s p a m it) by (done || lia). rewrite Hw. unfold ksend.
    rewrite Hp. by xrun.
  - destruct Hr as (? & ? & ? & ? & Hr). split_and!; try done. rewrite Hr, Hi.
    by rewrite <- app_assoc.
Qed.

Lemma exec_try_recv_quiet n out a s p m :
  sched_inv out s -> m_queues s !! a = Some m -> queue_wf m -> quiet a s -> 0 < q_count m ->
  exec n (Queue.hrt_queue_try_recv a) s p
  = Done (0, Some (q_slot m (q_head m))) (kset_queue a (q_deq m) s) (crit_exit (crit_enter p)).
Proof.
  intros I E W Q Hc. destruct (quiet_no_waiter a s Q) as [_ Hw].
  destruct (quiet_set a s m (q_deq m) E eq_refl eq_refl Q) as (_ & _ & Hp).
  rewrite (exec_try_recv n out s p a m) by (done || lia). rewrite Hw. unfold krecv. by rewrite Hp.
Qed.

Lemma exec_recv_all n out a k s p m :
  sched_inv out s -> m_queues s !! a = Some m -> queue_wf m -> quiet a s ->
  Z.of_nat k <= q_count m ->
  exists s' p' m', exec n (recv_all a k) s p = Done (take k (q_items m)) s' p' /\
    m_queues s' !! a = Some m' /\ q_items m' = drop k (q_items m).
Proof.
  revert s p m. induction k as [|k IH]; intros s p m I E W Q Hc.
  { by exists s, p, m. }
  destruct (quiet_set a s m (q_deq m) E eq_refl eq_refl Q) as (Q' & _ & _).
  assert (I' : sched_inv out (kset_queue a (q_deq m) s)) by by eapply inv_set_queue.
  destruct (IH (kset_queue a (q_deq m) s) (crit_exit (crit_enter p)) (q_deq m) I')
    as (s' & p' & m' & Hx & Em & Hr);
    [apply kset_queue_lookup|apply q_deq_wf; [done|lia]|done|cbn; lia|].
  exists s', p', m'. rewrite (q_items_cons m W) by lia. split_and!; [|done|exact Hr].
  pose proof (exec_try_recv_quiet n out a s p m I E W Q ltac:(lia)) as Ht.
  cbn [recv_all]. rewrite (exec_bind _ _ _ _ _ _ _ _ Ht), (exec_bind _ _ _ _ _ _ _ _ Hx). by xrun.
Qed.

(** C22: First in, first out. On a queue nobody waits on, sending items that
    fit and then receiving everything yields the items it held followed by
    the items sent, in order and byte for byte, and leaves it empty. *)
Theorem queue_fifo_roundtrip n out a items s p m :
  sched_inv out s -> m_queues s !! a = Some m -> queue_wf m -> quiet a s ->
  q_count m + Z.of_nat (length items) <= capacity m ->
  Forall (fun it => Z.of_nat (length it) = item_size m) items ->
  exists s' p' m',
    exec n (send_all a items ;; recv_all a (length (q_items m) + length items)) s p
    = Done (q_items m ++ items) s' p' /\ m_queues s' !! a = Some m' /\ q_items m' = [].
Proof.
  intros I E W Q Hc Hf.
  destruct (exec_send_all n out a items s p m I E W Q Hc Hf)
    as (s1 & p1 & m1 & H1 & I1 & E1 & W1 & Q1 & Hi1).
  assert (Hk : length (q_items m1) = (length (q_items m) + length items)%nat)
    by (rewrite Hi1; apply length_app).
  destruct (exec_recv_all n out a (length (q_items m1)) s1 p1 m1 I1 E1 W1 Q1)
    as (s2 & p2 & m2 & H2 & E2 & Hi2).
  { by rewrite (q_items_count m1 W1). }
  exists s2, p2, m2. rewrite <- Hk. erewrite exec_bind by exact H1.
  rewrite firstn_all in H2. rewrite drop_all in Hi2. rewrite H2, Hi1. done.
Qed.

End roundtrip.

(** ** On the demonstration *)

Definition que_of (s : kern) : hrt_queue_t :=
  default (mkQueue [] 0 0 0 0 0 ring_empty ring_empty) (m_queues s !! QUE).

Lemma que_checked :
  queue_wf (que_of demo_run.1) /\ queue_wf (que_of demo_item.1) /\
  queue_wf (que_of demo_full.1) /\ queue_wf (que_of demo_reader.1).
Proof. split_and!; apply (bool_decide_unpack _); vm_compute; exact Logic.I. Qed.

(** Task 0 sends to task 1, which waits for an item. *)
Lemma queue_send_spec_witness :
  exists s' m', m_queues s' !! QUE = Some m' /\ q_items m' = [[9; 8; 7; 6]] /\ running 0 s'.
Proof.
  pose proof (queue_send_spec (PL := posix_port) 0 0 demo_reader.1 demo_reader.2 QUE
    (que_of demo_reader.1) [9; 8; 7; 6] true (cl_run _ _ _ demo_reader_ok)
    ltac:(vm_compute; reflexivity) (proj2 (proj2 (proj2 que_checked)))
    ltac:(vm_compute; reflexivity)) as H.
  assert (Hc : (q_count (que_of demo_reader.1) <? capacity (que_of demo_reader.1)) = true)
    by (vm_compute; reflexivity).
  assert (Hi : q_items (que_of demo_reader.1) = []) by (vm_compute; reflexivity).
  rewrite Hc, Hi in H. destruct H as (s' & m' & H1 & _ & H2 & H3 & _).
  exists s', m'. split; [exact H1|]. split; [exact H3|exact H2].
Defined.

(** Task 1 receives the item it sent. *)
Lemma queue_recv_spec_witness :
  exists s' m', m_queues s' !! QUE = Some m' /\ q_items m' = [] /\
    pexec 0 (Queue.hrt_queue_try_recv QUE) demo_item.1 demo_item.2
    = Done (0, Some [1; 2; 3; 4]) s' (posix_crit_exit (posix_crit_enter demo_item.2)).
Proof.
  pose proof (queue_recv_spec (PL := posix_port) 0 1 demo_item.1 demo_item.2 QUE
    (que_of demo_item.1) true (cl_run _ _ _ demo_item_ok)
    ltac:(vm_compute; reflexivity) (proj1 (proj2 que_checked))) as H.
  assert (Hi : q_items (que_of demo_item.1) = [[1; 2; 3; 4]]) by (vm_compute; reflexivity).
  assert (Hw : has_waiter (PTx QUE) demo_item.1 = false) by (vm_compute; reflexivity).
  rewrite Hi, Hw in H. destruct H as (s' & m' & H1 & _ & _ & H2 & _ & _ & _ & H3 & _).
  exists s', m'. split; [exact H1|]. split; [exact H2|]. rewrite H3. reflexivity.
Defined.

(** A third item does not fit: task 1 waits. *)
Lemma queue_send_blocking_witness :
  exists s' p', pexec 1 (Queue.hrt_queue_send QUE [0; 0; 0; 1]) demo_full.1 demo_full.2
    = Swapped (Queue.hrt_queue_send QUE [0; 0; 0; 1]) s' p' /\
    qlist (tx_ring QUE) s' = [1] /\ sched_inv [] s'.
Proof.
  pose proof (queue_send_blocking (PL := posix_port) 0 1 demo_full.1 demo_full.2 QUE
    (que_of demo_full.1) [0; 0; 0; 1] demo_full_ok ltac:(vm_compute; reflexivity)
    ltac:(vm_compute; reflexivity)) as H.
  assert (Hc : (q_count (que_of demo_full.1) <? capacity (que_of demo_full.1)) = false)
    by (vm_compute; reflexivity).
  assert (Hq : qlist (tx_ring QUE) demo_full.1 = []) by (vm_compute; reflexivity).
  rewrite Hc, Hq in H. destruct H as (s' & p' & m' & H1 & _ & _ & H2 & H3).
  exists s', p'. split; [exact H1|]. split; [exact H2|exact H3].
Defined.

Lemma queue_fifo_roundtrip_witness :
  exists s' p', pexec 0 (send_all QUE [[1; 1; 1; 1]; [2; 2; 2; 2]] ;; recv_all QUE 2)
      demo_run.1 demo_run.2 = Done [[1; 1; 1; 1]; [2; 2; 2; 2]] s' p'.
Proof.
  destruct (queue_fifo_roundtrip (PL := posix_port) 0 [1] QUE [[1; 1; 1; 1]; [2; 2; 2; 2]]
    demo_run.1 demo_run.2 (que_of demo_run.1)) as (s' & p' & m' & H & _).
  - exact (run_inv _ _ (cl_run _ _ _ demo_run_ok)).
  - vm_compute. reflexivity.
  - exact (proj1 que_checked).
  - split; vm_compute; reflexivity.
  - vm_compute. discriminate.
  - apply (bool_decide_unpack _). vm_compute. exact Logic.I.
  - assert (Hi : q_items (que_of demo_run.1) = []) by (vm_compute; reflexivity).
    rewrite Hi in H. exists s', p'. exact H.
Defined.
