(* ===== verification/CppProps.v ===== *)
(** * Properties of the C++ wrapper *)

From stdpp Require Import base tactics numbers list option gmap.
From S2P Require Import Prelude Types Prog Ring Core Sched Sem Mutex Queue PortPosix Cpp.
From S2P Require Import CoreFacts Inv SchedFacts InitFacts InvCheck SemFacts QueueFacts Running PosixFacts.
From S2P Require Import Api ApiSafe System Demo QueueProps.
Open Scope Z_scope.
Open Scope prog_scope.

(** ** Semaphores *)

Section semaphore.
Context `{C : Config} `{PL : PortLayer}.

(** What [Semaphore(init, max_count)] leaves: at most [max_count] tokens,
    and a binary semaphore for [max_count] below 2. *)
Definition constructed (init max_count : Z) (m : hrt_sem_t) : hrt_sem_t :=
  mkSem (Z.min (u32 init) (Z.max 1 (u8 max_count))) (Z.max 1 (u8 max_count))
    (mkRing (q (sem_waitq m)) 0 0 0).

Lemma exec_sem_init_counting n a init max s p m :
  m_sems s !! a = Some m -> 0 <= init < 2 ^ 32 -> 0 <= max < 256 ->
  exec n (Sem.hrt_sem_init_counting a init max) s p
  = Done tt (kset_sem a (mkSem (Z.min init (Z.max 1 max)) (Z.max 1 max)
      (mkRing (q (sem_waitq m)) 0 0 0)) s) p.
Proof.
  intros E Hi Hm. unfold Sem.hrt_sem_init_counting.
  replace (if max =? 0 then 1 else max) with (Z.max 1 max) by (destruct (Z.eqb_spec max 0); lia).
  rewrite (exec_sem_write _ _ _ _ _ _ m E).
  rewrite (exec_sem_write _ _ _ _ _ _ _ (kset_sem_lookup _ _ _)), kset_sem_twice.
  rewrite (exec_sem_write_last _ _ _ _ _ _ (kset_sem_lookup _ _ _)).
  f_equal. unfold Sem.reset_waitq, Sem.set_count, Sem.set_max_count. cbn [sem_count sem_max_count sem_waitq].
  rewrite kset_sem_twice. f_equal. f_equal. rewrite Z.gtb_ltb.
  destruct (Z.ltb_spec (Z.max 1 max) init); unfold u8; rewrite Z.mod_small; lia.
Qed.

Lemma exec_sem_init n a init s p m :
  m_sems s !! a = Some m -> 0 <= init < 2 ^ 32 ->
  exec n (Sem.hrt_sem_init a init) s p
  = Done tt (kset_sem a (mkSem (Z.min init 1) 1 (mkRing (q (sem_waitq m)) 0 0 0)) s) p.
Proof.
  intros E Hi. unfold Sem.hrt_sem_init.
  rewrite (exec_sem_write _ _ _ _ _ _ m E).
  rewrite (exec_sem_write _ _ _ _ _ _ _ (kset_sem_lookup _ _ _)), kset_sem_twice.
  rewrite (exec_sem_write_last _ _ _ _ _ _ (kset_sem_lookup _ _ _)).
  f_equal. unfold Sem.reset_waitq, Sem.set_count, Sem.set_max_count. cbn [sem_count sem_max_count sem_waitq].
  rewrite kset_sem_twice. f_equal. f_equal. destruct (Z.eqb_spec init 0); lia.
Qed.

(** The constructor of [Semaphore] is [hrt_sem_init_counting] on all of
    its arguments: the branch for binary semaphores changes nothing. Either
    way the semaphore has [max(1, max_count)] tokens at most, starts with
    [min(init, max(1, max_count))] of them and has no waiter. *)
Theorem semaphore_ctor_counting n this init max_count s p m :
  m_sems s !! this = Some m ->
  exec n (Semaphore.Semaphore this init max_count) s p
  = exec n (Sem.hrt_sem_init_counting this (u32 init) (u8 max_count)) s p /\
  exec n (Semaphore.Semaphore this init max_count) s p
  = Done tt (kset_sem this (constructed init max_count m) s) p.
Proof.
  intros E. pose proof (u32_range init) as Hi. pose proof (u8_range max_count) as Hm.
  rewrite (exec_sem_init_counting _ _ _ _ _ _ m) by (done || lia).
  unfold Semaphore.Semaphore, constructed. cbv zeta. destruct (Z.leb_spec (u8 max_count) 1).
  - rewrite (exec_sem_init _ _ _ _ _ m) by (done || lia). by rewrite Z.max_l by lia.
  - by rewrite (exec_sem_init_counting _ _ _ _ _ _ m) by (done || lia).
Qed.

End semaphore.

(** ** Typed queues *)

Section static_queue.
Context `{C : Config} {Cok : ConfigOk C} `{PL : PortLayer}.
Context {T : Type} `{OT : Object T} {TC : TriviallyCopyable T}.
Implicit Types (s : kern) (p : pstate).

(** [hrt_queue_t _q{}] before the constructor runs. *)
Definition queue_zero : hrt_queue_t := mkQueue [] 0 0 0 0 0 ring_empty ring_empty.

(** The queue [StaticQueue<T, Capacity>()] makes. *)
Definition queue_made (Capacity : Z) : hrt_queue_t :=
  mkQueue (replicate (Z.to_nat (Capacity * sizeof T)) 0) (sizeof T) (u16 Capacity) 0 0 0
    ring_empty ring_empty.

Lemma exec_static_queue n Capacity this s p :
  m_queues s !! this = Some queue_zero ->
  exec n (StaticQueue.StaticQueue (T := T) Capacity this) s p
  = if u16 Capacity =? 0 then Halted HAssert s p
    else Done tt (kset_queue this (queue_made Capacity) s) p.
Proof.
  intros E. pose proof (u16_range Capacity) as Hr. pose proof sizeof_pos as Hs.
  unfold StaticQueue.StaticQueue, Queue.hrt_queue_init, HRT_ASSERT. cbv zeta.
  destruct (Z.eqb_spec (u16 Capacity) 0) as [Hz|Hz]; [by rewrite Hz|]. zbool. xrun.
  unfold Queue.queue_write. erewrite exec_writes_last; [done|].
  unfold Queue.queue_upd. by rewrite E.
Qed.

Lemma queue_made_wf Capacity :
  0 < Capacity -> u16 Capacity <> 0 -> queue_wf (queue_made Capacity).
Proof.
  intros Hc Hz. pose proof (u16_range Capacity) as Hr. pose proof sizeof_pos as Hs.
  assert (Hle : u16 Capacity <= Capacity) by (apply Z.mod_le; lia).
  split; cbn; rewrite ?length_replicate; try nia. done.
Qed.

(** The constructor of [StaticQueue<T, Capacity>] narrows the capacity to
    16 bits, and nothing checks that it fits: a multiple of 65536 fails the
    assertion of [hrt_queue_init], any other [Capacity] makes a well-formed
    queue of [Capacity mod 65536] items over storage for [Capacity] items. *)
Theorem static_queue_capacity n Capacity this s p :
  0 < Capacity -> m_queues s !! this = Some queue_zero ->
  exec n (StaticQueue.StaticQueue (T := T) Capacity this) s p
  = (if u16 Capacity =? 0 then Halted HAssert s p
     else Done tt (kset_queue this (queue_made Capacity) s) p) /\
  (u16 Capacity <> 0 ->
   queue_wf (queue_made Capacity) /\ q_items (queue_made Capacity) = [] /\
   capacity (queue_made Capacity) = Capacity mod 65536 /\
   Z.of_nat (length (buf (queue_made Capacity))) = Capacity * sizeof T).
Proof.
  intros Hc E. split; [by apply exec_static_queue|]. intros Hz. pose proof sizeof_pos as Hs.
  split_and!; [by apply queue_made_wf|done|done|]. cbn. rewrite length_replicate. nia.
Qed.

(** Send the items; receive [k] items into [v]. *)
Fixpoint sends (this : Z) (xs : list T) : prog unit :=
  match xs with
  | [] => skip
  | x :: xs => _ <- StaticQueue.try_send this x ;; sends this xs
  end.

Fixpoint recvs (this : Z) (v : T) (k : nat) : prog (list T) :=
  match k with
  | O => Ret []
  | S k' => r <- StaticQueue.try_recv this v ;; rest <- recvs this r.2 k' ;;
            Ret (if r.1 =? 0 then r.2 :: rest else rest)
  end.

Lemma sends_bytes this xs : sends this xs = send_all this (to_bytes <$> xs).
Proof. induction xs as [|x xs IH]; [done|]. cbn. by rewrite IH. Qed.

Lemma exec_recvs n out a k v s p m :
  sched_inv out s -> m_queues s !! a = Some m -> queue_wf m -> quiet a s ->
  Z.of_nat k <= q_count m ->
  exists s' p', exec n (recvs a v k) s p = Done (of_bytes <$> take k (q_items m)) s' p'.
Proof.
  revert v s p m. induction k as [|k IH]; intros v s p m I E W Q Hc; [by exists s, p|].
  destruct (quiet_set a s m (q_deq m) E eq_refl eq_refl Q) as (Q' & _ & _).
  pose proof (exec_try_recv_quiet n out a s p m I E W Q ltac:(lia)) as Ht.
  assert (I' : sched_inv out (kset_queue a (q_deq m) s)) by by eapply inv_set_queue.
  destruct (IH (of_bytes (q_slot m (q_head m))) (kset_queue a (q_deq m) s) (crit_exit (crit_enter p))
    (q_deq m) I') as (s' & p' & Hx);
    [apply kset_queue_lookup|apply q_deq_wf; [done|lia]|done|cbn; lia|].
  exists s', p'. rewrite (q_items_cons m W) by lia. cbn [recvs].
  unfold StaticQueue.try_recv. rewrite bind_assoc, (exec_bind _ _ _ _ _ _ _ _ Ht). cbn.
  by rewrite (exec_bind _ _ _ _ _ _ _ _ Hx).
Qed.

(** C35: Typed round trip. A [StaticQueue<T, Capacity>] with a capacity that
    fits 16 bits, after its constructor, takes up to [Capacity] objects of
    any trivially copyable type, and gives them back as they were, in
    order: the item size of the queue, the size of [T] and the storage
    agree by construction. *)
Theorem static_queue_roundtrip n out Capacity this v xs s p :
  0 < Capacity < 65536 -> sched_inv out s -> m_queues s !! this = Some queue_zero ->
  Z.of_nat (length xs) <= Capacity -> Forall valid xs ->
  exists s' p',
    exec n (StaticQueue.StaticQueue (T := T) Capacity this ;;
            sends this xs ;; recvs this v (length xs)) s p = Done xs s' p'.
Proof.
  intros Hc I E Hl Hv.
  assert (Hu : u16 Capacity = Capacity) by (apply u16_id; lia).
  assert (W : queue_wf (queue_made Capacity)) by (apply queue_made_wf; lia).
  pose proof (exec_static_queue n Capacity this s p E) as Hx. rewrite (proj2 (Z.eqb_neq _ _)) in Hx by lia.
  assert (Q : quiet this (kset_queue this (queue_made Capacity) s)).
  { unfold quiet, qlist. cbn. by rewrite lookup_insert_eq. }
  destruct (exec_send_all n out this (to_bytes <$> xs) _ p (queue_made Capacity)
    (inv_set_queue out s this _ (queue_made Capacity) I E eq_refl eq_refl))
    as (s1 & p1 & m1 & H1 & I1 & E1 & W1 & Q1 & Hi1);
    [apply kset_queue_lookup|done|done|cbn; rewrite length_fmap; lia| |].
  { apply Forall_fmap, Forall_forall. intros x _. apply to_bytes_length. }
  assert (Hn : q_items m1 = to_bytes <$> xs) by exact Hi1.
  destruct (exec_recvs n out this (length xs) v s1 p1 m1 I1 E1 W1 Q1) as (s2 & p2 & H2).
  { rewrite <- (q_items_count m1 W1), Hn, length_fmap. lia. }
  exists s2, p2. rewrite (exec_bind _ _ _ _ _ _ _ _ Hx), sends_bytes, (exec_bind _ _ _ _ _ _ _ _ H1), H2.
  f_equal. rewrite Hn, firstn_all2 by (rewrite length_fmap; lia). rewrite <- list_fmap_compose.
  rewrite <- (list_fmap_id xs) at 2. apply list_fmap_ext. intros i x Hx'. cbn.
  apply of_to_bytes. by eapply Forall_lookup_1.
Qed.

End static_queue.

(** ** On the demonstration *)

Lemma semaphore_ctor_counting_witness :
  exec (H := Posix.posix_port) 0 (Semaphore.Semaphore SEM 7 5) demo_run.1 demo_run.2
  = @Done Posix.posix_port unit tt (kset_sem SEM (mkSem 5 5 (mkRing (q (sem_waitq (mkSem 1 3 ring_empty))) 0 0 0)) demo_run.1)
      demo_run.2.
Proof.
  destruct (semaphore_ctor_counting (PL := Posix.posix_port) 0 SEM 7 5 demo_run.1 demo_run.2
    (mkSem 1 3 ring_empty)) as [_ H]; [vm_compute; reflexivity|]. exact H.
Defined.

(** A kernel state with a queue that is not constructed yet. *)
Definition cpp_state : kern := set_queues {[QUE := queue_zero]} demo_run.1.

Lemma static_queue_capacity_witness :
  exec (H := Posix.posix_port) 0 (StaticQueue.StaticQueue (T := Z) 65536 QUE) cpp_state demo_run.2
  = @Halted Posix.posix_port unit HAssert cpp_state demo_run.2.
Proof.
  destruct (static_queue_capacity (PL := Posix.posix_port) (T := Z) 0 65536 QUE cpp_state demo_run.2)
    as [H _]; [done|vm_compute; reflexivity|]. exact H.
Defined.

Lemma cpp_state_inv : sched_inv [1] cpp_state.
Proof. apply inv_check_sound. vm_compute. reflexivity. Qed.

Lemma static_queue_roundtrip_witness :
  exists s' p',
    exec (H := Posix.posix_port) 0 (StaticQueue.StaticQueue (T := Z) 3 QUE ;;
      sends QUE [70000; 1; 4294967295] ;; recvs QUE 0 3) cpp_state demo_run.2
    = @Done Posix.posix_port (list Z) [70000; 1; 4294967295] s' p'.
Proof.
  apply (static_queue_roundtrip (PL := Posix.posix_port) 0 [1] 3 QUE 0 [70000; 1; 4294967295]
    cpp_state demo_run.2).
  - done.
  - exact cpp_state_inv.
  - vm_compute. reflexivity.
  - done.
  - repeat (apply Forall_cons_2; [split; vm_compute; (discriminate || reflexivity)|]). apply Forall_nil_2.
Defined.
