(* ===== verification/SystemProps.v ===== *)
(** * Properties of the system as a whole

    Safety of every call and of every handler, and what holds in every
    reachable state of the POSIX system: it does not crash, no task is
    lost, and the scheduler does not nap while there is work. *)

From stdpp Require Import base tactics numbers list option gmap relations.
From S2P Require Import Prelude Types Prog Ring Core Sched Sem Mutex Queue PortPosix.
From S2P Require Import CoreFacts Inv SchedFacts InitFacts SemFacts MutexFacts.
From S2P Require Import QueueFacts Running PosixFacts Api ApiSafe ApiCalls ApiTheorem.
From S2P Require Import IsrSafe PickFacts System Demo TickFacts.
Open Scope Z_scope.
Open Scope prog_scope.
Import Posix.

(** ** Calls and handlers *)

Section calls.
Context `{C : Config} {Cok : ConfigOk C} {PL : PortLayer} {SP : SwitchPort PL}.
Implicit Types (s : kern) (p : pstate) (me : Z).

(** Every API call a task makes is safe, over every port that switches
    ([SwitchPort]) and in a build that does not stall on errors. It
    returns to the task, which still runs, or gives up the processor with
    a switch requested, the invariant of the scheduler restored and
    nothing left to do but to return or to retry the call; it never
    faults, stalls or spins; semaphores, mutexes and queues stay well
    formed and none appears or disappears. *)
Theorem api_call_safe n me s p c :
  HARDRT_STALL_ON_ERROR = false -> running me s -> objects_ok s -> switch_ok s p -> api_pre s c ->
  match exec (S n) (api_prog c) s p with
  | Done _ s' p' => running me s' /\ objects_ok s' /\ switch_ok s' p' /\ shape s' = shape s
  | Swapped k s' p' =>
      sched_inv [] s' /\ parked me s' /\ objects_ok s' /\ switch_ok s' p' /\ pending p' /\
      shape s' = shape s /\ resumable s k
  | _ => False
  end.
Proof.
  intros Hst R O P Hpre. assert (Cl : client_ok me s p) by by split.
  pose proof (api_safe n me s p c Hst Cl Hpre) as H.
  destruct (exec (S n) (api_prog c) s p); try done. by destruct H as [[R' O' P'] E].
Qed.

(** C13: Every API call terminates. In a running task with its objects in
    place, a call ends after at most one pass of every loop in it, whatever
    the fuel: it returns or gives up the processor. When the task runs
    again, in whatever state the others have left, what is left of the call
    ends as well within one pass, so a call that waits does so in the
    scheduler only: it never spins, neither before nor after a wait. *)
Theorem api_call_terminates n me s p c :
  HARDRT_STALL_ON_ERROR = false -> running me s -> objects_ok s -> switch_ok s p -> api_pre s c ->
  ended (exec 1 (api_prog c) s p) = true /\
  exec (S n) (api_prog c) s p = exec 1 (api_prog c) s p /\
  forall k s' p', exec 1 (api_prog c) s p = Swapped k s' p' ->
  forall s2 p2, shape s2 = shape s -> running me s2 -> objects_ok s2 -> switch_ok s2 p2 ->
    ended (exec 1 k s2 p2) = true /\ exec (S n) k s2 p2 = exec 1 k s2 p2.
Proof.
  intros Hst R O P Hpre. assert (Cl : client_ok me s p) by by split.
  pose proof (api_safe 0 me s p c Hst Cl Hpre) as H.
  split; [by eapply outcome_ended|]. split; [by eapply api_fuel|].
  intros k s' p' E s2 p2 Hsh R2 O2 P2. rewrite E in H. destruct H as (_ & _ & _ & _ & _ & _ & Hk).
  apply (resumable_shape _ s2) in Hk; [|done]. assert (Cl2 : client_ok me s2 p2) by by split.
  split; [by eapply outcome_ended, rest_safe|by eapply rest_fuel].
Qed.

(** Every interrupt handler of the kernel (the tick, the external tick,
    and the [_from_isr] variants of the semaphore and queue calls) is safe
    at any point between two calls, whoever runs: it returns, keeps the
    invariant of the scheduler and the objects, does not change who runs
    nor the state of the running task, and requests a switch whenever it
    makes a task ready. *)
Theorem isr_safe n held s p h :
  HARDRT_STALL_ON_ERROR = false -> sched_inv held s -> awake held s -> objects_ok s ->
  isr_pre s h ->
  exists s' p', exec n (isr_prog h) s p = Done tt s' p' /\
    sched_inv held s' /\ objects_ok s' /\ g_current s' = g_current s /\
    (forall i, i ∈ held -> state <$> zget (g_tcbs s') i = state <$> zget (g_tcbs s) i) /\
    (forall i, is_ready s' i -> is_ready s i \/ pending p').
Proof.
  intros Hst I Ha Ho Hpre. pose proof (isr_all_safe n held s p h Hst I Ha Ho Hpre) as H.
  destruct (exec n (isr_prog h) s p) as [[] s' p'| | |]; try done.
  destruct H as (I' & [Hc Hh] & (O & _) & Hpd). exists s', p'. split_and!; try done; [by apply O|].
  intros i Hi. destruct Hpd as [Hpd|Hpd]; [by right|left; by apply Hpd].
Qed.

End calls.

(** ** Reachable states *)

Section reachable.
Context `{C : Config} {Cok : ConfigOk C}.
Hypothesis Hstall : HARDRT_STALL_ON_ERROR = false.

(** The task that has the processor, if any. *)
Definition runs (sg : sys) (i : Z) : Prop :=
  match s_mode sg with InTask me _ | Resume me _ _ => i = me | _ => False end.

(** C1: Safety of the system on the POSIX port. From [hrt_init] on, tasks
    that make arbitrary calls (with the documented preconditions), ticks
    and interrupt handlers in any order between the calls, and the
    scheduler loop never reach a fault, a stall or a spin; the objects
    stay well formed and every task that may run has a context. *)
Theorem system_never_crashes sg0 sg :
  initial sg0 -> rtc step sg0 sg ->
  (forall h, s_mode sg <> Crashed h) /\ objects_ok (s_kern sg) /\
  switch_ok (PL := posix_port) (s_kern sg) (s_port sg).
Proof.
  intros H0 Hr. destruct (reachable_inv Hstall sg0 sg H0 Hr) as [Hm Ho Hp _ _].
  split_and!; [|done|done]. intros h Hh. by rewrite Hh in Hm.
Qed.

Lemma runs_running sg me : sys_inv sg -> runs sg me -> running me (s_kern sg).
Proof.
  intros Hi Hr. pose proof (si_mode _ Hi) as Hm. unfold runs in Hr.
  destruct (s_mode sg); try done; subst; [done|apply Hm].
Qed.

(** The bookkeeping respects the types of its declarations: the integers
    the kernel computes are in the ranges of their C types, every array has
    its length, and every index into an array is inside of it. *)
Definition u8_t (z : Z) : Prop := 0 <= z < 2 ^ 8.
Definition u16_t (z : Z) : Prop := 0 <= z < 2 ^ 16.
Definition u32_t (z : Z) : Prop := 0 <= z < 2 ^ 32.
Definition i16_t (z : Z) : Prop := - 2 ^ 15 <= z < 2 ^ 15.
Definition task_id (z : Z) : Prop := 0 <= z < HARDRT_MAX_TASKS.

Definition tcb_typed (tc : _hrt_tcb_t) : Prop :=
  u32_t (wake_tick tc) /\ u16_t (timeslice_cfg tc) /\ u16_t (slice_left tc) /\ u8_t (prio tc) /\
  (state tc <> HRT_UNUSED -> prio tc < HARDRT_MAX_PRIO).

Definition ring_typed (r : ring) : Prop :=
  Z.of_nat (length (q r)) = HARDRT_MAX_TASKS /\ task_id (head r) /\ task_id (tail r) /\
  u8_t (count r) /\ count r <= HARDRT_MAX_TASKS /\ Forall task_id (ring_list r).

Definition sem_typed (m : hrt_sem_t) : Prop :=
  u8_t (sem_count m) /\ u8_t (sem_max_count m) /\ sem_count m <= sem_max_count m.
Definition mutex_typed (m : hrt_mutex_t) : Prop :=
  (mtx_locked m = 0 /\ mtx_owner m = -1) \/ (mtx_locked m = 1 /\ task_id (mtx_owner m) /\ i16_t (mtx_owner m)).
Definition queue_typed (m : hrt_queue_t) : Prop :=
  u16_t (capacity m) /\ u16_t (q_head m) /\ u16_t (q_tail m) /\ u16_t (q_count m) /\
  q_head m < capacity m /\ q_tail m < capacity m /\ q_count m <= capacity m /\
  capacity m * item_size m <= Z.of_nat (length (buf m)).

Record kern_typed (s : kern) : Prop := {
  kt_tcbs : Z.of_nat (length (g_tcbs s)) = HARDRT_MAX_TASKS;
  kt_tcb i tc : zget (g_tcbs s) i = Some tc -> tcb_typed tc;
  kt_scalars : u32_t (g_tick s) /\ u32_t (g_tick_hz s) /\ u16_t (g_default_slice s);
  kt_rq : Z.of_nat (length (g_rq s)) = HARDRT_MAX_PRIO;
  kt_ring pl r : rget (ring_of pl) s = Some r -> ring_typed r;
  kt_sems : map_Forall (fun _ => sem_typed) (m_sems s);
  kt_mutexes : map_Forall (fun _ => mutex_typed) (m_mutexes s);
  kt_queues : map_Forall (fun _ => queue_typed) (m_queues s)
}.

Lemma inv_ring_typed held s pl r :
  sched_inv held s -> rget (ring_of pl) s = Some r -> ring_typed r.
Proof.
  intros I E. destruct (bwf_ring _ (inv_base _ _ I) _ _ E) as [Hl Hh Hc Ht].
  pose proof max_tasks_u8. pose proof max_tasks_prio. pose proof max_prio_range.
  unfold ring_typed, task_id, u8_t. split_and!; try lia.
  - rewrite Ht. apply Z.mod_pos_bound. lia.
  - rewrite Ht. apply Z.mod_pos_bound. lia.
  - pose proof (inv_valid _ _ pl I) as Hv. unfold qlist in Hv. by rewrite E in Hv.
Qed.

Lemma objects_typed s :
  objects_ok s -> map_Forall (fun _ => sem_typed) (m_sems s) /\
  map_Forall (fun _ => mutex_typed) (m_mutexes s) /\ map_Forall (fun _ => queue_typed) (m_queues s).
Proof.
  pose proof max_tasks_u8. intros (Hs & Hm & Hq). split_and!; intros a m E.
  - destruct (Hs a m E) as [H1 H2 _]. cbn in H1, H2. unfold sem_typed, u8_t. lia.
  - destruct (Hm a m E) as [[[H1 H2]|[H1 H2]] _]; [by left|right]. unfold task_id, i16_t. lia.
  - destruct (Hq a m E) as [H1 H2 H3 H4 H5 H6]. unfold queue_typed, u16_t.
    assert (0 <= q_tail m < capacity m) by (rewrite H5; apply Z.mod_pos_bound; lia). lia.
Qed.

(** C12: The bookkeeping of the kernel stays within its C types. In every
    reachable state of the POSIX system the tick counter, the tick rate and
    the default slice, the wake-up time, the slices and the priority of
    every TCB, the counts of the semaphores, the lock and the owner of the
    mutexes, and the capacity, the indices and the count of the message
    queues are in the ranges of their declared types; the arrays keep their
    lengths, the heads and tails of all FIFO queues index their arrays, the
    ids stored in them index the task table, the priority of a task in use
    indexes the ready queues, and the storage of a message queue covers its
    capacity. While a task has the processor, [g_current] is its id and
    indexes the task table. Addresses, the core frequency and the bytes of
    messages, which the kernel stores and hands back, are not covered. *)
Theorem state_well_typed sg0 sg :
  initial sg0 -> rtc step sg0 sg ->
  kern_typed (s_kern sg) /\ forall me, runs sg me -> g_current (s_kern sg) = me /\ task_id me.
Proof.
  intros H0 Hr. pose proof (reachable_inv Hstall sg0 sg H0 Hr) as Hi. split.
  2: { intros me R%runs_running; [|done]. split; [apply R|]. by eapply running_valid. }
  destruct (mode_held sg Hi) as (held & I & _). destruct (bwf_kern _ (inv_base _ _ I)) as [K1 K2 K3 K4 K5 K6].
  destruct (objects_typed (s_kern sg)) as (O1 & O2 & O3); [apply Hi|].
  split; try done.
  - intros i tc Htc. destruct (inv_tcb_wf _ _ _ _ I Htc). unfold tcb_typed, u32_t, u16_t, u8_t. split_and!; try done; try lia.
    intros Hu. apply (inv_prio _ _ I i tc Htc Hu).
  - intros pl r E. by eapply inv_ring_typed.
Qed.

Lemma reachable_held sg0 sg :
  initial sg0 -> rtc step sg0 sg ->
  exists held, sched_inv held (s_kern sg) /\ (forall i, i ∈ held <-> runs sg i) /\
    forall i, i ∈ held -> is_ready (s_kern sg) i.
Proof.
  intros H0 Hr. destruct (reachable_inv Hstall sg0 sg H0 Hr) as [Hm _ _ _ _].
  unfold runs. destruct (s_mode sg) as [| |me old|me old k|h]; cbn in Hm; [| | | |done].
  1,2: exists []; split_and!; [done| |by intros i ?%not_elem_of_nil]; intros i;
    split; [apply not_elem_of_nil|done].
  1: rename Hm into R. 2: destruct Hm as [R _].
  all: exists [me]; split_and!; [apply R|intros i; apply list_elem_of_singleton|].
  all: intros i ->%list_elem_of_singleton; apply R.
Qed.

(** C2: No task is ever lost or duplicated. In every reachable state of the
    system, a ready task that does not run is in the ready queue of its
    priority; a blocked task is in a waiter queue; the running task and
    sleeping and unused slots are in no queue; and no task is in two
    queues or twice in one. *)
Theorem no_task_lost sg0 sg :
  initial sg0 -> rtc step sg0 sg ->
  (forall i tc, zget (g_tcbs (s_kern sg)) i = Some tc ->
     match state tc with
     | HRT_READY => runs sg i \/ i ∈ qlist (rq_ring (prio tc)) (s_kern sg)
     | HRT_BLOCKED =>
         exists pl, place_state pl = HRT_BLOCKED /\ i ∈ qlist (ring_of pl) (s_kern sg)
     | HRT_SLEEP | HRT_UNUSED => forall pl, i ∉ qlist (ring_of pl) (s_kern sg)
     end) /\
  (forall i pl, runs sg i -> i ∉ qlist (ring_of pl) (s_kern sg)) /\
  (forall pl, NoDup (qlist (ring_of pl) (s_kern sg))) /\
  (forall i pl pl', i ∈ qlist (ring_of pl) (s_kern sg) -> i ∈ qlist (ring_of pl') (s_kern sg) ->
     pl = pl').
Proof.
  intros H0 Hr. destruct (reachable_held sg0 sg H0 Hr) as (held & I & Hh & Hrd). set (s := s_kern sg) in *.
  split_and!; [|intros i pl Hi; by apply (inv_out _ _ I), Hh|apply I|intros; by eapply (inv_disj _ _ I)].
  intros i tc Htc.
  assert (Hq : forall pl, i ∈ qlist (ring_of pl) s ->
    state tc = place_state pl /\ forall pr, pl = PReady pr -> prio tc = pr).
  { intros pl Hi. destruct (inv_in _ _ I pl i Hi) as (tc' & Htc' & Hi').
    fold s in Htc'. rewrite Htc in Htc'. by injection Htc' as <-. }
  assert (Hc : state tc = HRT_READY \/ state tc = HRT_BLOCKED -> runs sg i \/
    exists pl, place_state pl = state tc /\ i ∈ qlist (ring_of pl) s).
  { intros Hs. destruct (decide (i ∈ held)) as [|Hn]; [left; by apply Hh|].
    right. by apply (inv_complete _ _ I). }
  destruct (state tc) eqn:Hs.
  - destruct Hc as [|(pl & Hpl & Hi)]; [by left|by left|right].
    destruct (Hq pl Hi) as [_ Hp]. destruct pl; try done. by rewrite (Hp _ eq_refl).
  - intros pl Hi. destruct (Hq pl Hi) as [Hx _]. by destruct pl.
  - destruct Hc as [Hi|Hb]; [by right| |done]. apply Hh, Hrd in Hi as (tc' & Htc' & Hs').
    fold s in Htc'. congruence.
  - intros pl Hi. destruct (Hq pl Hi) as [Hx _]. by destruct pl.
Qed.

(** C7: The scheduler is work-conserving: no wake-up is lost. In every
    reachable state in which the scheduler loop runs and some task is
    ready, its next iteration dispatches a ready task, and none of a more
    urgent priority is ready. *)
Theorem scheduler_work_conserving sg0 sg b y ty :
  initial sg0 -> rtc step sg0 sg -> s_mode sg = InSched -> g_test_stop (s_port sg) = false ->
  zget (g_tcbs (s_kern sg)) y = Some ty -> state ty = HRT_READY ->
  exists x tx, step sg (after_iteration b sg) /\ runs (after_iteration b sg) x /\
    zget (g_tcbs (s_kern sg)) x = Some tx /\ state tx = HRT_READY /\ prio tx <= prio ty /\
    g_current (s_kern (after_iteration b sg)) = x.
Proof.
  intros H0 Hr Em Hts Hty Hsy. destruct (reachable_inv Hstall sg0 sg H0 Hr) as [Hm _ Hp _ Hw].
  rewrite Em in Hm. cbn in Hm. specialize (Hw Em y (ex_intro _ ty (conj Hty Hsy))).
  pose proof (iteration_spec (s_kern sg) (s_port sg) Hm Hp) as Hs.
  pose proof (step_sched sg b Em) as Hstep. revert Hstep. unfold after_iteration, runs.
  destruct (sched_iteration (s_kern sg) (s_port sg)) as [[[| |x old|h] s'] p']; intros Hstep.
  - destruct Hs as (_ & _ & Ht & _). congruence.
  - destruct Hs as (_ & _ & Hn). destruct (ready_found _ y Hm); [by exists ty|by apply Hn].
  - destruct Hs as (pr & Hf & _ & R & _).
    destruct (first_ready_highest _ _ _ _ _ Hm Hf Hty Hsy) as (tx & Htx & Hsx & Hle).
    exists x, tx. split_and!; try done; [|apply R]. cbn. unfold resume_mode.
    by destruct (s_conts sg !! x).
  - done.
Qed.

End reachable.

(** ** On the demonstration *)

(** A sleep of a task while another one waits for the mutex it owns. *)
Lemma api_call_safe_witness :
  match pexec 1 (api_prog (CUnlock MTX)) demo_owner.1 demo_owner.2 with
  | Done _ s' p' => running 1 s'
  | Swapped k s' p' => sched_inv [] s' /\ parked 1 s' /\ resumable demo_owner.1 k
  | _ => False
  end.
Proof.
  destruct demo_owner_ok as [R O P].
  pose proof (api_call_safe 0 1 demo_owner.1 demo_owner.2 (CUnlock MTX) eq_refl R O P
    ltac:(vm_compute; eexists; reflexivity)) as H.
  destruct (pexec 1 _ _ _); [exact (proj1 H)| |exact H|exact H].
  destruct H as (H1 & H2 & _ & _ & _ & _ & H3). exact (conj H1 (conj H2 H3)).
Defined.

(** A send to a full queue gives up the processor, and tries again in the
    state in which the receiver has made room. *)
Lemma api_call_terminates_witness :
  (if pexec 1 (api_prog (CSend QUE [0; 0; 0; 1])) demo_full.1 demo_full.2 is Swapped _ _ _
   then true else false) = true /\
  pexec 100 (api_prog (CSend QUE [0; 0; 0; 1])) demo_full.1 demo_full.2 =
  pexec 1 (api_prog (CSend QUE [0; 0; 0; 1])) demo_full.1 demo_full.2.
Proof.
  split; [vm_compute; reflexivity|]. destruct demo_full_ok as [R O P].
  pose proof (api_call_terminates (PL := posix_port) (C := default_config) 99 1 demo_full.1
    demo_full.2 (CSend QUE [0; 0; 0; 1]) eq_refl R O P
    ltac:(vm_compute; eexists; split; reflexivity)) as H.
  exact (proj1 (proj2 H)).
Defined.

(** A semaphore given by an interrupt while task 0 runs and task 1 waits. *)
Lemma isr_safe_witness :
  exists s' p', pexec 0 (isr_prog (IGive SEM true)) demo_busy.1 demo_busy.2 = Done tt s' p' /\
    sched_inv [0] s'.
Proof.
  destruct demo_busy_ok as [R O P].
  destruct (isr_safe (C := default_config) (PL := posix_port) (SP := posix_switches) 0 [0] demo_busy.1 demo_busy.2
    (IGive SEM true) eq_refl (run_inv _ _ R) (running_awake _ _ R) O
    ltac:(vm_compute; eexists; reflexivity)) as (s' & p' & H1 & H2 & _).
  exists s', p'. exact (conj H1 H2).
Defined.

(** A run: [main] creates two tasks and starts the scheduler. *)
Definition demo_sys0 : sys := mkSys demo_inited.1 demo_inited.2 InMain ∅.

Definition sys_create (fn stack : Z) (attr : hrt_task_attr_t) (sg : sys) : sys :=
  after_create sg
    (exec 0 (hrt_create_task fn 0 stack 64 (Some attr)) (s_kern sg) (s_port sg)).

Definition demo_sys1 : sys := sys_create 16 32768 attr1 demo_sys0.
Definition demo_sys2 : sys := sys_create 32 36864 attr0 demo_sys1.
Definition demo_sys3 : sys := after_start demo_sys2 (exec 0 hrt_start (s_kern demo_sys2) (s_port demo_sys2)).
Definition demo_sys4 : sys := after_iteration false demo_sys3.
Definition demo_sys5 : sys :=
  let r := exec 1 (api_prog (CSleep 3)) (s_kern demo_sys4) (s_port demo_sys4) in
  after_call 1 false (forget_new (CSleep 3) r (s_conts demo_sys4)) r.

Lemma demo_initial : initial demo_sys0.
Proof.
  unfold demo_sys0. eapply (init_sys None demo_objects posix_boot demo_inited.1 demo_inited.2).
  - exact demo_objects_idle.
  - exact demo_objects_ok.
  - exact Logic.I.
  - vm_compute. reflexivity.
  - vm_compute. reflexivity.
Qed.

Lemma demo_steps4 : rtc step demo_sys0 demo_sys4.
Proof.
  apply rtc_l with demo_sys1.
  { unfold demo_sys1, sys_create. apply step_create; [reflexivity|].
    split; [|vm_compute; discriminate]. vm_compute. repeat split; discriminate. }
  apply rtc_l with demo_sys2.
  { unfold demo_sys2, sys_create. apply step_create; [vm_compute; reflexivity|].
    split; [|vm_compute; discriminate]. vm_compute. repeat split; discriminate. }
  apply rtc_l with demo_sys3.
  { unfold demo_sys3. apply step_start. vm_compute. reflexivity. }
  apply rtc_once. unfold demo_sys4. apply step_sched. vm_compute. reflexivity.
Qed.

Lemma demo_steps : rtc step demo_sys0 demo_sys5.
Proof.
  transitivity demo_sys4; [exact demo_steps4|]. apply rtc_once.
  unfold demo_sys5. apply (step_call demo_sys4 1 false (CSleep 3) 0); [|exact Logic.I].
  vm_compute. reflexivity.
Qed.

Lemma system_never_crashes_witness :
  rtc step demo_sys0 demo_sys5 /\ (forall h, s_mode demo_sys5 <> Crashed h).
Proof.
  split; [exact demo_steps|].
  exact (proj1 (system_never_crashes eq_refl demo_sys0 demo_sys5 demo_initial demo_steps)).
Defined.

Lemma state_well_typed_witness :
  Forall (fun pr => ring_typed (default ring_empty (rget (rq_ring pr) (s_kern demo_sys5)))) [0; 1; 2; 3].
Proof.
  pose proof (kt_ring _ (proj1 (state_well_typed eq_refl demo_sys0 demo_sys5 demo_initial demo_steps))) as H.
  repeat apply Forall_cons_2; [..|apply Forall_nil_2].
  - apply (H (PReady 0)). vm_compute. reflexivity.
  - apply (H (PReady 1)). vm_compute. reflexivity.
  - apply (H (PReady 2)). vm_compute. reflexivity.
  - apply (H (PReady 3)). vm_compute. reflexivity.
Defined.

(** Task 0 is ready; it does not run, so it is queued. *)
Lemma no_task_lost_witness :
  s_mode demo_sys5 = InSched /\ NoDup (qlist (rq_ring 1) (s_kern demo_sys5)).
Proof.
  split; [vm_compute; reflexivity|].
  exact (proj1 (proj2 (proj2 (no_task_lost eq_refl demo_sys0 demo_sys5 demo_initial demo_steps))) (PReady 1)).
Defined.

(** Task 1 sleeps: the next iteration dispatches a task, as task 0 is ready. *)
Lemma scheduler_work_conserving_witness :
  exists x tx, step demo_sys5 (after_iteration false demo_sys5) /\
    runs (after_iteration false demo_sys5) x /\
    zget (g_tcbs (s_kern demo_sys5)) x = Some tx /\ prio tx <= 1.
Proof.
  destruct (scheduler_work_conserving (C := default_config) eq_refl demo_sys0 demo_sys5 false 0
    (tcb_of 0 (s_kern demo_sys5)) demo_initial demo_steps) as (x & tx & H1 & H2 & H3 & _ & H4 & _);
    [vm_compute; reflexivity..|].
  exists x, tx. assert (E : prio (tcb_of 0 (s_kern demo_sys5)) = 1) by (vm_compute; reflexivity).
  rewrite E in H4. exact (conj H1 (conj H2 (conj H3 H4))).
Defined.
