(* ===== verification/PipeFacts.v ===== *)
(** * Queues under an application

    What the calls of tasks, the scheduler and the tick do to the items of
    a queue, to the functions of the tasks and to what is left of the
    calls of switched-out tasks. *)

From stdpp Require Import base tactics numbers list option gmap relations.
From S2P Require Import Prelude Types Prog Ring Core Sched Sem Mutex Queue PortPosix.
From S2P Require Import CoreFacts Inv SchedFacts InitFacts QueueFacts Running PosixFacts.
From S2P Require Import Api ApiSafe ApiCalls ApiTheorem IsrSafe System App AppFacts.
From S2P Require Import Frame QueueProps.
Open Scope Z_scope.
Open Scope prog_scope.
Import Posix.

(** ** Observations *)

(** The items of queue [a], oldest first. *)
Definition items_of (a : Z) (s : kern) : option (list (list Z)) := q_items <$> m_queues s !! a.

(** The function and the argument of each slot of the task table. *)
Definition entries (s : kern) : list (Z * Z) := (fun tc => (entry tc, arg tc)) <$> g_tcbs s.

#[export] Instance items_frame a : Frame (items_of a).
Proof. done. Qed.
#[export] Instance items_frame_tcbs a : FrameTcbs (items_of a).
Proof. done. Qed.
#[export] Instance items_frame_sems a : FrameSems (items_of a).
Proof. done. Qed.
#[export] Instance items_frame_waiters a : FrameWaiters (items_of a).
Proof.
  split; intros b r s; unfold items_of; cbn;
    (destruct (decide (b = a)) as [->|]; [|by rewrite lookup_alter_ne]);
    rewrite lookup_alter_eq; by destruct (m_queues s !! a).
Qed.

#[export] Instance entries_frame : Frame entries.
Proof.
  split; try done. intros i tc tc' l s Hg Hz [= _ _ _ He Ha _ _]. unfold entries, set_tcbs. cbn.
  pose proof (zget_Some _ _ _ Hg) as Hr. rewrite zset_Some in Hz by done. injection Hz as <-.
  rewrite list_fmap_insert, He, Ha. apply list_insert_id. rewrite list_lookup_fmap.
  unfold zget in Hg. destruct (i <? 0); [done|]. by rewrite Hg.
Qed.
#[export] Instance entries_frame_sems : FrameSems entries.
Proof. done. Qed.
#[export] Instance entries_frame_queues : FrameQueues entries.
Proof. done. Qed.
#[export] Instance entries_frame_waiters : FrameWaiters entries.
Proof. done. Qed.

Lemma entries_lookup s i tc : zget (g_tcbs s) i = Some tc -> zget (entries s) i = Some (entry tc, arg tc).
Proof.
  unfold zget, entries. destruct (i <? 0); [done|]. intros H. by rewrite list_lookup_fmap, H.
Qed.

(** ** What is left of the call of a task *)

Definition cont_of (sg : sys) (i : Z) : option (prog api_res) :=
  match s_mode sg with
  | Resume me _ k => if decide (me = i) then Some k else s_conts sg !! i
  | _ => s_conts sg !! i
  end.

Section facts.
Context `{C : Config} {Cok : ConfigOk C}.

Lemma cont_env isrs sg sg' i :
  env_step isrs sg sg' -> sys_inv sg' -> cont_of sg' i = cont_of sg i.
Proof.
  intros He Hi. pose proof (si_mode _ Hi) as Hm. destruct He as [sg b Em|sg _ _|sg h _ _ _].
  - clear Hm Hi. unfold cont_of. rewrite Em. unfold after_iteration.
    destruct (sched_iteration _ _) as [[[| |x old|h] s'] p']; try done. cbn. unfold resume_mode.
    destruct (s_conts sg !! x) as [k|] eqn:Hk; destruct (decide (x = i)) as [->|];
      rewrite ?lookup_delete_eq, ?lookup_delete_ne by done; congruence.
  - unfold after_isr in *. by destruct (_tick_sighandler _ _).
  - unfold after_isr in *. by destruct (exec (H := posix_port) _ _ _ _).
Qed.

(** After a call of task [me]. *)
Lemma cont_after_call me old conts s r :
  api_outcome (PL := posix_port) me s r ->
  (forall i, i <> me -> cont_of (after_call me old conts r) i = conts !! i) /\
  match r with Swapped k _ _ => cont_of (after_call me old conts r) me = Some k | _ => True end.
Proof.
  destruct r as [v s' p'|k s' p'|h s' p'|s' p']; cbn; try done.
  intros (I & Hpk & _). unfold sched_return. rewrite (parked_entry me s' p') by done.
  unfold cont_of. cbn. split; [|by rewrite lookup_insert_eq].
  intros i Hi. by rewrite lookup_insert_ne.
Qed.

Lemma conts_task sg me old i : s_mode sg = InTask me old -> cont_of sg i = s_conts sg !! i.
Proof. unfold cont_of. by intros ->. Qed.

Lemma conts_resume sg me old k i :
  s_mode sg = Resume me old k -> i <> me -> cont_of sg i = s_conts sg !! i.
Proof. unfold cont_of. intros -> Hi. by rewrite decide_False. Qed.

(** ** The calls *)

Context (a : Z).
Implicit Types (s : kern) (p : posix).

(** The items of the queue after a call, and what is left of it. *)
Definition send_post (item : list Z) (its : list (list Z)) (r : result (H := posix_port) api_res) : Prop :=
  match r with
  | Done _ s' _ => items_of a s' = Some (its ++ [item])
  | Swapped k s' _ =>
      (returns k /\ items_of a s' = Some (its ++ [item])) \/
      (k = api_prog (CSend a item) /\ items_of a s' = Some its)
  | _ => False
  end.

Definition recv_post (its : list (list Z)) (r : result (H := posix_port) api_res) : Prop :=
  match r with
  | Done v s' _ => exists it, v = (0, Some it) /\
      exists rest, its = it :: rest /\ items_of a s' = Some rest
  | Swapped k s' _ =>
      (exists it rest, k = Ret (0, Some it) /\ its = it :: rest /\ items_of a s' = Some rest) \/
      (k = api_prog (CRecv a) /\ items_of a s' = Some its)
  | _ => False
  end.

(** A call that does not concern the queue. *)
Definition quiet_post (its : list (list Z)) (r : result (H := posix_port) api_res) : Prop :=
  match r with
  | Done _ s' _ => items_of a s' = Some its
  | Swapped k s' _ => returns k /\ items_of a s' = Some its
  | _ => False
  end.

Lemma items_Some s its : items_of a s = Some its -> exists m, m_queues s !! a = Some m /\ q_items m = its.
Proof. unfold items_of. intros (m & Hm & ->)%fmap_Some. by exists m. Qed.

Lemma items_queue s m : m_queues s !! a = Some m -> items_of a s = Some (q_items m).
Proof. unfold items_of. by intros ->. Qed.

Lemma send_call n me s p item its :
  client_ok (PL := posix_port) me s p -> items_of a s = Some its -> api_pre s (CSend a item) ->
  send_post item its (exec (S n) (api_prog (CSend a item)) s p).
Proof.
  intros Cl Hi (m & E & Hl). rewrite (items_queue _ _ E) in Hi. injection Hi as <-.
  pose proof (send_blocking (PL := posix_port) n me s p a m item Cl E Hl) as H.
  cbn [api_prog]. unfold int_call. destruct (q_count m <? capacity m).
  - destruct H as (s' & p' & m' & [Hx|[Hx _]] & Em & Hit).
    + rewrite (exec_bind _ _ _ _ _ _ _ _ Hx). cbn. by rewrite (items_queue _ _ Em), Hit.
    + rewrite (exec_swap_bind _ _ _ _ _ _ _ _ Hx). left. split; [by eexists|].
      by rewrite (items_queue _ _ Em), Hit.
  - destruct H as (s' & p' & m' & Hx & Em & Hit & _).
    rewrite (exec_swap_bind _ _ _ _ _ _ _ _ Hx). right. split; [done|].
    by rewrite (items_queue _ _ Em), Hit.
Qed.

Lemma recv_call n me s p its :
  client_ok (PL := posix_port) me s p -> items_of a s = Some its ->
  recv_post its (exec (S n) (api_prog (CRecv a)) s p).
Proof.
  intros Cl (m & E & <-)%items_Some.
  pose proof (recv_blocking (PL := posix_port) n me s p a m Cl E) as H.
  change (recv_post (q_items m) (exec (H := posix_port) (S n) (Queue.hrt_queue_recv a) s p)).
  destruct (q_items m) as [|it rest].
  - destruct H as (s' & p' & m' & -> & Em & Hit & _). right. split; [done|].
    by rewrite (items_queue _ _ Em), Hit.
  - destruct H as (s' & p' & m' & [-> | [-> _]] & Em & Hit).
    + exists it. split; [done|]. exists rest. by rewrite (items_queue _ _ Em), Hit.
    + left. exists it, rest. by rewrite (items_queue _ _ Em), Hit.
Qed.

Lemma quiet_call n me s p c its :
  api_post (PL := posix_port) returns me s p (exec n c s p) -> keeps_of (items_of a) c ->
  items_of a s = Some its -> quiet_post its (exec n c s p).
Proof.
  intros Hp Hk Hi. pose proof (exec_obs n c s p Hk) as Ho. rewrite Hi in Ho.
  destruct (exec (H := posix_port) n c s p); try done. cbn in *. by destruct Hp as (_ & _ & _ & _ & Hr).
Qed.

Lemma sleep_quiet n me s p ms its :
  client_ok (PL := posix_port) me s p -> items_of a s = Some its ->
  quiet_post its (exec n (void_call (hrt_sleep ms)) s p).
Proof.
  intros Cl Hi. eapply quiet_call; [by apply safe_sleep| |done]. unfold void_call. keep.
Qed.

Lemma delete_quiet n me s p its :
  client_ok (PL := posix_port) me s p -> items_of a s = Some its ->
  quiet_post its (exec n (void_call hrt_task_delete) s p).
Proof.
  intros Cl Hi. eapply quiet_call; [by apply safe_delete| |done]. unfold void_call. keep.
Qed.

End facts.
