(* ===== verification/PipeProps.v ===== *)
(** * The producer and the consumer of queue_posix

    End to end: what the consumer prints is what the producer sent, in
    order, whatever the scheduler and the tick do. *)

From stdpp Require Import base tactics numbers list option gmap relations strings.
From S2P Require Import Prelude Types Prog Ring Core Sched Sem Mutex Queue PortPosix Info Cpp.
From S2P Require Import CoreFacts Inv SchedFacts InitFacts QueueFacts Running PosixFacts.
From S2P Require Import Api ApiSafe ApiCalls ApiTheorem IsrSafe System App AppFacts.
From S2P Require Import Frame QueueProps PipeFacts Examples ExamplesCpp ExampleProps.
Open Scope Z_scope.
Import Posix.

(** ** What is printed *)

Definition printed (fmt : string) (o : out) : option Z :=
  match o with
  | Printf f [AInt v] => if decide (f = fmt) then Some v else None
  | _ => None
  end.

Definition sent_values (l : list out) : list Z := omap (printed "[producer] sent %u") l.
Definition got_values (l : list out) : list Z := omap (printed "[consumer] got  %u") l.

(** The values [m], [m + 1], ..., [n - 1] of a 32-bit counter. *)
Definition cnt (n : nat) : Z := u32 (Z.of_nat n).
Definition counted (m n : nat) : list Z := cnt <$> seq m (n - m).

Lemma counted_nil n : counted n n = [].
Proof. unfold counted. by rewrite Nat.sub_diag. Qed.

Lemma counted_snoc m n : (m <= n)%nat -> counted m (S n) = counted m n ++ [cnt n].
Proof.
  intros H. unfold counted. replace (S n - m)%nat with ((n - m) + 1)%nat by lia.
  rewrite seq_app, fmap_app. cbn. by replace (m + (n - m))%nat with n by lia.
Qed.

Lemma counted_cons m n : (m < n)%nat -> counted m n = cnt m :: counted (S m) n.
Proof. intros H. unfold counted. replace (n - m)%nat with (S (n - S m)) by lia. done. Qed.

Lemma cnt_succ n : u32 (cnt n + 1) = cnt (S n).
Proof. unfold cnt, u32. rewrite Zplus_mod_idemp_l. f_equal. lia. Qed.

(** ** The points of the two tasks *)

Section points.
Context `{C : Config}.

Abbreviation q := QueuePosix.q_u32.

Definition p_sleep (v : Z) : app unit unit :=
  ACall (void_call (hrt_sleep 200)) (fun _ => AForever QueuePosix.producer_body (u32 (v + 1))).
Definition p_print (v : Z) : app unit unit :=
  AOut (Printf "[producer] sent %u" [AInt v]) (p_sleep v).
Definition p_send (v : Z) : app unit unit :=
  ACall (api_prog (CSend q (u32_bytes v))) (fun _ => p_print v).

(** [n] items are in the queue or were, [j] are reported. *)
Inductive producer_at : nat -> nat -> option (tstate unit) -> option (prog api_res) -> Prop :=
  | pa_new k : producer_at 0 0 None k
  | pa_head n k : producer_at n n (Some (Running (AForever QueuePosix.producer_body (cnt n)))) k
  | pa_send n k : producer_at n n (Some (Running (p_send (cnt n)))) k
  | pa_wait n : producer_at n n (Some (Calling (fun _ => p_print (cnt n))))
                  (Some (api_prog (CSend q (u32_bytes (cnt n)))))
  | pa_sent n r : producer_at (S n) n (Some (Calling (fun _ => p_print (cnt n)))) (Some (Ret r))
  | pa_print n k : producer_at (S n) n (Some (Running (p_print (cnt n)))) k
  | pa_sleep n k : producer_at (S n) (S n) (Some (Running (p_sleep (cnt n)))) k
  | pa_slept n r : producer_at (S n) (S n)
      (Some (Calling (fun _ => AForever QueuePosix.producer_body (u32 (cnt n + 1))))) (Some (Ret r)).

Definition c_sleep (v : Z) : app unit unit :=
  ACall (void_call (hrt_sleep 500)) (fun _ => AForever QueuePosix.consumer_body v).
Definition c_print (v : Z) : app unit unit :=
  AOut (Printf "[consumer] got  %u" [AInt v]) (c_sleep v).
Definition c_recv (v : Z) : app unit unit :=
  ACall (api_prog (CRecv q)) (fun r => c_print (QueueRef.received v r.2)).

(** The items taken out of the queue and not yet reported. *)
Inductive consumer_at : list (list Z) -> option (tstate unit) -> option (prog api_res) -> Prop :=
  | ca_new k : consumer_at [] None k
  | ca_head v k : consumer_at [] (Some (Running (AForever QueuePosix.consumer_body v))) k
  | ca_recv v k : consumer_at [] (Some (Running (c_recv v))) k
  | ca_wait v : consumer_at [] (Some (Calling (fun r => c_print (QueueRef.received v r.2))))
                  (Some (api_prog (CRecv q)))
  | ca_got v it : consumer_at [it] (Some (Calling (fun r => c_print (QueueRef.received v r.2))))
                    (Some (Ret (0, Some it)))
  | ca_print it k : consumer_at [it] (Some (Running (c_print (bytes_u32 it)))) k
  | ca_sleep v k : consumer_at [] (Some (Running (c_sleep v))) k
  | ca_slept v r : consumer_at [] (Some (Calling (fun _ => AForever QueuePosix.consumer_body v)))
                     (Some (Ret r)).

(** Any other task has nothing to do but to go. *)
Inductive other_at : option (tstate unit) -> option (prog api_res) -> Prop :=
  | oa_new k : other_at None k
  | oa_delete k : other_at (Some (Running (vcall hrt_task_delete))) k
  | oa_gone r : other_at (Some (Calling (fun _ => ARet tt))) (Some (Ret r))
  | oa_end k : other_at (Some (Running (ARet tt))) k.

(** ** Their own steps *)

Lemma producer_local n j c k g c' g' o :
  producer_at n j (Some (Running c)) k -> local_step c g = Some (c', g', o) ->
  exists j', producer_at n j' (Some (Running c')) k /\ sent_values o = counted j j' /\
             got_values o = [] /\ (j <= j')%nat.
Proof.
  intros Hp Hl. remember (Some (Running c)) as t eqn:Et. destruct Hp as [|n k|n k|n|n r|n k|n k|n r];
    try done; injection Et as <-; cbn in Hl; try done; injection Hl as <- <- <-.
  - exists n. rewrite counted_nil. split_and!; [apply pa_send|done|done|done].
  - exists (S n). rewrite counted_snoc, counted_nil by lia. split_and!; [apply pa_sleep|done|done|lia].
Qed.

Lemma consumer_local infl c k g c' g' o :
  consumer_at infl (Some (Running c)) k -> local_step c g = Some (c', g', o) ->
  exists infl', consumer_at infl' (Some (Running c')) k /\ sent_values o = [] /\
    ((infl' = infl /\ got_values o = []) \/
     exists it, infl = [it] /\ infl' = [] /\ got_values o = [bytes_u32 it]).
Proof.
  intros Hp Hl. remember (Some (Running c)) as t eqn:Et. destruct Hp as [|v k|v k|v|v it|it k|v k|v r];
    try done; injection Et as <-; cbn in Hl; try done; injection Hl as <- <- <-.
  - exists []. split_and!; [apply ca_recv|done|by left].
  - exists []. split_and!; [apply ca_sleep|done|]. right. by exists it.
Qed.

Lemma other_local c k g c' g' o :
  other_at (Some (Running c)) k -> local_step c g = Some (c', g', o) -> False.
Proof.
  intros Hp Hl. remember (Some (Running c)) as t eqn:Et.
  destruct Hp; try done; injection Et as <-; done.
Qed.

(** ** Their calls *)

Context {Cok : ConfigOk C}.
Implicit Types (s : kern) (p : posix) (its : list (list Z)).

(** [k']: what is left of the call after [r]. *)
Definition left_of (r : result (H := posix_port) api_res) (k' : option (prog api_res)) : Prop :=
  match r with Swapped k _ _ => k' = Some k | _ => True end.

Abbreviation after r := (final_kern (H := posix_port) r).

Lemma producer_send n f me s p its k' :
  client_ok (PL := posix_port) me s p -> items_of q s = Some its ->
  api_pre s (CSend q (u32_bytes (cnt n))) ->
  let r := exec (S f) (api_prog (CSend q (u32_bytes (cnt n)))) s p in
  left_of r k' ->
  exists n', producer_at n' n (Some (after_return (fun _ => p_print (cnt n)) r)) k' /\ (n <= n')%nat /\
    items_of q (after r) = Some (its ++ (u32_bytes <$> counted n n')).
Proof.
  intros Cl Hi Hp r Hk. pose proof (send_call q f me s p _ its Cl Hi Hp) as H. fold r in H.
  destruct r as [v s' p'|k s' p'|h s' p'|s' p']; cbn in H, Hk |- *; try done.
  - exists (S n). rewrite counted_snoc, counted_nil by lia. split_and!; [apply pa_print|lia|done].
  - subst k'. destruct H as [[[w ->] Hit]|[-> Hit]].
    + exists (S n). rewrite counted_snoc, counted_nil by lia. split_and!; [apply pa_sent|lia|done].
    + exists n. rewrite counted_nil, app_nil_r. split_and!; [apply pa_wait|lia|done].
Qed.

(** A call of the producer, and its resumption. *)
Lemma producer_call n j c kk k0 f me s p its k' :
  producer_at n j (Some (Running (ACall c kk))) k0 ->
  client_ok (PL := posix_port) me s p -> items_of q s = Some its ->
  (forall b, Z.of_nat (length b) = 4 -> api_pre s (CSend q b)) ->
  let r := exec (S f) c s p in left_of r k' ->
  exists n', producer_at n' j (Some (after_return kk r)) k' /\ (n <= n')%nat /\
    items_of q (after r) = Some (its ++ (u32_bytes <$> counted n n')).
Proof.
  intros Hp Cl Hi Hpre. remember (Some (Running (ACall c kk))) as t eqn:Et.
  destruct Hp as [|n k|n k|n|n r|n k|n k|n r]; try done; injection Et as <- <-; intros r Hk.
  - by eapply producer_send; [..|by apply Hpre|].
  - pose proof (sleep_quiet q (S f) me s p 200 its Cl Hi) as H. fold r in H.
    exists (S n). rewrite counted_nil, app_nil_r.
    destruct r as [v s' p'|k1 s' p'|h s' p'|s' p']; cbn in H, Hk |- *; try done.
    + rewrite cnt_succ. split_and!; [apply pa_head|lia|done].
    + subst k'. destruct H as [[w ->] Hit]. split_and!; [apply pa_slept|lia|done].
Qed.

Lemma producer_resume n j kk k f me s p its k' :
  producer_at n j (Some (Calling kk)) (Some k) ->
  client_ok (PL := posix_port) me s p -> items_of q s = Some its ->
  (forall b, Z.of_nat (length b) = 4 -> api_pre s (CSend q b)) ->
  let r := exec (S f) k s p in left_of r k' ->
  exists n', producer_at n' j (Some (after_return kk r)) k' /\ (n <= n')%nat /\
    items_of q (after r) = Some (its ++ (u32_bytes <$> counted n n')).
Proof.
  intros Hp Cl Hi Hpre. remember (Some (Calling kk)) as t eqn:Et. remember (Some k) as t' eqn:Et'.
  destruct Hp as [|n k0|n k0|n|n r|n k0|n k0|n r]; try done; injection Et as <-; injection Et' as <-;
    intros r0 Hk.
  - by eapply producer_send; [..|by apply Hpre|].
  - exists (S n). rewrite counted_nil, app_nil_r. split_and!; [apply pa_print|lia|done].
  - exists (S n). rewrite counted_nil, app_nil_r. subst r0. cbn. rewrite cnt_succ.
    split_and!; [apply pa_head|lia|done].
Qed.

Lemma consumer_recv v f me s p its k' :
  client_ok (PL := posix_port) me s p -> items_of q s = Some its ->
  let r := exec (S f) (api_prog (CRecv q)) s p in
  left_of r k' ->
  exists infl' its',
    consumer_at infl' (Some (after_return (fun r => c_print (QueueRef.received v r.2)) r)) k' /\
    items_of q (after r) = Some its' /\ its = infl' ++ its'.
Proof.
  intros Cl Hi r Hk. pose proof (recv_call q f me s p its Cl Hi) as H. fold r in H.
  destruct r as [w s' p'|k s' p'|h s' p'|s' p']; cbn in H, Hk |- *; try done.
  - destruct H as (it & -> & rest & -> & Hit). exists [it], rest. split_and!; [apply ca_print|done|done].
  - subst k'. destruct H as [(it & rest & -> & -> & Hit)|[-> Hit]].
    + exists [it], rest. split_and!; [apply ca_got|done|done].
    + exists [], its. split_and!; [apply ca_wait|done|done].
Qed.

Lemma consumer_call infl c kk k0 f me s p its k' :
  consumer_at infl (Some (Running (ACall c kk))) k0 ->
  client_ok (PL := posix_port) me s p -> items_of q s = Some its ->
  let r := exec (S f) c s p in left_of r k' ->
  exists infl' its', consumer_at infl' (Some (after_return kk r)) k' /\
    items_of q (after r) = Some its' /\ infl ++ its = infl' ++ its'.
Proof.
  intros Hp Cl Hi. remember (Some (Running (ACall c kk))) as t eqn:Et.
  destruct Hp as [|v k|v k|v|v it|it k|v k|v r]; try done; injection Et as <- <-; intros r Hk.
  - by eapply consumer_recv.
  - pose proof (sleep_quiet q (S f) me s p 500 its Cl Hi) as H. fold r in H. exists [], its.
    destruct r as [w s' p'|k1 s' p'|h s' p'|s' p']; cbn in H, Hk |- *; try done.
    + split_and!; [apply ca_head|done|done].
    + subst k'. destruct H as [[w ->] Hit]. split_and!; [apply ca_slept|done|done].
Qed.

Lemma consumer_resume infl kk k f me s p its k' :
  consumer_at infl (Some (Calling kk)) (Some k) ->
  client_ok (PL := posix_port) me s p -> items_of q s = Some its ->
  let r := exec (S f) k s p in left_of r k' ->
  exists infl' its', consumer_at infl' (Some (after_return kk r)) k' /\
    items_of q (after r) = Some its' /\ infl ++ its = infl' ++ its'.
Proof.
  intros Hp Cl Hi. remember (Some (Calling kk)) as t eqn:Et. remember (Some k) as t' eqn:Et'.
  destruct Hp as [|v k0|v k0|v|v it|it k0|v k0|v r]; try done; injection Et as <-; injection Et' as <-;
    intros r0 Hk.
  - by eapply consumer_recv.
  - exists [it], its. split_and!; [apply ca_print|done|done].
  - exists [], its. split_and!; [apply ca_head|done|done].
Qed.

Lemma other_call c kk k0 f me s p its k' :
  other_at (Some (Running (ACall c kk))) k0 ->
  client_ok (PL := posix_port) me s p -> items_of q s = Some its ->
  let r := exec (S f) c s p in left_of r k' ->
  other_at (Some (after_return kk r)) k' /\ items_of q (after r) = Some its.
Proof.
  intros Hp Cl Hi. remember (Some (Running (ACall c kk))) as t eqn:Et.
  destruct Hp; try done; injection Et as <- <-; intros r0 Hk.
  pose proof (delete_quiet q (S f) me s p its Cl Hi) as H. fold r0 in H.
  destruct r0 as [w s' p'|k1 s' p'|h s' p'|s' p']; cbn in H, Hk |- *; try done.
  - split; [apply oa_end|done].
  - subst k'. destruct H as [[w ->] Hit]. split; [apply oa_gone|done].
Qed.

Lemma other_resume kk k f s p its k' :
  other_at (Some (Calling kk)) (Some k) -> items_of q s = Some its ->
  let r := exec (S f) k s p in left_of r k' ->
  other_at (Some (after_return kk r)) k' /\ items_of q (after r) = Some its.
Proof.
  intros Hp Hi. remember (Some (Calling kk)) as t eqn:Et. remember (Some k) as t' eqn:Et'.
  destruct Hp; try done; injection Et as <-; injection Et' as <-; intros r0 Hk.
  split; [apply oa_end|done].
Qed.

(** A task that makes the call [c], or goes on with what is left of it. *)
Inductive runs_call : tstate unit -> option (prog api_res) -> prog api_res ->
    (api_res -> app unit unit) -> Prop :=
  | rc_call c kk k0 : runs_call (Running (ACall c kk)) k0 c kk
  | rc_resume c kk : runs_call (Calling kk) (Some c) c kk.

(** None of the calls changes the function of a task. *)
Lemma role_keeps t k c kk :
  runs_call t k c kk ->
  ((exists n j, producer_at n j (Some t) k) \/ (exists infl, consumer_at infl (Some t) k) \/
   other_at (Some t) k) ->
  keeps_of entries c.
Proof.
  assert (Hsend : forall b, keeps_of entries (api_prog (CSend q b)))
    by (intros b; cbn [api_prog]; unfold int_call; keep).
  assert (Hrecv : keeps_of entries (api_prog (CRecv q))) by (cbn [api_prog]; keep).
  assert (Hsleep : forall ms, keeps_of entries (void_call (hrt_sleep ms)))
    by (intros ms; unfold void_call; keep).
  assert (Hdel : keeps_of entries (void_call hrt_task_delete)) by (unfold void_call; keep).
  intros [c' kk' k0|c' kk'] [(n & j & H)|[[infl H]|H]]; inversion H; subst;
    solve [apply Hsend | exact Hrecv | apply Hsleep | exact Hdel | exact Logic.I].
Qed.

End points.

(** ** The invariant *)

Section pipe.
Context `{C : Config} {Cok : ConfigOk C} (main : app unit Z) (objs : kern) (s0 : kern).
Hypothesis Hstall : HARDRT_STALL_ON_ERROR = false.

Abbreviation q := QueuePosix.q_u32.
Abbreviation after r := (final_kern (H := posix_port) r).

(** The C and the C++ program have the same tasks. *)
Definition pipe_program : program :=
  mkProgram unit tt objs (code_table QueuePosix.producer QueuePosix.consumer) main no_isr.

Hypothesis Hcode : forall fn argp, code_ok s0 (p_code pipe_program fn argp).
Hypothesis Hitem : forall b, Z.of_nat (length b) = 4 -> api_pre s0 (CSend q b).
Hypothesis Hentry0 : forall e, zget (entries s0) 0 = Some e -> e.1 = FN1.
Hypothesis Hentry1 : forall e, zget (entries s0) 1 = Some e -> e.1 = FN2.
Hypothesis Hentry : forall i e, i <> 0 -> i <> 1 -> zget (entries s0) i = Some e ->
  e.1 <> FN1 /\ e.1 <> FN2.

Record pipe_at (x : asys unit) (n j m : nat) (infl its : list (list Z)) : Prop := {
  pi_inv : ainv pipe_program s0 x;
  pi_producer : producer_at n j (a_code x !! 0) (cont_of (a_sys x) 0);
  pi_consumer : consumer_at infl (a_code x !! 1) (cont_of (a_sys x) 1);
  pi_other i : i <> 0 -> i <> 1 -> other_at (a_code x !! i) (cont_of (a_sys x) i);
  pi_items : items_of q (s_kern (a_sys x)) = Some its;
  pi_entries : entries (s_kern (a_sys x)) = entries s0;
  pi_le : (m <= n)%nat;
  pi_between : infl ++ its = u32_bytes <$> counted m n;
  pi_got : got_values (a_out x) = counted 0 m;
  pi_sent : sent_values (a_out x) = counted 0 j
}.

Definition pipe_inv (x : asys unit) : Prop := exists n j m infl its, pipe_at x n j m infl its.

Lemma sent_app l l' : sent_values (l ++ l') = sent_values l ++ sent_values l'.
Proof. apply omap_app. Qed.
Lemma got_app l l' : got_values (l ++ l') = got_values l ++ got_values l'.
Proof. apply omap_app. Qed.

Lemma counted_app a b c : (a <= b)%nat -> (b <= c)%nat -> counted a b ++ counted b c = counted a c.
Proof.
  intros H1 H2. unfold counted. rewrite <- fmap_app. f_equal.
  replace (c - a)%nat with ((b - a) + (c - b))%nat by lia. rewrite seq_app. do 2 f_equal. lia.
Qed.

Lemma producer_le n j t k : producer_at n j t k -> (j <= n)%nat.
Proof. intros []; lia. Qed.

(** A task enters its function. *)
Lemma pipe_enter x me old tc :
  pipe_inv x -> ainv pipe_program s0 (mkA (a_sys x)
    (<[me := Running (entry_code (p_code pipe_program) tc)]> (a_code x)) (a_glob x) (a_out x)) ->
  s_mode (a_sys x) = InTask me old -> a_code x !! me = None ->
  zget (g_tcbs (s_kern (a_sys x))) me = Some tc ->
  pipe_inv (mkA (a_sys x) (<[me := Running (entry_code (p_code pipe_program) tc)]> (a_code x))
    (a_glob x) (a_out x)).
Proof.
  intros (n & j & m & infl & its & []) Hi Em Ec Ht. apply entries_lookup in Ht.
  rewrite pi_entries0 in Ht. exists n, j, m, infl, its. split; try done; cbn [a_code a_sys].
  - destruct (decide (me = 0)) as [->|]; [|by rewrite lookup_insert_ne].
    rewrite lookup_insert_eq. rewrite Ec in pi_producer0. inversion pi_producer0; subst.
    apply Hentry0 in Ht. cbn in Ht. unfold entry_code. cbn. unfold code_table. rewrite Ht.
    apply (pa_head 0).
  - destruct (decide (me = 1)) as [->|]; [|by rewrite lookup_insert_ne].
    rewrite lookup_insert_eq. rewrite Ec in pi_consumer0. inversion pi_consumer0; subst.
    apply Hentry1 in Ht. cbn in Ht. unfold entry_code. cbn. unfold code_table. rewrite Ht.
    apply ca_head.
  - intros i H0 H1. destruct (decide (me = i)) as [->|]; [|rewrite lookup_insert_ne by done; auto].
    rewrite lookup_insert_eq. destruct (Hentry i _ H0 H1 Ht) as [H2 H3]. cbn in H2, H3.
    unfold entry_code. cbn. unfold code_table. zbool. apply oa_delete.
Qed.

(** A task takes a step of its own. *)
Lemma pipe_local x me c c' g' o :
  pipe_inv x -> ainv pipe_program s0 (mkA (a_sys x) (<[me := Running c']> (a_code x)) g' (a_out x ++ o)) ->
  a_code x !! me = Some (Running c) -> local_step c (a_glob x) = Some (c', g', o) ->
  pipe_inv (mkA (a_sys x) (<[me := Running c']> (a_code x)) g' (a_out x ++ o)).
Proof.
  intros (n & j & m & infl & its & []) Hi Ec Hl.
  destruct (decide (me = 0)) as [->|H0]; [|destruct (decide (me = 1)) as [->|H1]].
  - rewrite Ec in pi_producer0. destruct (producer_local _ _ _ _ _ _ _ _ pi_producer0 Hl) as (j' & Hp & Hs & Hg & Hj).
    exists n, j', m, infl, its. split; try done; cbn [a_code a_sys a_out].
    + by rewrite lookup_insert_eq.
    + by rewrite lookup_insert_ne.
    + intros i ? ?. rewrite lookup_insert_ne by done. auto.
    + by rewrite got_app, Hg, app_nil_r.
    + rewrite sent_app, Hs, pi_sent0. apply counted_app; lia.
  - rewrite Ec in pi_consumer0. destruct (consumer_local _ _ _ _ _ _ _ pi_consumer0 Hl) as (infl' & Hp & Hs & Hg).
    assert (Hm : exists m', (m' <= n)%nat /\ infl' ++ its = u32_bytes <$> counted m' n /\
                            counted 0 m ++ got_values o = counted 0 m').
    { destruct Hg as [[-> ->]|(it & -> & -> & ->)]; [exists m; by rewrite app_nil_r|].
      destruct (Nat.eq_dec m n) as [->|]; [by rewrite counted_nil in pi_between0|].
      rewrite counted_cons in pi_between0 by lia. injection pi_between0 as -> Hit.
      exists (S m). split_and!; [lia|done|].
      change (bytes_u32 _) with (bytes_u32 (u32_bytes (cnt m))).
      rewrite bytes_u32_bytes by (apply (u32_range (Z.of_nat m))). by rewrite counted_snoc by lia. }
    destruct Hm as (m' & Hle & Hb & Hc). exists n, j, m', infl', its. split; try done; cbn [a_code a_sys a_out].
    + by rewrite lookup_insert_ne.
    + by rewrite lookup_insert_eq.
    + intros i ? ?. rewrite lookup_insert_ne by done. auto.
    + by rewrite got_app, pi_got0.
    + by rewrite sent_app, Hs, app_nil_r.
  - exfalso. specialize (pi_other0 me H0 H1). rewrite Ec in pi_other0. by eapply other_local.
Qed.

(** A task makes a call, or goes on with one. *)
Lemma pipe_exec x me old t c kk f :
  let r := exec (H := posix_port) (S f) c (s_kern (a_sys x)) (s_port (a_sys x)) in
  let y := mkA (after_call me old (s_conts (a_sys x)) r) (<[me := after_return kk r]> (a_code x))
             (a_glob x) (a_out x) in
  pipe_inv x -> ainv pipe_program s0 y -> client_ok (PL := posix_port) me (s_kern (a_sys x)) (s_port (a_sys x)) ->
  api_outcome (PL := posix_port) me (s_kern (a_sys x)) r ->
  (forall i, i <> me -> cont_of (a_sys x) i = s_conts (a_sys x) !! i) ->
  a_code x !! me = Some t -> runs_call t (cont_of (a_sys x) me) c kk -> pipe_inv y.
Proof.
  intros r y (n & j & m & infl & its & []) Hi Cl Ho Hconts Ec Hrun.
  destruct (cont_after_call me old (s_conts (a_sys x)) _ r Ho) as [Hne Hk].
  fold (left_of r (cont_of (after_call me old (s_conts (a_sys x)) r) me)) in Hk.
  assert (Hpre : forall b, Z.of_nat (length b) = 4 -> api_pre (s_kern (a_sys x)) (CSend q b)).
  { intros b Hb. eapply pre_shape; [apply pi_inv0|done|by apply Hitem]. }
  assert (Hent : keeps_of entries c -> entries (s_kern (a_sys y)) = entries s0).
  { intros Hkeep. cbn. rewrite after_call_obs, <- pi_entries0. by apply exec_obs. }
  assert (Hit : items_of q (s_kern (a_sys y)) = items_of q (after r)) by apply after_call_obs.
  assert (Hcont : forall i, i <> me -> cont_of (a_sys y) i = cont_of (a_sys x) i).
  { intros i Hne'. cbn. by rewrite Hne, Hconts. }
  assert (Hcode_ne : forall i, i <> me -> a_code y !! i = a_code x !! i).
  { intros i Hne'. cbn. by rewrite lookup_insert_ne. }
  assert (Hcode_eq : a_code y !! me = Some (after_return kk r)) by apply lookup_insert_eq.
  destruct (decide (me = 0)) as [->|H0]; [|destruct (decide (me = 1)) as [->|H1]].
  - rewrite Ec in pi_producer0. assert (Hx : exists n', producer_at n' j (Some (after_return kk r))
      (cont_of (a_sys y) 0) /\ (n <= n')%nat /\ items_of q (after r) = Some (its ++ (u32_bytes <$> counted n n'))).
    { destruct Hrun; [by eapply producer_call|by eapply producer_resume]. }
    destruct Hx as (n' & Hp & Hn & Hits). exists n', j, m, infl, (its ++ (u32_bytes <$> counted n n')).
    split; try done.
    + by rewrite Hcode_eq.
    + by rewrite Hcode_ne, Hcont.
    + intros i ? ?. rewrite Hcode_ne, Hcont by done. auto.
    + congruence.
    + apply Hent. eapply role_keeps; [exact Hrun|]. eauto.
    + lia.
    + rewrite app_assoc, pi_between0, <- fmap_app. by rewrite counted_app by lia.
  - rewrite Ec in pi_consumer0. assert (Hx : exists infl' its', consumer_at infl' (Some (after_return kk r))
      (cont_of (a_sys y) 1) /\ items_of q (after r) = Some its' /\ infl ++ its = infl' ++ its').
    { destruct Hrun; [by eapply consumer_call|by eapply consumer_resume]. }
    destruct Hx as (infl' & its' & Hp & Hits & Heq). exists n, j, m, infl', its'. split; try done.
    + by rewrite Hcode_ne, Hcont.
    + by rewrite Hcode_eq.
    + intros i ? ?. rewrite Hcode_ne, Hcont by done. auto.
    + congruence.
    + apply Hent. eapply role_keeps; [exact Hrun|]. eauto.
    + congruence.
  - specialize (pi_other0 me H0 H1) as Hoth. rewrite Ec in Hoth.
    assert (Hx : other_at (Some (after_return kk r)) (cont_of (a_sys y) me) /\ items_of q (after r) = Some its).
    { destruct Hrun; [by eapply other_call|by eapply other_resume]. }
    destruct Hx as [Hp Hits]. exists n, j, m, infl, its. split; try done.
    + by rewrite Hcode_ne, Hcont by done.
    + by rewrite Hcode_ne, Hcont by done.
    + intros i ? ?. destruct (decide (i = me)) as [->|]; [by rewrite Hcode_eq|].
      rewrite Hcode_ne, Hcont by done. auto.
    + congruence.
    + apply Hent. eapply role_keeps; [exact Hrun|]. eauto.
Qed.

Lemma pipe_step x y : pipe_inv x -> astep pipe_program x y -> pipe_inv y.
Proof.
  intros Hp Hs. assert (Hi : ainv pipe_program s0 x) by (destruct Hp as (? & ? & ? & ? & ? & []); done).
  pose proof (ainv_step Hstall _ _ Hcode x y Hi Hs) as Hy. destruct Hs as [x sg' He|x me old tc Em Ec Ht
    |x me old c c' g' o Em Ec Hl|x me old c k n Em Ec|x me old kk k n Em Ec].
  - destruct Hp as (n & j & m & infl & its & []). exists n, j, m, infl, its.
    pose proof (fun i => cont_env _ _ _ i He (ai_sys _ _ _ Hy)) as Hc.
    split; try done; cbn [with_sys a_sys a_code].
    + by rewrite Hc.
    + by rewrite Hc.
    + intros. rewrite Hc. auto.
    + rewrite <- pi_items0. eapply env_obs; [|exact He]. done.
    + rewrite <- pi_entries0. eapply env_obs; [|exact He]. done.
  - by eapply pipe_enter.
  - by eapply pipe_local.
  - destruct (ai_code _ _ _ Hi me _ Ec) as [Hok _]. pose proof (ai_sys _ _ _ Hi) as Hsi.
    eapply call_ok_shape in Hok; [|apply Hi].
    destruct (call_outcome Hstall (a_sys x) me old c n Hsi Em Hok) as [Ho _].
    pose proof (si_mode _ Hsi) as R. rewrite Em in R.
    eapply pipe_exec; [done|exact Hy|by apply client_mode|exact Ho| |exact Ec|constructor].
    intros i _. by eapply conts_task.
  - pose proof (ai_sys _ _ _ Hi) as Hsi. pose proof (resumed_outcome Hstall (a_sys x) me old kk n Hsi Em) as Ho.
    pose proof (si_mode _ Hsi) as R. rewrite Em in R. destruct R as [R _].
    assert (Hk : cont_of (a_sys x) me = Some kk) by (unfold cont_of; by rewrite Em, decide_True).
    eapply pipe_exec; [done|exact Hy|by apply client_mode|exact Ho| |exact Ec|].
    + intros i Hne. by eapply conts_resume.
    + pose proof (rc_resume kk k) as Hrun. rewrite <- Hk in Hrun. exact Hrun.
Qed.

End pipe.

(** ** The programs *)

Section programs.
Context `{B : Info.BuildInfo}.

Lemma pipe_c : QueuePosix.prog = pipe_program QueuePosix.main QueuePosix.objects.
Proof. reflexivity. Qed.

Lemma pipe_cpp : QueuePosixCpp.prog = pipe_program QueuePosixCpp.main QueuePosix.objects.
Proof. reflexivity. Qed.

(** Slots 0 and 1 have the two functions, the others have none. *)
Definition entries_check (l : list (Z * Z)) : bool :=
  match l with
  | e0 :: e1 :: l => (e0.1 =? FN1) && (e1.1 =? FN2) &&
                     forallb (fun e => negb (e.1 =? FN1) && negb (e.1 =? FN2)) l
  | _ => false
  end.

Lemma entries_checked l :
  entries_check l = true ->
  (forall e, zget l 0 = Some e -> e.1 = FN1) /\ (forall e, zget l 1 = Some e -> e.1 = FN2) /\
  (forall i e, i <> 0 -> i <> 1 -> zget l i = Some e -> e.1 <> FN1 /\ e.1 <> FN2).
Proof.
  destruct l as [|e0 [|e1 l]]; try done. cbn [entries_check].
  intros [[H0 H1]%andb_true_iff H]%andb_true_iff. btest. split_and!.
  - by intros e [= <-].
  - by intros e [= <-].
  - intros i e Hi0 Hi1. unfold zget. destruct (i <? 0) eqn:Hi; [done|]. btest.
    replace (Z.to_nat i) with (S (S (Z.to_nat (i - 2)))) by lia. cbn. intros Hl%list_elem_of_lookup_2.
    rewrite forallb_forall in H. specialize (H e (proj1 (list_elem_of_In _ _) Hl)).
    btest. by split.
Qed.

(** From a state after [main]. *)
Definition pipe_check (x : asys unit) : bool :=
  boot_check (a_sys x) && bool_decide (a_code x = ∅) &&
  bool_decide (items_of QueuePosix.q_u32 (s_kern (a_sys x)) = Some []) &&
  bool_decide (item_size <$> m_queues (s_kern (a_sys x)) !! QueuePosix.q_u32 = Some 4) &&
  entries_check (entries (s_kern (a_sys x))) &&
  bool_decide (got_values (a_out x) = []) && bool_decide (sent_values (a_out x) = []).

Lemma pipe_reach main (x0 x : asys unit) :
  (forall fn argp, code_ok (s_kern (a_sys x0)) (p_code (pipe_program main QueuePosix.objects) fn argp)) ->
  pipe_check x0 = true -> rtc (astep (pipe_program main QueuePosix.objects)) x0 x ->
  pipe_inv main QueuePosix.objects (s_kern (a_sys x0)) x.
Proof.
  intros Hcode Hc. unfold pipe_check in Hc.
  rewrite !andb_true_iff, !bool_decide_eq_true in Hc.
  destruct Hc as ((((((Hb & Hn) & Hi) & Hz) & He) & Hg) & Hs).
  destruct (entries_checked _ He) as (He0 & He1 & He2).
  assert (Hitem : forall b, Z.of_nat (length b) = 4 -> api_pre (s_kern (a_sys x0)) (CSend QueuePosix.q_u32 b)).
  { intros b Hl. apply fmap_Some in Hz as (m & Hm & Hz). exists m. split; [done|congruence]. }
  intros Hr. assert (H0 : pipe_inv main QueuePosix.objects (s_kern (a_sys x0)) x0).
  { exists 0%nat, 0%nat, 0%nat, [], []. split; try done; try (rewrite Hn; constructor).
    split; [by apply boot_check_sound|done|]. intros k t Hl. change (a_code x0 !! k = Some t) in Hl.
    by rewrite Hn in Hl. }
  clear Hb Hn Hi Hg Hs. remember (s_kern (a_sys x0)) as s0 eqn:E. clear E.
  induction Hr as [|x y z Hxy _ IH]; [done|]. apply IH.
  by eapply (pipe_step (C := default_config) main QueuePosix.objects s0 eq_refl).
Qed.

(** C31: The pipeline of the queue examples, in C and in C++, end to end, in
    the runs in which the ticks come between whole kernel calls of the tasks
    (and at the points of the scheduler loop). However the scheduler, these
    ticks and the two tasks interleave, the
    values the consumer has printed are 0, 1, 2, ... (a 32-bit counter), each
    once and in order, as are the values the producer has printed; and the
    consumer is at most one value ahead of what the producer has reported
    (the one whose [hrt_queue_send] has not returned yet). *)
Theorem pipe_in_order P (x : asys (p_glob P)) :
  P = QueuePosix.prog \/ P = QueuePosixCpp.prog -> rtc (astep P) (boot P) x ->
  exists m j, got_values (a_out x) = counted 0 m /\ sent_values (a_out x) = counted 0 j /\
              (m <= S j)%nat.
Proof.
  intros HP Hr.
  assert (Hp : exists main s0 (x' : asys unit), pipe_inv main QueuePosix.objects s0 x' /\ a_out x' = a_out x).
  { destruct HP as [-> | ->].
    - exists QueuePosix.main, (s_kern (a_sys (boot QueuePosix.prog))), x. split; [|done].
      apply (pipe_reach QueuePosix.main (boot QueuePosix.prog) x);
        [|vm_compute; reflexivity|exact Hr].
      intros. eapply queue_posix_code; vm_compute; reflexivity.
    - exists QueuePosixCpp.main, (s_kern (a_sys (boot QueuePosixCpp.prog))), x. split; [|done].
      apply (pipe_reach QueuePosixCpp.main (boot QueuePosixCpp.prog) x);
        [|vm_compute; reflexivity|exact Hr].
      intros. eapply queue_posix_code; vm_compute; reflexivity. }
  destruct Hp as (main & s0 & x' & (n & j & m & infl & its & []) & <-). exists m, j.
  split_and!; [done|done|]. assert (n <= S j)%nat by (by destruct pi_producer0; lia). lia.
Qed.

End programs.

(** The first values, in a run of the program. *)
Definition pipe_prog : program := QueuePosix.prog (B := demo_info).

Lemma pipe_in_order_witness :
  got_values (a_out (pipe_run 1500)) = [0; 1] /\
  exists m j, got_values (a_out (pipe_run 1500)) = counted 0 m /\
              sent_values (a_out (pipe_run 1500)) = counted 0 j /\ (m <= S j)%nat.
Proof.
  split; [vm_compute; reflexivity|].
  exact (pipe_in_order (B := demo_info) pipe_prog (pipe_run 1500) (or_introl eq_refl) (pipe_reachable 1500)).
Defined.
