(* ===== verification/PortProps.v ===== *)
(** * Properties of the ports

    Critical sections and the scheduler loop of the POSIX port; critical
    sections, stack frames, SysTick and the context switch of the Cortex-M
    port; tick sources; version numbers; the checks of the ready queue and
    of the stack pointers, on every branch. *)

From stdpp Require Import base tactics numbers list option gmap strings.
From S2P Require Import Prelude Types Prog Ring Core Sched PortNull PortPosix.
From S2P Require Import PortCortexM Info CoreFacts Inv SchedFacts InvCheck Running.
From S2P Require Import PosixFacts Api ApiSafe PickFacts System CortexFacts.
From S2P Require Import Demo.
Open Scope Z_scope.
Open Scope prog_scope.

(** ** POSIX: critical sections *)

Section posix.
Context `{C : Config} {Cok : ConfigOk C}.
Import Posix.

(** Critical sections of the POSIX port nest. Once the signal set is
    initialised, the tick signal is masked from the first of [k] nested
    entries to the [k]-th exit, and after it the depth is 0 and the signal
    is unmasked; nothing else of the port changes. *)
Theorem posix_crit_nesting k j p :
  (0 < k)%nat -> (j < k)%nat -> g_crit_depth p = 0 -> g_sigalrm_set p = true ->
  sigalrm_blocked (exits j (enters k p)) = true /\
  g_crit_depth (exits j (enters k p)) = Z.of_nat (k - j) /\
  exits k (enters k p) = set_blocked false p.
Proof.
  intros Hk Hj Hd Hs. rewrite (enters_spec k p Hk Hd).
  rewrite (exits_nested j k) by done. split_and!; [cbn; rewrite Hs; apply orb_true_r|done|].
  destruct k as [|k]; [lia|]. change (exits (S k) ?q) with (posix_crit_exit (exits k q)).
  rewrite (exits_nested k (S k)) by (done || lia). unfold posix_crit_exit. cbn -[Z.sub Z.of_nat Nat.sub].
  replace (Z.of_nat (S k - k) - 1) with 0 by lia. cbn. rewrite Hs, orb_true_r.
  unfold unmask_sigalrm, set_blocked, set_depth. cbn. by rewrite Hd, Hs.
Qed.

(** One iteration of the scheduler loop of the POSIX port, when a
    switch is requested and the test stop is not: the request is cleared;
    if a task is ready, the oldest one of the most urgent priority is
    removed from its queue, made current and switched to with the tick
    signal masked; otherwise the loop naps once, with the signal mask
    restored and the kernel unchanged. *)
Theorem posix_iteration_spec s p :
  sched_inv [] s -> switch_ok (PL := posix_port) s p ->
  g_switch_pending p = true -> g_test_stop p = false ->
  let masked := set_blocked (sigalrm_blocked p || g_sigalrm_set p) (set_pending false p) in
  sched_iteration s p =
  match first_ready s (seqZ 0 HARDRT_MAX_PRIO) with
  | Some (pr, x) => (SRun x (sigalrm_blocked p), set_current x (lpop (rq_ring pr) s), masked)
  | None => (SIdle, s, set_idle_counter (g_idle_counter p + 1) (set_pending false p))
  end.
Proof.
  intros I Hsw Hpd Hts masked. pose proof (iteration_spec s p I Hsw) as Hs. revert Hs.
  unfold sched_iteration. rewrite Hts, Hpd. cbn [negb block_sigalrm].
  rewrite (exec_pick 0 [] s) by done.
  destruct (first_ready s (seqZ 0 HARDRT_MAX_PRIO)) as [[pr x]|] eqn:Hf.
  - destruct ((x <? 0) || (x =? HRT_IDLE_ID)); [by intros (_ & _ & Hn); specialize (Hn eq_refl)|].
    destruct (first_ready_spec _ _ _ _ Hf) as [_ [l Hl]].
    destruct (inv_head_tcb _ _ (PReady pr) _ _ I Hl) as (_ & _ & Hv & _).
    unfold hrt__set_current. by rewrite id_in_range, andb_false_r by done.
  - rewrite Z.eqb_refl, orb_true_r. intros _. cbn. by destruct p.
Qed.

End posix.

(** The demonstration: signals are set up; the scheduler loop is entered. *)
Lemma posix_crit_nesting_witness :
  Posix.sigalrm_blocked (exits 1 (enters 3 demo_started.2)) = true /\
  exits 3 (enters 3 demo_started.2) = Posix.set_blocked false demo_started.2.
Proof.
  destruct (posix_crit_nesting 3 1 demo_started.2) as (H1 & _ & H2); [lia|lia|reflexivity|reflexivity|].
  exact (conj H1 H2).
Defined.

Lemma posix_iteration_spec_witness :
  exists s' p', Posix.sched_iteration demo_started.1 (Posix.posix_pend demo_started.2)
                = (Posix.SRun 1 false, s', p').
Proof.
  pose proof (posix_iteration_spec demo_started.1 (Posix.posix_pend demo_started.2) demo_started_inv) as H.
  assert (E : first_ready demo_started.1 (seqZ 0 HARDRT_MAX_PRIO) = Some (0, 1)) by (vm_compute; reflexivity).
  rewrite E in H. eexists. eexists. apply H; [|vm_compute; reflexivity..].
  apply switch_check_sound. vm_compute. reflexivity.
Defined.

(** ** Cortex-M *)

Section cortex.
Context `{C : Config} {Cok : ConfigOk C} `{Env : CortexM.CortexEnv}.
Import CortexM.
Implicit Types (s : kern) (p : cortex).

(** Critical sections of the Cortex-M port nest. From the first of [k]
    nested entries to the [k]-th exit, [BASEPRI] holds the configured
    syscall level, so that interrupts at or below it wait; the [k]-th exit
    restores the value [BASEPRI] had before, and an exit without an entry
    has no effect. *)
Theorem cortex_crit_nesting k j p :
  (0 < k)%nat -> (j < k)%nat -> Z.of_nat k < 2 ^ 32 -> g_cs_nest p = 0 ->
  BASEPRI (cm_exits j (cm_enters k p)) = _prio_to_basepri HARDRT_MAX_SYSCALL_IRQ_PRIO /\
  g_cs_nest (cm_exits j (cm_enters k p)) = Z.of_nat (k - j) /\
  BASEPRI (cm_exits k (cm_enters k p)) = BASEPRI p /\
  g_cs_nest (cm_exits k (cm_enters k p)) = 0 /\
  cm_crit_exit p = p.
Proof.
  intros Hk Hj Hb Hn. rewrite (cm_enters_spec k p Hk Hb Hn).
  rewrite (cm_exits_nested j k) by done. split; [done|]. split; [done|].
  destruct k as [|k]; [lia|]. change (cm_exits (S k) ?q) with (cm_crit_exit (cm_exits k q)).
  rewrite (cm_exits_nested k (S k)) by (done || lia).
  replace (Z.of_nat (S k - k)) with 1 by lia. unfold cm_crit_exit. cbn. by rewrite Hn.
Qed.

(** The initial stack of a task on Cortex-M. For a stack of at least 64
    words at a non-null address, the preparation records a stack pointer
    that is aligned to 8 bytes and has the 16 words of the frame between
    itself and the end of the stack: the software frame (r4 to r11, zero),
    then r0 to r3 and r12 (zero), LR (the thread-mode EXC_RETURN value),
    PC (the trampoline) and xPSR (the Thumb bit). No word outside of the
    frame, and nothing of the kernel but that stack pointer, changes. *)
Theorem cortex_stack_frame id base words s p tc :
  valid_id id -> zget (g_tcbs s) id = Some tc -> 0 < base -> 64 <= words ->
  exists p', cm_prepare id base words s p
             = PCont (kset_tcb id (tcb_set_sp (frame_sp base words) tc) s) p' /\
    frame_sp base words mod 8 = 0 /\ base <= frame_sp base words /\
    frame_sp base words + 64 <= base + 4 * words /\
    load_words (frame_sp base words) 16 (ram p')
      = replicate 13 0 ++ [4294967293; addr_task_trampoline; 16777216] /\
    (forall a, a < frame_sp base words \/ frame_sp base words + 64 <= a -> ram p' !! a = ram p !! a) /\
    BASEPRI p' = BASEPRI p /\ pendsv p' = pendsv p.
Proof.
  intros Hid Htc Hb Hw. rewrite (prepare_spec id base words s p tc) by done.
  destruct (frame_sp_bounds base words Hb Hw) as (H1 & H2 & H3). set (q := frame_sp base words) in *.
  eexists. split_and!; [reflexivity|done|done|done| | |done|done].
  - unfold load_words. cbn [ram set_ram seq fmap list_fmap].
    rewrite !push_words_lookup. cbn [length exception_frame app replicate].
    repeat (rewrite decide_True by (cbn; split; [lia|];
      match goal with |- ?x mod 4 = 0 => ring_simplify x; reflexivity end)).
    repeat match goal with |- context [q + 64 - (q + ?x)] =>
      replace (q + 64 - (q + x)) with (64 - x) by lia end. reflexivity.
  - intros a Ha. cbn [ram set_ram]. rewrite push_words_lookup, decide_False; [done|].
    cbn [length exception_frame app replicate]. lia.
Qed.

(** The SysTick period. For a core clock and a tick rate that are not
    zero, the reload value fits the 24-bit register, and when the period
    does, it is the exact quotient: [reload + 1] cycles are at most one
    tick period, and one cycle more would exceed it. *)
Theorem systick_reload_exact core_hz tick_hz :
  0 < core_hz -> 0 < tick_hz ->
  0 <= systick_reload core_hz tick_hz < 2 ^ 24 /\
  (tick_hz <= core_hz -> core_hz / tick_hz < 2 ^ 24 ->
   (systick_reload core_hz tick_hz + 1) * tick_hz <= core_hz
     < (systick_reload core_hz tick_hz + 2) * tick_hz).
Proof.
  intros Hc Ht. unfold systick_reload. pose proof (Z.div_pos core_hz tick_hz ltac:(lia) Ht).
  pose proof (Z.div_mod core_hz tick_hz ltac:(lia)). pose proof (Z.mod_pos_bound core_hz tick_hz Ht).
  change (2 ^ 24) with 16777216. rewrite Z.gtb_ltb.
  destruct (Z.eqb_spec (core_hz / tick_hz) 0) as [E|E].
  - cbn. split; [lia|]. intros H2. pose proof (Z.div_str_pos core_hz tick_hz ltac:(lia)). lia.
  - destruct (Z.ltb_spec 16777215 (core_hz / tick_hz)); split; nia.
Qed.

(** C30: The scheduling decision of PendSV. With a stack pointer to save and
    either a running task or one that has parked itself, [hrt__schedule]
    records the stack pointer in the outgoing TCB, appends the outgoing
    task to the ready queue of its priority exactly when it is still ready,
    makes the oldest task of the most urgent priority current, or the idle
    context when no task is ready, and returns its stack pointer; the
    invariant of the scheduler is kept. *)
Theorem cortex_schedule_spec `{PL : PortLayer} n me s (p : pstate) old tc :
  switching me s -> old <> 0 -> zget (g_tcbs s) me = Some tc ->
  let saved := ksave me old s in
  sched_inv [] saved /\
  (forall pr, qlist (rq_ring pr) saved = qlist (rq_ring pr) s ++
     (if decide (state tc = HRT_READY /\ prio tc = pr) then [me] else [])) /\
  (forall i, zget (g_tcbs saved) i
     = if decide (me = i) then Some (tcb_set_sp old tc) else zget (g_tcbs s) i) /\
  match first_ready saved (seqZ 0 HARDRT_MAX_PRIO) with
  | Some (pr, x) => running x (set_current x (lpop (rq_ring pr) saved)) /\
      exec n (hrt__schedule old) s p
      = Done (from_option sp 0 (zget (g_tcbs saved) x)) (set_current x (lpop (rq_ring pr) saved)) p
  | None => exec n (hrt__schedule old) s p
      = Done (from_option sp 0 (zget (g_tcbs saved) HRT_IDLE_ID)) (set_current HRT_IDLE_ID saved) p
  end.
Proof.
  intros Sw Ho Htc saved. pose proof (ksave_inv me old s Sw) as I.
  split; [done|]. split; [|split; [intros i; by apply ksave_tcbs|]].
  - intros pr. unfold saved, ksave. rewrite Htc.
    destruct Sw as [R|(I0 & Hc & tc' & Htc' & Hs)].
    + destruct (running_prio _ _ _ R Htc) as [Hs Hp]. rewrite decide_True by done.
      destruct (running_rq _ _ _ R Htc) as [Hr Hl].
      change (rq_ring (prio tc)) with (ring_of (PReady (prio tc))).
      change (rq_ring pr) with (ring_of (PReady pr)).
      rewrite <- kset_lpush_comm, kset_qlist, qlist_lpush by done. f_equal.
      destruct (decide (prio tc = pr)) as [->|Hne].
      * by rewrite !decide_True.
      * rewrite !decide_False; [done|by intros [_ ?]|congruence].
    + rewrite Htc in Htc'. injection Htc' as <-. rewrite !decide_False by (try intros [? _]; done).
      change (rq_ring pr) with (ring_of (PReady pr)). rewrite kset_qlist. by rewrite app_nil_r.
  - rewrite (exec_schedule n me s p old Sw Ho). fold saved.
    pose proof (proj1 (kdispatch_spec saved I)) as Hd. revert Hd. unfold kdispatch.
    destruct (first_ready saved (seqZ 0 HARDRT_MAX_PRIO)) as [[pr x]|]; [|done].
    intros R. split; [done|]. by rewrite (run_cur _ _ R).
Qed.

(** Context switches preserve registers. Task [me] is switched out with
    register contents [c]. Whenever a later PendSV dispatches [me] again,
    and meanwhile nobody wrote the 32 bytes below its stack pointer nor its
    TCB's stack pointer, the handler returns to [me] with exactly the
    stack pointer and the registers r4 to r11 it had. *)
Theorem context_roundtrip me c s p x1 s1 p1 other c2 s2 p2 c3 s3 p3 :
  switching me s -> 32 < psp c -> length (r4_r11 c) = 8%nat ->
  PendSV_Handler c s p = (x1, s1, p1) ->
  switching other s2 -> other <> me -> 32 < psp c2 -> length (r4_r11 c2) = 8%nat ->
  psp c2 <= psp c - 32 \/ psp c <= psp c2 - 32 ->
  sp <$> zget (g_tcbs s2) me = sp <$> zget (g_tcbs s1) me ->
  (forall a, psp c - 32 <= a < psp c -> ram p2 !! a = ram p1 !! a) ->
  PendSV_Handler c2 s2 p2 = (ExcReturn c3, s3, p3) -> g_current s3 = me ->
  c3 = c.
Proof.
  intros Sw Hp Hlen H1 Sw2 Hne Hp2 Hlen2 Hdisj Hsp Hram H2 Hcur.
  destruct (switching_tcb _ _ Sw) as [tc Htc]. destruct (switching_tcb _ _ Sw2) as [tc2 Htc2].
  rewrite (pendsv_eq me) in H1 by done. rewrite (pendsv_eq other) in H2 by done. cbv zeta in H1, H2.
  assert (Hs1 : sp <$> zget (g_tcbs s1) me = Some (psp c - 32) /\
                ram p1 = store_words (psp c - 32) (r4_r11 c) (ram p)).
  { destruct (kdispatch_spec _ (ksave_inv me (psp c - 32) s Sw)) as [_ Ht].
    destruct (_ =? 0); injection H1 as <- <- <-; rewrite Ht, (ksave_tcbs me _ s me tc Htc),
      decide_True by done; done. }
  destruct Hs1 as [Hs1 Hr1]. rewrite Hs1 in Hsp.
  destruct (kdispatch_spec _ (ksave_inv other (psp c2 - 32) s2 Sw2)) as [_ Ht].
  set (s' := kdispatch (ksave other (psp c2 - 32) s2)) in *.
  assert (Hnew : g_current s' = me -> from_option sp 0 (zget (g_tcbs s') (g_current s')) = psp c - 32).
  { intros ->. rewrite Ht, (ksave_tcbs other _ s2 me tc2 Htc2), decide_False by done.
    destruct (zget (g_tcbs s2) me); [|done]. by injection Hsp. }
  clear H1. destruct (from_option sp 0 _ =? 0); [done|].
  injection H2 as <- <- <-. rewrite (Hnew Hcur).
  destruct c as [q rs]. cbn [psp r4_r11] in *. f_equal; [lia|].
  cbn [ram set_ram set_pendsv]. rewrite (load_words_ext _ 8 (ram p1)).
  - rewrite Hr1, <- Hlen. apply load_store_words.
  - intros a Ha. rewrite store_words_other by lia. apply Hram. lia.
Qed.

(** The tick is counted by one source only. In a system ticked by
    SysTick (or by the timer of the port), [hrt_tick_from_isr] has no
    effect and [SysTick_Handler] is the tick; in one ticked externally it
    is the other way round. *)
Theorem tick_source_exclusive `{PL : PortLayer} n s (p : pstate) :
  exec n SysTick_Handler s p
  = (if decide (g_tick_src s = HRT_TICK_EXTERNAL) then Done tt s p else exec n hrt__tick_isr s p) /\
  exec n hrt_tick_from_isr s p
  = (if decide (g_tick_src s = HRT_TICK_EXTERNAL) then exec n hrt__tick_isr s p else Done tt s p).
Proof.
  unfold SysTick_Handler, hrt_tick_from_isr, hrt__cfg_tick_src. xrun.
  destruct (g_tick_src s); cbn; done.
Qed.

End cortex.

(** ** Version *)

(** Disjoint bit fields add up. *)
Lemma lor_shiftl_add x y k : 0 <= k -> 0 <= y < 2 ^ k -> Z.lor (Z.shiftl x k) y = x * 2 ^ k + y.
Proof.
  intros Hk Hy. rewrite <- Z.shiftl_mul_pow2 by done.
  assert (Z.land (Z.shiftl x k) y = 0); [|pose proof (Z.add_lor_land (Z.shiftl x k) y); lia].
  apply Z.bits_inj'. intros i Hi. rewrite Z.land_spec, Z.bits_0. destruct (Z.lt_ge_cases i k).
  - by rewrite Z.shiftl_spec_low.
  - rewrite <- (Z.mod_small y (2 ^ k)) by lia. rewrite Z.mod_pow2_bits_high by lia. apply andb_false_r.
Qed.

Lemma lor_fields a b c :
  0 <= b < 2 ^ 8 -> 0 <= c < 2 ^ 8 ->
  Z.lor (Z.lor (Z.shiftl a 16) (Z.shiftl b 8)) c = a * 65536 + b * 256 + c.
Proof.
  intros Hb Hc. replace (Z.shiftl a 16) with (Z.shiftl (Z.shiftl a 8) 8) by (by rewrite Z.shiftl_shiftl).
  rewrite <- Z.shiftl_lor, (lor_shiftl_add _ c 8), (lor_shiftl_add a b 8) by lia. lia.
Qed.

Section version.
Context `{Info.BuildInfo}.

(** The packed version number determines the three components it is
    made of, when each fits its field. *)
Theorem version_roundtrip :
  0 <= Info.HARDRT_VERSION_MAJOR < 2 ^ 16 -> 0 <= Info.HARDRT_VERSION_MINOR < 2 ^ 8 ->
  0 <= Info.HARDRT_VERSION_PATCH < 2 ^ 8 ->
  Z.shiftr Info.hrt_version_u32 16 = Info.HARDRT_VERSION_MAJOR /\
  Z.land (Z.shiftr Info.hrt_version_u32 8) 255 = Info.HARDRT_VERSION_MINOR /\
  Z.land Info.hrt_version_u32 255 = Info.HARDRT_VERSION_PATCH.
Proof.
  set (a := Info.HARDRT_VERSION_MAJOR). set (b := Info.HARDRT_VERSION_MINOR).
  set (c := Info.HARDRT_VERSION_PATCH). intros Ha Hb Hc.
  assert (E : Info.hrt_version_u32 = a * 65536 + b * 256 + c).
  { unfold Info.hrt_version_u32. fold a b c.
    rewrite lor_fields by lia. rewrite u32_id; lia. }
  rewrite E. change 255 with (Z.ones 8). rewrite !Z.land_ones, !Z.shiftr_div_pow2 by lia.
  change (2 ^ 16) with 65536 in *. change (2 ^ 8) with 256 in *. split_and!.
  - symmetry. apply (Z.div_unique _ _ _ (b * 256 + c)); lia.
  - assert ((a * 65536 + b * 256 + c) / 256 = a * 256 + b) as ->
      by (symmetry; apply (Z.div_unique _ _ _ c); lia).
    symmetry. apply (Z.mod_unique _ _ a); lia.
  - symmetry. apply (Z.mod_unique _ _ (a * 256 + b)); lia.
Qed.

End version.

(** ** A concrete board *)

Module Board.
Import CortexM.

#[export] Instance board : CortexEnv := {
  __RAM_START__ := 536870912; __RAM_END__ := 537001984; SystemCoreClock := 64000000;
  HARDRT_NVIC_PRIO_BITS := 4; HARDRT_MAX_SYSCALL_IRQ_PRIO := 5;
  addr_task_trampoline := 134222209; addr_idle_task := 134222305; addr_idle_stack := 536879104
}.

Definition STACK0 : Z := 536875008.
Definition STACK1 : Z := 536883200.

(** [main]: two tasks of the same priority. *)
Definition board_main : prog Z :=
  _ <- hrt_init None ;;
  _ <- hrt_create_task 16 0 STACK0 64 (Some attr1) ;;
  hrt_create_task 32 0 STACK1 64 (Some attr1).

Definition board_started : kern * cortex :=
  match exec (H := cortex_port) 0 board_main kern_boot cortex_reset with
  | Done _ s p | Swapped _ s p | Halted _ s p | Spinning s p => (s, p)
  end.

(** The first switch has nothing to save; then the two tasks alternate. *)
Definition zero_cpu : cpu := mkCpu 0 (replicate 8 0).
Definition cpu0 : cpu := mkCpu 536875200 [1; 2; 3; 4; 5; 6; 7; 8].
Definition cpu1 : cpu := mkCpu 536883400 [9; 9; 9; 9; 9; 9; 9; 9].

Definition switch0 := PendSV_Handler zero_cpu board_started.1 board_started.2.
Definition switch1 := PendSV_Handler cpu0 switch0.1.2 switch0.2.
Definition switch2 := PendSV_Handler cpu1 switch1.1.2 switch1.2.

Lemma switch0_running : running 0 switch0.1.2.
Proof. apply running_check_sound. vm_compute. reflexivity. Qed.

Lemma switch1_running : running 1 switch1.1.2.
Proof. apply running_check_sound. vm_compute. reflexivity. Qed.

Lemma cortex_crit_nesting_witness :
  BASEPRI (cm_exits 1 (cm_enters 2 cortex_reset)) = 80 /\
  BASEPRI (cm_exits 2 (cm_enters 2 cortex_reset)) = 0.
Proof.
  destruct (cortex_crit_nesting 2 1 cortex_reset) as (H1 & _ & H2 & _); [lia|lia|lia|reflexivity|].
  split; [exact H1|exact H2].
Defined.

Lemma cortex_stack_frame_witness :
  exists p', cm_prepare 0 STACK0 64 board_started.1 cortex_reset
    = PCont (kset_tcb 0 (tcb_set_sp 536875200 (tcb_of 0 board_started.1)) board_started.1) p'.
Proof.
  destruct (cortex_stack_frame 0 STACK0 64 board_started.1 cortex_reset (tcb_of 0 board_started.1))
    as (p' & H & _); [vm_compute; split; congruence|vm_compute; reflexivity|reflexivity|lia|].
  exists p'. exact H.
Defined.

Lemma systick_reload_exact_witness :
  (systick_reload 64000000 1000 + 1) * 1000 <= 64000000 < (systick_reload 64000000 1000 + 2) * 1000.
Proof. apply (systick_reload_exact 64000000 1000); [lia|lia|lia|reflexivity]. Defined.

(** Task 0 is switched out by the tick: task 1 is next. *)
Lemma cortex_schedule_spec_witness :
  exists s', exec (H := Null.null_port) 0 (hrt__schedule 536875168) switch0.1.2 tt
             = @Done Null.null_port Z 536883392 s' tt /\ running 1 s'.
Proof.
  pose proof (cortex_schedule_spec (PL := Null.null_port) 0 0 switch0.1.2 tt 536875168
    (tcb_of 0 switch0.1.2) (or_introl switch0_running) ltac:(discriminate)
    ltac:(vm_compute; reflexivity)) as (_ & _ & _ & H).
  assert (E : first_ready (ksave 0 536875168 switch0.1.2) (seqZ 0 HARDRT_MAX_PRIO) = Some (1, 1))
    by (vm_compute; reflexivity).
  assert (E1 : from_option sp 0 (zget (g_tcbs (ksave 0 536875168 switch0.1.2)) 1) = 536883392)
    by (vm_compute; reflexivity).
  rewrite E, E1 in H. destruct H as [H1 H2]. eexists. split; [exact H2|exact H1].
Defined.

(** Task 0, task 1, and task 0 again, with its registers. *)
Lemma context_roundtrip_witness :
  exists c3, switch2.1.1 = ExcReturn c3 /\ c3 = cpu0.
Proof.
  exists (mkCpu 536875200 [1; 2; 3; 4; 5; 6; 7; 8]).
  assert (E : switch2.1.1 = ExcReturn (mkCpu 536875200 [1; 2; 3; 4; 5; 6; 7; 8]))
    by (vm_compute; reflexivity).
  split; [exact E|].
  refine (context_roundtrip 0 cpu0 switch0.1.2 switch0.2 switch1.1.1 switch1.1.2 switch1.2
    1 cpu1 switch1.1.2 switch1.2 _ switch2.1.2 switch2.2 (or_introl switch0_running) _ _ _
    (or_introl switch1_running) _ _ _ _ _ _ _ _).
  - reflexivity.
  - reflexivity.
  - unfold switch1. destruct (PendSV_Handler cpu0 _ _) as [[x y] z]. reflexivity.
  - discriminate.
  - reflexivity.
  - reflexivity.
  - right. vm_compute. discriminate.
  - reflexivity.
  - intros a _. reflexivity.
  - rewrite <- E. unfold switch2. destruct (PendSV_Handler cpu1 _ _) as [[x y] z]. reflexivity.
  - vm_compute. reflexivity.
Defined.

#[local] Instance version_0_3_1 : Info.BuildInfo := {
  Info.HARDRT_VERSION_MAJOR := 0; Info.HARDRT_VERSION_MINOR := 3; Info.HARDRT_VERSION_PATCH := 1;
  Info.HARDRT_VERSION_STRING := "0.3.1"; Info.HARDRT_PORT_STRING := "posix"; Info.HARDRT_PORT_ID := 1
}.

Lemma version_roundtrip_witness : Z.land (Z.shiftr Info.hrt_version_u32 8) 255 = 3.
Proof.
  refine (proj1 (proj2 (version_roundtrip (H := version_0_3_1) _ _ _)));
    cbn [Info.HARDRT_VERSION_MAJOR Info.HARDRT_VERSION_MINOR Info.HARDRT_VERSION_PATCH version_0_3_1]; lia.
Defined.

End Board.

Section guards.
Context `{C : Config} {Cok : ConfigOk C} `{PL : PortLayer}.
Implicit Types (s : kern) (p : pstate).

(** Insertion into a ready queue, on every branch, in a build that does
    not stall on errors. A priority outside of the build, an id outside of
    the task table (checked by the debug build) and a full queue are
    reported as the matching error and change nothing else; otherwise the
    id is appended to the queue of the priority, the other queues, the
    TCBs and the rest of the state are unchanged and no error is
    recorded. *)
Theorem rq_push_spec n s p pr id :
  HARDRT_STALL_ON_ERROR = false -> 0 <= pr -> 0 <= id < 256 ->
  (pr < HARDRT_MAX_PRIO -> ring_ok (rq_ring pr) s) ->
  if pr >=? HARDRT_MAX_PRIO then
    exec n (rq_push pr id) s p = Done tt (set_error ERR_INVALID_PRIO s) p
  else if HARDRT_DEBUG && id_out_of_range id then
    exec n (rq_push pr id) s p = Done tt (set_error ERR_INVALID_ID s) p
  else if Z.of_nat (length (qlist (rq_ring pr) s)) >=? HARDRT_MAX_TASKS then
    exec n (rq_push pr id) s p = Done tt (set_error ERR_RQ_OVERFLOW s) p
  else exists s', exec n (rq_push pr id) s p = Done tt s' p /\
    (forall pl, qlist (ring_of pl) s' = qlist (ring_of pl) s ++ (if decide (PReady pr = pl) then [id] else [])) /\
    g_tcbs s' = g_tcbs s /\ same_scalars s s' /\ g_error s' = g_error s.
Proof.
  intros Hst Hp Hid Hr. unfold rq_push. destruct (pr >=? HARDRT_MAX_PRIO) eqn:Hpr; btest.
  { by apply exec_error_last. }
  destruct (HARDRT_DEBUG && id_out_of_range id); [by apply exec_error_last|].
  specialize (Hr Hpr). rewrite (exec_bind _ _ _ _ _ _ _ _ (exec_ring_count n s p Hr)).
  destruct (Z.of_nat (length (qlist (rq_ring pr) s)) >=? HARDRT_MAX_TASKS) eqn:Hl; btest.
  { by apply exec_error_last. }
  exists (lpush (rq_ring pr) id s). split_and!.
  - assert (u8 id = id) as -> by (unfold u8; apply Z.mod_small; lia). by apply exec_ring_push.
  - intros pl. by apply (qlist_lpush (PReady pr)).
  - apply (lpush_tcbs (PReady pr)).
  - apply (lpush_scalars (PReady pr)).
  - unfold lpush. by destruct (rget _ s).
Qed.

End guards.

Section stack.
Context `{C : Config} {Cok : ConfigOk C} `{Env : CortexM.CortexEnv} `{PL : PortLayer}.
Import CortexM.
Implicit Types (s : kern) (p : pstate).

(** The stack pointers the check accepts. *)
Definition sp_good (v : Z) : Prop :=
  v mod 8 = 0 /\ __RAM_START__ + 64 <= v <= __RAM_END__ - 64.

(** The stack pointer check of the Cortex-M port, for a RAM of at least
    128 bytes that does not reach the end of the address space: it records
    no error exactly for the pointers that are aligned to 8 bytes and a
    frame away from both ends of the RAM, and its 32-bit arithmetic does
    not wrap. The stack pointers the port itself prepares, for stacks of
    at least 64 words inside the RAM, pass. *)
Theorem sp_valid_spec n s p v :
  HARDRT_STALL_ON_ERROR = false ->
  0 <= __RAM_START__ -> __RAM_START__ + 128 <= __RAM_END__ < 2 ^ 32 -> 0 <= v < 2 ^ 32 ->
  (sp_good v -> exec n (hrt_port_sp_valid v) s p = Done tt s p) /\
  (~ sp_good v -> exists e, exec n (hrt_port_sp_valid v) s p = Done tt (set_error e s) p /\
                            (e = ERR_STACK_RANGE \/ e = ERR_STACK_ALIGN)) /\
  (forall base words, __RAM_START__ <= base -> 0 < base -> 64 <= words ->
     base + 4 * words <= __RAM_END__ -> sp_good (frame_sp base words)).
Proof.
  intros Hst H1 H2 Hv.
  assert (Hal : (Z.land v 7 =? 0) = bool_decide (v mod 8 = 0)).
  { change 7 with (Z.ones 3). rewrite Z.land_ones by lia. change (2 ^ 3) with 8.
    by destruct (Z.eqb_spec (v mod 8) 0), (bool_decide_reflect (v mod 8 = 0)). }
  assert (Hx : exec n (hrt_port_sp_valid v) s p = Done tt
    ((if bool_decide (v mod 8 = 0) then id else set_error ERR_STACK_ALIGN)
      ((if (v <? __RAM_START__ + 64) || (v >? __RAM_END__ - 64) then set_error ERR_STACK_RANGE else id)
        ((if v =? 0 then set_error ERR_SP_NULL else id) s))) p).
  { unfold hrt_port_sp_valid. rewrite !u32_id by (rewrite ?u32_id; unfold HRT_SP_FRAME_BYTES; lia).
    unfold HRT_SP_FRAME_BYTES. rewrite Hal. unfold hrt_error. rewrite Hst.
    replace (__RAM_END__ - __RAM_START__ <? 2 * 64) with false by (symmetry; apply Z.ltb_ge; lia).
    destruct (v =? 0), ((v <? __RAM_START__ + 64) || (v >? __RAM_END__ - 64)),
      (bool_decide (v mod 8 = 0)); reflexivity. }
  split_and!.
  - intros [G1 G2]. rewrite Hx, bool_decide_true by done. by zbool.
  - intros G. rewrite Hx.
    destruct ((v <? __RAM_START__ + 64) || (v >? __RAM_END__ - 64)) eqn:Hr.
    + destruct (bool_decide (v mod 8 = 0)), (v =? 0);
        eexists; (split; [reflexivity|]); by (left + right).
    + apply orb_false_iff in Hr as [Hr1 Hr2]. btest. zbool.
      rewrite bool_decide_false by (unfold sp_good in G; lia). eexists. split; [reflexivity|by right].
  - intros base words Hb H0 Hw He. destruct (frame_sp_bounds base words H0 Hw) as (F1 & F2 & F3).
    split; [done|]. unfold frame_sp in *. rewrite align8 in * by lia.
    pose proof (Z.mod_pos_bound (base + 4 * words) 8 ltac:(lia)). lia.
Qed.

End stack.

(** The demonstration: the third priority is not used. *)
Lemma rq_push_spec_witness :
  exists s', pexec 0 (rq_push 2 1) demo_started.1 demo_started.2
             = @Done Posix.posix_port unit tt s' demo_started.2 /\ qlist (rq_ring 2) s' = [1].
Proof.
  pose proof (rq_push_spec (PL := Posix.posix_port) 0 demo_started.1 demo_started.2 2 1
    eq_refl ltac:(lia) ltac:(lia) (fun _ => inv_rq _ _ 2 demo_started_inv ltac:(cbn; lia))) as H.
  assert (E1 : (2 >=? HARDRT_MAX_PRIO) = false) by reflexivity.
  assert (E2 : (Z.of_nat (length (qlist (rq_ring 2) demo_started.1)) >=? HARDRT_MAX_TASKS) = false)
    by (vm_compute; reflexivity).
  assert (E3 : qlist (rq_ring 2) demo_started.1 = []) by (vm_compute; reflexivity).
  rewrite E1, E2 in H. destruct H as (s' & H1 & H2 & _). exists s'. split; [exact H1|].
  specialize (H2 (PReady 2)). cbn [ring_of] in H2. rewrite E3 in H2. exact H2.
Defined.

Lemma sp_valid_spec_witness :
  exec (H := CortexM.cortex_port (Env := Board.board)) 0
    (CortexM.hrt_port_sp_valid (Env := Board.board) 536875200) kern_boot CortexM.cortex_reset
  = @Done (CortexM.cortex_port (Env := Board.board)) unit tt kern_boot CortexM.cortex_reset.
Proof.
  apply (sp_valid_spec (Env := Board.board) (PL := CortexM.cortex_port (Env := Board.board)) 0 kern_boot
    CortexM.cortex_reset 536875200); [reflexivity|cbn; lia|cbn; lia|lia|].
  split; [reflexivity|cbn; lia].
Defined.
