(* ===== verification/BspProps.v ===== *)
(** * Properties of the board support *)

From stdpp Require Import base tactics numbers list option gmap sorting.
From S2P Require Import Prelude PortCortexM CortexFacts Bsp.
Open Scope Z_scope.

(** ** The heap *)

Section heap.
Import Heap.
Context `{H : HeapSymbols}.

(** Where the heap starts, and the first address it must not reach. *)
Definition heap_base : Z := if __HeapBase =? 0 then _end else __HeapBase.
Definition heap_top : Z := if __HeapLimit =? 0 then _estack - 256 else __HeapLimit.

(** The blocks (address, size) that a sequence of requests is given, and
    the value of [heap] after it. *)
Fixpoint sbrk_blocks (incrs : list Z) (heap : Z) : list (Z * Z) * Z :=
  match incrs with
  | [] => ([], heap)
  | i :: incrs =>
      let '(r, heap') := _sbrk i heap in
      let '(bs, heap'') := sbrk_blocks incrs heap' in
      (if r =? SBRK_FAILED then bs else (r, i) :: bs, heap'')
  end.

Hypothesis Hbase : 0 < heap_base <= heap_top.
Hypothesis Htop : heap_top + 256 < 2 ^ 31.
Hypothesis Hlimit : 0 <= __HeapLimit.

(** The value of [heap] a call starts from. *)
Definition heap_at (heap : Z) : Z := if heap =? 0 then heap_base else heap.

Lemma sbrk_spec i heap :
  heap_base <= heap_at heap <= heap_top -> 0 <= i < 2 ^ 31 ->
  _sbrk i heap = if heap_at heap + i <=? heap_top then (heap_at heap, heap_at heap + i)
                 else (SBRK_FAILED, heap_at heap).
Proof.
  intros Hh Hi. unfold _sbrk.
  replace (if heap =? 0 then if negb (__HeapBase =? 0) then __HeapBase else _end else heap)
    with (heap_at heap) by (unfold heap_at, heap_base; by destruct (heap =? 0), (__HeapBase =? 0)).
  cbv zeta. rewrite (u32_id (heap_at heap + i)) by lia. unfold heap_top in *.
  destruct (Z.eqb_spec __HeapLimit 0) as [Hz|Hz]; cbn [negb andb].
  - rewrite (u32_id (heap_at heap + i + 256)) by lia. rewrite Z.gtb_ltb.
    destruct (Z.ltb_spec _estack (heap_at heap + i + 256)), (Z.leb_spec (heap_at heap + i) (_estack - 256));
      done || lia.
  - rewrite Z.gtb_ltb.
    destruct (Z.ltb_spec __HeapLimit (heap_at heap + i)), (Z.leb_spec (heap_at heap + i) __HeapLimit);
      done || lia.
Qed.

(** Blocks one above the other, between two addresses. *)
Inductive stacked : Z -> list (Z * Z) -> Z -> Prop :=
  | stacked_nil lo hi : lo <= hi -> stacked lo [] hi
  | stacked_cons lo a n bs hi : lo <= a -> 0 <= n -> stacked (a + n) bs hi -> stacked lo ((a, n) :: bs) hi.

Lemma sbrk_run incrs heap :
  heap_base <= heap_at heap <= heap_top -> Forall (fun i => 0 <= i < 2 ^ 31) incrs ->
  let '(bs, heap') := sbrk_blocks incrs heap in
  stacked (heap_at heap) bs (heap_at heap') /\ heap_at heap' <= heap_top /\
  heap_at heap' = heap_at heap + foldr Z.add 0 (bs.*2).
Proof.
  revert heap. induction incrs as [|i incrs IH]; intros heap Hh Hf.
  { cbn. split_and!; [by constructor; lia|lia|lia]. }
  apply Forall_cons in Hf as [Hi Hf]. cbn [sbrk_blocks]. rewrite sbrk_spec by done.
  assert (Hpos : forall a, 0 < a -> heap_at a = a).
  { intros a Ha. unfold heap_at. by rewrite (proj2 (Z.eqb_neq a 0)) by lia. }
  destruct (Z.leb_spec (heap_at heap + i) heap_top) as [Hle|Hgt].
  - specialize (IH (heap_at heap + i)). rewrite Hpos in IH by lia.
    specialize (IH ltac:(lia) Hf). destruct (sbrk_blocks incrs (heap_at heap + i)) as [bs heap'].
    destruct IH as (Hs & Ht & Hsum). rewrite (proj2 (Z.eqb_neq _ SBRK_FAILED)) by (change SBRK_FAILED with 4294967295; lia).
    cbn. split_and!; [constructor; [lia|lia|done]|lia|lia].
  - specialize (IH (heap_at heap)). rewrite Hpos in IH by lia. specialize (IH ltac:(lia) Hf).
    destruct (sbrk_blocks incrs (heap_at heap)) as [bs heap']. by rewrite Z.eqb_refl.
Qed.

(** C36: The heap never leaves its area. For every sequence of requests for
    non-negative sizes, from the first call on, the blocks that [_sbrk]
    gives lie one above the other (so no two overlap) from the base of the
    heap up to the limit of the linker script, or to 256 bytes below the
    top of the stack where the script has no limit; the memory in use is
    the sum of the sizes given; and a request that does not fit is refused
    and uses nothing. *)
Theorem sbrk_stays_in_heap incrs :
  Forall (fun i => 0 <= i < 2 ^ 31) incrs ->
  let '(bs, heap') := sbrk_blocks incrs 0 in
  stacked heap_base bs (heap_at heap') /\ heap_at heap' <= heap_top /\
  heap_at heap' = heap_base + foldr Z.add 0 (bs.*2).
Proof. intros Hf. apply (sbrk_run incrs 0); [|done]. unfold heap_at. cbn. lia. Qed.

(** Nothing bounds the heap from below: a release of more than was
    requested succeeds. *)
Lemma sbrk_below_base :
  heap_base > 1 -> (_sbrk (- 1) 0).1 = heap_base /\ (_sbrk (- 1) 0).2 < heap_base.
Proof.
  intros Hb. unfold _sbrk. cbn [Z.eqb].
  replace (if negb (__HeapBase =? 0) then __HeapBase else _end)
    with heap_base by (unfold heap_base; by destruct (__HeapBase =? 0)).
  cbv zeta. rewrite (u32_id (heap_base + - 1)) by lia. unfold heap_top in *. rewrite !Z.gtb_ltb.
  destruct (Z.eqb_spec __HeapLimit 0); cbn [negb andb].
  - rewrite (u32_id (heap_base + - 1 + 256)) by lia. zbool. cbn. lia.
  - zbool. cbn. lia.
Qed.

End heap.

(** ** The hard fault trap *)

Section fault.
Import CortexM HardFault.

(** The words the processor stacks on exception entry, first pushed first:
    xPSR, PC, LR, R12, R3, R2, R1, R0. *)
Definition stacked_regs (r0 r1 r2 r3 r12 lr pc psr : Z) : list Z := [psr; pc; lr; r12; r3; r2; r1; r0].

(** The hard fault trap reports the registers of the code that faulted:
    with the frame the processor pushed on the stack that the exception
    return value names (bit 2 clear: main stack, set: process stack), the
    globals hold exactly R0 to R3, R12, LR, PC and xPSR of the frame, the
    fault status registers, and both stack pointers. *)
Theorem hardfault_roundtrip exc_return sp0 m r0 r1 r2 r3 r12 lr pc psr regs :
  let '(sp, m') := push_words (stacked_regs r0 r1 r2 r3 r12 lr pc psr) sp0 m in
  (if Z.testbit exc_return 2 then f_psp regs else f_msp regs) = sp ->
  HardFault_Handler exc_return regs m' =
  mkFault (SCB_CFSR regs) (SCB_HFSR regs) (SCB_BFAR regs) (SCB_AFSR regs)
    r0 r1 r2 r3 r12 lr pc psr (f_psp regs) (f_msp regs).
Proof.
  cbn [push_words stacked_regs]. intros Hsp. unfold HardFault_Handler.
  assert (Hb : (Z.land exc_return 4 =? 0) = negb (Z.testbit exc_return 2)).
  { change 4 with (2 ^ 2). destruct (Z.testbit exc_return 2) eqn:E; cbn [negb].
    - apply Z.eqb_neq. intros H0. assert (Ht : Z.testbit (Z.land exc_return (2 ^ 2)) 2 = false) by by rewrite H0.
      by rewrite Z.land_spec, E, Z.pow2_bits_true in Ht by lia.
    - apply Z.eqb_eq, Z.bits_inj'. intros n Hn. rewrite Z.land_spec, Z.bits_0.
      destruct (decide (n = 2)) as [->|]; [by rewrite E|].
      by rewrite Z.pow2_bits_false, andb_false_r by lia. }
  rewrite Hb. replace (if negb (Z.testbit exc_return 2) then f_msp regs else f_psp regs)
    with (sp0 - 4 - 4 - 4 - 4 - 4 - 4 - 4 - 4) by (by destruct (Z.testbit exc_return 2)).
  unfold hardfault_c, word_at. f_equal;
    repeat (rewrite lookup_insert_ne by lia); rewrite lookup_insert_Some || idtac.
  all: match goal with |- default 0 (<[?k := _]> _ !! ?j) = _ => replace j with k by lia end;
    by rewrite lookup_insert_eq.
Qed.

End fault.

(** ** On a board *)

Module Nucleo.
Import Heap.

(** The flash script of the CM7 core of the C++ example: a heap of 512
    bytes after the data. *)
#[export] Instance nucleo_heap : HeapSymbols :=
  { _end := 536871936; _estack := 537001984; __HeapBase := 536871936; __HeapLimit := 536872448 }.

Lemma sbrk_stays_in_heap_witness :
  sbrk_blocks [256; 512; 128] 0 = ([(536871936, 256); (536872192, 128)], 536872320) /\
  stacked heap_base [(536871936, 256); (536872192, 128)] 536872320.
Proof.
  split; [vm_compute; reflexivity|].
  destruct (sbrk_stays_in_heap (H := nucleo_heap) ltac:(vm_compute; split; congruence)
    ltac:(vm_compute; reflexivity) ltac:(vm_compute; congruence) [256; 512; 128]) as [H _].
  - repeat (apply Forall_cons_2; [lia|]). apply Forall_nil_2.
  - exact H.
Defined.

Import CortexM HardFault.

Lemma hardfault_roundtrip_witness :
  g_pc (HardFault_Handler 4294967293 (mkFaultRegs 0 (536875200 - 32) 0 0 0 0)
    (push_words (stacked_regs 1 2 3 4 5 6 134217984 16777216) 536875200 ∅).2) = 134217984.
Proof.
  pose proof (hardfault_roundtrip 4294967293 536875200 ∅ 1 2 3 4 5 6 134217984 16777216
    (mkFaultRegs 0 (536875200 - 32) 0 0 0 0)) as H. cbn [push_words stacked_regs snd] in H |- *.
  by rewrite H.
Defined.

End Nucleo.
