(* ===== verification/TimingProps.v ===== *)
(** * Properties of the latency measurement *)

From stdpp Require Import base tactics numbers list option gmap relations strings.
From S2P Require Import Prelude Types Prog Core Sem PortCortexM Api App Examples H755 Timing Preempt TimingFacts TimingRace.
Open Scope Z_scope.
Import DwtTiming Reference.
Import NucleoBoard.

(** ** Statistics *)

(** [stats_record] for each sample, from [stats_init]. *)
Definition stats_of (vs : list Z) : option hrt_stats_t :=
  foldl (fun s v => s ← s; stats_record s v) (Some stats_init) vs.

(** C34: The running statistics are the statistics of the samples. After
    [stats_init] and [stats_record] of each of fewer than 2^32 samples of 32
    bits, the record holds exactly their minimum, maximum, rounded-down
    mean, number and sum: neither the 64-bit sum nor the 32-bit count
    wraps, no division by zero occurs, and the mean is cut to 32 bits
    without loss, between the minimum and the maximum. *)
Theorem stats_equivalence vs :
  Forall sample vs -> size vs < 2 ^ 32 ->
  stats_of vs = Some (statistics vs) /\
  (vs <> [] -> minimum vs <= average vs <= maximum vs /\ average vs * size vs <= total vs < (average vs + 1) * size vs).
Proof.
  intros Hs Hn. split.
  - unfold stats_of. induction vs as [|v vs IH] using rev_ind; [done|].
    apply Forall_app in Hs as [Hs Hv]. apply Forall_cons in Hv as [Hv _]. rewrite size_app in Hn.
    rewrite foldl_app. cbn [foldl]. rewrite IH by (done || lia). cbn [mbind option_bind]. apply stats_record_step; [exact Hs|exact Hv|lia].
  - intros Hne. split; [by apply average_between|].
    assert (0 < size vs) by (unfold size; destruct vs; [done|cbn; lia]).
    unfold average. pose proof (Z.div_mod (total vs) (size vs) ltac:(lia)).
    pose proof (Z.mod_pos_bound (total vs) (size vs) ltac:(lia)). lia.
Qed.

Lemma stats_equivalence_witness :
  stats_of [7; 4294967295; 12] = Some (mkStats 7 4294967295 1431655771 3 4294967314).
Proof.
  destruct (stats_equivalence [7; 4294967295; 12]) as [H _].
  - unfold sample. repeat (apply Forall_cons_2; [lia|]). apply Forall_nil_2.
  - reflexivity.
  - exact H.
Defined.

(** ** The measurement under preemption *)

Section board.
Context `{C : Config} `{Env : CortexM.CortexEnv} `{S : Stm32}.

(** What a measurement may look like: the statistics are those of some
    samples, none longer than [L], and the breakpoint is reached only when
    there are enough of them. *)
Definition sound_measurement (L : Z) (g : G) : Prop :=
  exists ts es,
    stats (tick_src g) = statistics ts /\ stats (evt_src g) = statistics es /\
    Forall (fun d => 0 <= d <= L) (ts ++ es) /\
    size ts <= TICK_TARGET_SAMPLES + 1 /\ size es <= EVT_TARGET_SAMPLES + 1 /\
    (breakpoints g <> 0 -> TICK_TARGET_SAMPLES <= size ts /\ EVT_TARGET_SAMPLES <= size es).

Lemma measurement_sound L stackTick stackEvt cs g :
  0 <= L < 2 ^ 32 -> TIM_SR TIM2 <> DWT_CYCCNT -> TIM_SR TIM3 <> DWT_CYCCNT ->
  preachable (timing_board L stackTick stackEvt) (PTasks cs, g) -> sound_measurement L g.
Proof.
  intros HL H2 H3 Hr. pose proof (rg_sound _ _ _ _ _ (board_verified L HL H2 H3 _ _) Hr) as HF.
  apply Forall_cons in HF as [[(ts & ? & ? & ? & _ & Ht) Hf] HF].
  apply Forall_cons in HF as [[(es & ? & ? & ? & _ & He) _] _].
  exists ts, es. rewrite Forall_app. change EVT_TARGET_SAMPLES with T. change TICK_TARGET_SAMPLES with T.
  split_and!; try done; try lia. intros Hb. destruct (Hf Hb). auto.
Qed.


End board.

(** ** One event on the board *)

Module OneEvent.

#[local] Instance cfg_h755 : Config := default_config.

Definition the_board : board G := timing_board 42 536875008 536883200.

Definition ok : api_res := (0, None).

(** [main], the first task up to its loop; an update event of TIM2 at
    cycle 1000; the handler; 42 cycles later the task goes on. *)
Definition g0 : G := mkG (fun _ => 0) zero_source zero_source 0 0 0 0 0 0.
Definition x0 : phase G * G := (PMain (b_main the_board), g0).
Definition go (chs : list choice) (x : phase G * G) : phase G * G := default x (prun the_board chs x).
Definition hw (f : regs -> regs) (x : phase G * G) : phase G * G := (x.1, on_regs f x.2).
Definition x1 := go (replicate 13 (CMain ok) ++ [CStart; CTask 0 ok; CTask 0 ok]) x0.
Definition x2 := hw (fun r => wr DWT_CYCCNT 1000 (wr (TIM_SR TIM2) 1 r)) x1.
Definition x3 := go [CHandler 0] x2.
Definition x4 := hw (wr DWT_CYCCNT 1042) x3.
Definition x5 := go (replicate 7 (CTask 0 ok)) x4.

Definition ran (chs : list choice) (x : phase G * G) : bool :=
  match prun the_board chs x with Some _ => true | None => false end.

Lemma go_steps chs x y : y = go chs x -> ran chs x = true -> rtc (pstep the_board) x y.
Proof.
  intros -> H. apply prun_steps with chs. unfold ran, go in *. by destruct (prun the_board chs x).
Qed.

Lemma hw_steps f x y :
  y = hw f x -> clock_ok 42 tick_src y.2 -> clock_ok 42 evt_src y.2 -> rtc (pstep the_board) x y.
Proof.
  intros -> H1 H2. apply rtc_once. destruct x as [ph g]. apply p_interrupt. left. split; [by exists f|done].
Qed.

Lemma not_armed s x : armed (s x.2) = 0 -> clock_ok 42 s (x : phase G * G).2.
Proof. by intros H ?. Qed.

Lemma x1_reached : rtc (pstep the_board) x0 x1.
Proof. eapply go_steps; [unfold x1; reflexivity|vm_compute; reflexivity]. Qed.
Lemma x2_reached : rtc (pstep the_board) x1 x2.
Proof. eapply hw_steps; [unfold x2; reflexivity|apply not_armed; vm_compute; reflexivity..]. Qed.
Lemma x3_reached : rtc (pstep the_board) x2 x3.
Proof. eapply go_steps; [unfold x3; reflexivity|vm_compute; reflexivity]. Qed.
Lemma x4_clock : u32 (cycles_now x4.2 - t0 (tick_src x4.2)) = 42.
Proof. vm_compute. reflexivity. Qed.
Lemma x4_reached : rtc (pstep the_board) x3 x4.
Proof.
  eapply hw_steps; [unfold x4; reflexivity| |apply not_armed; vm_compute; reflexivity].
  intros _. by rewrite x4_clock.
Qed.
Lemma x5_reached : rtc (pstep the_board) x4 x5.
Proof. eapply go_steps; [unfold x5; reflexivity|vm_compute; reflexivity]. Qed.

Lemma x5_reachable : preachable the_board x5.
Proof.
  exists g0. split; [done|]. etrans; [exact x1_reached|]. etrans; [exact x2_reached|].
  etrans; [exact x3_reached|]. etrans; [exact x4_reached|exact x5_reached].
Qed.

Definition tasks_of (x : phase G * G) : list (app G unit) :=
  match x.1 with PTasks cs => cs | PMain _ => [] end.

Definition in_tasks (x : phase G * G) : bool := match x.1 with PTasks _ => true | PMain _ => false end.

Lemma tasks_reachable x :
  preachable the_board x -> in_tasks x = true -> preachable the_board (PTasks (tasks_of x), x.2).
Proof. by destruct x as [[] g]. Qed.


End OneEvent.
