(* ===== verification/BoardProps.v ===== *)
(** * Properties of the board set-up: pins and timers *)

From stdpp Require Import base tactics numbers list option gmap strings.
From S2P Require Import Prelude Types Prog PortCortexM App H755 Timing TimingFacts.
Open Scope Z_scope.
Import NucleoBoard.

(** ** Registers *)

Lemma wr_eq a v r : wr a v r a = u32 v.
Proof. unfold wr. by rewrite Z.eqb_refl. Qed.
Lemma wr_ne a b v r : b <> a -> wr a v r b = r b.
Proof. intros Hne. unfold wr. by rewrite (proj2 (Z.eqb_neq _ _)) by done. Qed.
Lemma set_bits_ne a b v r : b <> a -> set_bits a v r b = r b.
Proof. apply wr_ne. Qed.
Lemma clear_bits_ne a b v r : b <> a -> clear_bits a v r b = r b.
Proof. apply wr_ne. Qed.

(** The addresses of a list differ from each other. *)
Ltac nodup_split H :=
  repeat (let N := fresh "N" in
    apply NoDup_cons in H as [N H];
    repeat (apply not_elem_of_cons in N as [? N])).

(** An address is among those of a list that is written out. *)
Ltac listed := cbn; repeat first [apply list_elem_of_here | apply list_elem_of_further].

(** Bit [i] of a 32-bit register. *)
Lemma u32_testbit z i : 0 <= i -> Z.testbit (u32 z) i = (i <? 32) && Z.testbit z i.
Proof.
  intros Hi. unfold u32. change 4294967296 with (2 ^ 32). destruct (Z.ltb_spec i 32).
  - by rewrite Z.mod_pow2_bits_low.
  - by rewrite Z.mod_pow2_bits_high by lia.
Qed.

Lemma set_bits_testbit a v r i :
  0 <= i < 32 -> Z.testbit (set_bits a v r a) i = Z.testbit (r a) i || Z.testbit v i.
Proof.
  intros Hi. unfold set_bits. rewrite wr_eq, u32_testbit, Z.lor_spec by lia.
  by rewrite (proj2 (Z.ltb_lt _ _)) by lia.
Qed.

Lemma clear_bits_testbit a v r i :
  0 <= i < 32 -> Z.testbit (clear_bits a v r a) i = Z.testbit (r a) i && negb (Z.testbit v i).
Proof.
  intros Hi. unfold clear_bits. rewrite wr_eq, u32_testbit, Z.land_spec, u32_testbit, Z.lnot_spec by lia.
  by rewrite (proj2 (Z.ltb_lt _ _)) by lia.
Qed.

Lemma shiftl_1_testbit n i : 0 <= n -> Z.testbit (Z.shiftl 1 n) i = (i =? n).
Proof.
  intros Hn. rewrite Z.shiftl_1_l. destruct (Z.eqb_spec i n) as [->|Hne].
  - by apply Z.pow2_bits_true.
  - apply Z.pow2_bits_false. lia.
Qed.

Lemma shiftl_3_testbit n i : 0 <= n -> 0 <= i -> Z.testbit (Z.shiftl 3 n) i = (i =? n) || (i =? n + 1).
Proof.
  intros Hn Hi. change 3 with (Z.lor (Z.shiftl 1 0) (Z.shiftl 1 1)).
  rewrite Z.shiftl_lor, !Z.shiftl_shiftl, Z.lor_spec, !shiftl_1_testbit by lia.
  by rewrite (Z.add_comm 1 n).
Qed.

(** ** The LED pins *)

Section pins.
Context `{S : Stm32}.

(** Pin [n] of port [p] is an output (mode 01), push-pull; the other pins
    of the port are as they were. *)
Definition output_pin (p n : Z) (r r' : regs) : Prop :=
  (forall i, 0 <= i < 32 -> Z.testbit (r' (GPIO_MODER p)) i =
     if i =? 2 * n then true else if i =? 2 * n + 1 then false else Z.testbit (r (GPIO_MODER p)) i) /\
  (forall i, 0 <= i < 32 -> Z.testbit (r' (GPIO_OTYPER p)) i =
     if i =? n then false else Z.testbit (r (GPIO_OTYPER p)) i).

(** The registers of the port after the three writes to it. *)
Definition pin_writes (p n : Z) (r : regs) : regs :=
  clear_bits (GPIO_OTYPER p) (Z.shiftl 1 n)
    (set_bits (GPIO_MODER p) (Z.shiftl 1 (n * 2)) (clear_bits (GPIO_MODER p) (Z.shiftl 3 (n * 2)) r)).

Lemma pin_writes_spec p n r :
  0 <= n -> GPIO_MODER p <> GPIO_OTYPER p -> output_pin p n r (pin_writes p n r).
Proof.
  intros Hn Hne. unfold pin_writes. split; intros i Hi.
  - rewrite clear_bits_ne, set_bits_testbit, clear_bits_testbit by done.
    rewrite shiftl_1_testbit, shiftl_3_testbit, (Z.mul_comm n 2) by lia.
    destruct (Z.eqb_spec i (2 * n)); [by rewrite orb_true_r|].
    destruct (Z.eqb_spec i (2 * n + 1)); cbn; by rewrite ?andb_false_r, ?andb_true_r, ?orb_false_r.
  - rewrite clear_bits_testbit, set_bits_ne, clear_bits_ne, shiftl_1_testbit by (done || lia).
    destruct (i =? n); cbn; by rewrite ?andb_false_r, ?andb_true_r.
Qed.

Lemma pin_writes_ne p n r a :
  a <> GPIO_MODER p -> a <> GPIO_OTYPER p -> pin_writes p n r a = r a.
Proof. intros. unfold pin_writes. by rewrite clear_bits_ne, set_bits_ne, clear_bits_ne. Qed.

Lemma gpio_init_writes r :
  Blinky.gpio_init r =
  pin_writes GPIOE 1 (pin_writes GPIOB 0
    (set_bits RCC_AHB4ENR (Z.lor RCC_AHB4ENR_GPIOBEN RCC_AHB4ENR_GPIOEEN) r)).
Proof. reflexivity. Qed.

(** The set-up of the LEDs, bit by bit. With the registers it writes at
    different addresses, [gpio_init] turns on the clocks of both ports,
    makes pin 0 of GPIOB and pin 1 of GPIOE push-pull outputs whatever they
    were, and changes no other bit of these registers and no other
    register; the C++ example does the same. *)
Theorem gpio_init_spec r :
  NoDup [RCC_AHB4ENR; GPIO_MODER GPIOB; GPIO_OTYPER GPIOB; GPIO_MODER GPIOE; GPIO_OTYPER GPIOE] ->
  let r' := Blinky.gpio_init r in
  output_pin GPIOB 0 r r' /\ output_pin GPIOE 1 r r' /\
  (forall i, 0 <= i < 32 -> Z.testbit (r' RCC_AHB4ENR) i =
     Z.testbit (r RCC_AHB4ENR) i || Z.testbit RCC_AHB4ENR_GPIOBEN i || Z.testbit RCC_AHB4ENR_GPIOEEN i) /\
  (forall a, a ∉ [RCC_AHB4ENR; GPIO_MODER GPIOB; GPIO_OTYPER GPIOB; GPIO_MODER GPIOE; GPIO_OTYPER GPIOE] ->
     r' a = r a) /\
  BlinkyCpp.gpio_init r = r'.
Proof.
  intros HN. cbv zeta. rewrite gpio_init_writes.
  nodup_split HN.
  set (r1 := set_bits _ _ r).
  assert (E1 : forall a, a <> RCC_AHB4ENR -> r1 a = r a) by (intros; by apply set_bits_ne).
  split_and!.
  - destruct (pin_writes_spec GPIOB 0 r1 ltac:(lia) ltac:(done)) as [Hm Ho]. split; intros i Hi;
      rewrite (pin_writes_ne GPIOE) by done; [rewrite Hm, E1 by done|rewrite Ho, E1 by done]; done.
  - destruct (pin_writes_spec GPIOE 1 (pin_writes GPIOB 0 r1) ltac:(lia) ltac:(done)) as [Hm Ho].
    split; intros i Hi; [rewrite Hm by done|rewrite Ho by done];
      rewrite (pin_writes_ne GPIOB), E1 by done; done.
  - intros i Hi. rewrite !pin_writes_ne by done. unfold r1. by rewrite set_bits_testbit, Z.lor_spec, orb_assoc by done.
  - intros a Ha. rewrite !not_elem_of_cons in Ha. destruct Ha as (A1 & A2 & A3 & A4 & A5 & _).
    rewrite !pin_writes_ne by done. by apply E1.
  - reflexivity.
Qed.

End pins.

Lemma gpio_init_spec_witness :
  Blinky.gpio_init (fun _ => 4294967295) (GPIO_MODER GPIOE) = 4294967287 /\
  output_pin GPIOE 1 (fun _ => 4294967295) (Blinky.gpio_init (fun _ => 4294967295)).
Proof.
  split; [vm_compute; reflexivity|].
  destruct (gpio_init_spec (S := nucleo) (fun _ => 4294967295)) as (_ & H & _); [|exact H].
  apply (bool_decide_unpack _). vm_compute. exact I.
Defined.

(** ** The event timers *)

Section timers.
Context `{C : Config} `{Env : CortexM.CortexEnv} `{S : Stm32}.
Import DwtTiming.

(** The registers of a timer, and the two of the clock control that
    [tim2_init_event] and [tim3_init_event] use. *)
Definition timer_regs (t : Z) : list Z :=
  [RCC_APB1LENR; RCC_APB1LRSTR; TIM_PSC t; TIM_ARR t; TIM_EGR t; TIM_SR t; TIM_DIER t; TIM_CR1 t].

(** The timer counts: clock on, out of reset, and one update event with an
    interrupt every [(PSC + 1) * (ARR + 1)] timer clocks. *)
Record timer_runs (t en rst hz : Z) (r : regs) : Prop := {
  tr_clock i : 0 <= i < 32 -> Z.testbit en i = true -> Z.testbit (r RCC_APB1LENR) i = true;
  tr_reset i : 0 <= i < 32 -> Z.testbit rst i = true -> Z.testbit (r RCC_APB1LRSTR) i = false;
  tr_pending : r (TIM_SR t) = 0;
  tr_irq : r (TIM_DIER t) = u32 TIM_DIER_UIE;
  tr_counter : r (TIM_CR1 t) = u32 TIM_CR1_CEN;
  tr_rate : (r (TIM_PSC t) + 1) * (r (TIM_ARR t) + 1) * hz = CortexM.SystemCoreClock / 2
}.

(** What both functions write, before the interrupt is enabled. *)
Definition timer_writes (t en rst psc arr : Z) (r : regs) : regs :=
  wr (TIM_CR1 t) TIM_CR1_CEN (wr (TIM_DIER t) TIM_DIER_UIE (wr (TIM_SR t) 0 (wr (TIM_EGR t) TIM_EGR_UG
    (wr (TIM_ARR t) arr (wr (TIM_PSC t) psc
      (clear_bits RCC_APB1LRSTR rst (set_bits RCC_APB1LRSTR rst (set_bits RCC_APB1LENR en r)))))))).

Lemma timer_writes_run t en rst hz default_hz r :
  NoDup (timer_regs t) ->
  0 < hz -> (hz | 1000000) -> (2000000 | CortexM.SystemCoreClock) -> 0 < CortexM.SystemCoreClock < 2 ^ 32 ->
  timer_runs t en rst hz (timer_writes t en rst (tim_psc CortexM.SystemCoreClock) (tim_arr hz default_hz) r).
Proof.
  intros HN Hh Hd1 Hd2 Hc. unfold timer_regs in HN.
  pose proof (tim_rate CortexM.SystemCoreClock hz default_hz Hh Hd1 Hd2 ltac:(lia)) as Hrate.
  assert (Hp : u32 (tim_psc CortexM.SystemCoreClock) = tim_psc CortexM.SystemCoreClock /\
               u32 (tim_arr hz default_hz) = tim_arr hz default_hz).
  { unfold tim_psc, tim_arr. rewrite (proj2 (Z.eqb_neq hz 0)) by lia.
    pose proof (Z.div_pos 1000000 hz ltac:(lia) Hh). pose proof (Z.div_le_upper_bound 1000000 hz 1000000 Hh ltac:(nia)).
    set (c := CortexM.SystemCoreClock) in *. set (q := 1000000 / hz) in *.
    assert (0 <= c / 2 / 1000000 <= c).
    { rewrite Z.div_div by lia. split; [apply Z.div_pos; lia|apply Z.div_le_upper_bound; lia]. }
    destruct (Z.eqb_spec (c / 2 / 1000000) 0), (Z.eqb_spec q 0); split; apply u32_id; lia. }
  destruct Hp as [Hp Ha]. clear Hh Hd1 Hd2 Hc. nodup_split HN. unfold timer_writes. split.
  - intros i Hi He. rewrite !wr_ne, clear_bits_ne, set_bits_ne, set_bits_testbit by done.
    by rewrite He, orb_true_r.
  - intros i Hi He. rewrite !wr_ne, clear_bits_testbit, He by done. apply andb_false_r.
  - by rewrite !wr_ne, wr_eq by done.
  - by rewrite !wr_ne, wr_eq by done.
  - by rewrite wr_eq.
  - rewrite !(wr_ne _ (TIM_PSC t)), wr_eq, !(wr_ne _ (TIM_ARR t)), wr_eq by done.
    by rewrite Hp, Ha.
Qed.

Definition own_regs (t : Z) : list Z := [TIM_PSC t; TIM_ARR t; TIM_EGR t; TIM_SR t; TIM_DIER t; TIM_CR1 t].

Lemma timer_writes_ne t en rst psc arr r a : a ∉ timer_regs t -> timer_writes t en rst psc arr r a = r a.
Proof.
  intros Ha. unfold timer_regs in Ha. repeat (apply not_elem_of_cons in Ha as [? Ha]).
  unfold timer_writes. by rewrite !wr_ne, clear_bits_ne, !set_bits_ne by done.
Qed.

(** Setting one timer up leaves the other as it is. *)
Lemma timer_writes_keep t t' en rst hz en' rst' psc arr r :
  NoDup (timer_regs t') -> (forall a, a ∈ own_regs t -> a ∉ timer_regs t') ->
  timer_runs t en rst hz r -> timer_runs t en rst hz (timer_writes t' en' rst' psc arr r).
Proof.
  intros HN Ho [H1 H2 H3 H4 H5 H6].
  assert (Hk : forall a, a ∈ own_regs t -> timer_writes t' en' rst' psc arr r a = r a)
    by (intros a Ha; by apply timer_writes_ne, Ho).
  split; [| |rewrite Hk; [done|unfold own_regs; listed]..|].
  - nodup_split HN. intros i Hi He. unfold timer_writes.
    rewrite !wr_ne, clear_bits_ne, set_bits_ne, set_bits_testbit by done. by rewrite H1.
  - nodup_split HN. intros i Hi He. unfold timer_writes.
    rewrite !wr_ne, clear_bits_testbit, set_bits_testbit, set_bits_ne, (H2 i) by done.
    by destruct (Z.testbit rst' i).
  - by rewrite !Hk by (unfold own_regs; listed).
Qed.

Lemma timer_runs_ext t en rst hz r r' :
  (forall a, a ∈ timer_regs t -> r' a = r a) -> timer_runs t en rst hz r -> timer_runs t en rst hz r'.
Proof.
  intros He [H1 H2 H3 H4 H5 H6].
  assert (E : Forall (fun a => r' a = r a) (timer_regs t)) by (by apply Forall_forall).
  unfold timer_regs in E. repeat (apply Forall_cons in E as [? E]).
  split; intros; repeat match goal with H : r' _ = r _ |- _ => rewrite H end; auto.
Qed.

Lemma timer_writes_dbg t en rst psc arr r :
  NoDup (timer_regs t) ->
  timer_writes t en rst psc arr r (TIM_PSC t) = u32 psc /\
  timer_writes t en rst psc arr r (TIM_ARR t) = u32 arr.
Proof.
  intros HN. nodup_split HN. unfold timer_writes. split; by rewrite !wr_ne, wr_eq by done.
Qed.

Lemma timers_apart t t' :
  NoDup ([RCC_APB1LENR; RCC_APB1LRSTR] ++ own_regs t ++ own_regs t') ->
  NoDup (timer_regs t) /\ NoDup (timer_regs t') /\ (forall a, a ∈ own_regs t -> a ∉ timer_regs t').
Proof.
  intros (N1 & N2 & (N3 & N4 & N5)%NoDup_app)%NoDup_app.
  change (timer_regs t) with ([RCC_APB1LENR; RCC_APB1LRSTR] ++ own_regs t).
  change (timer_regs t') with ([RCC_APB1LENR; RCC_APB1LRSTR] ++ own_regs t').
  setoid_rewrite NoDup_app. setoid_rewrite elem_of_app. setoid_rewrite elem_of_app in N2.
  split_and!; [done|naive_solver|done|done|naive_solver|done|].
  intros a Ha [Hb|Hb]; [by apply (N2 a Hb); left|by apply (N4 a)].
Qed.

(** The events come at the rates [main] asks for. With a core clock
    that is a multiple of 2 MHz, the registers of the two timers at
    different addresses, and the interrupt controller's elsewhere: after
    [tim2_init_event(1000)] and [tim3_init_event(200)] both timers are
    clocked, out of reset, counting, with their update interrupt on and
    none pending, and have an update event every 1/1000 and 1/200 second
    exactly ((PSC + 1)(ARR + 1) ticks of half the core clock); the second
    call does not disturb the first timer, and the values kept for the
    debugger are those in the registers. *)
Theorem event_timers_rate g :
  NoDup ([RCC_APB1LENR; RCC_APB1LRSTR] ++ own_regs TIM2 ++ own_regs TIM3) ->
  (forall n p r a, n ∈ [TIM2_IRQn; TIM3_IRQn] -> a ∈ timer_regs TIM2 ++ timer_regs TIM3 ->
     nvic_enable n p r a = r a) ->
  (2000000 | CortexM.SystemCoreClock) -> 0 < CortexM.SystemCoreClock < 2 ^ 32 ->
  let g' := tim3_init_event 200 (tim2_init_event 1000 g) in
  timer_runs TIM2 RCC_APB1LENR_TIM2EN RCC_APB1LRSTR_TIM2RST 1000 (tregs g') /\
  timer_runs TIM3 RCC_APB1LENR_TIM3EN RCC_APB1LRSTR_TIM3RST 200 (tregs g') /\
  tregs g' (TIM_PSC TIM2) = u32 (tim2_psc_dbg g') /\ tregs g' (TIM_ARR TIM2) = u32 (tim2_arr_dbg g') /\
  tregs g' (TIM_PSC TIM3) = u32 (tim3_psc_dbg g') /\ tregs g' (TIM_ARR TIM3) = u32 (tim3_arr_dbg g').
Proof.
  intros HN Hnv Hd Hc. cbv zeta. set (g2 := tim2_init_event 1000 g).
  destruct (timers_apart _ _ HN) as (N2 & N3 & Hap).
  set (w2 := timer_writes TIM2 RCC_APB1LENR_TIM2EN RCC_APB1LRSTR_TIM2RST
    (tim_psc CortexM.SystemCoreClock) (tim_arr 1000 1000) (tregs g)).
  set (w3 := timer_writes TIM3 RCC_APB1LENR_TIM3EN RCC_APB1LRSTR_TIM3RST
    (tim_psc CortexM.SystemCoreClock) (tim_arr 200 200) (tregs g2)).
  assert (E2 : forall a, a ∈ timer_regs TIM2 -> tregs g2 a = w2 a)
    by (intros a Ha; apply Hnv; [listed|]; apply elem_of_app; by left).
  set (r' := tregs (tim3_init_event 200 g2)).
  assert (E3 : forall a, a ∈ timer_regs TIM2 ++ timer_regs TIM3 -> r' a = w3 a) by (intros a; apply Hnv; listed).
  assert (R2 : timer_runs TIM2 RCC_APB1LENR_TIM2EN RCC_APB1LRSTR_TIM2RST 1000 (tregs g2)).
  { apply (timer_runs_ext _ _ _ _ w2); [done|]. apply timer_writes_run; try done. by exists 1000. }
  destruct (timer_writes_dbg TIM2 RCC_APB1LENR_TIM2EN RCC_APB1LRSTR_TIM2RST
    (tim_psc CortexM.SystemCoreClock) (tim_arr 1000 1000) (tregs g) N2) as [D1 D2].
  destruct (timer_writes_dbg TIM3 RCC_APB1LENR_TIM3EN RCC_APB1LRSTR_TIM3RST
    (tim_psc CortexM.SystemCoreClock) (tim_arr 200 200) (tregs g2) N3) as [D3 D4].
  split_and!.
  - apply (timer_runs_ext _ _ _ _ w3); [intros a Ha; apply E3, elem_of_app; by left|].
    by apply timer_writes_keep.
  - apply (timer_runs_ext _ _ _ _ w3); [intros a Ha; apply E3, elem_of_app; by right|].
    apply timer_writes_run; try done. by exists 5000.
  - rewrite E3 by (unfold timer_regs; listed). etrans; [|exact D1]. unfold w3.
    rewrite timer_writes_ne by (apply Hap; unfold own_regs; listed).
    apply E2. unfold timer_regs. listed.
  - rewrite E3 by (unfold timer_regs; listed). etrans; [|exact D2]. unfold w3.
    rewrite timer_writes_ne by (apply Hap; unfold own_regs; listed).
    apply E2. unfold timer_regs. listed.
  - rewrite E3 by (unfold timer_regs; listed). exact D3.
  - rewrite E3 by (unfold timer_regs; listed). exact D4.
Qed.

End timers.

Lemma event_timers_rate_witness :
  let g' := DwtTiming.tim3_init_event 200 (DwtTiming.tim2_init_event 1000
    (DwtTiming.mkG (fun _ => 0) (DwtTiming.mkSource DwtTiming.stats_init 0 0 0)
       (DwtTiming.mkSource DwtTiming.stats_init 0 0 0) 0 0 0 0 0 0)) in
  DwtTiming.tregs g' (TIM_PSC TIM3) = 199 /\ DwtTiming.tregs g' (TIM_ARR TIM3) = 4999 /\
  timer_runs TIM3 RCC_APB1LENR_TIM3EN RCC_APB1LRSTR_TIM3RST 200 (DwtTiming.tregs g').
Proof.
  cbv zeta. split; [vm_compute; reflexivity|]. split; [vm_compute; reflexivity|].
  eapply (event_timers_rate (S := nucleo) (Env := nucleo_env)).
  - apply (bool_decide_unpack _). vm_compute. exact I.
  - intros n p r a Hn Ha. cbn [nvic_enable nucleo]. apply wr_ne. intros ->. revert Ha.
    repeat (apply elem_of_cons in Hn as [->|Hn]; [apply (bool_decide_unpack _); vm_compute; exact I|]).
    by apply not_elem_of_nil in Hn.
  - exists 200. reflexivity.
  - cbn. lia.
Defined.
