(* ===== verification/Limits.v ===== *)
(** * Behaviour at the limits

    What the code does where its contract ends, or differs from what the
    headers and comments say: delays of more than [2^31] ticks, tasks of a
    priority outside of the build or in the idle slot, tick rates the
    POSIX timer cannot express, ticks before the first dispatch in a
    stalling build, two behaviours of the Cortex-M port, and a tick in the
    middle of [hrt_yield]. *)

From stdpp Require Import base tactics numbers list option gmap.
From S2P Require Import Prelude Types Prog Stmt Ring Core Sched PortNull PortPosix.
From S2P Require Import PortCortexM CoreFacts Inv SchedFacts InitFacts InvCheck Running.
From S2P Require Import TimeFacts PosixFacts Api ApiSafe ApiCalls IsrSafe PickFacts.
From S2P Require Import System CortexFacts Demo TickFacts PortProps SystemProps.
Open Scope Z_scope.
Open Scope prog_scope.

(** ** Time *)

Section time.
Context `{C : Config} {Cok : ConfigOk C}.
Implicit Types (s : kern).

(** A sleep of more than [2^31] ticks ends at the first tick: the
    wake-up test compares modulo [2^32], so a wake-up time that far ahead
    counts as past. [hrt__ms_to_ticks] accepts and produces such delays. *)
Theorem long_sleep_wakes_at_once me ms s tc :
  running me s -> zget (g_tcbs s) me = Some tc -> 0 < ms < 2 ^ 32 -> 0 < g_tick_hz s < 2 ^ 32 ->
  2 ^ 31 < hrt__ms_to_ticks ms (g_tick_hz s) ->
  exists tc', zget (g_tcbs (ticked 1 (ksleep me ms tc s))) me = Some tc' /\ state tc' = HRT_READY.
Proof.
  intros R Htc Hms Hhz Ht. set (T := hrt__ms_to_ticks ms (g_tick_hz s)) in *.
  pose proof (ksleep_inv me ms s tc R Htc) as I.
  assert (HT : 1 <= T < 2 ^ 32) by (apply ms_to_ticks_range; lia).
  assert (Hz : zget (g_tcbs (ksleep me ms tc s)) me = Some
    (tcb_set_state HRT_SLEEP (tcb_set_wake_tick (u32 (g_tick s + T)) tc)))
    by (by eapply kset_tcb_get).
  pose proof (tick_sleeper _ _ _ I Hz eq_refl) as H. cbn [wake_tick tcb_set_state tcb_set_wake_tick] in H.
  assert (Hd : wake_due (u32 (g_tick s + T)) (u32 (g_tick s + 1)) = true).
  { unfold wake_due. rewrite u32_sub_add by lia. apply Z.leb_le, i32_neg_iff; [lia|]. right. lia. }
  change (g_tick (ksleep me ms tc s)) with (g_tick s) in H. rewrite Hd in H.
  destruct H as (tc' & H1 & H2 & _). exists tc'. exact (conj H1 H2).
Qed.

(** The period the POSIX port gives to its timer. For rates from 2 to
    1000000 Hz it is a valid number of microseconds, exact up to one;
    [tick_hz = 1] gives 1000000, which is not a valid [tv_usec], and a rate
    above 1000000 Hz gives 0, which disarms the timer: no tick ever
    comes. *)
Theorem posix_timer_period tick_hz s p :
  g_tick_src s = HRT_TICK_SYSTICK -> 0 < tick_hz < 2 ^ 32 ->
  exists usec, Posix.itimer_usec (Posix.posix_start_systick tick_hz s p) = Some usec /\
    (2 <= tick_hz <= 1000000 ->
       0 < usec < 1000000 /\ usec * tick_hz <= 1000000 < (usec + 1) * tick_hz) /\
    (tick_hz = 1 -> usec = 1000000) /\ (1000000 < tick_hz -> usec = 0).
Proof.
  intros Hs Hh. unfold Posix.posix_start_systick. rewrite decide_False by congruence. zbool.
  eexists. split; [reflexivity|]. pose proof (Z.div_mod 1000000 tick_hz ltac:(lia)) as Hd.
  pose proof (Z.mod_pos_bound 1000000 tick_hz ltac:(lia)) as Hm. split_and!.
  - intros Hr. split; [|nia]. split; [apply Z.div_str_pos; lia|apply Z.div_lt; lia].
  - by intros ->.
  - intros Hr. apply Z.div_small. lia.
Qed.

End time.

Section stall.
Context `{C : Config} {Cok : ConfigOk C} `{PL : PortLayer}.

(** In a build that stalls on errors, a tick before the first dispatch
    (while [hrt_init] has set no current task) is itself reported as an
    error, and the tick handler never returns. *)
Theorem stalls_before_first_dispatch n s p :
  HARDRT_STALL_ON_ERROR = true -> sched_inv [] s -> g_current s = -1 -> no_sleepers s ->
  exec n hrt__tick_isr s p
  = Halted HStall (set_error ERR_INVALID_ID (set_tick (u32 (g_tick s + 1)) s)) p.
Proof.
  intros Hst I Hc Hns. set (s1 := set_tick (u32 (g_tick s + 1)) s).
  assert (I1 : sched_inv [] s1) by (apply inv_set_tick; [done|apply u32_range]).
  unfold hrt__tick_isr, hrt__inc_tick. xrun. fold s1.
  assert (Hw : exec n (wake_sleepers (seqZ 0 HARDRT_MAX_TASKS) false) s1 p = Done false s1 p).
  { fold all_ids. rewrite (exec_wake_sleepers n []); [|done|apply all_ids_nodup|apply all_ids_valid|
      by intros i ?%not_elem_of_nil]. by rewrite no_sleepers_none, wake_all_quiet. }
  erewrite exec_bind by exact Hw. unfold account_slice, hrt__get_current, hrt_error. xrun.
  cbn [g_current s1 set_tick]. rewrite Hc, Hst. done.
Qed.

End stall.

(** ** Creation of tasks *)

Section creation.
Context `{C : Config} {Cok : ConfigOk C}.
Import Posix.
Implicit Types (s : kern) (p : posix).

(** A ready task that no queue holds is never selected. *)
Definition lost s (i : Z) : Prop :=
  is_ready s i /\ forall pl, i ∉ qlist (ring_of pl) s.

(** A task of a priority outside of the build. [hrt_create_task] returns
    a valid id, as for any other task, and marks the task ready, but no
    queue holds it: it is never selected. The only trace is the error
    code. *)
Theorem bad_priority_is_lost n s p fn argp stack n_words attr i :
  HARDRT_STALL_ON_ERROR = false -> sched_inv [] s -> posix_ok p -> free_slot s = i -> 0 <= i ->
  HARDRT_MAX_PRIO <= attr_prio attr -> fn <> 0 -> stack <> 0 -> 64 <= n_words ->
  exists s' p', exec n (hrt_create_task fn argp stack n_words attr) s p = Done i s' p' /\
    lost s' i /\ g_error s' = ERR_INVALID_PRIO.
Proof.
  intros Hst I Hok Hf Hi Hpr H1 H2 H3. destruct (bwf_kern _ (inv_base _ _ I)).
  destruct (free_slot_cases s) as [[Hn _]|(Hv & _ & _)]; [lia|]. rewrite Hf in Hv.
  destruct (free_slot_tcb _ _ _ I Hf Hv) as (tc & Htc & Hu).
  set (nt := new_tcb s fn argp stack n_words attr).
  exists (set_error ERR_INVALID_PRIO (kset_tcb i (tcb_ready nt) s)), (posix_prep i stack n_words p).
  split_and!; [|split|done].
  - rewrite (exec_create (PL := posix_port) n s p fn argp stack n_words attr i) by done.
    cbn [bind exec port_do]. rewrite (prepare_returns (PL := posix_port)) by done.
    erewrite exec_tcb_write by by eapply kset_tcb_get. rewrite kset_tcb_twice.
    erewrite exec_tcb_write by by eapply kset_tcb_get. rewrite kset_tcb_twice.
    erewrite exec_tcb_read by by eapply kset_tcb_get.
    change (prio (tcb_refill (tcb_set_state HRT_READY nt))) with (attr_prio attr).
    unfold rq_push. replace (attr_prio attr >=? HARDRT_MAX_PRIO) with true
      by (symmetry; rewrite Z.geb_leb; apply Z.leb_le; lia).
    by rewrite (exec_error (PL := posix_port)).
  - exists (tcb_ready nt). split; [|done]. by eapply kset_tcb_get.
  - intros pl Hin.
    assert (E : forall e s0, qlist (ring_of pl) (set_error e s0) = qlist (ring_of pl) s0) by by destruct pl.
    rewrite E, kset_qlist in Hin. destruct (inv_in _ _ I pl i Hin) as (t & Ht & Hs & _).
    rewrite Htc in Ht. injection Ht as <-. rewrite Hu in Hs. by destruct pl.
Qed.

(** The idle slot. When all other slots are in use,
    [hrt_create_task] hands out the slot of the idle task. On the POSIX
    port the scheduler takes such a task out of its ready queue and then
    treats its id as "nothing to run": the task is lost. *)
Theorem idle_slot_is_lost s p fn argp stack n_words attr :
  sched_inv [] s -> posix_ok p -> g_test_stop p = false -> free_slot s = HRT_IDLE_ID ->
  (forall pr, 0 <= pr < HARDRT_MAX_PRIO -> qlist (rq_ring pr) s = []) ->
  0 <= attr_prio attr < HARDRT_MAX_PRIO -> fn <> 0 -> stack <> 0 -> 64 <= n_words ->
  exists s1 p1 s2 p2,
    exec 0 (hrt_create_task fn argp stack n_words attr) s p = Done HRT_IDLE_ID s1 p1 /\
    sched_iteration s1 (posix_pend p1) = (SIdle, s2, p2) /\ lost s2 HRT_IDLE_ID.
Proof.
  intros I Hok Hts Hf Hq Hpr H1 H2 H3. pose proof idle_valid as Hv.
  set (nt := new_tcb s fn argp stack n_words attr).
  set (s1 := kcreate HRT_IDLE_ID fn argp stack n_words attr s).
  assert (I1 : sched_inv [] s1) by (apply kcreate_inv; try done; apply not_elem_of_nil).
  assert (Hrm : forall pr, 0 <= pr < HARDRT_MAX_PRIO -> qlist (rq_ring pr) s1
                = if decide (attr_prio attr = pr) then [HRT_IDLE_ID] else []).
  { intros pr Hp. unfold s1, kcreate, kready. fold nt.
    change (rq_ring pr) with (ring_of (PReady pr)).
    change (rq_ring (prio nt)) with (ring_of (PReady (attr_prio attr))).
    rewrite <- kset_lpush_comm, kset_qlist, qlist_lpush.
    - cbn [ring_of]. rewrite Hq by done. cbn [app]. destruct (decide (attr_prio attr = pr)) as [->|].
      + by rewrite decide_True.
      + rewrite decide_False; [done|congruence].
    - by apply (inv_rq _ _ _ I).
    - cbn [ring_of]. rewrite Hq by done. destruct Hv. cbn. lia. }
  assert (Hfr : first_ready s1 (seqZ 0 HARDRT_MAX_PRIO) = Some (attr_prio attr, HRT_IDLE_ID)).
  { destruct (first_ready s1 (seqZ 0 HARDRT_MAX_PRIO)) as [[pr x]|] eqn:E.
    - destruct (first_ready_spec _ _ _ _ E) as [Hin [l Hl]]. apply elem_of_seqZ in Hin.
      rewrite Hrm in Hl by lia. case_decide; [subst pr|done]. by injection Hl as <- _.
    - assert (Hn := first_ready_none _ _ (attr_prio attr) E). rewrite Hrm, decide_True in Hn by done.
      discriminate Hn. apply elem_of_seqZ. lia. }
  eexists s1, (posix_prep HRT_IDLE_ID stack n_words p), (lpop (rq_ring (attr_prio attr)) s1), _.
  split; [exact (exec_create_ok (PL := posix_port) 0 s p fn argp stack n_words attr HRT_IDLE_ID []
    I Hok Hf Hv Hpr H1 H2 H3)|]. split.
  - unfold sched_iteration. cbn [g_test_stop posix_pend set_pending posix_prep set_ctxs].
    rewrite Hts. cbn [g_switch_pending negb set_pending block_sigalrm].
    rewrite (exec_pick 0 [] s1) by done. rewrite Hfr, Z.eqb_refl, orb_true_r. reflexivity.
  - destruct (inv_head_tcb _ _ (PReady (attr_prio attr)) HRT_IDLE_ID [] I1) as (t & Ht & _ & _ & Hs & _).
    { cbn [ring_of]. by rewrite Hrm, decide_True. }
    split; [exists t; split; [rewrite (lpop_tcbs (PReady (attr_prio attr))); done|exact Hs]|].
    intros pl. apply (inv_out [HRT_IDLE_ID]); [|apply list_elem_of_here].
    eapply (inv_dequeue [] s1 (PReady (attr_prio attr)) HRT_IDLE_ID []); [done| |by apply (inv_rq _ _ _ I1)].
    cbn [ring_of]. by rewrite Hrm, decide_True.
Qed.

End creation.

(** ** Cortex-M *)

Section cortex.
Context `{C : Config} {Cok : ConfigOk C} `{Env : CortexM.CortexEnv}.
Import CortexM.
Implicit Types (s : kern) (p : cortex).

(** C40: A task that yields on Cortex-M is queued twice: [hrt_yield] appends
    it to its ready queue and requests PendSV, and [hrt__schedule] then
    finds it ready and appends it again before it selects. *)
Theorem cortex_yield_queues_twice n me s p tc old :
  running me s -> zget (g_tcbs s) me = Some tc -> old <> 0 ->
  Z.of_nat (length (qlist (rq_ring (prio tc)) s)) + 1 < HARDRT_MAX_TASKS ->
  exists s1 s2,
    exec (H := cortex_port) n hrt_yield s p = Done tt s1 (set_pendsv true p) /\
    qlist (rq_ring (prio tc)) s2 = qlist (rq_ring (prio tc)) s ++ [me; me] /\
    Null.core_call (hrt__schedule old) s1
    = Null.core_call (next_id <- hrt__pick_next_ready ;;
        (if HARDRT_DEBUG && id_out_of_range next_id then hrt_error ERR_INVALID_NEXT_ID else skip) ;;
        hrt__set_current next_id ;; _get_sp next_id) s2.
Proof.
  intros R Htc Ho Hl. destruct (running_prio _ _ _ R Htc) as [Hs Hp].
  pose proof (kyield_inv me s tc R Htc) as I1.
  assert (Ht1 : zget (g_tcbs (kyield me tc s)) me = Some (tcb_refill tc)).
  { unfold kyield. rewrite (lpush_tcbs (PReady (prio tc))). by eapply kset_tcb_get. }
  assert (Hq1 := kyield_qlist me s tc (PReady (prio tc)) R Htc). rewrite decide_True in Hq1 by done.
  cbn [ring_of] in Hq1.
  assert (Hl1 : Z.of_nat (length (qlist (rq_ring (prio tc)) (kyield me tc s))) < HARDRT_MAX_TASKS)
    by (rewrite Hq1, length_app; cbn [length]; lia).
  exists (kyield me tc s), (lpush (rq_ring (prio tc)) me
    (kset_tcb me (tcb_set_sp old (tcb_refill tc)) (kyield me tc s))). split_and!.
  - rewrite (running_exec_yield (PL := cortex_port) n me s p tc R Htc). reflexivity.
  - change (rq_ring (prio tc)) with (ring_of (PReady (prio tc))) in *.
    rewrite <- kset_lpush_comm, kset_qlist, qlist_lpush; [|by apply (inv_rq _ _ _ I1)|done].
    rewrite decide_True by done. rewrite Hq1, <- app_assoc. done.
  - unfold Null.core_call.
    apply (exec_schedule_ready (PL := Null.null_port) 0 [] me _ tt old (tcb_refill tc)); try done.
    rewrite kyield_current. apply R.
Qed.

(** On Cortex-M a quantum is granted once. When it has run out,
    [hrt__schedule] puts the task back into its queue with nothing left,
    and a task that runs with nothing left is never charged: its ticks
    request no switch, so it is not rotated again until it blocks, sleeps
    or yields. (The refill is in [hrt__on_scheduler_entry], which this
    port does not call.) *)
Theorem cortex_quantum_not_refilled n s (p : cortex) me tc old :
  zget (g_tcbs s) me = Some tc -> slice_left tc = 0 -> old <> 0 -> switching me s ->
  (exists tc' v, Null.core_call (hrt__schedule old) s
     = @Done Null.null_port Z v (kdispatch (ksave me old s)) tt /\
     zget (g_tcbs (kdispatch (ksave me old s))) me = Some tc' /\
     slice_left tc' = 0 /\ timeslice_cfg tc' = timeslice_cfg tc) /\
  (running me s -> no_sleepers s -> exists s', exec (H := cortex_port) n hrt__tick_isr s p = Done tt s' p /\
     running me s').
Proof.
  intros Htc Hz Ho Sw. split.
  - exists (tcb_set_sp old tc). eexists. split; [by apply (exec_schedule (PL := Null.null_port))|].
    destruct (kdispatch_spec _ (ksave_inv me old s Sw)) as [_ ->].
    rewrite (ksave_tcbs me old s me tc Htc), decide_True by done. done.
  - intros R Hns. exists (tick_spec s).1. split; [|by apply running_tick].
    assert (Hv : valid_id (g_current s)) by (rewrite (run_cur _ _ R); by eapply running_valid).
    rewrite (exec_tick_isr (PL := cortex_port) n [me] s p (run_inv _ _ R) (running_awake _ _ R) (or_intror Hv)).
    rewrite (tick_quiet_request me s tc R Htc Hns), Hz. by rewrite andb_false_r.
Qed.

End cortex.

(** ** Concrete cases *)

(** The demonstration sleeps for 4294967295 ms at 1000 Hz. *)
Lemma long_sleep_wakes_at_once_witness :
  exists tc', zget (g_tcbs (ticked 1 (ksleep 1 4294967295 (tcb_of 1 demo_run.1) demo_run.1))) 1 = Some tc' /\
    state tc' = HRT_READY.
Proof.
  apply (long_sleep_wakes_at_once 1 4294967295 demo_run.1 (tcb_of 1 demo_run.1));
    [exact (cl_run _ _ _ demo_run_ok)|vm_compute; reflexivity|lia|vm_compute; split; reflexivity|].
  vm_compute. reflexivity.
Defined.

Lemma posix_timer_period_witness :
  exists usec, Posix.itimer_usec (Posix.posix_start_systick 2000000 demo_run.1 demo_run.2) = Some usec /\
    usec = 0.
Proof.
  destruct (posix_timer_period 2000000 demo_run.1 demo_run.2) as (u & H & _ & _ & H0);
    [vm_compute; reflexivity|lia|]. exists u. split; [exact H|apply H0; lia].
Defined.

(** A stalling build. *)
Definition stalling : Config :=
  {| HARDRT_MAX_TASKS := 9; HARDRT_MAX_PRIO := 4; HARDRT_DEBUG := false; HARDRT_STALL_ON_ERROR := true |}.

Lemma stalling_ok : ConfigOk stalling.
Proof. split; cbn; lia. Qed.

Definition stalling_state : kern :=
  match exec (H := Null.null_port) 0 (@hrt_init stalling None) (@kern_boot stalling) tt with
  | Done _ s _ | Swapped _ s _ | Halted _ s _ | Spinning s _ => s
  end.

Lemma stalls_before_first_dispatch_witness :
  exists s', exec (H := @Null.null_port) 0 (@hrt__tick_isr stalling) stalling_state tt
             = @Halted Null.null_port unit HStall s' tt.
Proof.
  eexists. apply (stalls_before_first_dispatch (C := stalling) (Cok := stalling_ok)
    (PL := Null.null_port) 0 stalling_state tt eq_refl).
  - apply (inv_check_sound (C := stalling)). vm_compute. reflexivity.
  - reflexivity.
  - apply no_sleepers_check. vm_compute. reflexivity.
Defined.

(** Priority 7 does not exist in a build of four. *)
Lemma bad_priority_is_lost_witness :
  exists s' p', pexec 0 (hrt_create_task 64 0 45056 64 (Some {| priority := 7; timeslice := 0 |}))
      demo_started.1 demo_started.2 = Done 3 s' p' /\ lost s' 3.
Proof.
  destruct (bad_priority_is_lost (C := default_config) 0 demo_started.1 demo_started.2 64 0 45056 64
    (Some {| priority := 7; timeslice := 0 |}) 3 eq_refl demo_started_inv) as (s' & p' & H1 & H2 & _);
    [vm_compute; reflexivity|vm_compute; reflexivity|lia|vm_compute; discriminate|lia|lia|lia|].
  exists s', p'. exact (conj H1 H2).
Defined.

(** Eight tasks that sleep: the ninth creation gets the idle slot. *)
Definition eight_tasks : kern * Posix.posix :=
  let create sp := final (exec 0 (hrt_create_task 16 0 32768 64 (Some attr1)) sp.1 sp.2) in
  let '(s, p) := Nat.iter 8 create demo_inited in
  let '(_, s, p) := Posix.sched_iteration s (Posix.posix_pend p) in
  Nat.iter 8 (next_task (Api.CSleep 100)) (s, p).

Lemma eight_tasks_inv : sched_inv [] eight_tasks.1.
Proof. apply inv_check_sound. vm_compute. reflexivity. Qed.

Lemma idle_slot_is_lost_witness :
  exists s1 p1 s2 p2,
    pexec 0 (hrt_create_task 16 0 32768 64 (Some attr1)) eight_tasks.1 eight_tasks.2
    = Done HRT_IDLE_ID s1 p1 /\
    Posix.sched_iteration s1 (Posix.posix_pend p1) = (Posix.SIdle, s2, p2) /\ lost s2 HRT_IDLE_ID.
Proof.
  apply (idle_slot_is_lost eight_tasks.1 eight_tasks.2 16 0 32768 64 (Some attr1) eight_tasks_inv);
    [vm_compute; reflexivity|vm_compute; reflexivity|vm_compute; reflexivity|
    |vm_compute; split; [discriminate|reflexivity]|lia|lia|lia].
  intros pr Hpr. cbn in Hpr.
  assert (pr = 0 \/ pr = 1 \/ pr = 2 \/ pr = 3) as [E|[E|[E|E]]] by lia; rewrite E; vm_compute; reflexivity.
Defined.

Lemma cortex_yield_queues_twice_witness :
  exists s1 s2,
    exec (H := CortexM.cortex_port (Env := Board.board)) 0 hrt_yield Board.switch0.1.2 Board.switch0.2
    = @Done (CortexM.cortex_port (Env := Board.board)) unit tt s1 (CortexM.set_pendsv true Board.switch0.2) /\
    qlist (rq_ring 1) s2 = [1; 0; 0].
Proof.
  destruct (cortex_yield_queues_twice (Env := Board.board) 0 0 Board.switch0.1.2 Board.switch0.2
    (tcb_of 0 Board.switch0.1.2) 536875168 Board.switch0_running) as (s1 & s2 & H1 & H2 & _);
    [vm_compute; reflexivity|discriminate|vm_compute; reflexivity|].
  exists s1, s2. split; [exact H1|].
  assert (E : prio (tcb_of 0 Board.switch0.1.2) = 1) by (vm_compute; reflexivity).
  assert (E1 : qlist (rq_ring 1) Board.switch0.1.2 = [1]) by (vm_compute; reflexivity).
  rewrite E, E1 in H2. exact H2.
Defined.

(** Task 0 of the board, two ticks later: its quantum is used up. *)
Definition board_expired : kern :=
  match exec (H := Null.null_port) 0 (_ <- hrt__tick_isr ;; hrt__tick_isr) Board.switch0.1.2 tt with
  | Done _ s _ | Swapped _ s _ | Halted _ s _ | Spinning s _ => s
  end.

Lemma board_expired_running : running 0 board_expired.
Proof. apply running_check_sound. vm_compute. reflexivity. Qed.

Lemma cortex_quantum_not_refilled_witness :
  slice_left (tcb_of 0 board_expired) = 0 /\ timeslice_cfg (tcb_of 0 board_expired) = 2 /\
  exists tc', zget (g_tcbs (kdispatch (ksave 0 536875168 board_expired))) 0 = Some tc' /\
              slice_left tc' = 0.
Proof.
  split; [vm_compute; reflexivity|]. split; [vm_compute; reflexivity|].
  destruct (cortex_quantum_not_refilled (Env := Board.board) 0 board_expired Board.switch0.2 0
    (tcb_of 0 board_expired) 536875168) as [(tc' & v & _ & H1 & H2 & _) _];
    [vm_compute; reflexivity|vm_compute; reflexivity|discriminate|left; exact board_expired_running|].
  exists tc'. exact (conj H1 H2).
Defined.

(** ** A tick in the middle of a call

    System.v lets interrupts come between two calls. Here one comes between
    two statements of a call: [hrt_yield] puts the running task into its
    ready queue without a critical section, and the tick handler puts the
    tasks it wakes into the same queue. *)

Module YieldRace.
Import Posix.

(** The call with a SIGALRM after [k] of its statements. The handler runs
    to its end, then the call goes on. *)
Definition signal_after `{Config} {A} (k : nat) (c : prog A) (s : kern) (p : posix) : option (presult A) :=
  '(c', s1, p1) ← run_steps (PL := posix_port) k c s p;
  if sigalrm_blocked p1 then None
  else match _tick_sighandler s1 p1 with
       | Done _ s2 p2 => Some (exec (H := posix_port) 1 c' s2 p2)
       | _ => None
       end.

(** ** A run *)

Definition sys_call (c : api) (me : Z) (sg : sys) : sys :=
  let r := exec (H := posix_port) 1 (api_prog c) (s_kern sg) (s_port sg) in
  after_call me false (forget_new c r (s_conts sg)) r.

(** Two tasks of the same priority: task 0 sleeps for one tick, task 1 runs. *)
Definition race_main : sys := sys_create 32 36864 attr1 demo_sys1.
Definition race_start : sys :=
  after_start race_main (exec 0 hrt_start (s_kern race_main) (s_port race_main)).
Definition race_task0 : sys := after_iteration false race_start.
Definition race_sleeping : sys := sys_call (CSleep 1) 0 race_task0.
Definition race_task1 : sys := after_iteration false race_sleeping.

(** Task 1 yields; the signal comes after seven of its statements, between
    the store into the queue and the move of its tail. *)
Definition race_yield : option (presult api_res) :=
  signal_after 7 (api_prog CYield) (s_kern race_task1) (s_port race_task1).
Definition race_result : presult api_res :=
  default (@Spinning posix_port api_res kern_boot posix_boot) race_yield.
Abbreviation race_after := (after_call 1 false (s_conts race_task1) race_result).

Lemma race_steps : rtc step demo_sys0 race_task1.
Proof.
  apply rtc_l with demo_sys1.
  { unfold demo_sys1, sys_create. apply step_create; [reflexivity|].
    split; [|vm_compute; discriminate]. vm_compute. repeat split; discriminate. }
  apply rtc_l with race_main.
  { unfold race_main, sys_create. apply step_create; [vm_compute; reflexivity|].
    split; [|vm_compute; discriminate]. vm_compute. repeat split; discriminate. }
  apply rtc_l with race_start.
  { unfold race_start. apply step_start. vm_compute. reflexivity. }
  apply rtc_l with race_task0.
  { unfold race_task0. apply step_sched. vm_compute. reflexivity. }
  apply rtc_l with race_sleeping.
  { unfold race_sleeping, sys_call.
    apply (step_call race_task0 0 false (CSleep 1) 0); [vm_compute; reflexivity|exact Logic.I]. }
  apply rtc_once. unfold race_task1. apply step_sched. vm_compute. reflexivity.
Qed.

(** The ready queues after it. *)
Lemma race_queues pr : qlist (rq_ring pr) (s_kern race_after) = if pr =? 1 then [0; 0] else [].
Proof.
  destruct (decide (0 <= pr < 4)) as [Hp|Hp].
  - assert (pr = 0 \/ pr = 1 \/ pr = 2 \/ pr = 3) as [E|[E|[E|E]]] by lia; rewrite E; vm_compute; reflexivity.
  - unfold qlist, rq_ring. cbn [rget]. unfold zget.
    assert (El : length (g_rq (s_kern race_after)) = 4%nat) by (vm_compute; reflexivity).
    rewrite (proj2 (Z.eqb_neq pr 1)) by lia. destruct (Z.ltb_spec pr 0); [done|].
    by rewrite lookup_ge_None_2 by lia.
Qed.

(** C39: A signal in the middle of [hrt_yield] can lose the task. There is a
    reachable state of the POSIX system in which the running task calls
    [hrt_yield] and, with SIGALRM unblocked, the tick comes between the
    store of its id into the ready queue and the move of the tail: the
    sleeper that the tick wakes is stored over it. Back in the scheduler
    the task is ready, but in no ready queue, and the other one is queued
    twice. ([rq_push] is called there without a critical section.) *)
Theorem tick_in_yield_loses_task :
  exists sg0 sg me other pr k r,
    initial sg0 /\ rtc step sg0 sg /\ s_mode sg = InTask me false /\
    sigalrm_blocked (s_port sg) = false /\
    signal_after k (api_prog CYield) (s_kern sg) (s_port sg) = Some r /\
    let s' := s_kern (after_call me false (s_conts sg) r) in
    s_mode (after_call me false (s_conts sg) r) = InSched /\
    is_ready s' me /\ (forall pr, me ∉ qlist (rq_ring pr) s') /\
    other <> me /\ qlist (rq_ring pr) s' = [other; other].
Proof.
  exists demo_sys0, race_task1, 1, 0, 1, 7%nat, race_result.
  split; [exact demo_initial|]. split; [exact race_steps|].
  split; [vm_compute; reflexivity|]. split; [vm_compute; reflexivity|].
  split; [vm_compute; reflexivity|]. cbv zeta.
  split; [vm_compute; reflexivity|]. split; [vm_compute; eexists; split; reflexivity|].
  split; [|split; [done|exact (race_queues 1)]].
  intros pr. rewrite race_queues. destruct (pr =? 1); apply (bool_decide_unpack _); reflexivity.
Qed.

End YieldRace.
