(* ===== verification/CortexProps.v ===== *)
(** * Properties of the Cortex-M system

    The system of CortexMachine.v never faults and loses no task; the most
    urgent task runs; contexts are isolated; critical sections are
    balanced. *)

From stdpp Require Import base tactics numbers list option gmap relations.
From S2P Require Import Prelude Types Prog Ring Core Sched Sem Mutex Queue PortNull PortCortexM.
From S2P Require Import CoreFacts Inv SchedFacts InitFacts Running Api ApiSafe ApiCalls.
From S2P Require Import ApiTheorem IsrSafe PickFacts System CortexFacts.
From S2P Require Import Frame Stmt CritBal StmtSafe CortexMachine CortexInv CortexSteps CortexBoot.
From S2P Require Import CortexCtx Demo PortProps.
Open Scope Z_scope.
Open Scope prog_scope.
Import CortexM.

Section props.
Context `{C : Config} {Cok : ConfigOk C} `{Env : CortexEnv} {EnvOk : CortexEnvOk}.
Implicit Types (s : kern) (p : cortex) (g : machine).

(** The kernel state outside of critical sections. *)
Lemma cinv_unmasked w g :
  cinv w g -> BASEPRI (mc_port g) = 0 ->
  objects_ok (mc_kern g) /\
  (running (current g) (mc_kern g) \/ sched_inv [] (mc_kern g) /\ ~ is_ready (mc_kern g) (current g)).
Proof.
  intros [s0 [Ph O Ho _ _ _]] Hb.
  destruct Ph as [Hd Hcur Hi|Hl Hcur Hi|Hl Hop|s0 c1 Hl Hop Hown Hm|c1 Hl Hpk]; (split; [try done|]).
  - right. split; [done|]. rewrite Hcur. intros (t & Ht & _). apply zget_Some in Ht. lia.
  - right. split; [done|]. rewrite Hcur. intros (t & Ht & Hr).
    destruct (oo_idle _ _ _ _ O) as (t' & Ht' & Hu). congruence.
  - left. apply Hop.
  - destruct Hm as (_ & Hb' & _). pose proof syscall_level_range. lia.
  - destruct Hm as (_ & Hb' & _). pose proof syscall_level_range. lia.
  - right. split; [apply Hpk|]. intros (t & Ht & Hr).
    destruct (pk_not_ready _ _ _ Hpk) as (t' & Ht' & Hu). congruence.
Qed.

(** Who is stored where, then: every ready task but the running one exactly
    once, in the ready queue of its priority. *)
Definition in_order g : Prop :=
  objects_ok (mc_kern g) /\ (forall pl, NoDup (qlist (ring_of pl) (mc_kern g))) /\
  forall i tc, zget (g_tcbs (mc_kern g)) i = Some tc -> state tc = HRT_READY ->
    if decide (i = current g) then forall pl, i ∉ qlist (ring_of pl) (mc_kern g)
    else forall pl, i ∈ qlist (ring_of pl) (mc_kern g) <-> pl = PReady (prio tc).

Lemma cinv_in_order w g : cinv w g -> BASEPRI (mc_port g) = 0 -> in_order g.
Proof.
  intros I Hb. destruct (cinv_unmasked _ _ I Hb) as [Ho Hk].
  split; [done|]. destruct Hk as [R|[I' Hnr]].
  - split; [apply (inv_nodup _ _ (run_inv _ _ R))|]. intros i tc Htc Hs. case_decide as E.
    + intros pl. subst. by apply (running_not_queued _ _ pl R).
    + eapply ready_queued_out; [apply R| |done|done]. by rewrite list_elem_of_singleton.
  - split; [apply (inv_nodup _ _ I')|]. intros i tc Htc Hs. case_decide as E.
    + exfalso. apply Hnr. exists tc. by subst.
    + eapply ready_queued_out; [exact I'|by apply not_elem_of_nil|done|done].
Qed.



(** C10: Contexts are isolated on Cortex-M, for tasks that make only calls
    which wake nobody ([wakes_nobody]: no yield, give, unlock, send, receive
    or creation) and handlers that do not wake a task which has parked
    itself and is not yet switched out ([still_parked]). In any run of that
    system, take a switch by PendSV out of the running context [me], and the
    first moment at which [me] runs again, after any steps of the other
    tasks, of the handlers and of the kernel in between: the stack pointer and the registers r4 to r11
    are those it had, no word of the used part of its stack (with the
    registers the hardware stacked there) has changed, its stack is where
    it was, and it goes on with the same rest of the same call. *)
Theorem cortex_context_isolated g0 g1 g me :
  HARDRT_STALL_ON_ERROR = false -> cinitial g0 -> rtc cstep g0 g1 ->
  current g1 = me -> 0 <= me -> switch_due (mc_port g1) = true ->
  rtc (fun a b => cstep a b /\ current a <> me) (after_pendsv g1) g -> current g = me ->
  mc_cpu g = mc_cpu g1 /\ mc_code g !! me = mc_code g1 !! me /\
  stack_hi (mc_kern g) me = stack_hi (mc_kern g1) me /\
  forall a, psp (mc_cpu g1) <= a < stack_hi (mc_kern g1) me ->
    ram (mc_port g) !! a = ram (mc_port g1) !! a.
Proof.
  intros Hst Hi Hr Hme H0 Hsd Hrun Hcur. destruct (reach_cinv Hst g0 g1 Hi Hr) as [I Hneg].
  destruct (pendsv_effect _ g1 I ltac:(lia) Hsd Hneg) as (Htc & m & x & tx & Sw).
  pose proof (switched_out _ _ _ _ _ _ Sw Htc) as K. rewrite Hme in K.
  assert (Hcpu : cpu_ok (mc_kern g1) me (mc_cpu g1)) by (rewrite <- Hme; apply Sw).
  assert (Hs : cstep g1 (after_pendsv g1)) by (apply cstep_pendsv; [by eapply cinv_up|done]).
  pose proof (step_cinv Hst _ _ _ I Hneg Hs) as I2. pose proof (step_code _ _ Hs Hneg) as Hneg2.
  assert (K' : ctx_kept me g1 g).
  { clear Hcur Sw Hs. revert K I2 Hneg2. induction Hrun as [|a b c [Hab Hne] _ IH]; [done|].
    intros K I2 Hneg2. apply IH; [by eapply ctx_cstep|by eapply step_cinv|by eapply step_code]. }
  destruct K' as (_ & _ & Hcode & H). destruct (H (or_introl Hcur)) as (_ & Hhi & Hram & Hc).
  rewrite decide_True in Hc by done. done.
Qed.

(** C14: Critical sections are balanced, in every call of the API on the
    Cortex-M port, on every path and after any number of its statements:
    they do not nest, [BASEPRI] is raised to the configured level exactly
    inside of them, and it is down when the call returns, when it asks for
    a context switch, when it hops to the scheduler and when it enters the
    next critical section: a switch that a call asks for is never delayed
    by a critical section of its own. *)
Theorem crit_balanced c k s p rest s' p' :
  g_cs_nest p = 0 -> BASEPRI p = 0 ->
  run_steps (PL := cortex_port) k (api_prog c) s p = Some (rest, s', p') ->
  (g_cs_nest p' = 0 /\ BASEPRI p' = 0 \/ g_cs_nest p' = 1 /\ BASEPRI p' = syscall_level) /\
  match rest with
  | Ret _ | Port hrt__pend_context_switch _ | Port hrt_port_yield_to_scheduler _
  | Port hrt_port_crit_enter _ => g_cs_nest p' = 0 /\ BASEPRI p' = 0
  | Port hrt_port_crit_exit _ => g_cs_nest p' = 1 /\ BASEPRI p' = syscall_level
  | _ => True
  end.
Proof.
  intros Hn Hb E. destruct (bal_steps k false false _ s p rest s' p' (bal_api c) (conj Hn Hb) E)
    as ([|] & Hbal & Hm).
  - destruct Hm as (H1 & H2 & _). split; [by right|]. destruct rest as [| | |pc|]; try done.
    destruct Hbal as (m1 & Hc & _). by destruct pc.
  - destruct Hm as [H1 H2]. split; [by left|]. destruct rest as [| | |pc|]; try done.
    destruct Hbal as (m1 & Hc & _). by destruct pc.
Qed.

End props.

(** ** A run on a board *)

Module BoardRun.
Import Board.

#[export] Instance board_ok : CortexEnvOk.
Proof. by split. Qed.

(** A step while another context than [me] runs. *)
Definition away (me : Z) (a b : machine) : Prop := cstep a b /\ current a <> me.

(** Run the next statements of the running task; [stmts_ok] checks that no
    switch is due before any of them. *)
Fixpoint run_stmts (k : nat) (g : machine) : machine :=
  match k with
  | O => g
  | S k' =>
      match mc_code g !! current g with
      | Some c => run_stmts k' (after_stmt g c)
      | None => g
      end
  end.

Fixpoint stmts_ok (me : Z) (k : nat) (g : machine) : bool :=
  match k with
  | O => true
  | S k' =>
      match mc_mode g, mc_code g !! current g with
      | Live, Some c =>
          negb (switch_due (mc_port g)) && negb (current g =? me) && stmts_ok me k' (after_stmt g c)
      | _, _ => false
      end
  end.

Lemma run_stmts_away me k g : stmts_ok me k g = true -> rtc (away me) g (run_stmts k g).
Proof.
  revert g. induction k as [|k IH]; intros g; cbn [stmts_ok run_stmts]; [done|].
  destruct (mc_mode g) eqn:Hm; try done. destruct (mc_code g !! current g) as [c|] eqn:Hc; [|done].
  intros [[Hs Hne]%andb_true_iff Hk]%andb_true_iff. apply negb_true_iff in Hs, Hne.
  apply Z.eqb_neq in Hne. eapply rtc_l; [split; [by apply cstep_stmt|done]|by apply IH].
Qed.

Lemma away_steps me a b : rtc (away me) a b -> rtc cstep a b.
Proof. apply rtc_subrel. by intros x y [H _]. Qed.

(** A call, up to its [k]-th statement. *)
Definition calls (c : api) (g : machine) : machine :=
  mkMachine (mc_kern g) (mc_port g) (mc_cpu g) Live (<[current g := api_prog c]> (mc_code g)).

Lemma calls_away me c k g :
  mc_mode g = Live -> switch_due (mc_port g) = false -> 0 <= current g ->
  current g <> HRT_IDLE_ID -> mc_code g !! current g = None -> wakes_nobody c = true ->
  api_pre (mc_kern g) c -> current g <> me -> stmts_ok me k (calls c g) = true ->
  rtc (away me) g (run_stmts k (calls c g)).
Proof.
  intros H1 H2 H3 H4 H5 H6 H7 Hne Hk. eapply rtc_l; [split; [by apply cstep_call|done]|].
  by apply run_stmts_away.
Qed.

Definition kinited : kern * cortex :=
  match exec (H := cortex_port) 0 (hrt_init None) demo_objects cortex_reset with
  | Done _ s p | Swapped _ s p | Halted _ s p | Spinning s p => (s, p)
  end.

Definition run0 : machine := mkMachine kinited.1 kinited.2 zero_cpu Boot ∅.
Definition create_on (fn stack : Z) (g : machine) : machine :=
  after_main g (exec (H := cortex_port) 0 (hrt_create_task fn 0 stack 64 (Some attr1))
    (mc_kern g) (mc_port g)).
Definition run1 : machine := create_on 16 STACK0 run0.
Definition run2 : machine := create_on 32 STACK1 run1.
Definition run3 : machine :=
  after_launch run2 (exec (H := cortex_port) 0 hrt_start (mc_kern run2) (mc_port run2)).
(** Task 0 runs, and computes. *)
Definition run4 : machine := after_pendsv run3.
Definition run5 : machine :=
  mkMachine (mc_kern run4) (set_ram (ram (mc_port run4)) (mc_port run4)) cpu0 Live (mc_code run4).
(** It sleeps for a tick: before, and after its request for a switch. *)
Definition run_parked : machine := run_stmts 4 (calls (CSleep 1) run5).
Definition run6 : machine := run_stmts 5 (calls (CSleep 1) run5).
(** Task 1 runs, sleeps for three; the idle context runs. *)
Definition run7 : machine := after_pendsv run6.
Definition run8 : machine := run_stmts 5 (calls (CSleep 3) run7).
Definition run9 : machine := after_pendsv run8.
(** The tick wakes task 0, which runs again. *)
Definition run10 : machine := after_handler run9 (run_handler run9 SysTick_Handler).
Definition run11 : machine := after_pendsv run10.

Lemma run_initial : cinitial run0.
Proof.
  unfold run0. apply (cinit_machine None demo_objects (replicate 8 0)).
  - exact demo_objects_idle.
  - exact demo_objects_ok.
  - exact Logic.I.
  - assert (E : match exec (H := cortex_port) 0 (hrt_init None) demo_objects cortex_reset with
                | Done v _ _ => v =? 0 | _ => false end = true) by (vm_compute; reflexivity).
    unfold kinited. destruct (exec _ _ _ _) as [v s p| | |]; try discriminate E.
    apply Z.eqb_eq in E. by subst.
Qed.

(** Concrete stacks are apart. *)
Definition apart (s : kern) (stack n : Z) (i : Z) : bool :=
  negb (bool_decide (i = HRT_IDLE_ID) || match zget (g_tcbs s) i with
    Some tc => negb (bool_decide (state tc = HRT_UNUSED)) | None => false end) ||
  (stack + 4 * n <=? stack_lo s i) || (stack_hi s i <=? stack).

Lemma fresh_check s stack n :
  0 < stack -> length (g_tcbs s) = 9%nat -> forallb (apart s stack n) (seqZ 0 9) = true ->
  fresh_stack s stack n.
Proof.
  intros Hp Hlen Hall. split; [done|]. intros i Hi.
  assert (Hv : 0 <= i < 9).
  { destruct Hi as [->|(t & Ht & _)]; [vm_compute; split; congruence|]. apply zget_Some in Ht. lia. }
  rewrite forallb_forall in Hall. specialize (Hall i).
  rewrite <- list_elem_of_In, elem_of_seqZ in Hall. specialize (Hall ltac:(lia)).
  unfold apart in Hall. apply orb_true_iff in Hall as [[Hall|Hall]%orb_true_iff|Hall].
  - exfalso. apply negb_true_iff, orb_false_iff in Hall as [Ha Hb].
    destruct Hi as [->|(t & Ht & Hu)]; [by rewrite bool_decide_true in Ha|].
    rewrite Ht in Hb. by rewrite bool_decide_false in Hb.
  - left. by apply Z.leb_le.
  - right. by apply Z.leb_le.
Qed.

Lemma create_steps fn stack g :
  mc_mode g = Boot -> bool_decide (free_slot (mc_kern g) <> HRT_IDLE_ID) = true -> 0 < stack ->
  length (g_tcbs (mc_kern g)) = 9%nat -> forallb (apart (mc_kern g) stack 64) (seqZ 0 9) = true ->
  rtc cstep g (create_on fn stack g).
Proof.
  intros H1 H2 H3 H4 H5. unfold create_on. apply rtc_once.
  apply cstep_create; [exact H1| |by apply fresh_check].
  apply bool_decide_eq_true in H2. split; [|exact H2]. split; [discriminate|reflexivity].
Qed.

Lemma pendsv_once g g' :
  g' = after_pendsv g -> down g = false -> switch_due (mc_port g) = true -> rtc cstep g g'.
Proof. intros -> H1 H2. by apply rtc_once, cstep_pendsv. Qed.

Lemma run2_steps : rtc cstep run0 run2.
Proof.
  trans run1; [unfold run1; apply (create_steps 16 STACK0 run0); vm_compute; reflexivity|].
  unfold run2; apply (create_steps 32 STACK1 run1); vm_compute; reflexivity.
Qed.

Lemma run3_steps : rtc cstep run2 run3.
Proof. unfold run3. apply rtc_once. apply (cstep_start run2). vm_compute. reflexivity. Qed.

Lemma run4_steps : rtc cstep run3 run4.
Proof. apply (pendsv_once run3); [reflexivity|vm_compute; reflexivity..]. Qed.

Lemma run5_steps : rtc cstep run0 run5.
Proof.
  trans run2; [exact run2_steps|]. trans run3; [exact run3_steps|]. trans run4; [exact run4_steps|].
  unfold run5. apply rtc_once. apply (cstep_compute run4).
  - vm_compute. reflexivity.
  - vm_compute. reflexivity.
  - vm_compute. congruence.
  - vm_compute. split; congruence.
  - reflexivity.
  - intros a _. reflexivity.
Qed.

Lemma run5_calls k :
  stmts_ok (-1) k (calls (CSleep 1) run5) = true ->
  rtc cstep run0 (run_stmts k (calls (CSleep 1) run5)).
Proof.
  intros Hk. trans run5; [exact run5_steps|]. apply (away_steps (-1)).
  apply (calls_away (-1) (CSleep 1) k run5); [vm_compute; congruence..|exact Logic.I|vm_compute; congruence|exact Hk].
Qed.

Lemma run6_steps : rtc cstep run0 run6.
Proof. apply run5_calls. vm_compute. reflexivity. Qed.

Lemma parked_steps : rtc cstep run0 run_parked.
Proof. apply run5_calls. vm_compute. reflexivity. Qed.

Lemma run11_away : rtc (away 0) run7 run11.
Proof.
  assert (Hp : forall g g', g' = after_pendsv g -> down g = false -> switch_due (mc_port g) = true ->
    current g <> 0 -> rtc (away 0) g g').
  { intros g g' -> H1 H2 H3. apply rtc_once. split; [by apply cstep_pendsv|done]. }
  trans run8; [unfold run8; apply (calls_away 0 (CSleep 3) 5 run7); try reflexivity; vm_compute; congruence|].
  trans run9; [apply (Hp run8); [reflexivity|vm_compute; reflexivity..|vm_compute; discriminate]|].
  trans run10; [|apply (Hp run10); [reflexivity|vm_compute; reflexivity..|vm_compute; discriminate]].
  unfold run10. apply rtc_once. split; [|vm_compute; discriminate].
  apply (cstep_systick run9); [vm_compute; reflexivity..|].
  vm_compute. intros tc tc' _ _ [= <-]. discriminate.
Qed.



(** Task 0 is switched out in the middle of [hrt_sleep], task 1 and the
    idle context run, and the tick wakes task 0. *)
Lemma cortex_context_isolated_witness : current run11 = 0 /\ mc_cpu run11 = cpu0.
Proof.
  assert (Hc : current run11 = 0) by (vm_compute; reflexivity).
  assert (E : mc_cpu run6 = cpu0) by (vm_compute; reflexivity). split; [exact Hc|]. rewrite <- E.
  refine (proj1 (cortex_context_isolated (C := default_config) run0 run6 run11 0 eq_refl run_initial run6_steps _ _ _ run11_away Hc)).
  - vm_compute. reflexivity.
  - lia.
  - vm_compute. reflexivity.
Defined.

(** Three statements into [hrt_sem_take], the unit is there. *)
Lemma crit_balanced_witness :
  exists rest s' p', run_steps (PL := cortex_port) 3 (api_prog (CSemTake SEM)) (mc_kern run5) (mc_port run5)
    = Some (rest, s', p') /\ g_cs_nest p' = 1.
Proof.
  destruct (run_steps (PL := cortex_port) 3 (api_prog (CSemTake SEM)) (mc_kern run5) (mc_port run5))
    as [[[rest s'] p']|] eqn:E.
  - exists rest, s', p'. split; [reflexivity|].
    destruct (crit_balanced (CSemTake SEM) 3 (mc_kern run5) (mc_port run5) rest s' p') as [_ H];
      [vm_compute; reflexivity..|exact E|].
    assert (Hr : exists k, rest = Port hrt_port_crit_exit k).
    { vm_compute in E. injection E as <- _ _. eexists. reflexivity. }
    destruct Hr as [k ->]. exact (proj1 H).
  - exfalso. vm_compute in E. discriminate.
Defined.

End BoardRun.
