(* ===== verification/FirmwareProps.v ===== *)
(** * The board examples on the Cortex-M system

    The programs of H755.v and Timing.v as programs of Firmware.v: [main]
    runs on the Cortex-M port, and the tasks, SysTick, the timer handlers
    and PendSV run on the system of CortexMachine.v. *)

From stdpp Require Import base tactics numbers list option gmap relations.
From S2P Require Import Prelude Types Prog Ring Core Sched Sem Mutex Queue PortNull PortCortexM.
From S2P Require Import CoreFacts Inv SchedFacts InitFacts SemFacts MutexFacts QueueFacts Running.
From S2P Require Import Api ApiSafe ApiCalls ApiTheorem IsrSafe PickFacts System CortexFacts Cpp App Preempt.
From S2P Require Import Examples H755 Timing TimingFacts TimingRace TimingProps.
From S2P Require Import Frame Stmt CritBal StmtSafe CortexMachine CortexInv CortexSteps CortexBoot CortexCtx.
From S2P Require Import CortexProps Firmware.
Open Scope Z_scope.
Import CortexM.

(** ** [main] up to [hrt_start] *)

Section boot.
Context `{C : Config} {Cok : ConfigOk C} `{Env : CortexEnv} {EnvOk : CortexEnvOk}.
Hypothesis Hstall : HARDRT_STALL_ON_ERROR = false.

(** After [hrt_init]. *)
Definition init_kern (cfg : option hrt_config_t) (s : kern) : kern :=
  kset_tcb HRT_IDLE_ID (tcb_set_sp idle_sp (tcb_set_state HRT_UNUSED tcb_zero)) (init_state cfg s).

Definition init_port (cfg : option hrt_config_t) (s : kern) : cortex :=
  let p := start_systick (PortLayer := cortex_port) (g_tick_hz (init_state cfg s)) (init_state cfg s) cortex_reset in
  set_ram (push_words (exception_frame addr_idle_task addr_task_trampoline)
             (addr_idle_stack + 4 * HARDRT_IDLE_STACK_WORDS) (ram p)).2
    (set_idle_tcb (tcb_set_sp idle_sp (mkTcb 0 0 0 addr_idle_task 0 0 0 0 0 HRT_READY)) p).

Lemma init_idle_tcb cfg s :
  zget (g_tcbs (init_state cfg s)) HRT_IDLE_ID = Some (tcb_set_state HRT_UNUSED tcb_zero).
Proof.
  destruct (zget_is_Some (g_tcbs (init_state cfg s)) HRT_IDLE_ID) as [tc Htc].
  - assert (g_tcbs (init_state cfg s) = replicate (Z.to_nat HARDRT_MAX_TASKS)
      (tcb_set_state HRT_UNUSED tcb_zero)) as -> by by destruct cfg.
    rewrite length_replicate. pose proof idle_valid as [? ?]. lia.
  - rewrite Htc. by apply init_tcb in Htc as ->.
Qed.

Lemma init_done n cfg s :
  exec (H := cortex_port) n (hrt_init cfg) s cortex_reset = @Done cortex_port _ 0 (init_kern cfg s) (init_port cfg s).
Proof.
  rewrite (exec_init (PL := cortex_port)), (exec_port_call (PL := cortex_port)).
  cbn [port_do init_idle_task cortex_port]. unfold cm_init_idle_task, init_port, init_kern. cbv zeta.
  set (p := start_systick _ _ _). pose proof idle_stack_pos.
  set (top := addr_idle_stack + 4 * HARDRT_IDLE_STACK_WORDS).
  pose proof (push_words_sp (exception_frame addr_idle_task addr_task_trampoline) top (ram p)) as Hsp.
  destruct (push_words _ top (ram p)) as [stk m]. cbn [fst snd] in *.
  assert (stk = idle_sp) as -> by exact Hsp. unfold call_core, Null.core_call.
  rewrite (exec_set_sp 0 (PL := Null.null_port) _ tt HRT_IDLE_ID idle_sp _ idle_valid (init_idle_tcb cfg s));
    [|unfold idle_sp, HARDRT_IDLE_STACK_WORDS; lia].
  done.
Qed.

(** While [main] creates tasks: [fns] are the functions and arguments of
    those it has created, in the order of their ids, and [stacks] where
    their stacks are. *)
Record booting (w : world) (m : machine) (fns : list (Z * Z)) (stacks : list (Z * Z)) : Prop := {
  bo_mode : mc_mode m = Boot;
  bo_code : mc_code m = ∅;
  bo_inv : cinv w m;
  bo_current : current m = -1;
  bo_state : forall i tc, zget (g_tcbs (mc_kern m)) i = Some tc ->
    (state tc = HRT_UNUSED <-> Z.of_nat (length fns) <= i);
  bo_entry : forall i tc, zget (g_tcbs (mc_kern m)) i = Some tc -> i < Z.of_nat (length fns) ->
    fns !! Z.to_nat i = Some (entry tc, arg tc);
  bo_stack : forall i, live (mc_kern m) i -> i <> HRT_IDLE_ID ->
    (stack_lo (mc_kern m) i, stack_hi (mc_kern m) i) ∈ stacks
}.

Lemma boot_init cfg s regs :
  objects_idle s -> objects_ok s -> cfg_wf cfg ->
  booting (shape s) (mkMachine (init_kern cfg s) (init_port cfg s) (mkCpu 0 regs) Boot ∅) [] [].
Proof.
  intros H1 H2 H3.
  assert (Hi : cinitial (mkMachine (init_kern cfg s) (init_port cfg s) (mkCpu 0 regs) Boot ∅)).
  { by eapply cinit_machine; [..|apply init_done]. }
  destruct (initial_cinv _ Hi) as (_ & _ & I). cbn [mc_kern] in I.
  assert (Es : shape (init_kern cfg s) = shape s) by by destruct cfg.
  rewrite Es in I.
  assert (Ht : forall i tc, zget (g_tcbs (init_kern cfg s)) i = Some tc -> state tc = HRT_UNUSED).
  { intros i tc. unfold init_kern. erewrite kset_tcb_lookup by apply init_idle_tcb.
    case_decide; [by intros [= <-]|by intros ->%init_tcb]. }
  split; cbn [mc_mode mc_code mc_kern]; try done.
  - by destruct cfg.
  - intros i tc Htc. pose proof (zget_Some _ _ _ Htc). specialize (Ht i tc Htc). cbn. split; [lia|done].
  - intros i tc Htc. pose proof (zget_Some _ _ _ Htc). cbn. lia.
  - intros i (tc & Htc & Hu). by specialize (Ht i tc Htc).
Qed.

(** The ranges of addresses from [a] to [b] and from [c] to [d] are disjoint. *)
Definition disjoint (r1 r2 : Z * Z) : Prop := r1.2 <= r2.1 \/ r2.2 <= r1.1.
Definition idle_range : Z * Z := (addr_idle_stack, addr_idle_stack + 4 * HARDRT_IDLE_STACK_WORDS).

Lemma boot_create w m fns stacks fn stack words attr :
  booting w m fns stacks -> Z.of_nat (length fns) < HRT_IDLE_ID -> fn <> 0 -> 0 < stack -> 64 <= words ->
  0 <= attr_prio (Some attr) < HARDRT_MAX_PRIO ->
  Forall (disjoint (stack, stack + 4 * words)) (idle_range :: stacks) ->
  exists s p, exec (H := cortex_port) 1 (int_call (hrt_create_task fn 0 stack words (Some attr))) (mc_kern m) (mc_port m)
      = @Done cortex_port _ (Z.of_nat (length fns), None) s p /\
    booting w (mkMachine s p (mc_cpu m) Boot ∅) (fns ++ [(fn, 0)]) ((stack, stack + 4 * words) :: stacks).
Proof.
  intros [B1 B2 B3 B4 B5 B6 B7] Hlt Hfn Hst Hw Hpr Hd. set (n := Z.of_nat (length fns)) in *.
  set (s0 := mc_kern m) in *. pose proof idle_valid as [_ Hidle].
  assert (Hi : sched_inv [] s0).
  { destruct (cinv_current w m B3) as [(_ & Hi & _)|?]; [done|lia]. }
  assert (Hlen := kwf_tcbs _ (bwf_kern _ (inv_base _ _ Hi))).
  destruct (zget_is_Some (g_tcbs s0) n) as [t0 Ht0]; [lia|].
  assert (Hun : forall i, is_unused s0 i = true -> n <= i).
  { unfold is_unused. intros i. destruct (zget (g_tcbs s0) i) as [tc|] eqn:E; [|done].
    intros Hu%bool_decide_eq_true. by apply (B5 i tc E). }
  assert (Hfree : free_slot s0 = n).
  { assert (Hn : is_unused s0 n = true).
    { unfold is_unused. rewrite Ht0. apply bool_decide_eq_true, (B5 n t0 Ht0). lia. }
    destruct (free_slot_cases s0) as [[_ Hno]|(Hv & Hu & Hlow)].
    - rewrite Hno in Hn; [done|split; lia].
    - apply Hun in Hu. destruct (Z.lt_total (free_slot s0) n) as [?|[?|Hgt]]; [lia|done|].
      rewrite Hlow in Hn; [done|]. pose proof (zget_Some _ _ _ Ht0). lia. }
  assert (Hv : valid_id n) by (split; lia).
  destruct (exec_create_cortex s0 (mc_port m) fn 0 stack words (Some attr) n) as (p' & E & _); try done.
  set (nt := fresh_tcb s0 fn 0 stack words (Some attr)) in *.
  exists (kready n nt s0), p'. split.
  { unfold int_call. erewrite exec_bind; [reflexivity|].
    rewrite <- E. apply exec_fuel; [lia|]. by rewrite E. }
  assert (Hfresh : fresh_stack s0 stack words).
  { apply Forall_cons in Hd as [Hd1 Hd2]. split; [done|]. intros i Ho. destruct (decide (i = HRT_IDLE_ID)) as [->|Hne].
    - unfold stack_lo, stack_hi. rewrite !decide_True by done. exact Hd1.
    - destruct Ho as [?|Hl]; [done|]. rewrite Forall_forall in Hd2. exact (Hd2 _ (B7 i Hl Hne)). }
  assert (Ht := fun j => kready_tcbs n nt s0 j t0 Ht0). split; cbn [mc_mode mc_code mc_kern]; try done.
  - pose proof (create_cinv Hstall w m fn 0 stack words (Some attr) B3 B1) as Hc. fold s0 in Hc. rewrite E in Hc.
    cbn [after_main] in Hc. rewrite B2 in Hc. apply Hc; [|done]. split; [done|]. lia.
  - unfold current. cbn [mc_kern]. rewrite <- B4. apply (kready_scalars n nt s0).
  - intros i tc. rewrite length_app. cbn [length]. rewrite Ht. case_decide as Hni.
    + intros [= <-]. cbn. split; [done|lia].
    + intros Htc. rewrite (B5 i tc Htc). pose proof (zget_Some _ _ _ Htc). lia.
  - intros i tc. rewrite length_app. cbn [length]. rewrite Ht. case_decide as Hni.
    + intros [= <-] _. subst i. rewrite lookup_app_r by lia.
      replace (Z.to_nat n - length fns)%nat with 0%nat by lia. done.
    + intros Htc Hlt'. pose proof (zget_Some _ _ _ Htc). rewrite lookup_app_l by lia. apply B6; [done|lia].
  - intros i Hl Hne. unfold stack_lo, stack_hi. rewrite !decide_False by done. rewrite Ht. case_decide as Hni.
    + apply list_elem_of_here.
    + apply list_elem_of_further. specialize (B7 i). unfold stack_lo, stack_hi in B7.
      rewrite !decide_False in B7 by done. apply B7; [|done].
      destruct Hl as (tc & Htc & Hu). exists tc. rewrite Ht, decide_False in Htc by done. done.
Qed.

(** The code of the tasks: the function, then [hrt_task_delete]. *)
Definition threads {G} (code : Z -> Z -> app G unit) (fns : list (Z * Z)) : list (app G unit) :=
  (fun fa => (code fa.1 fa.2 ;; vcall hrt_task_delete)%app) <$> fns.

Lemma boot_start F w m fns stacks :
  booting w m fns stacks ->
  exists k p, exec (H := cortex_port) 1 (void_call hrt_start) (mc_kern m) (mc_port m)
      = @Swapped cortex_port _ k (mc_kern m) p /\
    forall g, finv F w (mkF (mkMachine (mc_kern m) p (mc_cpu m) Live ∅) ∅ g) /\
      named F (threads (fw_code F) fns) (mkMachine (mc_kern m) p (mc_cpu m) Live ∅).
Proof.
  intros [B1 B2 B3 B4 B5 B6 B7].
  exists (Ret (0, None)), (_pend_pendsv (set_irq true (_pend_pendsv (mc_port m)))). split; [done|]. intros g.
  pose proof (launch_inv w m B3 B1) as I. rewrite <- B2. split.
  - split; cbn [f_mach f_code mc_mode mc_code]; try done.
    + rewrite B2. apply lookup_empty.
    + intros i. rewrite B2, !lookup_empty. split; [by intros []|by intros [? ?]].
  - intros i tc Htc Hid Hl. cbn [mc_kern] in Htc. pose proof (zget_Some _ _ _ Htc) as Hr.
    assert (Hn : i < Z.of_nat (length fns)).
    { destruct Hl as [Hu|Hc]; [|change (i = current m) in Hc; lia].
      destruct (decide (Z.of_nat (length fns) <= i)) as [Hle|]; [|lia]. by apply (B5 i tc Htc) in Hle. }
    unfold threads. by rewrite list_lookup_fmap, (B6 i tc Htc Hn).
Qed.

(** What the linker promises for two stacks. *)
Record linked (st1 n1 st2 n2 : Z) : Prop := {
  ln_pos1 : 0 < st1; ln_pos2 : 0 < st2;
  ln_idle1 : disjoint (st1, st1 + 4 * n1) idle_range;
  ln_idle2 : disjoint (st2, st2 + 4 * n2) idle_range;
  ln_apart : disjoint (st2, st2 + 4 * n2) (st1, st1 + 4 * n1)
}.

(** Two tasks, as every example has them: of the two most urgent
    priorities. *)
Lemma boot_two F cfg s regs st1 n1 t1 st2 n2 t2 :
  objects_idle s -> objects_ok s -> cfg_wf cfg -> 2 <= HARDRT_MAX_PRIO ->
  linked st1 n1 st2 n2 -> 64 <= n1 -> 64 <= n2 ->
  exists v1 s1 p1 v2 s2 p2 k p3,
    exec (H := cortex_port) 1 (int_call (hrt_create_task FN1 0 st1 n1 (Some (task_attr HRT_PRIO0 t1))))
      (init_kern cfg s) (init_port cfg s) = @Done cortex_port _ v1 s1 p1 /\
    exec (H := cortex_port) 1 (int_call (hrt_create_task FN2 0 st2 n2 (Some (task_attr HRT_PRIO1 t2)))) s1 p1
      = @Done cortex_port _ v2 s2 p2 /\
    exec (H := cortex_port) 1 (void_call hrt_start) s2 p2 = @Swapped cortex_port _ k s2 p3 /\
    forall g, finv F (shape s) (mkF (mkMachine s2 p3 (mkCpu 0 regs) Live ∅) ∅ g) /\
      named F (threads (fw_code F) [(FN1, 0); (FN2, 0)]) (mkMachine s2 p3 (mkCpu 0 regs) Live ∅).
Proof.
  intros H1 H2 H3 Hp [L1 L2 L3 L4 L5] Hn1 Hn2. pose proof (max_tasks_prio (C := C)).
  assert (Hid : 2 <= HRT_IDLE_ID) by (unfold HRT_IDLE_ID; lia).
  pose proof (boot_init cfg s regs H1 H2 H3) as B0.
  destruct (boot_create _ _ _ _ FN1 st1 n1 (task_attr HRT_PRIO0 t1) B0) as (s1 & p1 & E1 & B1);
    [cbn; lia|done|done|done|change (attr_prio _) with 0; lia|by repeat apply Forall_cons_2|].
  destruct (boot_create _ _ _ _ FN2 st2 n2 (task_attr HRT_PRIO1 t2) B1) as (s2 & p2 & E2 & B2);
    [cbn; lia|done|done|done|change (attr_prio _) with 1; lia|by repeat apply Forall_cons_2|].
  destruct (boot_start F _ _ _ _ B2) as (k & p3 & E3 & HF).
  do 8 eexists. split; [exact E1|]. split; [exact E2|]. split; [exact E3|exact HF].
Qed.

End boot.

(** [main], statement by statement. *)
Section main.
Context {G : Type} `{PL : PortLayer}.

Lemma main_aset {A} f (k : unit -> app G A) s p g o :
  run_main (abind (aset f) k) s p g o = run_main (k tt) s p (f g) o.
Proof. done. Qed.

Lemma main_icall {A} c (k : Z -> app G A) s p g o v s' p' :
  exec 1 (int_call c) s p = Done v s' p' ->
  run_main (abind (icall c) k) s p g o = run_main (k v.1) s' p' g o.
Proof. intros E. cbn [abind icall run_main]. by rewrite E. Qed.

Lemma main_void {A} c (k : unit -> app G A) s p g o v s' p' :
  exec 1 (void_call c) s p = Done v s' p' ->
  run_main (abind (vcall c) k) s p g o = run_main (k tt) s' p' g o.
Proof. intros E. cbn [abind vcall run_main]. by rewrite E. Qed.

Lemma main_start {A} c (k : unit -> app G A) s p g o r s' p' :
  exec 1 (void_call c) s p = Swapped r s' p' ->
  run_main (abind (vcall c) k) s p g o = MStarted s' p' g o.
Proof. intros E. cbn [abind vcall run_main]. by rewrite E. Qed.

End main.

(** ** The programs *)

Section programs.
Context `{C : Config} {Cok : ConfigOk C} `{Env : CortexEnv} {EnvOk : CortexEnvOk}.
Context `{S : Stm32} `{St : StaticStacks}.

(** Memory-mapped registers change when the hardware likes. *)
Definition demo_fw (stackA stackB : Z) : firmware :=
  mkFirmware H755Demo.G
    (fun g => exists r, g = H755Demo.mkG r 0 0 0 0) kern_boot
    (code_table H755Demo.TaskA H755Demo.TaskB) (H755Demo.main stackA stackB) []
    (fun g g' => exists f, g' = H755Demo.on_regs f g).

Definition blinky_fw (stackA stackB : Z) : firmware :=
  mkFirmware regs (fun _ => True) kern_boot
    (code_table Blinky.TaskA Blinky.TaskB) (Blinky.main stackA stackB) [] (fun _ _ => True).

Definition blinky_cpp_fw : firmware :=
  mkFirmware regs (fun _ => True) kern_boot
    (code_table BlinkyCpp.TaskA BlinkyCpp.TaskB) BlinkyCpp.main [] (fun _ _ => True).

(** [NVIC_SetPriority(..., 12)]: the upper bits of the priority byte. *)
Definition timer_prio : Z := Z.land (Z.shiftl 12 (8 - HARDRT_NVIC_PRIO_BITS)) 255.

(** The two semaphores, in zeroed memory and after [main] has initialised
    them. *)
Definition timing_objects : kern :=
  set_sems (<[DwtTiming.sem_evt := mkSem 0 0 ring_empty]> {[DwtTiming.sem_tick := mkSem 0 0 ring_empty]}) kern_boot.

Definition timing_ready : kern :=
  set_sems (<[DwtTiming.sem_evt := mkSem 0 1 ring_empty]> {[DwtTiming.sem_tick := mkSem 0 1 ring_empty]}) kern_boot.

Definition timing_fw (L stackTick stackEvt : Z) : firmware :=
  mkFirmware DwtTiming.G boot_globals timing_objects
    (code_table DwtTiming.TaskTickLatency DwtTiming.TaskEventLatency) (DwtTiming.main stackTick stackEvt)
    [(timer_prio, DwtTiming.TIM2_IRQHandler); (timer_prio, DwtTiming.TIM3_IRQHandler)] (hardware L).

(** [main] starts the scheduler with both tasks, and leaves [g']. *)
Definition boots (F : firmware) (w : world) (rs : list Z) (g g' : fw_glob F) : Prop :=
  exists m, fw_boot F rs g = mkF m ∅ g' /\ finv F w (mkF m ∅ g') /\
    named F (threads (fw_code F) [(FN1, 0); (FN2, 0)]) m.

Hypothesis Hstall : HARDRT_STALL_ON_ERROR = false.
Hypothesis Hprio : 2 <= HARDRT_MAX_PRIO.

Lemma empty_idle : objects_idle kern_boot.
Proof. intros [pr|a|a|a|a] r; cbn; try done. Qed.

Lemma empty_ok : objects_ok kern_boot.
Proof. split_and!; apply map_Forall_empty. Qed.

(** [main] of a program whose objects are [s] once it has initialised them:
    it remains to run it through its calls. *)
Lemma boots_two F cfg s rs st1 n1 t1 st2 n2 t2 g g' :
  objects_idle s -> objects_ok s -> cfg_wf (Some cfg) -> linked st1 n1 st2 n2 -> 64 <= n1 -> 64 <= n2 ->
  (forall v1 s1 p1 v2 s2 p2 k p3,
    exec (H := cortex_port) 1 (int_call (hrt_create_task FN1 0 st1 n1 (Some (task_attr HRT_PRIO0 t1))))
      (init_kern (Some cfg) s) (init_port (Some cfg) s) = @Done cortex_port _ v1 s1 p1 ->
    exec (H := cortex_port) 1 (int_call (hrt_create_task FN2 0 st2 n2 (Some (task_attr HRT_PRIO1 t2)))) s1 p1
      = @Done cortex_port _ v2 s2 p2 ->
    exec (H := cortex_port) 1 (void_call hrt_start) s2 p2 = @Swapped cortex_port _ k s2 p3 ->
    run_main (H := cortex_port) (fw_main F) (fw_kern F) cortex_reset g [] = @MStarted cortex_port _ s2 p3 g' []) ->
  boots F (shape s) rs g g'.
Proof using Hstall Hprio Cok EnvOk.
  intros H1 H2 H3 Hl Hn1 Hn2 Hrun.
  destruct (boot_two Hstall F (Some cfg) s rs st1 n1 t1 st2 n2 t2 H1 H2 H3 Hprio Hl Hn1 Hn2)
    as (v1 & s1 & p1 & v2 & s2 & p2 & k & p3 & E1 & E2 & E3 & HF).
  exists (mkMachine s2 p3 (mkCpu 0 rs) Live ∅). split; [|apply HF].
  unfold fw_boot. by rewrite (Hrun _ _ _ _ _ _ _ _ E1 E2 E3).
Qed.

Lemma init_call (cfg : hrt_config_t) s :
  exec (H := cortex_port) 1 (int_call (hrt_init (Some cfg))) s cortex_reset
  = @Done cortex_port _ (0, None) (init_kern (Some cfg) s) (init_port (Some cfg) s).
Proof. unfold int_call. by erewrite exec_bind by apply init_done. Qed.

Lemma sem_init_call a s p m :
  m_sems s !! a = Some m ->
  exec (H := cortex_port) 1 (void_call (Sem.hrt_sem_init a 0)) s p
  = @Done cortex_port _ (0, None) (kset_sem a (mkSem 0 1 (mkRing (q (sem_waitq m)) 0 0 0)) s) p.
Proof.
  intros Hm. unfold void_call, Sem.hrt_sem_init. rewrite !bind_assoc.
  rewrite (exec_sem_write _ _ _ _ _ _ _ Hm). cbv beta. rewrite ?bind_assoc.
  rewrite (exec_sem_write _ _ _ _ _ _ _ (kset_sem_lookup _ _ _)), kset_sem_twice. cbv beta. rewrite ?bind_assoc.
  by rewrite (exec_sem_write _ _ _ _ _ _ _ (kset_sem_lookup _ _ _)), kset_sem_twice.
Qed.

Lemma demo_boots st1 st2 rs g :
  linked st1 512 st2 512 ->
  boots (demo_fw st1 st2) (shape kern_boot) rs g
    (H755Demo.on_regs H755Demo.hold_cm4 (H755Demo.on_regs SystemInit g)).
Proof using Hstall Hprio Cok EnvOk.
  intros Hl. eapply (boots_two _ H755Demo.cfg); [exact empty_idle|exact empty_ok|done|exact Hl|lia|lia|].
  intros v1 s1 p1 v2 s2 p2 k p3 E1 E2 E3. cbn [fw_main demo_fw fw_kern fw_glob]. unfold H755Demo.main.
  rewrite !main_aset, (main_icall _ _ _ _ _ _ _ _ _ (init_call _ _)).
  by rewrite (main_icall _ _ _ _ _ _ _ _ _ E1), (main_icall _ _ _ _ _ _ _ _ _ E2), (main_start _ _ _ _ _ _ _ _ _ E3).
Qed.

Lemma blinky_boots st1 st2 rs g :
  linked st1 512 st2 512 ->
  boots (blinky_fw st1 st2) (shape kern_boot) rs g (Blinky.gpio_init (Blinky.hold_cm4 (SystemInit g))).
Proof using Hstall Hprio Cok EnvOk.
  intros Hl. eapply (boots_two _ Blinky.cfg); [exact empty_idle|exact empty_ok|done|exact Hl|lia|lia|].
  intros v1 s1 p1 v2 s2 p2 k p3 E1 E2 E3. cbn [fw_main blinky_fw fw_kern fw_glob]. unfold Blinky.main.
  rewrite !main_aset, (main_icall _ _ _ _ _ _ _ _ _ (init_call _ _)).
  by rewrite (main_icall _ _ _ _ _ _ _ _ _ E1), (main_icall _ _ _ _ _ _ _ _ _ E2), (main_start _ _ _ _ _ _ _ _ _ E3).
Qed.

Lemma blinky_cpp_boots rs g :
  linked (static_stack 512 0) 512 (static_stack 512 1) 512 ->
  boots blinky_cpp_fw (shape kern_boot) rs g (BlinkyCpp.gpio_init (BlinkyCpp.hold_cm4 (SystemInit g))).
Proof using Hstall Hprio Cok EnvOk.
  intros Hl. eapply (boots_two _ BlinkyCpp.cfg); [exact empty_idle|exact empty_ok|done|exact Hl|lia|lia|].
  intros v1 s1 p1 v2 s2 p2 k p3 E1 E2 E3. cbn [fw_main blinky_cpp_fw fw_kern fw_glob].
  unfold BlinkyCpp.main, Sys.init, Task.create, Sys.start.
  rewrite !main_aset, (main_icall _ _ _ _ _ _ _ _ _ (init_call _ _)).
  by rewrite (main_icall _ _ _ _ _ _ _ _ _ E1), (main_icall _ _ _ _ _ _ _ _ _ E2), (main_start _ _ _ _ _ _ _ _ _ E3).
Qed.

(** [main] initialises the semaphores after the kernel; the kernel does not
    care. *)
Lemma timing_sems cfg :
  kset_sem DwtTiming.sem_evt (mkSem 0 1 ring_empty)
    (kset_sem DwtTiming.sem_tick (mkSem 0 1 ring_empty) (init_kern (Some cfg) timing_objects))
  = init_kern (Some cfg) timing_ready.
Proof. reflexivity. Qed.

Lemma timing_ready_idle : objects_idle timing_ready.
Proof.
  intros [pr|a|a|a|a] r; cbn [ring_of rget]; try done. intros (m & Hm & ->)%fmap_Some.
  unfold timing_ready in Hm. cbn [m_sems set_sems] in Hm.
  apply lookup_insert_Some in Hm as [[_ <-]|[_ [_ <-]%lookup_singleton_Some]]; apply ring_empty_repr.
Qed.

Lemma timing_ready_ok : objects_ok timing_ready.
Proof.
  split_and!; [|apply map_Forall_empty..].
  apply map_Forall_insert_2; [|apply map_Forall_singleton]; split; cbn; try lia; done.
Qed.

Lemma timing_boots L st1 st2 rs g :
  linked st1 1024 st2 1024 ->
  boots (timing_fw L st1 st2) (shape timing_ready) rs g
    (DwtTiming.tim3_init_event 200 (DwtTiming.tim2_init_event 1000
      (DwtTiming.on_evt (DwtTiming.set_stats DwtTiming.stats_init)
        (DwtTiming.on_tick (DwtTiming.set_stats DwtTiming.stats_init)
          (DwtTiming.on_regs DwtTiming.dwt_init (DwtTiming.on_regs DwtTiming.hold_cm4
            (DwtTiming.on_regs SystemInit g))))))).
Proof using Hstall Hprio Cok EnvOk.
  intros Hl. eapply (boots_two _ DwtTiming.cfg timing_ready);
    [exact timing_ready_idle|exact timing_ready_ok|done|exact Hl|lia|lia|].
  intros v1 s1 p1 v2 s2 p2 k p3 E1 E2 E3. cbn [fw_main timing_fw fw_kern fw_glob]. unfold DwtTiming.main.
  rewrite !main_aset, (main_icall _ _ _ _ _ _ _ _ _ (init_call _ _)).
  erewrite main_void by (apply (sem_init_call DwtTiming.sem_tick _ _ (mkSem 0 0 ring_empty)); reflexivity).
  erewrite main_void by (apply (sem_init_call DwtTiming.sem_evt _ _ (mkSem 0 0 ring_empty)); reflexivity).
  change (kset_sem DwtTiming.sem_evt _ _) with (init_kern (Some DwtTiming.cfg) timing_ready).
  change (init_port _ timing_objects) with (init_port (Some DwtTiming.cfg) timing_ready).
  rewrite (main_icall _ _ _ _ _ _ _ _ _ E1), (main_icall _ _ _ _ _ _ _ _ _ E2), !main_aset.
  by rewrite (main_start _ _ _ _ _ _ _ _ _ E3).
Qed.

(** ** Their calls *)

Lemma shape_sem w s a : shape s = w -> is_Some (w.1.1 !! a) -> is_Some (m_sems s !! a).
Proof. intros <-. cbn. rewrite lookup_fmap. destruct (m_sems s !! a); [by eexists|by intros []]. Qed.

Lemma quiet_take w a : is_Some (w.1.1 !! a) -> quiet_call w (int_call (Sem.hrt_sem_take a)).
Proof. intros Ha. exists (CSemTake a). split_and!; [done|done|]. intros s Hs. by eapply shape_sem. Qed.

Lemma give_call w a :
  is_Some (w.1.1 !! a) ->
  isr_call w (IGive a true) (int_call (r <- Sem.hrt_sem_give_from_isr a true ;; Ret r.1)%prog).
Proof. intros Ha. split_and!; [done|intros s Hs; by eapply shape_sem|apply give_runs_as]. Qed.

Ltac quiet :=
  repeat first
    [ exact Logic.I
    | match goal with
      | |- forall _, _ => intros
      | |- _ /\ _ => split
      | |- quiet_call _ (void_call (hrt_sleep ?n)) => by exists (CSleep n)
      | |- quiet_call _ (int_call (Sem.hrt_sem_take ?a)) => by apply quiet_take
      | |- quiet_code _ (if ?b then _ else _) => destruct b
      | |- context [abind (if ?b then _ else _) _] => destruct b
      | |- quiet_code _ _ => progress hnf
      | |- quiet_code _ _ => progress cbn [abind]
      end ].

Lemma table_quiet {G} w (f1 f2 : app G unit) fn argp :
  quiet_code w f1 -> quiet_code w f2 -> quiet_code w (code_table f1 f2 fn argp).
Proof. intros H1 H2. unfold code_table. by destruct (fn =? FN1), (fn =? FN2). Qed.

Ltac code_ok := 
  split; [intros fn argp; cbn [fw_code]; apply table_quiet; quiet|by intros ? ? ?%not_elem_of_nil].

Lemma demo_ok st1 st2 : fw_ok (demo_fw st1 st2) (shape kern_boot).
Proof. code_ok. Qed.

Lemma blinky_ok st1 st2 : fw_ok (blinky_fw st1 st2) (shape kern_boot).
Proof. code_ok. Qed.

Lemma blinky_cpp_ok : fw_ok blinky_cpp_fw (shape kern_boot).
Proof. unfold blinky_cpp_fw, BlinkyCpp.TaskA, BlinkyCpp.TaskB, Task.sleep. code_ok. Qed.

Lemma timing_shape : is_Some ((shape timing_ready).1.1 !! DwtTiming.sem_tick) /\
  is_Some ((shape timing_ready).1.1 !! DwtTiming.sem_evt).
Proof. split; by eexists. Qed.

Lemma handler_ok src on tim sem :
  is_Some ((shape timing_ready).1.1 !! sem) -> irq_code (shape timing_ready) (handler src on tim sem).
Proof.
  intros Hs. unfold handler. intros sr. cbn [abind]. destruct (negb _); [|done]. intros []. cbn [abind].
  intros en. cbn [abind]. destruct (en =? 0); [done|]. intros n. cbn [abind]. destruct (n >=? T); [done|].
  intros a. cbn [abind]. destruct (a =? 0); cbn [abind aset]; [intros []; cbn [abind]; intros []; cbn [abind]|].
  all: split; [eexists; by apply give_call|done].
Qed.

Lemma timing_ok L st1 st2 :
  syscall_level <= timer_prio -> fw_ok (timing_fw L st1 st2) (shape timing_ready).
Proof.
  intros Hp. destruct timing_shape as [H1 H2]. split.
  - intros fn argp. cbn [fw_code timing_fw]. apply table_quiet; quiet.
  - intros prio h Hin. cbn [fw_irqs timing_fw] in Hin.
    apply elem_of_cons in Hin as [[= -> ->]|Hin]; [split; [done|]; rewrite tim2_handler_is; by apply handler_ok|].
    apply list_elem_of_singleton in Hin as [= -> ->]. split; [done|]. rewrite tim3_handler_is. by apply handler_ok.
Qed.

(** ** Runs *)

Definition board_programs (L st1 st2 : Z) : list firmware :=
  [demo_fw st1 st2; blinky_fw st1 st2; blinky_cpp_fw; timing_fw L st1 st2].

Lemma linked_less st1 n1 st2 n2 k1 k2 :
  linked st1 n1 st2 n2 -> k1 <= n1 -> k2 <= n2 -> linked st1 k1 st2 k2.
Proof. intros [H1 H2 H3 H4 H5] ? ?. unfold disjoint in *. split; unfold disjoint; cbn in *; lia. Qed.

Hypothesis Hlinked : linked (static_stack 512 0) 512 (static_stack 512 1) 512.
Hypothesis Htimer : syscall_level <= timer_prio.

(** Each program boots and makes only the calls it may make. *)
Lemma programs_boot L st1 st2 F :
  linked st1 1024 st2 1024 -> F ∈ board_programs L st1 st2 ->
  exists w, fw_ok F w /\ forall rs g, exists g', boots F w rs g g'.
Proof using Hstall Hprio Hlinked Htimer Cok EnvOk.
  intros Hl HF. pose proof (linked_less _ _ _ _ 512 512 Hl ltac:(lia) ltac:(lia)) as Hl'.
  apply elem_of_cons in HF as [->|HF].
  { exists (shape kern_boot). split; [apply demo_ok|]. intros rs g. eexists. by apply demo_boots. }
  apply elem_of_cons in HF as [->|HF].
  { exists (shape kern_boot). split; [apply blinky_ok|]. intros rs g. eexists. by apply blinky_boots. }
  apply elem_of_cons in HF as [->|HF].
  { exists (shape kern_boot). split; [apply blinky_cpp_ok|]. intros rs g. eexists. by apply blinky_cpp_boots. }
  apply list_elem_of_singleton in HF as ->.
  exists (shape timing_ready). split; [by apply timing_ok|]. intros rs g. eexists. by apply timing_boots.
Qed.

Lemma fw_reach F w rs g g' x :
  fw_ok F w -> boots F w rs g g' -> rtc (fstep F) (fw_boot F rs g) x ->
  finv F w x /\ named F (threads (fw_code F) [(FN1, 0); (FN2, 0)]) (f_mach x).
Proof using Hstall Cok EnvOk.
  intros Hok (m & E & Hi & Hn) Hr. rewrite E in Hr.
  assert (HI : finv F w x) by by eapply finv_reach.
  split; [done|]. clear HI E. remember (mkF m ∅ g') as y eqn:Ey.
  assert (Hn' : named F (threads (fw_code F) [(FN1, 0); (FN2, 0)]) (f_mach y)) by by rewrite Ey.
  clear Hn Ey. induction Hr as [|y1 y2 y3 Hs _ IH]; [done|]. apply IH; [by eapply finv_step|].
  eapply named_csteps; [done|apply Hi..|exact Hn'|by eapply fstep_csteps].
Qed.

End programs.

Section props.
Context `{C : Config} {Cok : ConfigOk C} `{Env : CortexEnv} {EnvOk : CortexEnvOk}.
Context `{S : Stm32} `{St : StaticStacks}.

(** C11: The board examples run on the Cortex-M system. [main] of each of the
    four STM32H755 programs, on the Cortex-M port, starts the scheduler with
    its two tasks; from then on, whatever SysTick, PendSV, the timer handlers
    and the hardware do, between any two statements of the tasks and of the
    kernel that [BASEPRI] lets through: the system never faults or stalls,
    only the two tasks and the idle context ever get the processor, and
    whenever interrupts are let through every ready task but the running one
    is stored exactly once, in the queue of its priority. The linker places
    the stacks apart, the timer priority is one that critical sections mask,
    no handler wakes a task that has parked itself and is not yet switched
    out, and [main] is not interrupted. *)
Theorem board_programs_safe L st1 st2 F x :
  HARDRT_STALL_ON_ERROR = false -> 2 <= HARDRT_MAX_PRIO -> syscall_level <= timer_prio ->
  linked st1 1024 st2 1024 -> linked (static_stack 512 0) 512 (static_stack 512 1) 512 ->
  F ∈ board_programs L st1 st2 -> fw_reachable F x ->
  mc_mode (f_mach x) = Live /\
  current (f_mach x) ∈ [-1; HRT_IDLE_ID; 0; 1] /\
  (BASEPRI (mc_port (f_mach x)) = 0 -> in_order (f_mach x)).
Proof.
  intros Hst Hp Ht Hl Hl' HF (rs & g & _ & Hr).
  destruct (programs_boot Hst Hp Hl' Ht L st1 st2 F Hl HF) as (w & Hok & Hb). destruct (Hb rs g) as [g' Hg].
  destruct (fw_reach Hst F w rs g g' x Hok Hg Hr) as [[I Hneg Hlive _ _] Hn].
  split; [done|]. split; [|by eapply cinv_in_order].
  rewrite !elem_of_cons. destruct (cinv_current _ _ I) as [[? _]|H0]; [by left|right].
  destruct (decide (current (f_mach x) = HRT_IDLE_ID)) as [|Hid]; [by left|right].
  destruct (cinv_tcb _ _ I H0) as [tc Htc].
  specialize (Hn _ tc Htc Hid (or_intror eq_refl)). apply lookup_lt_Some in Hn. cbn in Hn.
  destruct (decide (current (f_mach x) = 0)); [by left|right; left; lia].
Qed.

(** The threads of the measurement's two tasks, from their entry points. *)
Definition timing_threads L st1 st2 : list (app DwtTiming.G unit) :=
  threads (fw_code (timing_fw L st1 st2)) [(FN1, 0); (FN2, 0)].


End props.

(** ** One event on the NUCLEO board *)

Module NucleoRun.
Import NucleoBoard DwtTiming.

#[local] Instance cfg_h755 : Config := default_config.

#[export] Instance nucleo_env_ok : CortexEnvOk.
Proof. by split. Qed.

#[local] Instance nucleo_stacks : StaticStacks := { static_stack := fun _ tag => 536891392 + 4096 * tag }.

Definition program : firmware := timing_fw 42 536875008 536883200.

Definition go (es : list event) (x : fsys G) : fsys G := default x (frun program es x).
Definition ran (es : list event) (x : fsys G) : bool :=
  match frun program es x with Some _ => true | None => false end.
Definition hw (f : regs -> regs) (x : fsys G) : fsys G := mkF (f_mach x) (f_code x) (on_regs f (f_glob x)).

(** [main]; both tasks wait for their semaphores, the idle context runs; an
    update event of TIM2 at cycle 1000; its handler wakes the first task,
    which gets the processor 42 cycles later, leaves [hrt_sem_take] after
    another switch to itself, and records the sample. *)
Definition g0 : G := mkG (fun _ => 0) zero_source zero_source 0 0 0 0 0 0.
Abbreviation x0 := (fw_boot program (replicate 8 0) g0).
Definition waiting : list event := EPendsv :: replicate 17 ERun ++ EPendsv :: replicate 16 ERun ++ [EPendsv].
Definition x1 : fsys G := go waiting x0.
Definition x2 : fsys G := hw (fun r => wr DWT_CYCCNT 1000 (wr (TIM_SR TIM2) 1 r)) x1.
Definition x3 : fsys G := go [EIrq 0] x2.
Definition x4 : fsys G := hw (wr DWT_CYCCNT 1042) x3.
Definition recording : list event := [EPendsv; ERun; EPendsv] ++ replicate 8 ERun.
Definition x5 : fsys G := go recording x4.

Lemma fgo_steps es x y : y = go es x -> ran es x = true -> rtc (fstep program) x y.
Proof. intros -> H. apply frun_steps with es. unfold ran, go in *. by destruct (frun program es x). Qed.

Lemma fhw_steps f x y :
  y = hw f x -> clock_ok 42 tick_src (f_glob y) -> clock_ok 42 evt_src (f_glob y) -> rtc (fstep program) x y.
Proof. intros -> H1 H2. apply rtc_once, (f_hardware program). split; [by exists f|done]. Qed.

Lemma fnot_armed s (x : fsys G) : armed (s (f_glob x)) = 0 -> clock_ok 42 s (f_glob x).
Proof. by intros H ?. Qed.

Lemma fx1_reached : rtc (fstep program) x0 x1.
Proof. eapply fgo_steps; [unfold x1; reflexivity|vm_compute; reflexivity]. Qed.
Lemma fx2_reached : rtc (fstep program) x1 x2.
Proof. eapply fhw_steps; [unfold x2; reflexivity|apply fnot_armed; vm_compute; reflexivity..]. Qed.
Lemma fx3_reached : rtc (fstep program) x2 x3.
Proof. eapply fgo_steps; [unfold x3; reflexivity|vm_compute; reflexivity]. Qed.
Lemma fx4_clock : u32 (cycles_now (f_glob x4) - t0 (tick_src (f_glob x4))) = 42.
Proof. vm_compute. reflexivity. Qed.
Lemma fx4_reached : rtc (fstep program) x3 x4.
Proof.
  eapply fhw_steps; [unfold x4; reflexivity| |apply fnot_armed; vm_compute; reflexivity].
  intros _. by rewrite fx4_clock.
Qed.
Lemma fx5_reached : rtc (fstep program) x4 x5.
Proof. eapply fgo_steps; [unfold x5; reflexivity|vm_compute; reflexivity]. Qed.

Lemma x5_run : rtc (fstep program) x0 x5.
Proof.
  trans x1; [exact fx1_reached|]. trans x2; [exact fx2_reached|]. trans x3; [exact fx3_reached|].
  trans x4; [exact fx4_reached|exact fx5_reached].
Qed.

Lemma fx5_reachable : fw_reachable program x5.
Proof.
  exists (replicate 8 0), g0. split; [done|]. exact x5_run.
Qed.

Lemma nucleo_linked : linked 536875008 1024 536883200 1024.
Proof. split; try lia; unfold disjoint; vm_compute; (left; congruence) || (right; congruence). Qed.

Lemma nucleo_static : linked (static_stack 512 0) 512 (static_stack 512 1) 512.
Proof. split; try (cbn; lia); unfold disjoint; vm_compute; (left; congruence) || (right; congruence). Qed.

Lemma timer_masked : syscall_level <= timer_prio.
Proof. vm_compute. congruence. Qed.

(** After the first sample, outside of critical sections. *)
Lemma board_programs_safe_witness :
  mc_mode (f_mach x5) = Live /\ current (f_mach x5) = 0 /\ in_order (f_mach x5).
Proof.
  destruct (board_programs_safe (C := default_config) 42 536875008 536883200 program x5) as (H1 & _ & H2).
  - reflexivity.
  - cbn. lia.
  - exact timer_masked.
  - exact nucleo_linked.
  - exact nucleo_static.
  - unfold board_programs. rewrite !elem_of_cons. tauto.
  - exact fx5_reachable.
  - split; [exact H1|]. split; [vm_compute; reflexivity|]. apply H2. vm_compute. reflexivity.
Defined.


End NucleoRun.
