(* ===== verification/CortexRaces.v ===== *)
(** * The window before a switch on Cortex-M

    A call that parks its task writes the new state of the task first and
    asks for the switch afterwards. [hrt_sleep] does so without a critical
    section; [hrt_sem_take], [hrt_queue_send] and [hrt_queue_recv] leave
    theirs before they ask. A handler that comes in between and wakes that very task puts it
    into its ready queue while it still runs, and [hrt__schedule], which
    finds it ready, puts it there a second time. *)

From stdpp Require Import base tactics numbers list option gmap relations.
From S2P Require Import Prelude Types Prog Ring Core Sched Sem Mutex Queue PortNull PortCortexM.
From S2P Require Import CoreFacts Inv SchedFacts InitFacts Running Api ApiSafe ApiCalls.
From S2P Require Import ApiTheorem IsrSafe PickFacts System CortexFacts.
From S2P Require Import Frame Stmt CritBal StmtSafe CortexMachine CortexInv CortexSteps CortexBoot.
From S2P Require Import CortexCtx Demo PortProps CortexProps.
Open Scope Z_scope.
Open Scope prog_scope.
Import CortexM.

Section window.
Context `{C : Config} {Cok : ConfigOk C} `{Env : CortexEnv} {EnvOk : CortexEnvOk}.
Implicit Types (s : kern) (p : cortex) (g : machine).

(** A task is stored twice: it runs and is queued, or is queued twice. *)
Definition stored_twice (me pr : Z) s : Prop :=
  (g_current s = me /\ me ∈ qlist (rq_ring pr) s) \/ ~ NoDup (qlist (rq_ring pr) s).

(** Selection from queues in which [me] is stored twice. *)
Lemma dispatch_twice s me pr l :
  queues_fit s -> 0 <= pr < HARDRT_MAX_PRIO -> qlist (rq_ring pr) s = l ++ [me] -> me ∈ l ->
  stored_twice me pr (kdispatch s).
Proof.
  intros [_ Hq] Hp Hl Hin.
  assert (Hdup : forall l', me ∈ l' -> ~ NoDup (l' ++ [me])).
  { intros l' Hl' (_ & Hd & _)%NoDup_app. apply (Hd me Hl'), list_elem_of_here. }
  unfold kdispatch. destruct (first_ready s (seqZ 0 HARDRT_MAX_PRIO)) as [[pr' x]|] eqn:Hf.
  - destruct (first_ready_spec _ _ _ _ Hf) as [Hin' [l' Hl']]. apply elem_of_seqZ in Hin'.
    destruct (Hq pr' ltac:(lia)) as [Hr _].
    assert (Hpop := fun pl' => qlist_lpop (PReady pr') pl' s x l' Hr Hl').
    unfold stored_twice. change (g_current (set_current x ?t)) with x.
    change (qlist (rq_ring pr) (set_current x ?t)) with (qlist (ring_of (PReady pr)) t).
    change (rq_ring pr') with (ring_of (PReady pr')). rewrite Hpop.
    case_decide as E.
    + injection E as ->. rewrite Hl in Hl'. destruct l as [|y l]; [by apply not_elem_of_nil in Hin|].
      injection Hl' as -> <-. apply elem_of_cons in Hin as [->|Hin]; [left|right; by apply Hdup].
      split; [done|]. apply elem_of_app. right. apply list_elem_of_here.
    + right. cbn [ring_of]. rewrite Hl. by apply Hdup.
  - right. change (qlist (rq_ring pr) (set_current HRT_IDLE_ID s)) with (qlist (rq_ring pr) s).
    rewrite Hl. by apply Hdup.
Qed.

(** [hrt__schedule] on a task that is ready and queued already. *)
Lemma schedule_twice s me tc old :
  sched_inv [] s -> (exists ti, zget (g_tcbs s) HRT_IDLE_ID = Some ti /\ state ti = HRT_UNUSED) ->
  g_current s = me -> zget (g_tcbs s) me = Some tc -> state tc = HRT_READY -> old <> 0 ->
  exists v s', Null.core_call (hrt__schedule old) s = @Done Null.null_port Z v s' tt /\
    stored_twice me (prio tc) s'.
Proof.
  intros I (ti & Hti & Hui) Hc Htc Hs Ho. destruct (ready_queued s me tc I Htc Hs) as [Hin Hp].
  assert (Hroom : Z.of_nat (length (qlist (rq_ring (prio tc)) s)) < HARDRT_MAX_TASKS).
  { eapply (inv_room _ _ (PReady (prio tc))); [exact I|exact Hti|].
    intros (t & Ht & Hr & _)%(inv_in _ _ I). cbn in Hr. congruence. }
  assert (Hr := inv_rq _ _ _ I Hp). pose proof (inv_tcb_valid _ _ _ _ I Htc) as Hv.
  set (s1 := kset_tcb me (tcb_set_sp old tc) s). set (s2 := lpush (rq_ring (prio tc)) me s1).
  assert (Hq : forall pl, qlist (ring_of pl) s2
    = qlist (ring_of pl) s ++ (if decide (PReady (prio tc) = pl) then [me] else [])).
  { intros pl. unfold s2, s1. change (rq_ring (prio tc)) with (ring_of (PReady (prio tc))).
    rewrite <- kset_lpush_comm, kset_qlist. by apply qlist_lpush. }
  assert (I1 : sched_inv [] s1).
  { eapply inv_set_tcb; [exact I|done| |by right]. by eapply set_sp_wf, inv_tcb_wf. }
  assert (Hfit : queues_fit s2).
  { destruct (inv_queues_fit _ _ I1) as [Hlen Hf]. split; [unfold s2; by rewrite (lpush_tcbs (PReady (prio tc)))|].
    intros pr Hpr. split.
    - assert (Hb : base_wf s2).
      { apply (base_push s1 (PReady (prio tc)) me); [apply I1|by apply (inv_rq _ _ _ I1)|].
        unfold s1. by rewrite kset_qlist. }
      destruct (zget_is_Some (g_rq s2) pr) as [r E]; [destruct (bwf_kern _ Hb); lia|].
      exists r. split; [done|]. by apply (bwf_ring _ Hb (PReady pr)).
    - change (rq_ring pr) with (ring_of (PReady pr)). rewrite Hq. apply Forall_app. split.
      + by apply (inv_valid _ _ (PReady pr) I).
      + case_decide; [by apply Forall_singleton|by apply Forall_nil_2]. }
  eexists _, (kdispatch s2). split.
  - unfold Null.core_call.
    rewrite (exec_schedule_ready (PL := Null.null_port) 0 [] me s tt old tc) by done.
    by apply (exec_dispatch (PL := Null.null_port)).
  - apply (dispatch_twice s2 me (prio tc) (qlist (rq_ring (prio tc)) s)); try done.
    change (rq_ring (prio tc)) with (ring_of (PReady (prio tc))). rewrite Hq. by rewrite decide_True.
Qed.

(** C37: A handler that wakes the task which is being switched out stores it
    twice. In every reachable state of the Cortex-M system in which the
    current task has parked itself and interrupts are let through: if the
    tick or another handler that is taken there makes that task ready, the
    next PendSV leaves it queued twice, or running and queued at the same
    time. (On Cortex-M the state of the task is written before the switch is
    requested, and nothing masks interrupts in between: [hrt_sleep] and the
    tick, [hrt_sem_take] and [hrt_sem_give_from_isr].) *)
Theorem wake_before_switch_twice g0 g c s' p' tc tc' :
  HARDRT_STALL_ON_ERROR = false -> cinitial g0 -> rtc cstep g0 g -> 0 <= current g ->
  BASEPRI (mc_port g) = 0 ->
  zget (g_tcbs (mc_kern g)) (current g) = Some tc -> state tc <> HRT_READY ->
  is_handler (mc_kern g) c -> run_handler g c = Done tt s' p' ->
  zget (g_tcbs s') (current g) = Some tc' -> state tc' = HRT_READY ->
  stored_twice (current g) (prio tc') (mc_kern (after_pendsv (after_handler g (run_handler g c)))).
Proof.
  intros Hst Hi Hr Hcur Hb Htc Hs Hc E Htc' Hs'. destruct (reach_cinv Hst g0 g Hi Hr) as [[s0 I] _].
  pose proof I as [Ph O Ho _ Hhw _].
  assert (Hph : mc_kern g = s0 /\ sched_inv [] (mc_kern g) /\ mask_ok false (mc_port g) /\
                cpu_ok (mc_kern g) (current g) (mc_cpu g)).
  { destruct Ph as [Hd Hc' Hi' Hm|Hl Hc' Hi' Hm Hcpu|Hl Hop Hm Hcpu|s0 c1 Hl Hop Hown Hm|c1 Hl Hpk Hm Hcpu].
    - lia.
    - done.
    - destruct (open_tcb _ Hop) as (t & Ht & Hrd). congruence.
    - destruct Hm as (_ & Hb' & _). pose proof syscall_level_range. lia.
    - split_and!; try done. apply Hpk. }
  destruct Hph as (<- & I0 & Hm & Hcpu).
  destruct (handler_safe Hst [] _ _ c Hc I0 (awake_nil _) Ho Hm) as (s1 & p1 & E1 & H).
  unfold run_handler in *. rewrite E1 in E. injection E as -> ->. rewrite E1. cbn [after_handler].
  assert (Hidle : exists ti, zget (g_tcbs s') HRT_IDLE_ID = Some ti /\ state ti = HRT_UNUSED).
  { eapply oo_idle, (others_step _ (current g) (mc_code g) (mc_kern g) s');
      [apply H| | |right; apply H|exact O].
    - intros i Hl. right. right. by apply H.
    - intros i _ Hl. by apply H. }
  assert (Hpos := oo_lo _ _ _ _ O (current g) (or_introl (conj eq_refl Hcur))). destruct Hcpu as [Hcpu _].
  assert (Hc' : g_current s' = current g) by apply (hd_held _ _ _ _ _ H).
  destruct (schedule_twice s' (current g) tc' (psp (mc_cpu g) - 32) (hd_inv _ _ _ _ _ H) Hidle Hc' Htc' Hs')
    as (v & s2 & E2 & Htw); [lia|].
  unfold after_pendsv, PendSV_Handler. cbn [mc_cpu mc_kern mc_port].
  rewrite (proj2 (Z.eqb_neq (psp (mc_cpu g)) 0)) by lia. cbn [ram]. rewrite E2.
  by destruct (v =? 0).
Qed.

End window.

(** ** The window of [hrt_sleep] on the board *)

Module WindowRun.
Import Board BoardRun.

Definition woken : kern * cortex :=
  match run_handler run_parked SysTick_Handler with
  | Done _ s p | Swapped _ s p | Halted _ s p | Spinning s p => (s, p)
  end.

Lemma woken_run : run_handler run_parked SysTick_Handler = Done tt woken.1 woken.2.
Proof.
  assert (E : match run_handler run_parked SysTick_Handler with Done _ _ _ => true | _ => false end = true)
    by (vm_compute; reflexivity).
  unfold woken. destruct (run_handler run_parked SysTick_Handler) as [[] s p| | |]; try discriminate E.
  reflexivity.
Qed.

(** Task 0 has gone to sleep for one tick and has not yet asked for the
    switch when the tick comes. *)
Lemma wake_before_switch_twice_witness :
  stored_twice 0 1
    (mc_kern (after_pendsv (after_handler run_parked (run_handler run_parked SysTick_Handler)))).
Proof.
  assert (Hc : current run_parked = 0) by (vm_compute; reflexivity).
  assert (Hp : prio (tcb_of 0 woken.1) = 1) by (vm_compute; reflexivity).
  pose proof (wake_before_switch_twice (C := default_config) run0 run_parked SysTick_Handler
    woken.1 woken.2 (tcb_of 0 (mc_kern run_parked)) (tcb_of 0 woken.1)
    eq_refl run_initial parked_steps) as H.
  rewrite Hc, Hp in H. apply H.
  - lia.
  - vm_compute. reflexivity.
  - vm_compute. reflexivity.
  - vm_compute. discriminate.
  - left. reflexivity.
  - exact woken_run.
  - vm_compute. reflexivity.
  - vm_compute. reflexivity.
Defined.

End WindowRun.
