(* ===== verification/SignalProps.v ===== *)
(** * Properties of the POSIX system with the signal anywhere

    The system of SignalMachine.v never crashes and loses no task, and no
    wake-up is lost; and what happens to a task whose quantum runs out while
    it is about to hop into the scheduler. *)

From stdpp Require Import base tactics numbers list option gmap relations.
From S2P Require Import Prelude Types Prog Ring Core Sched Sem Mutex Queue PortPosix.
From S2P Require Import CoreFacts Inv SchedFacts InitFacts Running PosixFacts Api ApiSafe.
From S2P Require Import ApiCalls ApiTheorem IsrSafe PickFacts System Stmt StmtSafe SignalSafe.
From S2P Require Import SignalMachine SignalInv Demo.
Open Scope Z_scope.
Open Scope prog_scope.
Import Posix.

Section props.
Context `{C : Config} {Cok : ConfigOk C}.
Implicit Types (s : kern) (p : posix) (g : psys).

(** Neither a critical section nor the requeue of [hrt_yield] is under way. *)
Definition settled g : Prop :=
  g_crit_depth (ps_port g) = 0 /\
  forall me old c, ps_mode g = PTask me old -> ps_code g !! me = Some c -> ~ requeuing c.

(** The kernel of a settled system. *)
Lemma pinv_settled w g :
  pinv w g -> settled g ->
  objects_ok (ps_kern g) /\
  (sched_inv [] (ps_kern g) \/ exists me old, ps_mode g = PTask me old /\ running me (ps_kern g)).
Proof.
  intros [s0 [Ph _ _ _ _ _]] [Hd Hw].
  destruct Ph as [Hm Hi Ho Hsh _|me old Em Ho _ Hk|me old s0 c Em Ho Hd' Hbl Hc Hk|me old c Em _ Hv _ Hc Hk
    |me old c Em Hpk _ Hc Hk].
  - split; [done|by left].
  - split; [apply Ho|right]. exists me, old. split; [done|apply Ho].
  - lia.
  - exfalso. by eapply Hw, window_requeuing.
  - split; [apply Hpk|left; apply Hpk].
Qed.

(** Every ready task is stored exactly in the ready queue of its priority,
    or runs and is stored nowhere. *)
Definition kept_once g : Prop :=
  objects_ok (ps_kern g) /\ (forall pl, NoDup (qlist (ring_of pl) (ps_kern g))) /\
  forall i tc, zget (g_tcbs (ps_kern g)) i = Some tc -> state tc = HRT_READY ->
    (forall pl, i ∈ qlist (ring_of pl) (ps_kern g) <-> pl = PReady (prio tc)) \/
    (exists old, ps_mode g = PTask i old) /\ forall pl, i ∉ qlist (ring_of pl) (ps_kern g).

Lemma pinv_kept_once w g : pinv w g -> settled g -> kept_once g.
Proof.
  intros I Hs. destruct (pinv_settled _ _ I Hs) as [Ho [Hi|(me & old & Em & R)]]; (split; [done|]).
  - split; [apply (inv_nodup _ _ Hi)|]. intros i tc Htc Hrd. left.
    eapply ready_queued_out; [exact Hi|by apply not_elem_of_nil|done|done].
  - split; [apply (inv_nodup _ _ (run_inv _ _ R))|]. intros i tc Htc Hrd.
    destruct (decide (i = me)) as [->|Hne].
    + right. split; [by exists old|]. intros pl. by apply (running_not_queued _ _ pl R).
    + left. eapply ready_queued_out; [apply R| |done|done]. by rewrite list_elem_of_singleton.
Qed.

(** C3: The POSIX system never crashes and loses no task, with the signal
    between any two statements. From [hrt_init] on, through the creation of
    tasks, the statements of arbitrary calls of the API (all but the
    creation of a task by a task), the scheduler loop with its unmasked
    points and ticks wherever the signal is armed and not blocked, the
    system never reaches undefined behaviour, a failed assertion or a stall,
    provided that no signal comes into the requeue of [hrt_yield] and that
    no tick uses up the quantum of a task that is queued and about to hop.
    Whenever no critical section and no requeue is under way, all objects
    are well formed, no id is stored twice, and every ready task is stored
    exactly in the ready queue of its priority, or runs and is stored
    nowhere. *)
Theorem posix_signal_safe g0 g :
  HARDRT_STALL_ON_ERROR = false -> pinitial g0 -> rtc pstep g0 g ->
  pdown g = false /\
  (settled g ->
   objects_ok (ps_kern g) /\ (forall pl, NoDup (qlist (ring_of pl) (ps_kern g))) /\
   forall i tc, zget (g_tcbs (ps_kern g)) i = Some tc -> state tc = HRT_READY ->
     (forall pl, i ∈ qlist (ring_of pl) (ps_kern g) <-> pl = PReady (prio tc)) \/
     (exists old, ps_mode g = PTask i old) /\ forall pl, i ∉ qlist (ring_of pl) (ps_kern g)).
Proof.
  intros Hst H0 Hr. pose proof (reach_pinv Hst g0 g H0 Hr) as I.
  split; [by eapply pinv_up|by eapply pinv_kept_once].
Qed.

(** C8: No wake-up is lost to the signal. In every reachable state of the
    statement-level POSIX system ([pstep]: the tick signal comes between any
    two statements of a call and at the unmasked points of the loop, but not
    inside the requeue of [hrt_yield], and not as a tick that uses up the
    quantum of a task which is queued already and about to hop; only [main]
    creates tasks): when the scheduler loop is about to look for a request and
    a task is ready, it finds one, whatever signals came since the last
    switch; and when it has taken the request back, before it blocks the
    signal, a ready task of the most urgent ready priority is dispatched
    next, even if it became ready in between. *)
Theorem posix_wakeup_kept g0 g i ti b :
  HARDRT_STALL_ON_ERROR = false -> pinitial g0 -> rtc pstep g0 g ->
  zget (g_tcbs (ps_kern g)) i = Some ti -> state ti = HRT_READY ->
  (ps_mode g = PSched -> g_test_stop (ps_port g) = false -> ps_mode (after_poll g) = PPick) /\
  (ps_mode g = PPick -> exists x tx old,
     ps_mode (after_pick b g) = PTask x old /\ running x (ps_kern (after_pick b g)) /\
     zget (g_tcbs (ps_kern g)) x = Some tx /\ state tx = HRT_READY /\ prio tx <= prio ti).
Proof.
  intros Hst H0 Hr Hti Hs. destruct (reach_pinv Hst g0 g H0 Hr) as [s0 I]. split.
  - intros Em Hts. destruct (idle_facts _ g s0 I) as (-> & _); [by rewrite Em|].
    unfold after_poll, sched_poll. rewrite Hts. rewrite (pv_work _ _ _ I Em i) by by exists ti. done.
  - intros Em. destruct (idle_facts _ g s0 I) as (-> & Hi & _); [by rewrite Em|].
    pose proof (pick_spec_posix (ps_kern g) (ps_port g) Hi (pv_port _ _ _ I)) as Hp. unfold after_pick.
    destruct (sched_pick (ps_kern g) (ps_port g)) as [[r s'] p']. destruct r as [| |x old|h]; try done.
    + destruct Hp as (_ & Hn & _). exfalso. eapply ready_found; [exact Hi| |exact Hn]. by exists ti.
    + destruct Hp as (pr & Hf & _ & R & _). destruct (first_ready_highest _ pr x i ti Hi Hf Hti Hs) as (tx & H).
      by exists x, tx, old.
Qed.

(** The next statements of the running task. *)
Fixpoint statements (k : nat) (me : Z) (old : bool) g : psys :=
  match k with
  | O => g
  | S k' =>
      match ps_mode g, ps_code g !! me with
      | PTask _ _, Some c => statements k' me old (after_statement me old g c)
      | _, _ => g
      end
  end.

(** The calls of a parked task: it asks, and hops. *)
Lemma parked_hops w me (c : prog api_res) :
  ok me w Parked c ->
  exists k, c = Port hrt__pend_context_switch (Port hrt_port_yield_to_scheduler k).
Proof.
  destruct c as [a|h|B f k|pc k|B body k]; cbn [ok]; try done; [|by intros []].
  destruct pc; try done; try (by intros []). cbn [at_once hop_regime].
  destruct k as [a|h|B f k|pc k|B body k]; cbn [ok]; try done; [|by intros []].
  destruct pc; try done; try (by intros []). intros _. by exists k.
Qed.

Lemma asked_hops w me (c : prog api_res) :
  ok me w Asked c -> exists k, c = Port hrt_port_yield_to_scheduler k.
Proof.
  destruct c as [a|h|B f k|pc k|B body k]; cbn [ok]; try done; [|by intros []].
  destruct pc; try done; try (by intros []). intros _. by exists k.
Qed.

(** [hrt__on_scheduler_entry] on a task that is queued already. *)
Lemma entry_twice s p tc :
  sched_inv [] s -> switch_ok (PL := posix_port) s p -> zget (g_tcbs s) (g_current s) = Some tc ->
  g_current s ∈ qlist (rq_ring (prio tc)) s -> ~ no_requeue s tc ->
  exists s', exec 0 hrt__on_scheduler_entry s p = Done tt s' p /\
    ~ NoDup (qlist (rq_ring (prio tc)) s').
Proof.
  intros I [_ Hsw] Htc Hq Hnr. destruct (inv_in _ _ I (PReady (prio tc)) _ Hq) as (t & Ht & Hs & _).
  rewrite Htc in Ht. injection Ht as <-. cbn in Hs.
  assert (Hl : slice_left tc = 0 /\ 0 < timeslice_cfg tc /\ rr_policy (g_policy s) = true).
  { unfold no_requeue in Hnr. destruct (decide (slice_left tc = 0)), (decide (timeslice_cfg tc <= 0)),
      (rr_policy (g_policy s)); (split_and!; try done; try lia); exfalso; tauto. }
  destruct Hl as (H1 & H2 & H3). assert (Hp : 0 <= prio tc < HARDRT_MAX_PRIO).
  { by apply (ready_queued s (g_current s) tc I Htc). }
  destruct (bwf_kern _ (inv_base _ _ I)).
  destruct (zget_is_Some (g_tcbs s) HRT_IDLE_ID) as [ti Hti]; [pose proof idle_valid as [? ?]; lia|].
  assert (Hroom : Z.of_nat (length (qlist (rq_ring (prio tc)) s)) < HARDRT_MAX_TASKS).
  { eapply (inv_room _ _ (PReady (prio tc))); [exact I|exact Hti|].
    intros (t & Ht & Hr & _)%(inv_in _ _ I). cbn in Hr. destruct (Hsw HRT_IDLE_ID) as (_ & Hne & _); [|done].
    exists t. split; [done|congruence]. }
  assert (Hr := inv_rq _ _ _ I Hp). eexists. split.
  { eapply (exec_scheduler_entry_requeue (PL := posix_port)); try done. by eapply inv_tcb_valid. }
  change (rq_ring (prio tc)) with (ring_of (PReady (prio tc))).
  rewrite <- kset_lpush_comm, kset_qlist, (qlist_lpush (PReady (prio tc)) (PReady (prio tc)) _ _ Hr Hroom), decide_True by done.
  intros (_ & Hd & _)%NoDup_app. by apply (Hd _ Hq), list_elem_of_here.
Qed.

(** C38: A tick that uses up the quantum of a task which has requeued itself
    stores it twice. In every reachable state of the POSIX system in which
    the signal is not blocked and no requeue is under way: if the running
    task is in its ready queue after the tick (it has yielded, or the tick
    has woken it up, and it has not yet hopped into the scheduler), and the
    tick leaves nothing of its quantum, then its next statements lead into
    the scheduler with the task queued twice: [hrt__on_scheduler_entry]
    finds the quantum used up and queues it again. *)
Theorem tick_before_hop_twice g0 g me old c s' p' tc :
  HARDRT_STALL_ON_ERROR = false -> pinitial g0 -> rtc pstep g0 g ->
  ps_mode g = PTask me old -> ps_code g !! me = Some c -> ~ requeuing c ->
  armed (ps_port g) = true -> sigalrm_blocked (ps_port g) = false ->
  run_signal g = Done tt s' p' -> zget (g_tcbs s') me = Some tc ->
  me ∈ qlist (rq_ring (prio tc)) s' -> ~ no_requeue s' tc ->
  let g' := statements 2 me old (after_signal g (run_signal g)) in
  ps_mode g' = PSched /\ ~ NoDup (qlist (rq_ring (prio tc)) (ps_kern g')).
Proof.
  intros Hst H0 Hr Em Hc Hnq Har Hb Hrun Htc Hq Hnr.
  destruct (reach_pinv Hst g0 g H0 Hr) as [s0 [Ph Hsw Hctx _ _ _]].
  destruct (pphase_task _ _ _ _ _ _ Ph Em Hc) as [Ho Hd Hk|s0 Ho Hd Hbl Hk|Hd Hv _ Hk|Hpk Hd Hk].
  - exfalso. pose proof (open_run _ _ _ Ho) as R.
    destruct (tick_to Hst [me] _ (ps_port g) (run_inv _ _ R) (running_awake _ _ R)) as (s1 & p1 & T).
    unfold run_signal in Hrun. rewrite (tk_run _ _ _ _ _ T) in Hrun. injection Hrun as -> ->.
    apply (inv_out _ _ (tk_inv _ _ _ _ _ T) me (PReady (prio tc)) (list_elem_of_here _ _)). exact Hq.
  - rewrite Hbl in Hb by done. done.
  - by destruct Hnq; eapply window_requeuing.
  - destruct (tick_to Hst [] _ (ps_port g) (pk_inv _ _ _ Hpk) (awake_nil _)) as (s1 & p1 & T).
    unfold run_signal in *. rewrite (tk_run _ _ _ _ _ T) in *. injection Hrun as -> ->.
    destruct (tk_side _ _ _ _ _ T) as (Ec & _).
    assert (Hcur : g_current s' = me) by (rewrite (proj1 (tk_held _ _ _ _ _ T)); apply Hpk).
    assert (Hhop : forall k p2 code, g_ctxs p2 = g_ctxs (ps_port g) ->
      let g2 := after_statement me old (mkPsys s' p2 (PTask me old) code)
                  (Port hrt_port_yield_to_scheduler k) in
      ps_mode g2 = PSched /\ ~ NoDup (qlist (rq_ring (prio tc)) (ps_kern g2))).
    { intros k p2 code E2. unfold after_statement. cbn [stmt port_do ps_kern ps_port ps_code].
      rewrite switch_yields.
      2: { cbn. rewrite Hcur. eapply has_context_ext; [exact E2|]. by eapply Hctx. }
      unfold sched_return. rewrite <- Hcur in Htc, Hq.
      destruct (entry_twice s' (posix_swap_out p2) tc) as (s2 & E & Htw); try done; [apply T| |].
      { eapply (switch_ok_ctxs (ps_kern g) s' (ps_port g)); [done|apply T|exact E2]. }
      cbn [swap_out posix_switches]. by rewrite E. }
    assert (E1 : statements 2 me old (after_signal g (Done tt s' p'))
      = statements 1 me old (after_statement me old (mkPsys s' p' (PTask me old) (ps_code g)) c)).
    { cbn [after_signal]. rewrite Em. cbn [statements ps_mode ps_code]. by rewrite Hc. }
    rewrite E1. destruct Hk as [Hk|[_ Hk]].
    + destruct (parked_hops _ _ _ Hk) as [k ->].
      assert (E2 : after_statement me old (mkPsys s' p' (PTask me old) (ps_code g))
        (Port hrt__pend_context_switch (Port hrt_port_yield_to_scheduler k))
        = mkPsys s' (posix_pend p') (PTask me old) (<[me := Port hrt_port_yield_to_scheduler k]> (ps_code g)))
        by reflexivity.
      rewrite E2. cbn [statements ps_mode ps_code]. rewrite lookup_insert_eq. by apply Hhop.
    + destruct (asked_hops _ _ _ Hk) as [k ->]. destruct (Hhop k p' (ps_code g) Ec) as [H1 H2].
      cbn [statements]. by rewrite H1.
Qed.

End props.

(** ** A run *)

Module SignalRun.

Lemma port_not_requeuing `{C : Config} {A} pc (k : prog A) : ~ requeuing (Port pc k).
Proof.
  intros (r & k' & Hr & E). destruct Hr; cbn in E; try done. unfold rq_push in E.
  destruct (p >=? HARDRT_MAX_PRIO); [done|]. by destruct (HARDRT_DEBUG && id_out_of_range id).
Qed.

(** [statements] makes steps of the running task. *)
Fixpoint statements_ok `{C : Config} (k : nat) (me : Z) (old : bool) (g : psys) : bool :=
  match k with
  | O => true
  | S k' =>
      match ps_mode g, ps_code g !! me with
      | PTask me' old', Some c =>
          (me' =? me) && Bool.eqb old' old && statements_ok k' me old (after_statement me old g c)
      | _, _ => false
      end
  end.

Lemma statements_steps `{C : Config} k me old g :
  statements_ok k me old g = true -> rtc pstep g (statements k me old g).
Proof.
  revert g. induction k as [|k IH]; intros g; cbn [statements_ok statements]; [done|].
  destruct (ps_mode g) as [| | | |me' old'|] eqn:Em; try done.
  destruct (ps_code g !! me) as [c|] eqn:Hc; [|done].
  intros [[->%Z.eqb_eq ->%Bool.eqb_prop]%andb_true_iff Hk]%andb_true_iff.
  eapply rtc_l; [by apply pstep_stmt|by apply IH].
Qed.

Definition attr_short : hrt_task_attr_t := {| priority := 1; timeslice := 1 |}.

Definition q0 : psys := mkPsys demo_inited.1 demo_inited.2 PMain ∅.
Definition created (fn stack : Z) (g : psys) : psys :=
  after_pmain g (pexec 0 (hrt_create_task fn 0 stack 64 (Some attr_short)) (ps_kern g) (ps_port g)).
Definition q1 : psys := created 16 32768 q0.
Definition q2 : psys := created 32 40960 q1.
Definition q3 : psys := after_plaunch q2 (pexec 0 hrt_start (ps_kern q2) (ps_port q2)).
Definition q4 : psys := after_poll q3.
Definition q5 : psys := after_pick false q4.
Definition called (c : api) (me : Z) (old : bool) (g : psys) : psys :=
  mkPsys (ps_kern g) (ps_port g) (PTask me old) (<[me := api_prog c]> (ps_code g)).
(** Task 0 takes the semaphore; the tick comes at the entry of the critical
    section. *)
Definition q6 : psys := called (CSemTake SEM) 0 false q5.
Definition q7 : psys := after_signal q6 (run_signal q6).
Definition q8 : psys := statements 4 0 false q7.
(** Or it yields, and has not yet asked for the switch. *)
Definition q_yield : psys := statements 9 0 false (called CYield 0 false q5).

Lemma q0_initial : pinitial q0.
Proof.
  unfold q0. apply (pinit None demo_objects).
  - exact demo_objects_idle.
  - exact demo_objects_ok.
  - exact Logic.I.
  - assert (E : match pexec 0 (hrt_init None) demo_objects posix_boot with
                | Done v _ _ => v =? 0 | _ => false end = true) by (vm_compute; reflexivity).
    unfold demo_inited. destruct (pexec 0 _ _ _) as [v s p| | |]; try discriminate E.
    apply Z.eqb_eq in E. by subst.
Qed.

Lemma created_steps fn stack g :
  ps_mode g = PMain -> bool_decide (free_slot (ps_kern g) <> HRT_IDLE_ID) = true ->
  rtc pstep g (created fn stack g).
Proof.
  intros Hm Hf%bool_decide_eq_true. apply rtc_once. apply (pstep_create g); [exact Hm|].
  split; [|exact Hf]. split; [discriminate|reflexivity].
Qed.

Lemma q3_steps : rtc pstep q0 q3.
Proof.
  trans q1; [unfold q1; apply (created_steps 16 32768 q0); vm_compute; reflexivity|].
  trans q2; [unfold q2; apply (created_steps 32 40960 q1); vm_compute; reflexivity|].
  unfold q3. apply rtc_once, (pstep_start q2). vm_compute. reflexivity.
Qed.

Lemma q5_steps : rtc pstep q0 q5.
Proof.
  trans q3; [exact q3_steps|]. trans q4; [apply rtc_once, (pstep_poll q3); vm_compute; reflexivity|].
  apply rtc_once. unfold q5. apply (pstep_pick q4). vm_compute. reflexivity.
Qed.

Lemma called_steps c :
  creates c = false -> api_pre (ps_kern q5) c -> rtc pstep q0 (called c 0 false q5).
Proof.
  intros Hc Hp. trans q5; [exact q5_steps|]. apply rtc_once. unfold called.
  apply (pstep_call q5); [vm_compute; reflexivity|vm_compute; reflexivity|exact Hc|exact Hp].
Qed.

Lemma q8_steps : rtc pstep q0 q8.
Proof.
  trans q6; [apply called_steps; [reflexivity|vm_compute; eexists; reflexivity]|].
  trans q7; [|apply statements_steps; vm_compute; reflexivity].
  unfold q7. apply rtc_once, (pstep_signal q6).
  - vm_compute. reflexivity.
  - vm_compute. reflexivity.
  - vm_compute. reflexivity.
  - assert (Em : ps_mode q6 = PTask 0 false) by reflexivity. unfold signal_fits. rewrite Em. split.
    + intros c Hc. assert (Hp : exists pc k, ps_code q6 !! 0 = Some (Port pc k)) by (eexists _, _; reflexivity).
      destruct Hp as (pc & k & Hp). rewrite Hp in Hc. injection Hc as <-. apply port_not_requeuing.
    + assert (E : run_signal q6 = Done tt (final (run_signal q6)).1 (final (run_signal q6)).2)
        by (vm_compute; reflexivity).
      rewrite E. intros tc Htc Hin. exfalso.
      assert (Hp : prio <$> zget (g_tcbs (final (run_signal q6)).1) 0 = Some 1) by (vm_compute; reflexivity).
      rewrite Htc in Hp. cbn in Hp. injection Hp as Hp. rewrite Hp in Hin. revert Hin.
      apply (bool_decide_eq_false (0 ∈ qlist (rq_ring 1) (final (run_signal q6)).1)). vm_compute. reflexivity.
Qed.

(** The tick comes into the middle of [hrt_sem_take]. *)
Lemma posix_signal_safe_witness : rtc pstep q0 q8 /\ pdown q8 = false.
Proof.
  split; [exact q8_steps|].
  exact (proj1 (posix_signal_safe (C := default_config) q0 q8 eq_refl q0_initial q8_steps)).
Defined.

Lemma posix_wakeup_kept_witness : ps_mode (after_poll q3) = PPick.
Proof.
  refine (proj1 (posix_wakeup_kept (C := default_config) q0 q3 0 (tcb_of 0 (ps_kern q3)) false
    eq_refl q0_initial q3_steps _ _) _ _); vm_compute; reflexivity.
Defined.

Definition ticked_yield : kern * posix := final (run_signal q_yield).

(** Task 0, with a quantum of one tick, has yielded. *)
Lemma tick_before_hop_twice_witness :
  ~ NoDup (qlist (rq_ring 1) (ps_kern (statements 2 0 false (after_signal q_yield (run_signal q_yield))))).
Proof.
  assert (Hr : rtc pstep q0 q_yield).
  { trans (called CYield 0 false q5); [apply called_steps; [reflexivity|exact Logic.I]|].
    apply statements_steps. vm_compute. reflexivity. }
  assert (Hp : prio (tcb_of 0 ticked_yield.1) = 1) by (vm_compute; reflexivity).
  destruct (ps_code q_yield !! 0) as [c|] eqn:Hc; [|exfalso; vm_compute in Hc; discriminate].
  pose proof (tick_before_hop_twice (C := default_config) q0 q_yield 0 false c
    ticked_yield.1 ticked_yield.2 (tcb_of 0 ticked_yield.1) eq_refl q0_initial Hr) as H.
  rewrite Hp in H. refine (proj2 (H _ Hc _ _ _ _ _ _ _)).
  - vm_compute. reflexivity.
  - assert (Hx : exists pc k, c = Port pc k).
    { vm_compute in Hc. injection Hc as <-. eexists _, _. reflexivity. }
    destruct Hx as (pc & k & ->). apply port_not_requeuing.
  - vm_compute. reflexivity.
  - vm_compute. reflexivity.
  - unfold ticked_yield. vm_compute. reflexivity.
  - vm_compute. reflexivity.
  - apply (bool_decide_eq_true (0 ∈ qlist (rq_ring 1) ticked_yield.1)). vm_compute. reflexivity.
  - vm_compute. intros [Hn|[Hn|Hn]]; [by apply Hn|by apply Hn|discriminate].
Defined.

End SignalRun.
