(* ===== verification/OwnerProps.v ===== *)
(** * Mutual exclusion

    Who owns a mutex along the runs of the POSIX system: ownership ends
    with an unlock of the owner and in no other way. *)

From stdpp Require Import base tactics numbers list option gmap relations.
From S2P Require Import Prelude Types Prog Ring Core Sched Sem Mutex Queue PortPosix.
From S2P Require Import CoreFacts Inv SchedFacts InitFacts MutexFacts Running PosixFacts.
From S2P Require Import Api ApiSafe ApiCalls ApiTheorem IsrSafe System Frame AppFacts Demo SystemProps.
Open Scope Z_scope.
Open Scope prog_scope.
Import Posix.

Section owner.
Context `{C : Config} {Cok : ConfigOk C}.
Implicit Types (s : kern) (p : posix).

Definition owner_of (a : Z) s : option Z := m ← mutex_at a s; a_owner m.

Lemma owner_same a s s' : m_mutexes s' = m_mutexes s -> owner_of a s' = owner_of a s.
Proof. unfold owner_of, mutex_at. by intros ->. Qed.

Lemma owner_lookup a s s' :
  m_mutexes s' !! a = m_mutexes s !! a -> owner_of a s' = owner_of a s.
Proof. unfold owner_of, mutex_at. by intros ->. Qed.

Lemma owner_Some a s m : m_mutexes s !! a = Some m -> owner_of a s = a_owner (mtx_abs m).
Proof. intros E. unfold owner_of, mutex_at. by rewrite E. Qed.

Lemma final_int_call n (c : prog Z) s p :
  final_kern (pexec n (int_call c) s p) = final_kern (pexec n c s p).
Proof.
  unfold int_call. destruct (pexec n c s p) as [v s1 p1|k s1 p1|h s1 p1|s1 p1] eqn:E.
  - by rewrite (exec_bind _ _ _ _ _ _ _ _ E).
  - by rewrite (exec_swap_bind _ _ _ _ _ _ _ _ E).
  - by rewrite (exec_halt_bind _ _ _ _ _ _ _ _ E).
  - by rewrite (exec_spin_bind _ _ _ _ _ _ _ E).
Qed.

(** ** The calls *)

Lemma owner_lpush a b me s :
  owner_of a (lpush (mutex_ring b) me s) = owner_of a s.
Proof.
  destruct (m_mutexes s !! b) as [m|] eqn:E; [|unfold lpush; cbn; by rewrite E].
  destruct (decide (a = b)) as [->|Hne].
  - rewrite (owner_Some b _ _ (lpush_mutex b me s m E)), (owner_Some b s m E). done.
  - apply owner_lookup. unfold lpush. cbn. rewrite E. cbn. by rewrite lookup_alter_ne.
Qed.

(** ** The calls, on an owned mutex *)

Lemma at_same a s s' : m_mutexes s' = m_mutexes s -> mutex_at a s' = mutex_at a s.
Proof. unfold mutex_at. by intros ->. Qed.

Lemma at_lookup a s s' : m_mutexes s' !! a = m_mutexes s !! a -> mutex_at a s' = mutex_at a s.
Proof. unfold mutex_at. by intros ->. Qed.

Lemma at_exec {A} n (c : prog A) s p a :
  keeps_of m_mutexes c -> mutex_at a (final_kern (pexec n c s p)) = mutex_at a s.
Proof. intros H. apply at_same. by apply (exec_keeps (PL := posix_port)). Qed.

Lemma at_Some a s m : m_mutexes s !! a = Some m -> mutex_at a s = Some (mtx_abs m).
Proof. intros E. unfold mutex_at. by rewrite E. Qed.

Lemma at_inv a s am : mutex_at a s = Some am -> exists m, m_mutexes s !! a = Some m /\ mtx_abs m = am.
Proof. unfold mutex_at. destruct (m_mutexes s !! a) as [m|]; [|done]. intros [= <-]. by exists m. Qed.

Lemma at_owner a s o l : mutex_at a s = Some (mkAmutex (Some o) l) -> owner_of a s = Some o.
Proof. unfold owner_of. by intros ->. Qed.

Lemma becomes_at a b m' s s' :
  mutex_becomes b m' s s' -> mutex_at a s' = if decide (a = b) then Some m' else mutex_at a s.
Proof.
  intros ((m & E & <- & _) & Hb & _). destruct (decide (a = b)) as [->|Hne]; [by apply at_Some|].
  apply at_lookup. by apply Hb.
Qed.

(** The mutex stays with its owner, and its waiters stay in line. *)
Definition keeps_owner (a : Z) s s' : Prop :=
  forall o l, mutex_at a s = Some (mkAmutex (Some o) l) ->
    exists l', mutex_at a s' = Some (mkAmutex (Some o) (l ++ l')).

Lemma keeps_owner_eq a s s' : mutex_at a s' = mutex_at a s -> keeps_owner a s s'.
Proof. intros E o l H. exists []. by rewrite app_nil_r, E. Qed.

(** A lock by a task changes the owner of an unowned mutex only. *)
Lemma acquired_unowned me m : (amutex_lock me m).2 = Acquired -> a_owner m = None.
Proof. unfold amutex_lock. destruct (a_owner m) as [o|]; [|done]. by destruct (o =? me). Qed.

Hypothesis Hstall : HARDRT_STALL_ON_ERROR = false.

Lemma keeps_owner_acquire a b me s m :
  m_mutexes s !! b = Some m -> (amutex_lock me (mtx_abs m)).2 = Acquired ->
  keeps_owner a s (kset_mutex b (mkMutex 1 me (mtx_waitq m)) s).
Proof.
  intros E Ha. destruct (decide (a = b)) as [->|Hne].
  - intros o l. rewrite (at_Some b s m E). intros Hm%(inj Some)%(f_equal a_owner).
    by rewrite (acquired_unowned me) in Hm.
  - apply keeps_owner_eq, at_lookup. cbn. by rewrite lookup_insert_ne.
Qed.

Lemma keeps_owner_push a b me s m :
  m_mutexes s !! b = Some m -> mtx_rep m -> running me s ->
  mutex_at a (lpush (mutex_ring b) me s)
  = if decide (a = b) then Some (mkAmutex (a_owner (mtx_abs m)) (a_queue (mtx_abs m) ++ [me]))
    else mutex_at a s.
Proof.
  intros E Hrep R. apply becomes_at. pose proof (running_room me s (PMutex b) R).
  apply mutex_becomes_push; try done. by eapply mutex_ring_ok; [apply R|].
Qed.

(** What a task that makes a call knows of a mutex. *)
Lemma client_mutex me s p b m :
  client_ok (PL := posix_port) me s p -> m_mutexes s !! b = Some m ->
  mtx_rep m /\ running me s /\ valid_id (g_current s) /\ g_current s = me /\
  (exists tc, zget (g_tcbs s) (g_current s) = Some tc) /\ ring_ok (mutex_ring b) s /\
  Z.of_nat (length (qlist (mutex_ring b) s)) < HARDRT_MAX_TASKS.
Proof.
  intros Cl E. pose proof (proj1 (proj2 (cl_obj _ _ _ Cl)) b m E) as [Hrep _].
  pose proof (cl_run _ _ _ Cl) as R. pose proof (running_valid _ _ R) as Hv. pose proof (run_cur _ _ R) as Hc.
  destruct (run_tcb _ _ R) as (tc & Htc & _). pose proof (running_room me s (PMutex b) R).
  rewrite Hc. split_and!; try done; [by exists tc|]. by eapply mutex_ring_ok; [apply R|].
Qed.

Lemma keeps_owner_try_lock n me s p a b m :
  client_ok (PL := posix_port) me s p -> m_mutexes s !! b = Some m ->
  keeps_owner a s (final_kern (pexec n (Mutex.hrt_mutex_try_lock b) s p)).
Proof.
  intros Cl E. destruct (client_mutex _ _ _ _ _ Cl E) as (Hrep & _ & Hv & _).
  rewrite (exec_mutex_try_lock (PL := posix_port) n s p b m) by done. cbv zeta.
  destruct (amutex_lock (g_current s) (mtx_abs m)).2 eqn:Ha; cbn [final_kern];
    [by apply keeps_owner_acquire|by apply keeps_owner_eq..].
Qed.

Lemma keeps_owner_lock n me s p a b m :
  client_ok (PL := posix_port) me s p -> m_mutexes s !! b = Some m ->
  keeps_owner a s (final_kern (pexec n (Mutex.hrt_mutex_lock b) s p)).
Proof.
  intros Cl E. destruct (client_mutex _ _ _ _ _ Cl E) as (Hrep & R & Hv & Hc & (tc & Htc) & Hr & Hroom).
  destruct (amutex_lock (g_current s) (mtx_abs m)).2 eqn:Ha.
  - rewrite (exec_mutex_lock (PL := posix_port) n s p b m) by done. by apply keeps_owner_acquire.
  - rewrite (exec_mutex_lock_recursive (PL := posix_port) n s p b m) by done. by apply keeps_owner_eq.
  - rewrite (exec_mutex_lock_block (PL := posix_port) n s p b m tc) by done. intros o l.
    intros Ho. rewrite at_exec by keep. rewrite (at_same a (lpush (mutex_ring b) (g_current s) s)) by done.
    rewrite Hc, (keeps_owner_push a b me s m) by done. case_decide as Hab; [|by apply (keeps_owner_eq a s s)].
    subst a. rewrite (at_Some b s m E) in Ho. apply (inj Some) in Ho as ->. by exists [me].
Qed.

(** An unlock by another task, or of another mutex. *)
Lemma keeps_owner_unlock n me s p a b m o l :
  client_ok (PL := posix_port) me s p -> m_mutexes s !! b = Some m ->
  mutex_at a s = Some (mkAmutex (Some o) l) ->
  mutex_at a (final_kern (pexec n (Mutex.hrt_mutex_unlock b) s p))
  = if decide (a = b /\ o = me) then Some (mkAmutex (hd_error l) (tl l)) else mutex_at a s.
Proof.
  intros Cl E Ho. destruct (client_mutex _ _ _ _ _ Cl E) as (Hrep & R & Hv & Hc & _).
  assert (Hu : forall m' w, amutex_unlock me (mtx_abs m) = Some (m', w) ->
    (if decide (a = b) then Some m' else mutex_at a s)
    = if decide (a = b /\ o = me) then Some (mkAmutex (hd_error l) (tl l)) else mutex_at a s).
  { intros m' w Hu. destruct (decide (a = b)) as [->|]; [|by rewrite decide_False by tauto].
    rewrite (at_Some b s m E) in Ho. apply (inj Some) in Ho. rewrite Ho in Hu.
    unfold amutex_unlock in Hu. cbn in Hu. destruct (Z.eqb_spec o me); [|done]. rewrite decide_True by done.
    by destruct l; simplify_eq/=. }
  destruct (amutex_unlock me (mtx_abs m)) as [[m' [w|]]|] eqn:Hm.
  - destruct (amutex_unlock_handover _ _ _ _ Hm) as (ws & Hw & Em'). cbn in Hw.
    assert (Hq := mutex_qlist b s m E). rewrite Hw in Hq.
    destruct (running_waiter _ _ (PMutex b) _ _ R Hq) as (tc & Htc & _).
    rewrite (exec_mutex_unlock_handover (PL := posix_port) n [me] s p b m m' w tc)
      by (apply R || done || by rewrite Hc).
    rewrite at_exec by keep.
    rewrite (becomes_at a b _ _ _ (khandover_becomes [me] s b m w ws tc (run_inv _ _ R) E Hw Htc)), <- Em'.
    by eapply Hu.
  - rewrite (exec_mutex_unlock_free (PL := posix_port) n [me] s p b m m') by (apply R || done || by rewrite Hc).
    cbn [final_kern]. rewrite (becomes_at a b m' s); [by eapply Hu|].
    apply mutex_becomes_set; [|by left]. by rewrite (amutex_unlock_freed _ _ _ Hm).
  - rewrite (exec_mutex_unlock_refused (PL := posix_port) n s p b m) by (done || by rewrite Hc).
    rewrite decide_False; [done|]. intros [-> ->]. rewrite (at_Some b s m E) in Ho. apply (inj Some) in Ho.
    rewrite Ho in Hm. unfold amutex_unlock in Hm. cbn in Hm. rewrite Z.eqb_refl in Hm. by destruct l.
Qed.

Lemma keeps_owner_call n me s p c a o l :
  client_ok (PL := posix_port) me s p -> api_pre s c ->
  mutex_at a s = Some (mkAmutex (Some o) l) -> c <> CUnlock a \/ o <> me ->
  exists l', mutex_at a (final_kern (pexec n (api_prog c) s p)) = Some (mkAmutex (Some o) (l ++ l')).
Proof.
  intros Cl Hpre Ho Hne. revert o l Ho Hne.
  destruct c; try (intros o l Ho _; exists []; rewrite app_nil_r, at_exec; [done|cbn [api_prog]; unfold int_call,
    void_call, hrt_tick_now, hrt_now_ms, hrt_set_policy, hrt_set_default_timeslice, Sem.hrt_sem_give,
    Queue.hrt_queue_count; by keep]); destruct Hpre as [m E]; cbn [api_prog]; rewrite final_int_call; intros o l Ho Hne.
  - by eapply keeps_owner_lock.
  - by eapply keeps_owner_try_lock.
  - exists []. rewrite app_nil_r. erewrite keeps_owner_unlock by done. rewrite decide_False; [done|].
    intros [-> ->]. by destruct Hne.
Qed.

(** ** Steps of the system *)

(** A step that is the unlock of [a] by its owner [o]. *)
Definition unlocks (a o : Z) (sg sg' : sys) : Prop :=
  exists old n, s_mode sg = InTask o old /\
    sg' = after_call o old (s_conts sg) (exec (S n) (api_prog (CUnlock a)) (s_kern sg) (s_port sg)).

Lemma in_task_client sg me old :
  sys_inv sg -> s_mode sg = InTask me old -> client_ok (PL := posix_port) me (s_kern sg) (s_port sg).
Proof.
  intros Hi Em. destruct sg. cbn in *. subst. eapply client_of; [exact Hi|]. exact (si_mode _ Hi).
Qed.

Lemma unlocks_hands_over sg sg' a o l :
  sys_inv sg -> mutex_at a (s_kern sg) = Some (mkAmutex (Some o) l) -> unlocks a o sg sg' ->
  mutex_at a (s_kern sg') = Some (mkAmutex (hd_error l) (tl l)).
Proof.
  intros Hi Ho (old & n & Em & ->). destruct (at_inv _ _ _ Ho) as (m & E & _).
  rewrite (at_same a _ _ (after_call_obs _ _ _ _)). cbn [api_prog]. rewrite final_int_call.
  rewrite (keeps_owner_unlock _ o _ _ a a m o l) by (done || by eapply in_task_client). by rewrite decide_True.
Qed.

Lemma keeps_owner_step sg sg' a o l :
  sys_inv sg -> step sg sg' -> mutex_at a (s_kern sg) = Some (mkAmutex (Some o) l) ->
  (exists l', mutex_at a (s_kern sg') = Some (mkAmutex (Some o) (l ++ l'))) \/ unlocks a o sg sg'.
Proof.
  intros Hi Hs Ho. destruct Hs as [sg fn argp stack n_words attr Em Hpre|sg Em|sg b Em
    |sg me old c n Em Hpre|sg me old k n Em|sg Hc Hb|sg h Hc Hpre].
  - left. eapply keeps_owner_eq; [|done]. pose proof (at_exec 0 (hrt_create_task fn argp stack n_words attr)
      (s_kern sg) (s_port sg) a (keeps_create _ _ _ _ _)) as H.
    unfold after_create. destruct (pexec 0 _ _ _); cbn in *; congruence.
  - left. by eapply keeps_owner_eq.
  - left. eapply keeps_owner_eq; [|done]. apply at_same, iteration_obs.
  - assert (Hcu : (c = CUnlock a /\ o = me) \/ (c <> CUnlock a \/ o <> me)).
    { destruct (decide (o = me)) as [->|]; [|by right; right]. destruct c; try by right; left.
      destruct (decide (a0 = a)) as [->|]; [by left|right; left; congruence]. }
    destruct Hcu as [[-> ->]|Hne]; [right; by exists old, n|left].
    cbv zeta. rewrite (at_same a _ _ (after_call_obs _ _ _ _)).
    apply (keeps_owner_call _ me); try done. by eapply in_task_client.
  - left. rewrite (at_same a _ _ (after_call_obs _ _ _ _)). pose proof (si_mode _ Hi) as Hm. rewrite Em in Hm. cbn in Hm.
    eapply keeps_owner_eq; [|done].
    destruct Hm as [_ [[r ->]|[(b & it & -> & _)|(b & -> & _)]]]; [done|..];
      by rewrite at_exec by (cbn [api_prog]; unfold int_call; keep).
  - left. eapply keeps_owner_eq; [|done]. apply at_same, signal_obs.
  - left. eapply keeps_owner_eq; [|done]. apply at_same, isr_obs.
    destruct h; cbn [isr_prog]; unfold Sem.hrt_sem_give_from_isr; keep.
Qed.

Lemma keeps_owner_run sg sg1 a o l :
  sys_inv sg -> mutex_at a (s_kern sg) = Some (mkAmutex (Some o) l) ->
  rtc (fun x y => step x y /\ ~ unlocks a o x y) sg sg1 ->
  sys_inv sg1 /\ exists l', mutex_at a (s_kern sg1) = Some (mkAmutex (Some o) (l ++ l')).
Proof.
  intros Hi Ho Hrun. revert l Hi Ho. induction Hrun as [x|x y z [Hs Hn] _ IH]; intros l Hi Ho.
  - split; [done|]. exists []. by rewrite app_nil_r.
  - destruct (keeps_owner_step x y a o l Hi Hs Ho) as [[l1 H1]|]; [|done].
    destruct (IH (l ++ l1)) as [Hz [l2 H2]]; [by eapply step_inv|done|].
    split; [done|]. exists (l1 ++ l2). by rewrite app_assoc.
Qed.

(** A waiter does not run, and it is the owner when it does. *)
Lemma waiter_not_running sg a o l i :
  sys_inv sg -> mutex_at a (s_kern sg) = Some (mkAmutex (Some o) l) -> i ∈ l -> ~ runs sg i.
Proof.
  intros Hi Ho Hl Hr. destruct (at_inv _ _ _ Ho) as (m & E & Em).
  pose proof (mutex_qlist a _ m E) as Hq. apply (f_equal a_queue) in Em. cbn in Em. rewrite Em in Hq.
  apply (running_not_queued i _ (PMutex a) (runs_running _ _ Hi Hr)). cbn [ring_of]. by rewrite Hq.
Qed.

Definition waits_or_owns (a me : Z) (sg : sys) : Prop :=
  exists o l, mutex_at a (s_kern sg) = Some (mkAmutex (Some o) l) /\ (me ∈ l \/ o = me).

Lemma waits_or_owns_step sg sg' a me :
  sys_inv sg -> step sg sg' -> ~ runs sg me -> waits_or_owns a me sg -> waits_or_owns a me sg'.
Proof.
  intros Hi Hs Hn (o & l & Ho & Hme). destruct (keeps_owner_step sg sg' a o l Hi Hs Ho) as [[l' H]|Hu].
  - exists o, (l ++ l'). split; [done|]. rewrite elem_of_app. tauto.
  - pose proof (unlocks_hands_over _ _ _ _ _ Hi Ho Hu) as H. destruct Hme as [Hme| ->].
    + destruct l as [|x l]; [by apply not_elem_of_nil in Hme|]. exists x, l. split; [done|].
      apply elem_of_cons in Hme as [->|]; auto.
    + destruct Hu as (old & n & Em & _). destruct Hn. unfold runs. by rewrite Em.
Qed.

Lemma waiter_resumes_as_owner sg sg' a me :
  sys_inv sg -> waits_or_owns a me sg -> rtc (fun x y => step x y /\ ~ runs x me) sg sg' ->
  runs sg' me -> owner_of a (s_kern sg') = Some me.
Proof.
  intros Hi Hw Hrun Hr. assert (Hend : sys_inv sg' /\ waits_or_owns a me sg').
  { clear Hr. induction Hrun as [x|x y z [Hs Hn] _ IH]; [done|].
    apply IH; [by eapply step_inv|by eapply waits_or_owns_step]. }
  destruct Hend as (Hi' & o & l & Ho & Hme). rewrite (at_owner _ _ _ _ Ho). destruct Hme as [Hme| ->]; [|done].
  by destruct (waiter_not_running _ _ _ _ _ Hi' Ho Hme).
Qed.

(** A lock of an owned mutex: it returns -1 or parks its caller in line. *)
Definition lock_refused {A} (val : A -> Z) (a o : Z) (l : list Z) (me : Z) (r : result (H := posix_port) A) : Prop :=
  match r with
  | Done v _ _ => val v = -1
  | Swapped _ s' _ => mutex_at a s' = Some (mkAmutex (Some o) (l ++ [me]))
  | _ => False
  end.

Definition try_refused {A} (val : A -> Z) (r : result (H := posix_port) A) : Prop :=
  match r with Done v _ _ => val v = -1 | _ => False end.

Lemma lock_owned n me s p a o l :
  client_ok (PL := posix_port) me s p -> mutex_at a s = Some (mkAmutex (Some o) l) ->
  lock_refused id a o l me (pexec n (Mutex.hrt_mutex_lock a) s p) /\
  try_refused id (pexec n (Mutex.hrt_mutex_try_lock a) s p).
Proof.
  intros Cl Ho. destruct (at_inv _ _ _ Ho) as (m & E & Em).
  destruct (client_mutex _ _ _ _ _ Cl E) as (Hrep & R & Hv & Hc & (tc & Htc) & Hr & Hroom).
  pose proof (client_switch _ _ _ Cl) as Hsw.
  rewrite (exec_mutex_try_lock (PL := posix_port) n s p a m) by done. cbv zeta.
  destruct (amutex_lock (g_current s) (mtx_abs m)).2 eqn:Ha; (split; [|try done]).
  1, 2: apply acquired_unowned in Ha; by rewrite Em in Ha.
  - by rewrite (exec_mutex_lock_recursive (PL := posix_port) n s p a m).
  - rewrite (exec_mutex_lock_block (PL := posix_port) n s p a m tc), (exec_hop (PL := posix_port)); try done.
    + cbn [lock_refused].
      rewrite (at_same a (lpush (mutex_ring a) (g_current s) s)), Hc, (keeps_owner_push a a me s m) by done.
      by rewrite decide_True, Em.
    + cbn [g_current kset_tcb set_tcbs]. rewrite (proj1 (lpush_scalars (PMutex a) (g_current s) s)), Hc.
      by auto 10 with hrt.
Qed.

(** The same for the calls as the system makes them. *)
Lemma api_lock_owned n sg me old a o l :
  sys_inv sg -> s_mode sg = InTask me old -> mutex_at a (s_kern sg) = Some (mkAmutex (Some o) l) ->
  lock_refused fst a o l me (pexec n (api_prog (CLock a)) (s_kern sg) (s_port sg)) /\
  try_refused fst (pexec n (api_prog (CTryLock a)) (s_kern sg) (s_port sg)).
Proof.
  intros Hi Em Ho. destruct (lock_owned n me _ _ a o l (in_task_client _ _ _ Hi Em) Ho) as [Hl Ht].
  cbn [api_prog]. unfold int_call. split.
  - destruct (pexec n (Mutex.hrt_mutex_lock a) _ _) as [w s' p'|k s' p'|h s' p'|s' p'] eqn:E; try done.
    + by rewrite (exec_bind _ _ _ _ _ _ _ _ E).
    + by rewrite (exec_swap_bind _ _ _ _ _ _ _ _ E).
  - destruct (pexec n (Mutex.hrt_mutex_try_lock a) _ _) as [w s' p'|k s' p'|h s' p'|s' p'] eqn:E; try done.
    by rewrite (exec_bind _ _ _ _ _ _ _ _ E).
Qed.

(** C6: Mutual exclusion along runs of the POSIX system, in which ticks and
    handlers come between the calls of the tasks. From a reachable state
    in which task [o] owns mutex [a] and the tasks of [l] wait for it in
    this order, whatever tasks, ticks, handlers and the scheduler do, [o]
    stays the owner until a call of [hrt_mutex_unlock] on [a] by [o]
    itself, and the waiters stay in line. Until then a [hrt_mutex_lock] or
    [hrt_mutex_try_lock] of [a] that returns at once returns -1; one that
    waits puts its caller at the end of the line; and no waiter runs, so
    that no lock that waited returns. The unlock makes the first of the
    line the owner (the mutex is free if there is none) and leaves the
    rest of the line. So a task in the line owns the mutex when it runs
    again: a lock that waited returns to its caller as the owner. *)
Theorem mutual_exclusion sg0 sg sg1 a o l :
  initial sg0 -> rtc step sg0 sg -> mutex_at a (s_kern sg) = Some (mkAmutex (Some o) l) ->
  rtc (fun x y => step x y /\ ~ unlocks a o x y) sg sg1 ->
  exists l1, mutex_at a (s_kern sg1) = Some (mkAmutex (Some o) (l ++ l1)) /\
    (forall i, i ∈ l ++ l1 -> ~ runs sg1 i) /\
    (forall me old n, s_mode sg1 = InTask me old ->
       lock_refused fst a o (l ++ l1) me (exec n (api_prog (CLock a)) (s_kern sg1) (s_port sg1)) /\
       try_refused fst (exec n (api_prog (CTryLock a)) (s_kern sg1) (s_port sg1))) /\
    (forall sg2, unlocks a o sg1 sg2 ->
       mutex_at a (s_kern sg2) = Some (mkAmutex (hd_error (l ++ l1)) (tl (l ++ l1)))) /\
    (forall me sg2, me ∈ l ++ l1 -> rtc (fun x y => step x y /\ ~ runs x me) sg1 sg2 ->
       runs sg2 me -> owner_of a (s_kern sg2) = Some me).
Proof.
  intros H0 Hr Ho Hrun. pose proof (reachable_inv Hstall sg0 sg H0 Hr) as Hi.
  destruct (keeps_owner_run _ _ _ _ _ Hi Ho Hrun) as [Hi1 [l1 Ho1]]. exists l1. split_and!; [done|..].
  - intros i. by eapply waiter_not_running.
  - intros me old n Em. by eapply api_lock_owned.
  - intros sg2. by eapply unlocks_hands_over.
  - intros me sg2 Hme Hrun2. eapply waiter_resumes_as_owner; [exact Hi1| |done]. exists o, (l ++ l1). auto.
Qed.

End owner.

(** ** On the demonstration *)

(** Task 1 takes the mutex, then sleeps: task 0 is next, and waits for it. *)
Definition sys_call (me : Z) (c : api) (sg : sys) : sys :=
  let r := exec 1 (api_prog c) (s_kern sg) (s_port sg) in
  after_call me false (forget_new c r (s_conts sg)) r.

Definition owned_sys : sys := sys_call 1 (CLock MTX) demo_sys4.
Definition owned_sys1 : sys := sys_call 1 (CSleep 3) owned_sys.
Definition owned_sys2 : sys := after_iteration false owned_sys1.
Definition owned_sys3 : sys := sys_call 0 (CLock MTX) owned_sys2.

Lemma owned_reachable : rtc step demo_sys0 owned_sys.
Proof.
  transitivity demo_sys4; [exact demo_steps4|]. apply rtc_once. unfold owned_sys, sys_call.
  apply (step_call demo_sys4 1 false (CLock MTX) 0); [vm_compute; reflexivity|].
  vm_compute. by eexists.
Qed.

Lemma owned_waits : mutex_at MTX (s_kern owned_sys3) = Some (mkAmutex (Some 1) [0]).
Proof. vm_compute. reflexivity. Qed.

Lemma owned_run : rtc (fun x y => step x y /\ ~ unlocks MTX 1 x y) owned_sys owned_sys3.
Proof.
  apply rtc_l with owned_sys1; [|apply rtc_l with owned_sys2; [|apply rtc_once]]; split.
  - unfold owned_sys1, sys_call. apply (step_call owned_sys 1 false (CSleep 3) 0); [vm_compute; reflexivity|].
    exact Logic.I.
  - intros (old & n & _ & H). apply (f_equal (fun x => state <$> zget (g_tcbs (s_kern x)) 1)) in H.
    revert H. vm_compute. discriminate.
  - apply step_sched. vm_compute. reflexivity.
  - intros (old & n & H & _). revert H. vm_compute. discriminate.
  - unfold owned_sys3, sys_call. apply (step_call owned_sys2 0 false (CLock MTX) 0); [vm_compute; reflexivity|].
    vm_compute. by eexists.
  - intros (old & n & H & _). revert H. vm_compute. discriminate.
Qed.

Lemma mutual_exclusion_witness :
  s_mode owned_sys3 = InSched /\
  (forall sg2, rtc (fun x y => step x y /\ ~ runs x 0) owned_sys3 sg2 -> runs sg2 0 ->
     owner_of MTX (s_kern sg2) = Some 0).
Proof.
  split; [vm_compute; reflexivity|].
  destruct (mutual_exclusion (C := default_config) eq_refl demo_sys0 owned_sys owned_sys3 MTX 1 []
    demo_initial owned_reachable ltac:(vm_compute; reflexivity) owned_run) as (l1 & H & _ & _ & _ & Hw).
  rewrite owned_waits in H. injection H as <-. intros sg2. apply (Hw 0). apply list_elem_of_here.
Defined.
