(* ===== verification/SignalOwner.v ===== *)
(** * Mutual exclusion with the signal anywhere

    On the system of SignalMachine.v, in which the tick signal comes between
    any two statements: the regions of the tasks that a mutex protects never
    overlap. [orderly] says how the statements of a call may change the
    mutexes, inside of critical sections and outside of them; a record of who
    is in which region runs beside the system ([wstep]). *)

From stdpp Require Import base tactics numbers list option gmap relations.
From S2P Require Import Prelude Types Prog Ring Core Sched Sem Mutex Queue PortNull PortPosix.
From S2P Require Import CoreFacts Inv SchedFacts InitFacts MutexFacts Running PosixFacts.
From S2P Require Import Api ApiSafe ApiCalls ApiTheorem IsrSafe System Frame AppFacts Demo.
From S2P Require Import Stmt CritBal StmtSafe SignalSafe SignalMachine SignalInv SignalProps OwnerProps.
Open Scope Z_scope.
Open Scope prog_scope.
Import Posix.

(** ** Statements of the calls *)

(** Inside of a critical section the state at its beginning and the present
    one are known; outside, whether the task has got the mutex it asked for
    or waits for it. *)
Inductive mphase := Outside (has : bool) | Inside (s0 s : kern).

Section code.
Context `{C : Config} {Cok : ConfigOk C}.
Implicit Types (s : kern) (me i a : Z) (cl : api) (w : world).

Definition waits (a i : Z) s : Prop := i ∈ qlist (mutex_ring a) s.

(** What a task in the call [cl] may do to the mutexes: an owner changes in
    an unlock by the owner only, and who waits no longer is the owner. *)
Definition respects me cl s s' : Prop := forall a,
  (forall o, owner_of a s = Some o -> owner_of a s' = Some o \/ o = me /\ cl = CUnlock a) /\
  (forall i, waits a i s -> waits a i s' \/ owner_of a s' = Some i).

(** The mutex a call locks. *)
Definition locks cl : option Z := match cl with CLock a | CTryLock a => Some a | _ => None end.

Definition has_or_waits me cl s : Prop :=
  forall a, locks cl = Some a -> waits a me s \/ owner_of a s = Some me.

Fixpoint orderly {A} me w cl (Q : A -> bool -> Prop) (ph : mphase) (c : prog A) : Prop :=
  match c, ph with
  | Ret v, Outside has => Q v has
  | Prim f k, Outside has => forall s b s', g_current s = me -> f s = Some (b, s') ->
      m_mutexes s' = m_mutexes s /\ orderly me w cl Q ph (k b)
  | Prim f k, Inside s0 s => forall b s', f s = Some (b, s') -> orderly me w cl Q (Inside s0 s') (k b)
  | Port hrt_port_crit_enter k, Outside _ => forall s, open_at me w s -> orderly me w cl Q (Inside s s) k
  | Port hrt_port_crit_exit k, Inside s0 s => respects me cl s0 s /\
      exists has : bool, (has = true -> has_or_waits me cl s) /\ orderly me w cl Q (Outside has) k
  | Port hrt_port_crit_exit _, Outside _ => False
  | Port _ k, Outside _ => orderly me w cl Q ph k
  | Loop body k, Outside _ =>
      orderly me w cl (fun _ has => has = false) (Outside false) body /\
      forall b, orderly me w cl Q (Outside false) (k b)
  | Halt _, _ => True
  | _, Inside _ _ => False
  end.

(** What a call gives its caller. *)
Definition grants cl (v : api_res) : option Z := a ← locks cl; if v.1 =? 0 then Some a else None.

Definition granted cl (v : api_res) (has : bool) : Prop := forall a, grants cl v = Some a -> has = true.

(** *** The relation *)

Lemma waits_same a i s s' : m_mutexes s' = m_mutexes s -> waits a i s' <-> waits a i s.
Proof. unfold waits, qlist. cbn. by intros ->. Qed.

Lemma respects_lookup me cl s s' :
  (forall a, m_mutexes s' !! a = m_mutexes s !! a \/
     (forall o, owner_of a s = Some o -> owner_of a s' = Some o \/ o = me /\ cl = CUnlock a) /\
     (forall i, waits a i s -> waits a i s' \/ owner_of a s' = Some i)) ->
  respects me cl s s'.
Proof.
  intros H a. destruct (H a) as [E|?]; [|done]. split.
  - intros o. rewrite (owner_lookup a s s' E). by left.
  - intros i. unfold waits, qlist. cbn. rewrite E. by left.
Qed.

Lemma respects_same me cl s s' : m_mutexes s' = m_mutexes s -> respects me cl s s'.
Proof. intros E. apply respects_lookup. intros a. left. by rewrite E. Qed.

Lemma has_same me cl s s' : m_mutexes s' = m_mutexes s -> has_or_waits me cl s -> has_or_waits me cl s'.
Proof. intros E H a Ha. rewrite (waits_same a me s s' E), (owner_same a s s' E). by apply H. Qed.

(** Another task does not take it away. *)
Lemma has_respects me cl i ci s s' :
  i <> me -> respects i ci s s' -> has_or_waits me cl s -> has_or_waits me cl s'.
Proof.
  intros Hne Hr H a Ha. destruct (Hr a) as [Ho Hw]. destruct (H a Ha) as [Hm|Hm]; [by apply Hw|].
  destruct (Ho _ Hm) as [|[-> _]]; [by right|done].
Qed.

(** A task that runs is past its wait. *)
Lemma running_has me cl s : running me s -> has_or_waits me cl s -> forall a, locks cl = Some a -> owner_of a s = Some me.
Proof.
  intros R H a Ha. destruct (H a Ha) as [Hw|]; [|done].
  by destruct (running_not_queued me s (PMutex a) R).
Qed.

End code.

Section rules.
Context `{C : Config} {Cok : ConfigOk C}.
Context {me : Z} {w : world} {cl : api}.
Implicit Types (s : kern) (a : Z).
Local Abbreviation orderly := (orderly me w cl).

Lemma orderly_bind {A B} (Q' : A -> bool -> Prop) (Q : B -> bool -> Prop) ph (c : prog A) (f : A -> prog B) :
  orderly Q' ph c -> (forall v has, Q' v has -> orderly Q (Outside has) (f v)) -> orderly Q ph (bind c f).
Proof.
  revert B Q f ph. induction c as [A v|A h|A B0 g k IH|A pc k IH|A B0 body IHb k IHk];
    intros B Q f ph; cbn [bind SignalOwner.orderly].
  - destruct ph; [|done]. intros H Hf. by apply Hf.
  - done.
  - destruct ph as [has|s0 s]; intros H Hf.
    + intros s b s' Hc E. destruct (H s b s' Hc E) as [Hm Hk]. split; [done|]. by eapply IH.
    + intros b s' E. eapply IH; [by apply H|done].
  - destruct ph as [has|s0 s], pc; try done; try (by intros H Hf; eapply IH).
    + intros H Hf s Hs. eapply IH; [by apply H|done].
    + intros (Hr & has & Hh & Hk) Hf. split; [done|]. exists has. split; [done|]. by eapply IH.
  - destruct ph as [has|s0 s]; [|done]. intros [Hb Hk] Hf. split; [done|]. intros b. by eapply IHk.
Qed.

Lemma orderly_loop {A B} (Q : A -> bool -> Prop) has (body : prog (option B)) (k : B -> prog A) :
  orderly Q (Outside has) (Loop body k) -> orderly Q (Outside false) (bind body (loop_rest body k)).
Proof.
  intros [Hb Hk]. eapply orderly_bind; [exact Hb|]. intros [b|] h ->; [apply Hk|]. by split.
Qed.

(** Code that leaves the mutexes alone. *)
Lemma orderly_keeps {A} (Q : A -> bool -> Prop) (m : bool) (c : prog A) :
  keeps_of m_mutexes c -> bal true m false c -> (forall v, Q v false) ->
  (m = false -> orderly Q (Outside false) c) /\
  (m = true -> forall s0 s, m_mutexes s = m_mutexes s0 -> orderly Q (Inside s0 s) c).
Proof.
  revert m Q. induction c as [A v|A h|A B0 g k IH|A pc k IH|A B0 body IHb k IHk];
    intros m Q; cbn [keeps_of bal SignalOwner.orderly].
  - intros _ -> HQ. by split.
  - done.
  - intros [Hg Hk] Hb HQ. split; intros ->.
    + intros s b s' _ E. split; [by eapply Hg|]. by apply (IH b false Q).
    + intros s0 s Es b s' E. apply (IH b true Q); [done..|]. rewrite <- Es. by eapply Hg.
  - intros Hk (m1 & E & Hb) HQ. destruct (IH m1 Q Hk Hb HQ) as [H1 H2].
    split; intros ->; destruct pc; try discriminate E; injection E as <-; try (by apply H1).
    + intros s Hs. by apply H2.
    + intros s0 s Es. split; [by apply respects_same|]. exists false. split; [done|]. by apply H1.
  - intros [Hkb Hk] (-> & Hbb & Hb) HQ. split; [|done]. intros _. split; [by apply (IHb false)|].
    intros b. by apply (IHk b false).
Qed.

Lemma orderly_quiet {A} (Q : A -> bool -> Prop) (c : prog A) :
  keeps_of m_mutexes c -> bal true false false c -> (forall v, Q v false) -> orderly Q (Outside false) c.
Proof. intros Hk Hb HQ. by apply (orderly_keeps Q false c). Qed.

(** Statements inside of a critical section. *)
Lemma orderly_portless {A B} (Q : B -> bool -> Prop) s0 s (c : prog A) (f : A -> prog B) v s' :
  portless c -> Null.core_call c s = @Done Null.null_port _ v s' tt -> orderly Q (Inside s0 s') (f v) ->
  orderly Q (Inside s0 s) (bind c f).
Proof.
  unfold Null.core_call. revert B Q f s v s'.
  induction c as [A v0|A h|A B0 g k IH|A pc k IH|A B0 body IHb k IHk];
    intros B Q f s v s'; cbn [portless exec bind SignalOwner.orderly]; try done.
  - intros _ [= -> ->]. done.
  - intros Hp E Hf b s1 E1. rewrite E1 in E. by eapply IH.
Qed.

Lemma orderly_reads {A B} (Q : B -> bool -> Prop) s0 s (g : kern -> option A) (f : A -> prog B) v :
  g s = Some v -> orderly Q (Inside s0 s) (f v) -> orderly Q (Inside s0 s) (bind (reads g) f).
Proof. intros E Hf. eapply orderly_portless; [done| |exact Hf]. unfold Null.core_call. cbn. by rewrite E. Qed.

Lemma orderly_writes {B} (Q : B -> bool -> Prop) s0 s g (f : unit -> prog B) s' :
  g s = Some s' -> orderly Q (Inside s0 s') (f tt) -> orderly Q (Inside s0 s) (bind (writes g) f).
Proof. intros E Hf. eapply orderly_portless; [done| |exact Hf]. unfold Null.core_call. cbn. by rewrite E. Qed.

Lemma orderly_current {B} (Q : B -> bool -> Prop) has (f : Z -> prog B) :
  orderly Q (Outside has) (f me) -> orderly Q (Outside has) (bind (gets g_current) f).
Proof. intros H s b s' Hc [= <- <-]. rewrite Hc. by split. Qed.

Lemma orderly_exit {B} (Q : B -> bool -> Prop) s0 s (has : bool) (f : unit -> prog B) :
  respects me cl s0 s -> (has = true -> has_or_waits me cl s) -> orderly Q (Outside has) (f tt) ->
  orderly Q (Inside s0 s) (bind (call hrt_port_crit_exit) f).
Proof. intros Hr Hh Hf. split; [done|]. by exists has. Qed.

(** Leaving a section in which nothing was changed. *)
Lemma orderly_unchanged {B} (Q : B -> bool -> Prop) s (f : unit -> prog B) :
  orderly Q (Outside false) (f tt) -> orderly Q (Inside s s) (bind (call hrt_port_crit_exit) f).
Proof. intros Hf. apply (orderly_exit _ _ _ false); [by apply respects_same|done|done]. Qed.

Hypothesis Hme : valid_id me.

Lemma has_owner a s : locks cl = Some a -> owner_of a s = Some me -> has_or_waits me cl s.
Proof. intros Hl Ho b. rewrite Hl. intros [= <-]. by right. Qed.

(** *** Locking *)

Lemma respects_acquire a s m :
  m_mutexes s !! a = Some m -> mtx_locked m = 0 ->
  let s' := kset_mutex a (mkMutex 1 me (mtx_waitq m)) s in
  respects me cl s s' /\ owner_of a s' = Some me.
Proof.
  intros E Hl s'. assert (E' : m_mutexes s' !! a = Some (mkMutex 1 me (mtx_waitq m))) by apply kset_mutex_lookup.
  split; [|by rewrite (owner_Some a s' _ E')].
  apply respects_lookup. intros b. destruct (decide (b = a)) as [->|Hb]; [right|left; by apply lookup_insert_ne].
  split.
  - intros o. rewrite (owner_Some a s m E). cbn. by rewrite Hl.
  - intros i. unfold waits. rewrite (mutex_qlist a s m E), (mutex_qlist a s' _ E'). by left.
Qed.

Lemma respects_wait a s m tc :
  open_at me w s -> m_mutexes s !! a = Some m -> 
  respects me cl s (kset_tcb me tc (lpush (mutex_ring a) me s)) /\
  waits a me (kset_tcb me tc (lpush (mutex_ring a) me s)).
Proof.
  intros Hs E. pose proof (open_run _ _ _ Hs) as R. set (s' := kset_tcb _ _ _).
  assert (Hr := mutex_ring_ok _ _ _ _ (run_inv _ _ R) E).
  pose proof (lpush_spec me s Hr (running_room me s (PMutex a) R)) as [_ Hq].
  assert (Hq' : qlist (mutex_ring a) s' = qlist (mutex_ring a) s ++ [me]) by exact Hq.
  split; [|unfold waits; rewrite Hq', elem_of_app, list_elem_of_singleton; by right].
  apply respects_lookup. intros b. destruct (decide (b = a)) as [->|Hb].
  - right. split.
    + intros o Ho. left. rewrite <- Ho. exact (owner_lpush a a me s).
    + intros i Hi. left. unfold waits. rewrite Hq', elem_of_app. by left.
  - left. cbn. unfold lpush. cbn. rewrite E. cbn. by rewrite lookup_alter_ne.
Qed.

Definition zero_means_has (r : Z) (has : bool) : Prop := r = 0 -> has = true.

Lemma orderly_error {B} (Q : B -> bool -> Prop) e v :
  Q v false -> orderly Q (Outside false) (hrt_error e ;; Ret v).
Proof.
  intros HQ. eapply (orderly_bind (fun _ has => has = false)); [|by intros _ has ->].
  by apply orderly_quiet; [apply keeps_error|apply bal_error|].
Qed.

Lemma orderly_try_lock a :
  is_Some (w.1.2 !! a) -> locks cl = Some a ->
  orderly zero_means_has (Outside false) (Mutex.hrt_mutex_try_lock a).
Proof.
  intros Ha Hcl. unfold Mutex.hrt_mutex_try_lock. apply orderly_current. rewrite id_in_range by done.
  intros s Hs. destruct (world_mutex s a Hs Ha) as [m E].
  eapply orderly_reads; [by rewrite E|]. destruct (Z.eqb_spec (mtx_locked m) 0) as [Hl|Hl].
  - destruct (open_lock Hme s a m Hs E Hl) as (Hx & _). destruct (respects_acquire a s m E Hl) as [Hr Ho].
    eapply orderly_portless; [by unfold Mutex.take_ownership; portless|exact Hx|].
    apply (orderly_exit _ _ _ true); [exact Hr|by intros _; eapply has_owner|done].
  - eapply orderly_reads; [by rewrite E|]. destruct (mtx_owner m =? me); apply orderly_unchanged; [|done].
    by apply orderly_error.
Qed.

Lemma orderly_lock a :
  is_Some (w.1.2 !! a) -> locks cl = Some a ->
  orderly zero_means_has (Outside false) (Mutex.hrt_mutex_lock a).
Proof.
  intros Ha Hcl. unfold Mutex.hrt_mutex_lock. apply orderly_current. rewrite id_in_range by done.
  eapply orderly_bind; [by apply orderly_try_lock|]. intros r has Hr.
  destruct (Z.eqb_spec r 0) as [->|_]; [done|].
  intros s Hs. destruct (world_mutex s a Hs Ha) as [m E].
  eapply orderly_reads; [by rewrite E|]. destruct (Z.eqb_spec (mtx_locked m) 0) as [Hl|Hl].
  - destruct (open_lock Hme s a m Hs E Hl) as (Hx & _). destruct (respects_acquire a s m E Hl) as [Hre Ho].
    eapply orderly_portless; [by unfold Mutex.take_ownership; portless|exact Hx|].
    apply (orderly_exit _ _ _ true); [exact Hre|by intros _; eapply has_owner|done].
  - eapply orderly_reads; [by rewrite E|]. destruct (Z.eqb_spec (mtx_owner m) me) as [He|He].
    + apply orderly_unchanged. by apply orderly_error.
    + rewrite valid_u8, tcb_ptr by done. cbn [is_null].
      destruct (open_tcb s Hs) as (tc & Htc & Hst).
      destruct (open_lock_wait s a m tc Hs E Hl He Htc) as (Hp & _).
      destruct (respects_wait a s m (tcb_set_state HRT_BLOCKED tc) Hs E) as [Hre Hw].
      eapply orderly_portless; [by unfold Mutex._waitq_push; portless|exact Hp|].
      eapply orderly_writes; [apply tcb_upd_Some; by rewrite (lpush_tcbs (PMutex a))|].
      apply (orderly_exit _ _ _ true); [exact Hre| |done].
      intros _ b. rewrite Hcl. intros [= <-]. by left.
Qed.

(** *** Unlocking *)

Lemma becomes_lookup a m' s s' :
  mutex_becomes a m' s s' ->
  owner_of a s' = a_owner m' /\ qlist (mutex_ring a) s' = a_queue m' /\
  forall b, b <> a -> m_mutexes s' !! b = m_mutexes s !! b.
Proof.
  intros ((m1 & E & <- & _) & Hb & _). split_and!; [by apply owner_Some|by apply mutex_qlist|done].
Qed.

(** The owner passes the mutex on to the oldest waiter, or leaves it free. *)
Lemma respects_release a s s' m m' x :
  m_mutexes s !! a = Some m -> amutex_unlock me (mtx_abs m) = Some (m', x) -> cl = CUnlock a ->
  mutex_becomes a m' s s' -> respects me cl s s'.
Proof.
  intros E Hu Hcl (Ho & Hq & Hb)%becomes_lookup. apply respects_lookup. intros b.
  destruct (decide (b = a)) as [->|Hne]; [right|left; by apply Hb].
  unfold waits. rewrite (owner_Some a s m E), (mutex_qlist a s m E), Ho, Hq. unfold amutex_unlock in Hu.
  change (ring_list (mtx_waitq m)) with (a_queue (mtx_abs m)).
  destruct (a_owner (mtx_abs m)) as [o|]; [|done]. destruct (Z.eqb_spec o me) as [Eme|]; [|done]. split.
  - intros o' [= <-]. by right.
  - destruct (a_queue (mtx_abs m)) as [|y ys]; injection Hu as <- <-; cbn; [by left|].
    intros i [->|Hi]%elem_of_cons; [by right|by left].
Qed.

Lemma orderly_unlock a :
  is_Some (w.1.2 !! a) -> cl = CUnlock a ->
  orderly (fun _ has => has = false) (Outside false) (Mutex.hrt_mutex_unlock a).
Proof.
  intros Ha Hcl. unfold Mutex.hrt_mutex_unlock. apply orderly_current. rewrite id_in_range by done.
  intros s Hs. destruct (world_mutex s a Hs Ha) as [m E].
  eapply orderly_reads; [by rewrite E|]. eapply orderly_reads; [by rewrite E|].
  destruct ((mtx_locked m =? 0) || negb (mtx_owner m =? me)) eqn:Hown.
  { apply orderly_unchanged. by apply orderly_error. }
  pose proof (open_run _ _ _ Hs) as R. pose proof (run_cur _ _ R) as Hc.
  destruct (unlock_cases _ _ Hown) as [(m' & x & Hu)|Hq].
  - pose proof Hu as Hu'. rewrite <- Hc in Hu.
    destruct (open_handover s a m m' x Hs E Hu) as (s1 & E1 & [? ?] & s2 & E2 & s3 & E3 & _ & _ & Hm).
    eapply orderly_portless; [by unfold Mutex._waitq_pop; portless|exact E1|]. zbool.
    eapply orderly_portless; [by unfold Mutex.take_ownership; portless|exact E2|].
    eapply orderly_portless; [apply portless_ready|exact E3|].
    apply (orderly_exit _ _ _ false); [by eapply respects_release|done|].
    eapply orderly_bind; [by apply (orderly_quiet (fun _ has => has = false)); [keep|apply bal_yield|]|].
    by intros _ has ->.
  - assert (Hr := mutex_ring_ok _ _ _ _ (run_inv _ _ R) E).
    eapply orderly_portless; [by unfold Mutex._waitq_pop; portless| |].
    { apply (exec_mutex_waitq_pop_empty (PL := Null.null_port)); [done|]. by rewrite (mutex_qlist a s m E). }
    zbool. eapply orderly_writes; [by apply mtx_upd_Some|].
    eapply orderly_writes; [apply mtx_upd_Some, kset_mutex_lookup|].
    rewrite kset_mutex_twice. apply (orderly_exit _ _ _ false); [|done|done].
    destruct (amutex_unlock me (mtx_abs m)) as [[m' x]|] eqn:Hu.
    + eapply respects_release; [done..|]. pose proof Hu as Hu'. 
      unfold amutex_unlock in Hu. cbn in Hu. rewrite Hq in Hu.
      destruct (mtx_locked m =? 0); [done|]. destruct (mtx_owner m =? me); [|done]. injection Hu as <- <-.
      split_and!; [|by intros b Hb; apply lookup_insert_ne|done|done].
      eexists. split_and!; [apply kset_mutex_lookup| |by left]. unfold mtx_abs. cbn. by rewrite Hq.
    + exfalso. unfold amutex_unlock in Hu. cbn in Hu. rewrite Hq in Hu. revert Hown Hu.
      destruct (mtx_locked m =? 0); [done|]. by destruct (mtx_owner m =? me).
Qed.

End rules.

(** *** Every call *)

Lemma api_orderly `{C : Config} {Cok : ConfigOk C} me w cl s :
  open_at me w s -> creates cl = false -> api_pre s cl ->
  orderly me w cl (granted cl) (Outside false) (api_prog cl).
Proof.
  intros Hs Hcr Hpre. pose proof (open_valid _ Hs) as Hme.
  assert (Hm : forall a, is_Some (m_mutexes s !! a) -> is_Some (w.1.2 !! a)).
  { intros a [m E]. rewrite <- (open_shape _ _ _ Hs). cbn. rewrite lookup_fmap, E. by eexists. }
  destruct (locks cl) as [a|] eqn:Hl.
  - assert (Hc : forall c, orderly me w cl zero_means_has (Outside false) c ->
      orderly me w cl (granted cl) (Outside false) (int_call c)).
    { intros c Hc. eapply orderly_bind; [exact Hc|]. intros r has Hr b. unfold grants. rewrite Hl. cbn.
      destruct (Z.eqb_spec r 0); [by auto|done]. }
    destruct cl; try discriminate Hl; injection Hl as ->; apply Hc; [apply orderly_lock|apply orderly_try_lock]; auto.
  - assert (HQ : forall v, granted cl v false) by (intros v b; unfold grants; by rewrite Hl).
    destruct cl; try discriminate Hl; try discriminate Hcr;
      try (apply orderly_quiet; [|apply bal_api|done]; cbn [api_prog];
        unfold int_call, void_call, hrt_tick_now, hrt_now_ms, hrt_set_policy, hrt_set_default_timeslice,
          Sem.hrt_sem_give, Queue.hrt_queue_count; by keep).
    eapply orderly_bind; [apply orderly_unlock; auto|]. by intros r has -> b.
Qed.

(** ** Who is between a lock and an unlock *)

(** The system with a record, which it does not read, of the call each task
    is in, and of the tasks that are in the region a mutex protects: from the
    return of a lock with 0 to the next call of an unlock. *)
Record watched := mkWatched { w_sys : psys; w_calls : gmap Z api; w_in : gset (Z * Z) }.

Section watch.
Context `{C : Config}.

Definition enters (me : Z) (cl : api) (v : api_res) (R : gset (Z * Z)) : gset (Z * Z) :=
  match grants cl v with Some a => {[(me, a)]} ∪ R | None => R end.

Definition leaves (me : Z) (cl : api) (R : gset (Z * Z)) : gset (Z * Z) :=
  match cl with CUnlock a => R ∖ {[(me, a)]} | _ => R end.

Inductive wstep : watched -> watched -> Prop :=
  | w_call g cs R me old cl :
      ps_mode g = PTask me old -> ps_code g !! me = None -> creates cl = false ->
      api_pre (ps_kern g) cl ->
      wstep (mkWatched g cs R)
        (mkWatched (mkPsys (ps_kern g) (ps_port g) (PTask me old) (<[me := api_prog cl]> (ps_code g)))
           (<[me := cl]> cs) (leaves me cl R))
  | w_return g cs R me old cl v :
      ps_mode g = PTask me old -> ps_code g !! me = Some (Ret v) -> cs !! me = Some cl ->
      wstep (mkWatched g cs R)
        (mkWatched (after_statement me old g (Ret v)) (delete me cs) (enters me cl v R))
  | w_other g g' cs R :
      pstep g g' -> dom (ps_code g') = dom (ps_code g) ->
      wstep (mkWatched g cs R) (mkWatched g' cs R).

Lemma wstep_pstep x y : wstep x y -> pstep (w_sys x) (w_sys y).
Proof. intros []; [by apply pstep_call|by apply pstep_stmt|done]. Qed.

(** A statement that is no return leaves the task in its call. *)
Lemma statement_dom g me old c :
  ps_code g !! me = Some c -> (forall r, c <> Ret r) ->
  dom (ps_code (after_statement me old g c)) = dom (ps_code g).
Proof.
  intros Hc Hret. assert (Hins : forall c', dom (<[me := c']> (ps_code g)) = dom (ps_code g)).
  { intros c'. apply dom_insert_lookup_L. by eexists. }
  unfold after_statement. destruct c as [r|h|B f k|pc k|B body k]; cbn [stmt].
  - by destruct (Hret r).
  - done.
  - destruct (f (ps_kern g)) as [[b s']|]; [|done]. apply Hins.
  - destruct (port_do pc _ _); [|destruct (sched_return old _ _)|]; try done; apply Hins.
  - apply Hins.
Qed.

(** It is a record of every run: no step is lost. *)
Lemma pstep_wstep g g' cs R :
  dom (ps_code g) ⊆ dom cs -> pstep g g' ->
  exists cs' R', wstep (mkWatched g cs R) (mkWatched g' cs' R').
Proof.
  intros Hd Hs. assert (Hp := Hs).
  destruct Hs as [g fn argp stack n_words attr Em Hpre|g Em|g Em|g b Em
    |g me old c Em Hn Hc Hpre|g me old c Em Hc|g Hdo Har Hb Hfit].
  - exists cs, R. apply w_other; [done|]. unfold after_pmain. by destruct (exec 0 _ _ _).
  - exists cs, R. apply w_other; [done|]. unfold after_plaunch. by destruct (exec 0 _ _ _).
  - exists cs, R. apply w_other; [done|]. unfold after_poll. by destruct (sched_poll _).
  - exists cs, R. apply w_other; [done|]. unfold after_pick. by destruct (sched_pick _ _) as [[[] ?] ?].
  - eexists _, _. by apply w_call.
  - assert (Hr : (exists r, c = Ret r) \/ forall r, c <> Ret r) by (destruct c; [left; by eexists|by right..]).
    destruct Hr as [[r ->]|Hr]; [|exists cs, R; apply w_other; [done|by apply statement_dom]].
    assert (Hme : me ∈ dom (ps_code g)) by (apply elem_of_dom; by eexists).
    apply Hd, elem_of_dom in Hme as [cl Hcl]. eexists _, _. by apply (w_return _ _ _ _ _ cl).
  - exists cs, R. apply w_other; [done|]. unfold after_signal. by destruct (run_signal g).
Qed.

End watch.

(** ** The invariant *)

Section winv.
Context `{C : Config} {Cok : ConfigOk C}.
Implicit Types (g : psys) (cs : gmap Z api) (R : gset (Z * Z)) (v s : kern) (w : world).

Definition left_outside w cs v (i : Z) (c : prog api_res) : Prop :=
  exists cl (has : bool), cs !! i = Some cl /\ (has = true -> has_or_waits i cl v) /\
    orderly i w cl (granted cl) (Outside has) c.

Definition left_inside w cs v s (i : Z) (c : prog api_res) : Prop :=
  exists cl, cs !! i = Some cl /\ orderly i w cl (granted cl) (Inside v s) c.

(** [v] is the kernel state as it is outside of critical sections: the
    present one, or that at the beginning of the section under way. *)
Record winv_at w g cs R v : Prop := {
  wv_view : g_crit_depth (ps_port g) = 0 -> v = ps_kern g;
  wv_out : forall i c, ps_code g !! i = Some c ->
    g_crit_depth (ps_port g) = 0 \/ (forall old, ps_mode g <> PTask i old) -> left_outside w cs v i c;
  wv_ins : forall i old c, ps_code g !! i = Some c -> ps_mode g = PTask i old ->
    g_crit_depth (ps_port g) <> 0 -> left_inside w cs v (ps_kern g) i c;
  wv_in : forall i a, (i, a) ∈ R -> owner_of a v = Some i /\ cs !! i <> Some (CUnlock a)
}.

Definition winv w x : Prop := pinv w (w_sys x) /\ exists v, winv_at w (w_sys x) (w_calls x) (w_in x) v.

(** The record has the calls of all tasks. *)
Lemma winv_calls w g cs R v i c : winv_at w g cs R v -> ps_code g !! i = Some c -> is_Some (cs !! i).
Proof.
  intros [_ Ho Hi _] Hc.
  assert (Hm : (exists old, ps_mode g = PTask i old) \/ forall old, ps_mode g <> PTask i old).
  { destruct (ps_mode g) as [| | | |me old|]; try by right. destruct (decide (me = i)) as [->|]; [left; by exists old|].
    right. congruence. }
  destruct (decide (g_crit_depth (ps_port g) = 0)) as [Hd|Hd];
    [destruct (Ho i c Hc (or_introl Hd)) as (cl & _ & -> & _); by eexists|].
  destruct Hm as [[old Em]|Hm].
  - destruct (Hi i old c Hc Em Hd) as (cl & -> & _). by eexists.
  - destruct (Ho i c Hc (or_intror Hm)) as (cl & _ & -> & _). by eexists.
Qed.

(** Outside of critical sections. *)
Lemma winv_outside w g cs R :
  g_crit_depth (ps_port g) = 0 ->
  (forall i c, ps_code g !! i = Some c -> left_outside w cs (ps_kern g) i c) ->
  (forall i a, (i, a) ∈ R -> owner_of a (ps_kern g) = Some i /\ cs !! i <> Some (CUnlock a)) ->
  winv_at w g cs R (ps_kern g).
Proof. intros Hd Hc HR. split; try done. by eauto. Qed.

(** A step that leaves the mutexes and the calls alone. *)
Lemma winv_quiet w g g' cs R v :
  winv_at w g cs R v -> g_crit_depth (ps_port g) = 0 -> g_crit_depth (ps_port g') = 0 ->
  m_mutexes (ps_kern g') = m_mutexes (ps_kern g) -> ps_code g' = ps_code g ->
  winv_at w g' cs R (ps_kern g').
Proof.
  intros [Hv Ho _ HR] Hd Hd' Em Ec. rewrite (Hv Hd) in Ho, HR. apply winv_outside; [done|..].
  - intros i c. rewrite Ec. intros Hc. destruct (Ho i c Hc (or_introl Hd)) as (cl & has & H1 & H2 & H3).
    exists cl, has. split_and!; [done| |done]. intros Hh. by eapply has_same, H2.
  - intros i a Hi. rewrite (owner_same a (ps_kern g)) by done. by apply HR.
Qed.

(** A statement of [me], in the call [cl], after which no critical section
    is under way. *)
Lemma winv_statement w g g' cs R v me old cl c has :
  winv_at w g cs R v -> ps_mode g = PTask me old -> cs !! me = Some cl ->
  respects me cl v (ps_kern g') -> g_crit_depth (ps_port g') = 0 ->
  (has = true -> has_or_waits me cl (ps_kern g')) -> orderly me w cl (granted cl) (Outside has) c ->
  ps_code g' = <[me := c]> (ps_code g) -> winv_at w g' cs R (ps_kern g').
Proof.
  intros [_ Ho _ HR] Em Hcl Hre Hd' Hh Hok Ec. apply winv_outside; [done|..].
  - intros i c'. rewrite Ec. destruct (decide (i = me)) as [->|Hne].
    + rewrite lookup_insert_eq. intros [= <-]. by exists cl, has.
    + rewrite lookup_insert_ne by done. intros Hc'.
      destruct (Ho i c' Hc') as (ci & hi & H1 & H2 & H3); [right; intros old'; congruence|].
      exists ci, hi. split_and!; [done| |done]. intros Hi. by eapply has_respects; [|exact Hre|apply H2].
  - intros i a Hi. destruct (HR i a Hi) as [Hown Hcs]. split; [|done].
    destruct (Hre a) as [Hk _]. destruct (Hk i Hown) as [|[-> ->]]; [done|]. by rewrite Hcl in Hcs.
Qed.

(** Into a critical section, and along it. *)
Lemma winv_inside w g g' cs R v me old cl c :
  winv_at w g cs R v -> ps_mode g = PTask me old -> ps_mode g' = PTask me old -> cs !! me = Some cl ->
  g_crit_depth (ps_port g') = 1 -> orderly me w cl (granted cl) (Inside v (ps_kern g')) c ->
  ps_code g' = <[me := c]> (ps_code g) -> winv_at w g' cs R v.
Proof.
  intros [_ Ho _ HR] Em Em' Hcl Hd' Hok Ec. split; rewrite ?Em', ?Hd'; [done| | |done].
  - intros i c' Hc' [|Hi]; [done|]. assert (Hne : i <> me) by (intros ->; by apply (Hi old)).
    rewrite Ec, lookup_insert_ne in Hc' by done. apply Ho; [done|]. right. intros old'. congruence.
  - intros i old' c' Hc' [= <- <-] _. rewrite Ec, lookup_insert_eq in Hc'. injection Hc' as <-. by exists cl.
Qed.

(** A statement outside of critical sections. *)
Lemma open_winv w g cs R me old c :
  winv_at w g cs R (ps_kern g) -> pinv w g -> ps_mode g = PTask me old ->
  ps_code g !! me = Some c -> (forall r, c <> Ret r) -> g_crit_depth (ps_port g) = 0 ->
  exists v, winv_at w (after_statement me old g c) cs R v.
Proof.
  intros I [s0 P] Em Hc Hret Hd. pose proof (pphase_task _ _ _ _ _ _ (pv_phase _ _ _ P) Em Hc) as Ph.
  pose proof (wv_out _ _ _ _ _ I me c Hc (or_introl Hd)) as (cl & has & Hcl & Hh & Hok).
  assert (Hgo : forall g' c' has', m_mutexes (ps_kern g') = m_mutexes (ps_kern g) -> g_crit_depth (ps_port g') = 0 ->
    ps_code g' = <[me := c']> (ps_code g) -> (has' = true -> has = true) ->
    orderly me w cl (granted cl) (Outside has') c' -> exists v, winv_at w g' cs R v).
  { intros g' c' has' E Hd' Ec Hhas Hk. eexists.
    eapply winv_statement; [done|done|done|by apply respects_same|done| |exact Hk|done].
    intros H'. eapply has_same; [exact E|auto]. }
  unfold after_statement.
  destruct Ph as [Ho _ Hph|s1 Ho Hd1 _ _|_ Hv Hcu Hph|Hpk _ Hph]; [|lia|..].
  - destruct c as [r|h|B f k|pc k|B body k]; cbn [ok] in Hph; cbn [stmt].
    + by destruct (Hret r).
    + done.
    + destruct (Hph _ Ho) as (b & s' & ph' & E & _). rewrite E. cbn [orderly] in Hok.
      destruct (Hok _ _ _ (run_cur _ _ (open_run _ _ _ Ho)) E) as [Em' Hk]. by eapply Hgo.
    + destruct pc; try done; try (by destruct Hph); cbn [port_do].
      * exists (ps_kern g). eapply winv_inside; [done|done|done|done| |by apply Hok|done].
        cbn. unfold posix_crit_enter. by rewrite Hd.
      * by eapply Hgo.
    + eapply (Hgo _ _ false); [done..|]. by eapply orderly_loop.
  - destruct c as [r|h|B f k|pc k|B body k]; cbn [ok] in Hph; cbn [stmt]; try done; try (by destruct Hph).
    + destruct Hph as (_ & _ & b & s' & ph & E & _). rewrite E.
      destruct (Hok _ _ _ Hcu E) as [Em' Hk]. by eapply Hgo.
    + by destruct pc; try done; destruct Hph.
  - destruct Hph as [Hph|[_ Hph]]; destruct c as [r|h|B f k|pc k|B body k]; cbn [ok] in Hph; try done;
      try (by destruct Hph); destruct pc; try done; try (by destruct Hph); cbn [stmt port_do].
    + by eapply Hgo.
    + rewrite switch_yields.
      2: { cbn. rewrite (pk_cur _ _ _ Hpk). by eapply (pv_ctx _ _ _ P). }
      unfold sched_return. rewrite (parked_skip me w) by done. by eapply Hgo.
Qed.

(** A statement inside of one. *)
Lemma masked_winv w g cs R v me old c :
  winv_at w g cs R v -> pinv w g -> ps_mode g = PTask me old ->
  ps_code g !! me = Some c -> g_crit_depth (ps_port g) <> 0 ->
  exists v', winv_at w (after_statement me old g c) cs R v'.
Proof.
  intros I [s0 P] Em Hc Hd. pose proof (pphase_task _ _ _ _ _ _ (pv_phase _ _ _ P) Em Hc) as Ph.
  pose proof (wv_ins _ _ _ _ _ I me old c Hc Em Hd) as (cl & Hcl & Hok).
  destruct Ph as [Ho ? Hph|s1 Ho Hd1 _ Hph|? Hv Hcu Hph|Hpk ? Hph]; try lia. unfold after_statement.
  destruct c as [r|h|B f k|pc k|B body k]; cbn [ok] in Hph; cbn [stmt]; try done; try (by destruct Hph).
  - destruct Hph as (b & s' & E & _). rewrite E. exists v.
    eapply winv_inside; [done|done|done|done|done|by apply Hok|done].
  - destruct pc; try done. destruct Hok as (Hre & has & Hh & Hk). cbn [port_do].
    eexists. eapply winv_statement; [done|done|done|exact Hre| |exact Hh|exact Hk|done].
    cbn. unfold posix_crit_exit. by rewrite Hd1.
Qed.

(** A call returns. *)
Lemma return_winv w g cs R v me old cl r :
  winv_at w g cs R v -> pinv w g -> ps_mode g = PTask me old ->
  ps_code g !! me = Some (Ret r) -> cs !! me = Some cl ->
  winv_at w (after_statement me old g (Ret r)) (delete me cs) (enters me cl r R) (ps_kern g).
Proof.
  intros I [s0 P] Em Hc Hcl. pose proof (pphase_task _ _ _ _ _ _ (pv_phase _ _ _ P) Em Hc) as Ph.
  destruct Ph as [Ho Hd Hph|s1 Ho Hd1 _ Hph|? Hv Hcu Hph|Hpk ? [Hph|[_ Hph]]]; try discriminate Hph.
  unfold after_statement. cbn [stmt]. pose proof I as [Hv Hout _ HR]. rewrite (Hv Hd) in Hout, HR.
  pose proof (Hout me _ Hc (or_introl Hd)) as (cl' & has & Hcl' & Hh & Hok).
  rewrite Hcl in Hcl'. injection Hcl' as <-. apply (winv_outside w (mkPsys _ _ _ _)); cbn; [done|..].
  - intros i c Hi. apply lookup_delete_Some in Hi as [Hne Hi].
    destruct (Hout i c Hi (or_introl Hd)) as (ci & hi & H1 & H2). exists ci, hi. by rewrite lookup_delete_ne.
  - assert (Hold : forall i a, (i, a) ∈ R -> owner_of a (ps_kern g) = Some i /\
      delete me cs !! i <> Some (CUnlock a)).
    { intros i a Hi. destruct (HR i a Hi) as [H1 H2]. split; [done|]. by intros [_ ?]%lookup_delete_Some. }
    intros i a. unfold enters. destruct (grants cl r) as [b|] eqn:Hg; [|apply Hold].
    intros [[= -> ->]%elem_of_singleton|Hi]%elem_of_union; [|by apply Hold].
    rewrite lookup_delete_eq. split; [|done]. apply (running_has me cl); [apply Ho|apply Hh; by eapply Hok|].
    unfold grants in Hg. destruct (locks cl); cbn in Hg; [|done]. destruct (r.1 =? 0); congruence.
Qed.

(** A call begins. *)
Lemma call_winv w g cs R v me old cl :
  winv_at w g cs R v -> pinv w g -> ps_mode g = PTask me old -> ps_code g !! me = None ->
  creates cl = false -> api_pre (ps_kern g) cl ->
  winv_at w (mkPsys (ps_kern g) (ps_port g) (PTask me old) (<[me := api_prog cl]> (ps_code g)))
    (<[me := cl]> cs) (leaves me cl R) (ps_kern g).
Proof.
  intros I [s0 P] Em Hn Hcr Hpre.
  destruct (pphase_free _ _ _ _ _ (pv_phase _ _ _ P) Em Hn) as (_ & Ho & Hd).
  pose proof I as [Hv Hout _ HR]. rewrite (Hv Hd) in Hout, HR.
  apply (winv_outside w (mkPsys _ _ _ _)); cbn [ps_code ps_kern ps_port]; [done|..].
  - intros i c Hi. destruct (decide (i = me)) as [->|Hne].
    + rewrite lookup_insert_eq in Hi. injection Hi as <-. exists cl, false. rewrite lookup_insert_eq.
      split_and!; [done|done|]. by eapply api_orderly.
    + rewrite lookup_insert_ne in Hi by done. destruct (Hout i c Hi (or_introl Hd)) as (ci & hi & H1 & H2).
      exists ci, hi. by rewrite lookup_insert_ne.
  - intros i a Hi. assert (HiR : (i, a) ∈ R /\ (i = me -> cl <> CUnlock a)).
    { unfold leaves in Hi. destruct cl; try by split. apply elem_of_difference in Hi as [Hi Hs].
      split; [done|]. intros -> [= ->]. by apply Hs, elem_of_singleton. }
    destruct HiR as [HiR Hcl]. destruct (HR i a HiR) as [H1 H2]. split; [done|].
    destruct (decide (i = me)) as [->|Hne]; [|by rewrite lookup_insert_ne].
    rewrite lookup_insert_eq. intros [= E]. by apply Hcl.
Qed.

End winv.

(** ** Every reachable state *)

Section reach.
Context `{C : Config} {Cok : ConfigOk C}.
Implicit Types (g : psys) (cs : gmap Z api) (R : gset (Z * Z)) (w : world).
Hypothesis Hstall : HARDRT_STALL_ON_ERROR = false.

Lemma idle_depth w g : pinv w g -> idle_mode (ps_mode g) = true -> g_crit_depth (ps_port g) = 0.
Proof. intros [s0 I] Hm. by destruct (idle_facts w g s0 I Hm) as (_ & _ & _ & _ & ?). Qed.

(** The signal comes outside of critical sections. *)
Lemma signal_depth w g :
  pinv w g -> armed (ps_port g) = true -> sigalrm_blocked (ps_port g) = false -> signal_fits g ->
  g_crit_depth (ps_port g) = 0 /\ g_crit_depth (ps_port (after_signal g (run_signal g))) = 0.
Proof.
  intros [s0 [Ph _ _ _ _ _]] Har Hb Hfit.
  assert (Hgo : forall held, sched_inv held (ps_kern g) -> awake held (ps_kern g) ->
    g_crit_depth (ps_port (after_signal g (run_signal g))) = g_crit_depth (ps_port g)).
  { intros held Hi Ha. destruct (tick_to Hstall held _ (ps_port g) Hi Ha) as (s' & p' & T).
    unfold run_signal. rewrite (tk_run _ _ _ _ _ T). apply (tk_depth _ _ _ _ _ T). }
  destruct Ph as [Hm Hi Ho Hsh Hd|me old Em Ho Hd Hk|me old s0 c Em Ho Hd Hbl Hc Hk|me old c Em Hd Hv _ Hc Hk
    |me old c Em Hpk Hd Hc Hk].
  - by rewrite (Hgo []) by (done || apply awake_nil).
  - rewrite (Hgo [me]); [done|apply Ho|apply running_awake, Ho].
  - rewrite Hbl in Hb by done. done.
  - unfold signal_fits in Hfit. rewrite Em in Hfit. destruct Hfit as [Hf _]. by destruct (Hf c Hc); eapply window_requeuing.
  - rewrite (Hgo []); [done|apply Hpk|apply awake_nil].
Qed.

Lemma exec_mutexes {A} n (c : prog A) s p :
  keeps_of m_mutexes c -> m_mutexes (final_kern (exec (H := posix_port) n c s p)) = m_mutexes s.
Proof. apply (exec_keeps (PL := posix_port)). Qed.

Lemma other_winv w g g' cs R v :
  winv_at w g cs R v -> pinv w g -> pinv w g' -> pstep g g' -> dom (ps_code g') = dom (ps_code g) ->
  exists v', winv_at w g' cs R v'.
Proof.
  intros I P P' Hs Hdom. pose proof (wv_view _ _ _ _ _ I) as Hv.
  assert (Hgo : g_crit_depth (ps_port g) = 0 -> g_crit_depth (ps_port g') = 0 ->
    m_mutexes (ps_kern g') = m_mutexes (ps_kern g) -> ps_code g' = ps_code g -> exists v', winv_at w g' cs R v').
  { intros H1 H2 H3 H4. eexists. by eapply winv_quiet. }
  pose proof (pinv_up _ _ P') as Hup. pose proof (idle_depth w g P) as Hd. pose proof (idle_depth w g' P') as Hd'.
  destruct Hs as [g fn argp stack n_words attr Em Hpre|g Em|g Em|g b Em
    |g me old c Em Hn Hc Hpre|g me old c Em Hc|g Hdo Har Hb Hfit]; rewrite ?Em in Hd.
  - pose proof (exec_mutexes 0 (hrt_create_task fn argp stack n_words attr) (ps_kern g) (ps_port g)
      (keeps_create _ _ _ _ _)) as H. revert Hup Hd' Hgo. unfold after_pmain.
    destruct (exec 0 _ _ _); try done. cbn in *. auto.
  - pose proof (exec_mutexes 0 hrt_start (ps_kern g) (ps_port g) ltac:(by unfold hrt_start; keep)) as H.
    revert Hup Hd' Hgo. unfold after_plaunch. destruct (exec 0 _ _ _); try done. cbn in *. auto.
  - revert Hup Hd' Hgo. unfold after_poll. destruct (sched_poll _); cbn; auto.
  - destruct P as [s0 P]. destruct (idle_facts w g s0 P) as (-> & Hi & _); [by rewrite Em|].
    pose proof (pick_spec_posix (ps_kern g) (ps_port g) Hi (pv_port _ _ _ P)) as Hp.
    revert Hup Hd' Hgo. unfold after_pick. destruct (sched_pick (ps_kern g) (ps_port g)) as [[r s'] p'].
    destruct r as [| |x old|h]; try done; cbn.
    + destruct Hp as (-> & _). auto.
    + destruct Hp as (pr & _ & -> & _ & _ & _ & ->). intros _ _ H. apply H; auto.
      unfold lpop. by destruct (rget _ _).
  - cbn in Hdom. rewrite dom_insert_L in Hdom. apply not_elem_of_dom in Hn. set_solver.
  - destruct (decide (g_crit_depth (ps_port g) = 0)) as [H0|H0].
    + rewrite (Hv H0) in I. eapply open_winv; [done|done|done|done| |done]. intros r ->.
      unfold after_statement in Hdom. cbn in Hdom. rewrite dom_delete_L in Hdom.
      assert (me ∈ dom (ps_code g)) by (apply elem_of_dom; by eexists). set_solver.
    + by eapply masked_winv.
  - destruct (signal_depth w g P Har Hb Hfit) as [H1 H2]. apply Hgo; [done|done| |].
    + pose proof (exec_mutexes 0 hrt__tick_isr (ps_kern g) (ps_port g) keeps_tick) as H.
      unfold after_signal, run_signal, _tick_sighandler. destruct (exec 0 _ _ _); cbn in *; congruence.
    + unfold after_signal. by destruct (run_signal g).
Qed.

Lemma wstep_winv w x y : winv w x -> wstep x y -> winv w y.
Proof.
  intros [P [v I]] Hs. pose proof (step_pinv Hstall w _ _ P (wstep_pstep _ _ Hs)) as P'. split; [done|].
  destruct Hs as [g cs R me old cl Em Hn Hcr Hpre|g cs R me old cl r Em Hc Hcl|g g' cs R Hs Hdom];
    cbn [w_sys w_calls w_in] in *.
  - eexists. by eapply call_winv.
  - eexists. by eapply return_winv.
  - by eapply other_winv.
Qed.

Lemma reach_winv g0 x : pinitial g0 -> rtc wstep (mkWatched g0 ∅ ∅) x -> winv (shape (ps_kern g0)) x.
Proof.
  intros H0 Hr. assert (Hi : winv (shape (ps_kern g0)) (mkWatched g0 ∅ ∅)).
  { pose proof (initial_pinv g0 H0) as P. split; [done|]. exists (ps_kern g0).
    apply winv_outside; [apply (idle_depth _ _ P); by destruct H0|by destruct H0|set_solver]. }
  revert Hi. generalize (shape (ps_kern g0)). intros w.
  induction Hr as [x|x y z Hxy _ IH]; intros Hi; [done|]. apply IH. by eapply wstep_winv.
Qed.

End reach.

Section props.
Context `{C : Config} {Cok : ConfigOk C}.

(** C5: Mutual exclusion with the signal inside of calls. Along every run of
    the statement-level POSIX system ([pstep]: the tick signal comes between
    any two statements of a call, but not inside the requeue of [hrt_yield],
    and not as a tick that uses up the quantum of a task which is queued
    already and about to hop; only [main] creates tasks): two tasks are never both in the region that a mutex protects, that is,
    between the return of [hrt_mutex_lock] or [hrt_mutex_try_lock] with 0 and
    the next call of [hrt_mutex_unlock] of the same task; and whenever no
    critical section is under way, the owner field of the mutex names the
    task that is in it. (The record of who is in a region follows every step
    of the system.) *)
Theorem regions_exclusive g0 x :
  HARDRT_STALL_ON_ERROR = false -> pinitial g0 -> rtc wstep (mkWatched g0 ∅ ∅) x ->
  (forall i j a, (i, a) ∈ w_in x -> (j, a) ∈ w_in x -> i = j) /\
  (forall i a, (i, a) ∈ w_in x -> g_crit_depth (ps_port (w_sys x)) = 0 ->
     owner_of a (ps_kern (w_sys x)) = Some i) /\
  (forall g, pstep (w_sys x) g -> exists y, wstep x y /\ w_sys y = g).
Proof.
  intros Hst H0 Hr. destruct (reach_winv Hst g0 x H0 Hr) as [_ [v I]]. split_and!.
  - intros i j a Hi Hj. destruct (wv_in _ _ _ _ _ I i a Hi) as [Ho _].
    destruct (wv_in _ _ _ _ _ I j a Hj) as [Ho' _]. congruence.
  - intros i a Hi Hd. destruct (wv_in _ _ _ _ _ I i a Hi) as [Ho _]. by rewrite <- (wv_view _ _ _ _ _ I Hd).
  - intros g Hs. destruct x as [g1 cs R]. destruct (pstep_wstep g1 g cs R) as (cs' & R' & Hw); [|done|by eexists].
    intros i [c Hc]%elem_of_dom. apply elem_of_dom. by eapply winv_calls.
Qed.

End props.

(** ** Two tasks and a mutex *)

Module RegionRun.
Import SignalRun.
#[local] Instance cfg_default : Config := default_config.

(** What happens next: a step of the scheduler, a call of the running task,
    and the statements of its call up to the end of it or to its hop. *)
Inductive wevent := WPoll | WPick | WCall (cl : api) | WStatements (n : nat).

Definition pre_check (s : kern) (cl : api) : bool :=
  match cl with
  | CLock a | CTryLock a | CUnlock a => bool_decide (is_Some (m_mutexes s !! a))
  | CYield => true
  | _ => false
  end.

Lemma pre_check_sound s cl : pre_check s cl = true -> creates cl = false /\ api_pre s cl.
Proof. destruct cl; try done; intros H; (split; [done|]); try exact Logic.I; by apply bool_decide_eq_true in H. Qed.

Definition wstatement (x : watched) : option watched :=
  let '(mkWatched g cs R) := x in
  match ps_mode g with
  | PTask me old =>
      match ps_code g !! me with
      | Some (Ret r) =>
          cl ← cs !! me; Some (mkWatched (after_statement me old g (Ret r)) (delete me cs) (enters me cl r R))
      | Some c => Some (mkWatched (after_statement me old g c) cs R)
      | None => None
      end
  | _ => None
  end.

Fixpoint wstatements (n : nat) (x : watched) : watched :=
  match n with
  | O => x
  | S n' => match wstatement x with Some y => wstatements n' y | None => x end
  end.

Definition wnext (e : wevent) (x : watched) : option watched :=
  let '(mkWatched g cs R) := x in
  match e, ps_mode g with
  | WPoll, PSched => Some (mkWatched (after_poll g) cs R)
  | WPick, PPick => Some (mkWatched (after_pick false g) cs R)
  | WCall cl, PTask me old =>
      if bool_decide (ps_code g !! me = None) && pre_check (ps_kern g) cl then
        Some (mkWatched (mkPsys (ps_kern g) (ps_port g) (PTask me old) (<[me := api_prog cl]> (ps_code g)))
                (<[me := cl]> cs) (leaves me cl R))
      else None
  | WStatements n, PTask _ _ => Some (wstatements n x)
  | _, _ => None
  end.

Fixpoint wrun (es : list wevent) (x : watched) : option watched :=
  match es with [] => Some x | e :: es' => y ← wnext e x; wrun es' y end.

Lemma wstatement_step x y : wstatement x = Some y -> wstep x y.
Proof.
  destruct x as [g cs R]. cbn. destruct (ps_mode g) as [| | | |me old|] eqn:Em; try done.
  destruct (ps_code g !! me) as [c|] eqn:Hc; [|done].
  assert (Hr : (exists r, c = Ret r) \/ forall r, c <> Ret r) by (destruct c; [left; by eexists|by right..]).
  destruct Hr as [[r ->]|Hr].
  - destruct (cs !! me) as [cl|] eqn:Hcl; cbn; [|done]. intros [= <-]. by apply w_return.
  - assert (E : Some y = Some (mkWatched (after_statement me old g c) cs R) -> wstep (mkWatched g cs R) y).
    { intros [= ->]. apply w_other; [by apply pstep_stmt|by apply statement_dom]. }
    destruct c as [r| | | |]; [by destruct (Hr r)|intros H; by apply E..].
Qed.

Lemma wstatements_steps n x : rtc wstep x (wstatements n x).
Proof.
  revert x. induction n as [|n IH]; intros x; cbn; [done|]. destruct (wstatement x) as [y|] eqn:E; [|done].
  eapply rtc_l; [by apply wstatement_step|done].
Qed.

Lemma wnext_steps e x y : wnext e x = Some y -> rtc wstep x y.
Proof.
  destruct x as [g cs R]. destruct e as [| |cl|n]; cbn [wnext]; destruct (ps_mode g) as [| | | |me old|] eqn:Em; try done.
  - intros [= <-]. apply rtc_once, w_other; [by apply pstep_poll|]. unfold after_poll. by destruct (sched_poll _).
  - intros [= <-]. apply rtc_once, w_other; [by apply pstep_pick|].
    unfold after_pick. by destruct (sched_pick _ _) as [[[] ?] ?].
  - destruct (bool_decide _ && _) eqn:E; [|done]. apply andb_true_iff in E as [Hn%bool_decide_eq_true Hp].
    apply pre_check_sound in Hp as [Hc Hp]. intros [= <-]. by apply rtc_once, w_call.
  - intros [= <-]. apply wstatements_steps.
Qed.

Lemma wrun_steps es x y : wrun es x = Some y -> rtc wstep x y.
Proof.
  revert x. induction es as [|e es IH]; intros x; cbn [wrun]; [by intros [= ->]|].
  destruct (wnext e x) as [x1|] eqn:E; cbn; [|done]. intros H. trans x1; [by eapply wnext_steps|by apply IH].
Qed.

(** Task 0 locks the mutex and yields; task 1 asks for it and waits; task 0
    unlocks it, which hands it over and yields; task 1 returns from its lock. *)
Definition contention : list wevent :=
  [WPoll; WPick; WCall (CLock MTX); WStatements 99; WCall CYield; WStatements 99;
   WPoll; WPick; WCall (CLock MTX); WStatements 99;
   WPoll; WPick; WStatements 99; WCall (CUnlock MTX); WStatements 99;
   WPoll; WPick; WStatements 99].

Definition go (es : list wevent) (x : watched) : watched := default x (wrun es x).
Definition ran (es : list wevent) (x : watched) : bool := match wrun es x with Some _ => true | None => false end.

Lemma wgo_steps es x y : y = go es x -> ran es x = true -> rtc wstep x y.
Proof. intros -> H. apply wrun_steps with es. unfold ran, go in *. by destruct (wrun es x). Qed.

Lemma launched_watched : rtc wstep (mkWatched q0 ∅ ∅) (mkWatched q3 ∅ ∅).
Proof.
  assert (Hc : forall fn stack g, ps_mode g = PMain -> bool_decide (free_slot (ps_kern g) <> HRT_IDLE_ID) = true ->
    wstep (mkWatched g ∅ ∅) (mkWatched (created fn stack g) ∅ ∅)).
  { intros fn stack g Hm Hf%bool_decide_eq_true. apply w_other; [apply (pstep_create g); [exact Hm|]|].
    - split; [split; [discriminate|reflexivity]|exact Hf].
    - unfold created, after_pmain. by destruct (pexec 0 _ _ _). }
  trans (mkWatched q1 ∅ ∅); [apply rtc_once; unfold q1; apply (Hc 16 32768 q0); vm_compute; reflexivity|].
  trans (mkWatched q2 ∅ ∅); [apply rtc_once; unfold q2; apply (Hc 32 40960 q1); vm_compute; reflexivity|].
  unfold q3. apply rtc_once, w_other; [apply (pstep_start q2)|]; vm_compute; reflexivity.
Qed.

Abbreviation launched := (mkWatched q3 ∅ ∅).
Definition handed_over : watched := go contention launched.

Lemma handed_over_watched : rtc wstep (mkWatched q0 ∅ ∅) handed_over.
Proof.
  trans launched; [exact launched_watched|]. eapply wgo_steps; [unfold handed_over; reflexivity|vm_compute; reflexivity].
Qed.

(** At the end task 1 is in the region, and nobody else. *)
Lemma regions_exclusive_witness :
  owner_of MTX (ps_kern (w_sys handed_over)) = Some 1 /\ forall j, (j, MTX) ∈ w_in handed_over -> 1 = j.
Proof.
  assert (Hin : (1, MTX) ∈ w_in handed_over).
  { apply (bool_decide_eq_true ((1, MTX) ∈ w_in handed_over)). vm_compute. reflexivity. }
  destruct (regions_exclusive (C := default_config) q0 handed_over eq_refl q0_initial handed_over_watched)
    as (H1 & H2 & _).
  split; [apply H2; [exact Hin|vm_compute; reflexivity]|]. intros j. by apply H1.
Defined.

End RegionRun.
