(* ===== verification/SignalApp.v ===== *)
(** * The POSIX examples with the signal anywhere

    An application of App.v on the system of SignalMachine.v: its tasks run
    their code and the statements of their calls, and the tick signal comes
    between any two of them. Every step of the application is made of steps
    of that system. *)

From stdpp Require Import base tactics numbers list option gmap relations strings.
From S2P Require Import Prelude Types Prog Ring Core Sched Sem Mutex Queue PortPosix Info Cpp.
From S2P Require Import CoreFacts Inv SchedFacts InitFacts InvCheck Running PosixFacts Api ApiSafe.
From S2P Require Import ApiCalls ApiTheorem IsrSafe PickFacts System App AppFacts Stmt StmtSafe SignalSafe.
From S2P Require Import SignalMachine SignalInv Demo Examples ExamplesCpp ExampleProps SignalProps.
Open Scope Z_scope.
Open Scope prog_scope.
Import Posix.

Record ssys (G : Type) := mkS {
  ss_sys : psys;
  ss_code : gmap Z (tstate G);
  ss_glob : G;
  ss_out : list out
}.
Arguments mkS {G} ss_sys ss_code ss_glob ss_out.
Arguments ss_sys {G} _.
Arguments ss_code {G} _.
Arguments ss_glob {G} _.
Arguments ss_out {G} _.

Section machine.
Context `{C : Config}.

(** The scheduler loop and the signal. *)
Inductive around : psys -> psys -> Prop :=
  | around_poll g : ps_mode g = PSched -> around g (after_poll g)
  | around_pick g b : ps_mode g = PPick -> around g (after_pick b g)
  | around_signal g :
      pdown g = false -> armed (ps_port g) = true -> sigalrm_blocked (ps_port g) = false ->
      signal_fits g -> around g (after_signal g (run_signal g)).

(** A task after a statement of its call. *)
Definition task_after {G} (k : api_res -> app G unit) (r : stmt_result (PL := posix_port) api_res) : tstate G :=
  match r with SRet v => Running (k v) | _ => Calling k end.

Inductive sstep (P : program) : ssys (p_glob P) -> ssys (p_glob P) -> Prop :=
  | s_around x g' :
      around (ss_sys x) g' -> sstep P x (mkS g' (ss_code x) (ss_glob x) (ss_out x))
  | s_enter x me old tc :
      ps_mode (ss_sys x) = PTask me old -> ss_code x !! me = None ->
      zget (g_tcbs (ps_kern (ss_sys x))) me = Some tc ->
      sstep P x (mkS (ss_sys x) (<[me := Running (entry_code (p_code P) tc)]> (ss_code x))
                     (ss_glob x) (ss_out x))
  | s_local x me old c c' g' o :
      ps_mode (ss_sys x) = PTask me old -> ss_code x !! me = Some (Running c) ->
      local_step c (ss_glob x) = Some (c', g', o) ->
      sstep P x (mkS (ss_sys x) (<[me := Running c']> (ss_code x)) g' (ss_out x ++ o))
  | s_call x me old c k :
      ps_mode (ss_sys x) = PTask me old -> ss_code x !! me = Some (Running (ACall c k)) ->
      sstep P x (mkS (mkPsys (ps_kern (ss_sys x)) (ps_port (ss_sys x)) (PTask me old)
                        (<[me := c]> (ps_code (ss_sys x))))
                     (<[me := Calling k]> (ss_code x)) (ss_glob x) (ss_out x))
  | s_stmt x me old c k :
      ps_mode (ss_sys x) = PTask me old -> ss_code x !! me = Some (Calling k) ->
      ps_code (ss_sys x) !! me = Some c ->
      sstep P x (mkS (after_statement me old (ss_sys x) c)
                     (<[me := task_after k (stmt (PL := posix_port) c (ps_kern (ss_sys x)) (ps_port (ss_sys x)))]>
                        (ss_code x)) (ss_glob x) (ss_out x)).

(** The state in which [main] starts the scheduler. *)
Definition sboot (P : program) : ssys (p_glob P) :=
  match run_main (H := posix_port) (p_main P) (p_kern P) posix_boot (p_init P) [] with
  | MStarted s p g o => mkS (mkPsys s p PSched ∅) ∅ g o
  | MReturned s p g o => mkS (mkPsys s p PMain ∅) ∅ g o
  | MHalted h s p g o => mkS (mkPsys s p (PDown h) ∅) ∅ g o
  end.

(** ** One schedule

    The signal comes in the scheduler loop when it has nothing to do, and in
    a task before every [n]-th step, where it may. *)

Definition at_port_call (c : option (prog api_res)) : bool :=
  match c with None | Some (Port _ _) => true | _ => false end.

Definition signal_allowed (me : Z) (g : psys) : bool :=
  armed (ps_port g) && negb (sigalrm_blocked (ps_port g)) && at_port_call (ps_code g !! me) &&
  match run_signal g with
  | Done _ s _ =>
      match zget (g_tcbs s) me with
      | Some tc => bool_decide (me ∉ qlist (rq_ring (prio tc)) s)
      | None => true
      end
  | _ => false
  end.

Definition run_step (P : program) (me : Z) (old : bool) (x : ssys (p_glob P)) : ssys (p_glob P) :=
  let g := ss_sys x in
  match ss_code x !! me with
  | None =>
      match zget (g_tcbs (ps_kern g)) me with
      | Some tc => mkS g (<[me := Running (entry_code (p_code P) tc)]> (ss_code x)) (ss_glob x) (ss_out x)
      | None => x
      end
  | Some (Running (ACall c k)) =>
      mkS (mkPsys (ps_kern g) (ps_port g) (PTask me old) (<[me := c]> (ps_code g)))
          (<[me := Calling k]> (ss_code x)) (ss_glob x) (ss_out x)
  | Some (Running c) =>
      match local_step c (ss_glob x) with
      | Some (c', g', o) => mkS g (<[me := Running c']> (ss_code x)) g' (ss_out x ++ o)
      | None => x
      end
  | Some (Calling k) =>
      match ps_code g !! me with
      | Some c =>
          mkS (after_statement me old g c)
              (<[me := task_after k (stmt (PL := posix_port) c (ps_kern g) (ps_port g))]> (ss_code x))
              (ss_glob x) (ss_out x)
      | None => x
      end
  end.

Definition snext (P : program) (tick : bool) (x : ssys (p_glob P)) : ssys (p_glob P) :=
  let g := ss_sys x in
  let on g' := mkS g' (ss_code x) (ss_glob x) (ss_out x) in
  match ps_mode g with
  | PSched =>
      if g_switch_pending (ps_port g) then on (after_poll g)
      else if armed (ps_port g) && negb (sigalrm_blocked (ps_port g)) then on (after_signal g (run_signal g))
      else x
  | PPick => on (after_pick false g)
  | PTask me old =>
      if tick && signal_allowed me g then on (after_signal g (run_signal g)) else run_step P me old x
  | _ => x
  end.

Fixpoint srun (P : program) (n : nat) (k : nat) (x : ssys (p_glob P)) : ssys (p_glob P) :=
  match k with
  | O => x
  | S k' => srun P n k' (snext P (bool_decide (k `mod` n = 0)%nat) x)
  end.

Lemma run_step_steps P me old x : ps_mode (ss_sys x) = PTask me old -> rtc (sstep P) x (run_step P me old x).
Proof.
  intros Em. unfold run_step. destruct (ss_code x !! me) as [[c|k]|] eqn:Ec.
  - destruct c as [a|c k|o k|B f k|L body l]; cbn [local_step]; [done|..].
    + by apply rtc_once, s_call.
    + by eapply rtc_once, s_local.
    + destruct (f (ss_glob x)) as [b g'] eqn:Ef. eapply rtc_once, s_local; [done|done|].
      cbn [local_step]. by rewrite Ef.
    + by eapply rtc_once, s_local.
  - destruct (ps_code (ss_sys x) !! me) as [c|] eqn:Ep; [|done]. by apply rtc_once, s_stmt.
  - destruct (zget _ me) as [tc|] eqn:Et; [|done]. by eapply rtc_once, s_enter.
Qed.

Lemma signal_allowed_fits me old g :
  ps_mode g = PTask me old -> signal_allowed me g = true ->
  armed (ps_port g) = true /\ sigalrm_blocked (ps_port g) = false /\ signal_fits g.
Proof.
  intros Em. unfold signal_allowed, signal_fits. rewrite Em. intros H. btest.
  split_and!; [done|done| |].
  - intros c Hc. rewrite Hc in *. destruct c; try done. apply SignalRun.port_not_requeuing.
  - destruct (run_signal g) as [u s p|k s p|h s p|s p]; try done. intros tc Htc Hin. rewrite Htc in *.
    match goal with H : bool_decide _ = true |- _ => by apply bool_decide_eq_true in H end.
Qed.

Lemma snext_steps P tick x : rtc (sstep P) x (snext P tick x).
Proof.
  unfold snext. destruct (ps_mode (ss_sys x)) as [| | | |me old|h] eqn:Em; try done.
  - destruct (g_switch_pending _); [by apply rtc_once, s_around, around_poll|].
    destruct (_ && _) eqn:H; [|done]. btest. apply rtc_once, s_around, around_signal; try done.
    + unfold pdown. by rewrite Em.
    + unfold signal_fits. by rewrite Em.
  - by apply rtc_once, s_around, around_pick.
  - destruct (tick && signal_allowed me (ss_sys x)) eqn:H; [|by apply run_step_steps]. btest.
    destruct (signal_allowed_fits me old (ss_sys x) Em) as (H1 & H2 & H3); [done|].
    apply rtc_once, s_around, around_signal; try done. unfold pdown. by rewrite Em.
Qed.

Lemma srun_steps P n k x : rtc (sstep P) x (srun P n k x).
Proof.
  revert x. induction k as [|k IH]; intros x; cbn [srun]; [done|]. etrans; [apply snext_steps|apply IH].
Qed.

End machine.

Section facts.
Context `{C : Config} {Cok : ConfigOk C}.
Hypothesis Hstall : HARDRT_STALL_ON_ERROR = false.
Variables (P : program) (s0 : kern).
Hypothesis Hcode : forall fn argp, code_ok s0 (p_code P fn argp).
Implicit Types (x y : ssys (p_glob P)).

Record sinv x : Prop := {
  sv_inv : pinv (shape s0) (ss_sys x);
  sv_calls : in_calls (ps_code (ss_sys x)) (ss_code x);
  sv_tasks : map_Forall (fun _ t => tstate_ok s0 t) (ss_code x)
}.

Lemma around_pstep g g' : around g g' -> pstep g g'.
Proof. intros []; by constructor. Qed.

Lemma running_idle x me c : sinv x -> ss_code x !! me = Some (Running c) -> ps_code (ss_sys x) !! me = None.
Proof.
  intros Hi Ec. destruct (ps_code (ss_sys x) !! me) as [d|] eqn:E; [|done].
  destruct (proj1 (sv_calls _ Hi me)) as [k Hk]; [by eexists|congruence].
Qed.

(** Between calls, a task sees the objects of [main]. *)
Lemma task_shape g me old :
  pinv (shape s0) g -> ps_mode g = PTask me old -> ps_code g !! me = None -> shape (ps_kern g) = shape s0.
Proof.
  intros [s1 [Ph _ _ _ _ _]] Em Hn.
  destruct Ph as [Hm|me' old' Em' Ho|me' old' s1 c' Em' _ _ _ Hc|me' old' c' Em' _ _ Hc|me' old' c' Em' _ _ Hc];
    rewrite Em in *; try done; injection Em' as <- <-; try congruence. apply Ho.
Qed.

(** Every step of the application is made of steps of the system. *)
Lemma sstep_psteps x y : sinv x -> sstep P x y -> rtc pstep (ss_sys x) (ss_sys y).
Proof.
  intros Hi Hs. destruct Hs as [x g' Ha|x me old tc _ _ _|x me old c c' g' o _ _ _|x me old c k Em Ec
    |x me old c k Em Ec Hc]; cbn [ss_sys]; try done.
  - by apply rtc_once, around_pstep.
  - destruct (sv_tasks _ Hi _ _ Ec) as [(a & -> & Hcr & Hpre) _]. pose proof (running_idle _ _ _ Hi Ec) as Hn.
    apply rtc_once, pstep_call; try done.
    eapply pre_shape; [|done|exact Hpre]. eapply task_shape; [apply Hi|done|done].
  - by apply rtc_once, pstep_stmt.
Qed.

Lemma psteps_inv g g' : pinv (shape s0) g -> rtc pstep g g' -> pinv (shape s0) g'.
Proof. intros I Hr. induction Hr as [|g1 g2 g3 H _ IH]; [done|]. apply IH. by eapply step_pinv. Qed.

Lemma around_code g g' : around g g' -> ps_code g' = ps_code g.
Proof.
  intros [g1 _|g1 b _|g1 _ _ _ _].
  - unfold after_poll. by destruct (sched_poll _).
  - unfold after_pick. by destruct (sched_pick _ _) as [[[] ?] ?].
  - unfold after_signal. by destruct (run_signal _).
Qed.

Lemma statement_code me old g c :
  pdown (after_statement me old g c) = false ->
  ps_code (after_statement me old g c) =
  match stmt (PL := posix_port) c (ps_kern g) (ps_port g) with
  | SNext c' _ _ | SHop c' _ _ => <[me := c']> (ps_code g)
  | _ => delete me (ps_code g)
  end.
Proof.
  unfold after_statement. destruct (stmt _ _ _) as [v|h|c' s p|c' s p]; cbn; try done.
  by destruct (sched_return old s p).
Qed.

Lemma sinv_step x y : sinv x -> sstep P x y -> sinv y.
Proof.
  intros Hi Hs. pose proof (sstep_psteps x y Hi Hs) as Hr. pose proof Hi as [I Hc Ht].
  pose proof (psteps_inv _ _ I Hr) as I'. pose proof (pinv_up _ _ I') as Hu. split; [done|..].
  - destruct Hs as [x g' Ha|x me old tc _ Ec _|x me old c c' g' o _ Ec _|x me old c k _ Ec
      |x me old c k _ Ec Em]; cbn [ss_sys ss_code ps_code] in *.
    + by rewrite (around_code _ _ Ha).
    + eapply in_calls_insert; [done|done|]. split; [|by intros []]. intros [k Hk]%Hc. congruence.
    + eapply in_calls_insert; [done|done|]. rewrite (running_idle _ _ _ Hi Ec). by split; intros [].
    + eapply in_calls_insert; [done|intros j Hj; by apply lookup_insert_ne|].
      rewrite lookup_insert_eq. split; [by exists k|by eexists].
    + rewrite (statement_code _ _ _ _ Hu). unfold after_statement, task_after in *.
      destruct (stmt _ _ _) as [v|h|c' s p|c' s p]; [| |..]; try done.
      * eapply in_calls_insert; [done|intros j Hj; by apply lookup_delete_ne|].
        rewrite lookup_delete_eq. by split; intros [].
      * eapply in_calls_insert; [done|intros j Hj; by apply lookup_insert_ne|].
        rewrite lookup_insert_eq. split; [by exists k|by eexists].
      * eapply in_calls_insert; [done|intros j Hj; by apply lookup_insert_ne|].
        rewrite lookup_insert_eq. split; [by exists k|by eexists].
  - destruct Hs as [x g' Ha|x me old tc _ Ec _|x me old c c' g' o _ Ec Hl|x me old c k _ Ec
      |x me old c k _ Ec Em]; cbn [ss_code]; try done; (apply map_Forall_insert_2; [|done]).
    + apply calls_only_entry; [apply Hcode|]. by exists CDelete.
    + eapply calls_only_local; [|exact Hl]. exact (Ht _ _ Ec).
    + destruct (Ht _ _ Ec) as [_ Hk]. exact Hk.
    + pose proof (Ht _ _ Ec) as Hk. unfold task_after. destruct (stmt _ _ _); try done. apply Hk.
Qed.

Lemma sinv_reach x y : sinv x -> rtc (sstep P) x y -> sinv y.
Proof. intros Hi Hr. induction Hr; eauto using sinv_step. Qed.

End facts.

(** ** The examples *)

(** The programs whose tick is the signal: all but the one with a tick
    thread. *)
Definition signal_examples `{Info.BuildInfo} : list program :=
  [TwoTasks.prog; SemBasic.prog; SemCounting.prog; MutexBasic.prog; QueuePosix.prog; TwoTasksCpp.prog;
   SemBasicCpp.prog; SemCountingCpp.prog; MutexBasicCpp.prog; QueuePosixCpp.prog].

Definition sboot_check `{C : Config} {Cok : ConfigOk C} (g : psys) : bool :=
  match ps_mode g with
  | PSched =>
      inv_check [] (ps_kern g) && bool_decide (objects_ok (ps_kern g)) &&
      switch_check (ps_kern g) (ps_port g) && g_switch_pending (ps_port g) &&
      (g_crit_depth (ps_port g) =? 0) && (negb (armed (ps_port g)) || g_sigalrm_set (ps_port g)) &&
      bool_decide (ps_code g = ∅)
  | _ => false
  end.

Lemma sboot_check_sound `{C : Config} {Cok : ConfigOk C} g :
  sboot_check g = true -> pinv (shape (ps_kern g)) g /\ ps_code g = ∅.
Proof.
  unfold sboot_check. destruct (ps_mode g) eqn:Em; try done. intros H. btest.
  repeat match goal with H : bool_decide _ = true |- _ => apply bool_decide_eq_true in H end.
  assert (Ha : armed (ps_port g) = true -> g_sigalrm_set (ps_port g) = true).
  { intros E. match goal with H : negb _ || _ = true |- _ => by rewrite E in H end. }
  split; [|done]. exists (ps_kern g). split.
  - apply pp_idle; try done; [by rewrite Em|by apply inv_check_sound].
  - by apply switch_check_sound.
  - intros me old. by rewrite Em.
  - intros i c _ Hc. match goal with E : ps_code g = ∅ |- _ => by rewrite E, lookup_empty in Hc end.
  - done.
  - done.
Qed.

Section examples.
Context `{B : Info.BuildInfo}.

Lemma examples_sboot P :
  P ∈ signal_examples -> sboot_check (ss_sys (sboot P)) = true /\ ss_code (sboot P) = ∅ /\
    ps_kern (ss_sys (sboot P)) = s_kern (a_sys (boot P)) /\ P ∈ posix_examples.
Proof.
  intros HP. repeat (apply elem_of_cons in HP as [->|HP];
    [split_and!; [vm_compute; reflexivity..|unfold posix_examples; rewrite !elem_of_cons; tauto]|]).
  by apply not_elem_of_nil in HP.
Qed.

(** C29: The POSIX example programs do not crash with the signal anywhere.
    From the state in which [main] starts the scheduler, with the tick signal
    between any two statements of the tasks and of the calls they are in, and
    at the unmasked points of the scheduler loop: the ten example programs
    that are driven by the signal, in C and in C++, never reach undefined
    behaviour, a failed assertion or a stall, and whenever no critical section
    and no requeue is under way, all objects are well formed and every ready
    task is stored exactly once, or runs. The signal does not come into the
    requeue of [hrt_yield], and does not use up the quantum of a task that is
    queued and about to hop. *)
Theorem examples_signal_safe P x :
  P ∈ signal_examples -> rtc (sstep P) (sboot P) x ->
  pdown (ss_sys x) = false /\ (settled (ss_sys x) -> kept_once (ss_sys x)).
Proof.
  intros HP Hr. destruct (examples_sboot P HP) as (Hb & Hc & Ek & HP').
  assert (Hi : sinv P (ps_kern (ss_sys (sboot P))) x).
  { eapply (sinv_reach (C := default_config) eq_refl); [| |exact Hr].
    - intros fn argp. rewrite Ek. by apply examples_code.
    - destruct (sboot_check_sound _ Hb) as [I Ep]. split; rewrite ?Hc, ?Ep; [exact I| |apply map_Forall_empty].
      intros i. rewrite !lookup_empty. by split; intros []. }
  split; [by eapply pinv_up, (sv_inv _ _ _ Hi)|by eapply pinv_kept_once, (sv_inv _ _ _ Hi)].
Qed.

End examples.

(** The queue example, with the signal before every seventh step of a task
    where it may come. *)
Definition noisy_run (k : nat) : ssys unit := srun (QueuePosix.prog (B := demo_info)) 7 k (sboot QueuePosix.prog).

Lemma noisy_listed : QueuePosix.prog (B := demo_info) ∈ signal_examples (H := demo_info).
Proof. unfold signal_examples. rewrite !elem_of_cons. tauto. Qed.

Lemma examples_signal_safe_witness : pdown (ss_sys (noisy_run 1000)) = false.
Proof.
  refine (proj1 (examples_signal_safe (B := demo_info) QueuePosix.prog (noisy_run 1000) noisy_listed _)).
  apply srun_steps.
Defined.
